(* ===== verification/_CoqProject ===== *)
-Q . S2P
Prelude.v
GoNum.v
GoText.v
GoTime.v
Deps.v
Rounds.v
RoundHeap.v
Types.v
MetricTypes.v
State.v
Decentralization.v
Equivocation.v
Asn.v
Timing.v
Analytics.v
Health.v
Builder.v
Schema.v
Store.v
Migrations.v
Topology.v
Utils.v
Calendar.v
Keys.v
Config.v
CometRPC.v
Cosmos.v
Fetcher.v
Websocket.v
WsLife.v
Crawler.v
App.v
Interleave.v
Locks.v
Tables.v
Panels.v
Wrapper.v
EndToEnd.v
Persistence.v
Relational.v
Queries.v
Streaks.v
Efficiency.v
History.v
Debugger.v
Reports.v
ReportFacts.v
Latency.v
Lifecycle.v
Main.v
Startup.v
Http.v
Statements.v
Pool.v
Faults.v
Unseen.v
Content.v
