(* ===== verification/Prelude.v ===== *)
(** * tmtop: a verification development

    tmtop watches the consensus of a CometBFT chain.  It polls one node's RPC,
    listens to the node's websocket, crawls the peers, keeps what it learns in a
    shared state, computes health metrics, optionally persists rounds and votes in
    SQLite, and draws everything in a terminal.  This library models that program
    as executable Rocq definitions and proves what makes its parts correct.

    ** How the parts interact

    [App] (pkg/app.go) runs one handler per concern.  A handler asks the data source
    ([Fetcher], over [CometRPC] and [Cosmos]; pkg/fetcher) and writes the answer to
    the shared [State] (pkg/types/state.go), whose votes are a [Rounds] map
    (pkg/types/round_data.go).  Websocket events go to the state, to the metrics
    accumulators ([Equivocation], [Timing]) and to the store.  [Builder]
    (pkg/metrics/builder.go) turns state and accumulators into a network record and
    one row per validator with the enrichers of [Decentralization], [Health],
    [Timing] and [Analytics].  [Store] (pkg/db) persists through the statements of
    [Schema] on a database that [Migrations] prepares.  [Crawler] (pkg/crawler)
    fills the registry of known nodes that [Topology] (pkg/topology) walks.
    [Websocket] delivers the node's events and survives reconnects.  [Wrapper]
    (pkg/display/wrapper.go) answers keys and turns the state into the grids of
    [Tables] and the texts of [Panels].

    [Main] (cmd/tmtop.go) turns flags, file and environment into the options;
    [Lifecycle] is how [App.Start] spawns the handlers and how [App.Stop], called by
    [Start], by the signal handler or by a panicking goroutine, ends them.  In
    analytics mode the program instead runs one command of [Reports] over
    [Analytics], whose interface to the database [Queries] discharges with the SQL
    the program sends, and [Debugger].  [Persistence] composes the application with
    the SQLite store; [Http] is the client behind [CometRPC] and the topology API.

    ** Files

    - [Prelude]: outcomes of Go code ([res]: value, error text or panic), loops that
      may fail, fixed-width integers as [Z] with wrap-around, sums, durations,
      reachability; hint databases [goint], tactics [go_lia], [case_bool].
    - [GoNum]: [float64] and 53-bit [big.Float] as exact rationals with correct
      rounding, infinities and NaN.  [GoText]: strconv, strings, hex, fmt verbs.
      [GoTime]: ParseFloat, time and duration texts, Seconds.
    - [Deps]: the libraries the program calls, as classes with laws: the
      containers of go-utils ([Butils], [ButilsLaws]), CometBFT's types and
      printers ([Comet], [CometLaws]); instances show the laws can hold.
    - [Rounds], [Types], [State]: pkg/types.  [RoundHeap]: the round map over a heap,
      with the copies it hands out and clients that write to them.
    - [MetricTypes], [Decentralization], [Equivocation], [Timing], [Health],
      [Builder]: pkg/metrics.  [Asn]: pkg/asn.  [Analytics]: pkg/analytics.
    - [Schema], [Store], [Migrations]: pkg/db, pkg/db/sqlc, pkg/db/migrations.
    - [Topology]: pkg/topology.  [Utils]: pkg/utils.  [Calendar]: calendar dates and the
      time stamps printed and parsed over them (pkg/types/net_info.go, SerializeTime).
      [Keys]: peer identifiers, validator addresses and base64 of pkg/utils.
      [Config]: pkg/config.
    - [CometRPC], [Cosmos], [Fetcher], [Websocket], [WsLife] (the control of the
      websocket's goroutines): pkg/fetcher.  [Crawler]:
      pkg/crawler and pkg/refresher.  [App]: pkg/app.go.  [Interleave]: its handlers access
      by access.  [Locks]: the same with every lock taken and given back, and the
      display's event loop as one.
    - [Tables], [Panels], [Wrapper]: pkg/display.  [Content]: the tables behind the
      interface the terminal library draws them by.  [EndToEnd]: from a websocket event to
      the screen.
    - [Persistence]: RefreshConsensus over the SQLite store.  [Pool]: the connections
      behind the store and which of them check foreign keys.  [Faults]: the store and
      the application over a database that may refuse any request.  [Unseen]: two
      applications that differ in their stores only.
    - [Relational]: joins, groups, DISTINCT and window functions over lists of rows;
      [Queries]: the statements of analytics.sql.go and analytics_live.sql.go;
      [Streaks], [Efficiency], [Latency]: what they compute; [History]: the health
      table's columns over them.  [Debugger]:
      debug.sql.go and analytics/debug.go.  [Statements]: the generated methods no
      caller uses, and every write of the data layer as one relation.
    - [Reports], [ReportFacts]: analytics/cli.go and run.go, as the text printed and
      the exit code.
    - [Lifecycle]: Start, Stop, HandlePanic and the signal handler.  [Main]:
      cmd/tmtop.go, the database NewApp opens, pkg/logger.  [Startup]: Execute, NewApp
      and the migrations together.  [Http]: pkg/http and
      pkg/topology/http.go.

    Definitions keep the Go names; a prefix ([comet_], [cosmos_], [df_], [lcd_])
    separates methods of different receivers with one name (also [lr_], [ar_], [nt_]), and lower-case names
    with underscores are fragments of a function (a loop body, one formula).

    ** How Go is modelled

    An operation is a function from the state before to the state after, with [res]
    where the code returns an error or can panic (a nil dereference, a slice out of
    bounds, a nil vote).  A component guarded by a mutex is a record whose
    operations are atomic.  Goroutines are sequences of atomic actions: [App]'s
    runs interleave whole handlers, [Interleave] and [Crawler]'s probes interleave
    their single accesses, [Locks] the steps between which a goroutine can wait: [Lock]
    and [RLock] as Go has them, a waiting writer before new readers.  A panic ends the
    goroutine; [Lifecycle] has what the process does then.  Map iteration is a list whose order the model does not fix: the
    theorems hold for every order, or the order is a parameter.  The clock is an
    argument of what reads it.  Integers wrap where Go's do; floats round as IEEE.

    Loops without a structural measure take fuel.  The crawl's fuel is computed
    ([Topology.crawl_cost]) and proved enough; validator pages and genesis chunks
    take the number of requests as fuel, proved enough for a node that serves its
    data, and [CometRPC.GetValidators_no_progress] shows that no fuel is enough for
    one that does not.  [Lifecycle], [WsLife], [Interleave] and [Locks] have no fuel: their runs are closures of a
    step relation; in [Lifecycle] a wait either ends or is left by its context.

    A query is a function of the tables: rows come in the order of the map's
    enumeration, ORDER BY is a stable sort of them, a GROUP BY keeps the first
    occurrence of each key.  Counts are exact, below 2^63 rows.  SQLite's ROUND,
    AVG, datetime, julianday, LIKE and LOWER are parameters, as are Go's time
    layouts, viper, url.Parse and the encoders.

    ** What the theorems show

    - Consensus data: the last vote of a slot wins over any history, independent
      writers commute in every interleaving, iteration is in (height, round)
      order, a batch of events is the sequence of its votes and its grouping does
      not matter, percentages stay in range.  The map's contents are its own:
      whatever clients write to what they hold, over the heap it answers as the pure
      map does.
    - Metrics: Nakamoto counts are minimal coalitions; the Gini formula is exact
      within its range and overflows outside; equivocations are detected and
      sound; rings, step timings, halt flag, offline power, hosting ranking and
      arrival statistics are exact; [Build] makes one row per validator.
    - Persistence: a stored round loads back, every reachable database respects
      the foreign keys, retention removes exactly what lies below the cutoff, and
      migration 002 can never be applied.  All of it supposes the connection that
      checks foreign keys, which is every connection as long as no two are used at
      once, and not after that.  When the database refuses requests: what each
      operation reports and leaves behind, a cleanup resumes where the failed ones
      stopped, the store keeps its invariants, one refresh after the failures
      makes up for the votes they lost, and nothing of it shows on screen.
    - Composition: after a consensus refresh in any run over SQLite the database
      gives back every round in memory it can hold; the
      history columns of the health table are those of the stored votes; with
      retention on the program starts over a database migrated before, and only then;
      without it it starts with none.
    - Analytics: the missed-block streaks are the maximal runs of missed heights,
      the four signing-efficiency statements agree and count a height once, the
      proposer share is a rounded percentage, the voting power of a round is
      bounded by the total; over a database the program wrote every report over a
      time window is empty, the time series counts vote rows, and arrival latency
      measures the store's own writes; exit codes of every command.
    - Life cycle: the store is closed after its writers unless a wait timed out or
      was overtaken by start-up, quitting shuts everything down, a signal stops
      everything but the process, a panicking goroutine waits for itself; the
      precedence of argument, file, environment and flags.
    - Network: paging, genesis chunks, block time, height/round/step texts, the
      merge of validator lists, the rate limit and the effect of a probe, the
      topology crawl as bounded reachability, well-formed graphs.
    - Websocket: in every interleaving of registrations, writes, reconnects and
      frames each subscription is sent, has had its write fail, or is about to be
      sent under the write lock, and a frame reaches the mailbox it is tagged
      with; a failed write is not repeated before the next reconnect; a stopped client
      ends in a bounded number of its own steps, but not
      while the node keeps silent or does not take what is written to it, and no start
      gets past a node that cannot be dialled.
    - Texts: durations, percentages, sizes and time stamps survive being printed and
      read again, as far as their layout goes; base64 decodes what it encodes.
    - Terminal: the tables have every cell the library may ask for, and no call of it
      panics; in every sequence of keys and updates the screen is the layout of
      the current view, an update puts the whole state in the tables, also
      transposed; the all-rounds table, the bars and the sparkline are exact when one
      state is read, and the table is torn when a round arrives between its reads.
    - End to end: a vote of the current round, and an equivocation, delivered by the
      websocket are on screen after the next refresh and redraw.
    - Application: in every run, over any store that keeps an invariant, the
      invariant, the registry's consistency and the widths of stored keys hold, also
      when single accesses interleave; a refresh persists one version of the votes,
      no schedule of handlers, redraws, keys and requests goes on for ever or
      deadlocks, because the locks are nested in one order, and pausing stops a refresh
      only at its start.

    ** What is not modelled

    Drawing, the parsing of flags, the formatting of log
    records, accepting and draining HTTP connections ([Http] has the states of the
    server), embedded assets and generated mocks.  Of the terminal interface the
    widgets' construction, their colours and the event loop are the library's.  The generated GetConsensusEvent reads by a row id no modelled row
    carries.  Calls into the terminal library are taken to return; in [Locks] a
    goroutine waits for the event loop while another's closure runs on it, and the loop
    itself is taken to be running.  Of the libraries only documented behaviour is
    assumed, as parameters: JSON and protobuf decoders, the SDK's accessors, bech32,
    the time-zone database, shortest paths, the mailbox, the sockets, the terminal
    library's grid and pages.  Of
    SQLite the model has tables, unique and foreign keys and transactions; a stored
    time is the instant; where a statement compares the text of a time bound by the
    driver, which is local, with that of a column, which is UTC, the bound is the local
    wall clock ([Schema.GetMinHeightAfterTime]).  Writers are serialised.  Outside [Faults]
    every request is accepted unless a constraint refuses it; in [Faults] a refused
    request has no effect, a refused statement leaves its transaction open, and a
    refused commit keeps nothing.  Outside [Pool] a statement
    runs on a connection that checks foreign keys.  Hexadecimal floats, [%q] escapes
    and daylight-saving arithmetic are left out of the text functions.  [Panels] and
    [Reports] take the time layouts as parameters; [Calendar] has those of [SerializeTime]
    and [CustomTime].
    Outside [RoundHeap] maps and slices are values; that the network table sorts the peers of
    the shared record in place is not fed back into the state. *)

From stdpp Require Export base tactics relations numbers list strings gmap sorting pretty.
From Stdlib Require Export ZArith Lia Sorting.Permutation.
#[global] Open Scope Z_scope.


(** ** Outcomes of Go code

    A Go function returns a value, returns a non-nil [error], or panics.
    Errors are carried by their text, because the code inspects it. *)

Inductive res (A : Type) : Type :=
  | Ok (a : A)
  | Err (e : string)
  | Panic.
Arguments Ok {_} _.
Arguments Err {_} _.
Arguments Panic {_}.

#[export] Instance res_ret : MRet res := fun A a => Ok a.
#[export] Instance res_bind : MBind res := fun A B f r =>
  match r with Ok a => f a | Err e => Err e | Panic => Panic end.
#[export] Instance res_fmap : FMap res := fun A B f r =>
  match r with Ok a => Ok (f a) | Err e => Err e | Panic => Panic end.

#[export] Instance res_eq_dec {A} `{EqDecision A} : EqDecision (res A).
Proof. solve_decision. Defined.

(** [fmt.Errorf("ctx: %w", err)] *)
Definition wrap_err {A} (ctx : string) (r : res A) : res A :=
  match r with Err e => Err (ctx +:+ ": " +:+ e) | r => r end.

(** A pointer dereference: [nil] panics. *)
Definition deref {A} (p : option A) : res A :=
  match p with Some a => Ok a | None => Panic end.

(** A [for range] loop whose body may return an error or panic. *)
Fixpoint foldM {A S} (f : S -> A -> res S) (s : S) (l : list A) : res S :=
  match l with
  | [] => Ok s
  | x :: l' => f s x ≫= fun s' => foldM f s' l'
  end.

Definition ok_default {A} (a : A) (r : res A) : A := match r with Ok x => x | _ => a end.

Lemma mapM_res_cons {A B} (f : A -> res B) x l :
  mapM f (x :: l) = y ← f x; k ← mapM f l; Ok (y :: k).
Proof. done. Qed.

(** A traversal answers position by position, if every element is answered; and one
    panic, where nothing fails otherwise, is the traversal's. *)
Lemma mapM_res_lookup {A B} (f : A -> res B) l k : mapM f l = Ok k ->
  length k = length l /\ forall i x, l !! i = Some x -> exists y, k !! i = Some y /\ f x = Ok y.
Proof.
  revert k. induction l as [|x l IH]; intros k; [intros [= <-]; by split|]. rewrite mapM_res_cons.
  destruct (f x) as [y| |] eqn:Ef; cbn; [|done..]. destruct (mapM f l) as [k'| |]; [|done..]. intros [= <-].
  destruct (IH k' eq_refl) as [H1 H2]. split; [cbn; by rewrite H1|]. intros [|i] z; [intros [= <-]; by exists y|apply H2].
Qed.

Lemma mapM_res_total {A B} (f : A -> res B) l : (forall x, x ∈ l -> exists y, f x = Ok y) -> exists k, mapM f l = Ok k.
Proof.
  induction l as [|x l IH]; intros H; [by exists []|]. rewrite mapM_res_cons. destruct (H x) as [y ->]; [by left|].
  destruct IH as [k ->]; [intros z Hz; apply H; by right|]. cbn. by eexists.
Qed.

Lemma mapM_res_panic {A B} (f : A -> res B) l :
  (forall x e, f x <> Err e) -> (exists x, x ∈ l /\ f x = Panic) -> mapM f l = Panic.
Proof.
  intros He (x & Hx & Hp). induction Hx as [x l|x y l _ IH]; rewrite mapM_res_cons; [by rewrite Hp|].
  rewrite IH by done. specialize (He y). destruct (f y) as [z|e|]; [done|by destruct (He e)|done].
Qed.

(** One element of a list makes a step; if every element's steps come to an end, so
    do the list's. *)
Definition one_of {A} (R : A -> A -> Prop) (l' l : list A) : Prop :=
  exists i x x', l !! i = Some x /\ R x' x /\ l' = <[i := x']> l.

Lemma one_of_acc {A} (R : A -> A -> Prop) l : Forall (Acc R) l -> Acc (one_of R) l.
Proof.
  induction 1 as [|x l Hx _ IH]; [constructor; by intros l' (i & y & y' & Hi & _)|].
  revert l IH. induction Hx as [x _ IHx]. intros l Hl. induction Hl as [l Hl IHl].
  constructor. intros l' ([|i] & y & y' & Hi & Hy & ->).
  - injection Hi as <-. apply IHx; [done|]. by constructor.
  - change (<[S i := y']> (x :: l)) with (x :: <[i := y']> l). apply IHl. by exists i, y, y'.
Qed.

Lemma mapM_res_Ok {A B} (f : A -> res B) (g : A -> B) l :
  (forall x, x ∈ l -> f x = Ok (g x)) -> mapM f l = Ok (g <$> l).
Proof.
  induction l as [|x l IH]; intros H; [done|]. cbn. rewrite H by set_solver. cbn.
  rewrite IH by set_solver. done.
Qed.

Lemma foldM_app {A S} (f : S -> A -> res S) s l1 l2 :
  foldM f s (l1 ++ l2) = foldM f s l1 ≫= fun s' => foldM f s' l2.
Proof. revert s. induction l1 as [|x l1 IH]; intros s; cbn; [done|]. by destruct (f s x); cbn. Qed.

Lemma foldM_pure {A S} (f : S -> A -> res S) (g : S -> A -> S) s l :
  (forall s x, x ∈ l -> f s x = Ok (g s x)) -> foldM f s l = Ok (foldl g s l).
Proof.
  revert s. induction l as [|x l IH]; intros s H; cbn; [done|].
  rewrite H by set_solver. cbn. apply IH. set_solver.
Qed.

(** ** Go's fixed-width integers, as [Z] with explicit wrap-around *)

Definition swrap (w z : Z) : Z := (z + 2 ^ (w - 1)) mod 2 ^ w - 2 ^ (w - 1).
Definition uwrap (w z : Z) : Z := z mod 2 ^ w.

Abbreviation int64 := (swrap 64).
Abbreviation int32 := (swrap 32).
Abbreviation uint64 := (uwrap 64).
Abbreviation uint32 := (uwrap 32).
Abbreviation uint8 := (uwrap 8).

Definition MaxInt64 : Z := 2 ^ 63 - 1.
Definition MinInt64 : Z := - 2 ^ 63.
Definition MaxInt32 : Z := 2 ^ 31 - 1.
Definition MinInt32 : Z := - 2 ^ 31.

(** The largest total voting power CometBFT accepts for a validator set
    (its documented [MaxTotalVotingPower], one eighth of the largest [int64]). *)
Definition MaxTotalVotingPower : Z := 2 ^ 60 - 1.

Definition is_int64 (z : Z) : Prop := MinInt64 <= z <= MaxInt64.
Definition is_int32 (z : Z) : Prop := MinInt32 <= z <= MaxInt32.

Lemma int64_id z : is_int64 z -> int64 z = z.
Proof. unfold is_int64, MinInt64, MaxInt64, swrap. intros. rewrite Z.mod_small; lia. Qed.

Lemma int32_id z : is_int32 z -> int32 z = z.
Proof. unfold is_int32, MinInt32, MaxInt32, swrap. intros. rewrite Z.mod_small; lia. Qed.

Lemma int64_range z : is_int64 (int64 z).
Proof.
  unfold is_int64, MinInt64, MaxInt64, swrap.
  pose proof (Z.mod_pos_bound (z + 2 ^ (64 - 1)) (2 ^ 64)). lia.
Qed.

Lemma int32_range z : is_int32 (int32 z).
Proof.
  unfold is_int32, MinInt32, MaxInt32, swrap.
  pose proof (Z.mod_pos_bound (z + 2 ^ (32 - 1)) (2 ^ 32)). lia.
Qed.

Lemma uint64_range z : 0 <= uint64 z < 2 ^ 64.
Proof. unfold uwrap. apply Z.mod_pos_bound. lia. Qed.

Lemma uint64_id z : 0 <= z < 2 ^ 64 -> uint64 z = z.
Proof. unfold uwrap. apply Z.mod_small. Qed.

Create HintDb goint.
Create Rewrite HintDb goint.
#[export] Hint Resolve int64_range int32_range uint64_range : goint.
#[export] Hint Rewrite int64_id int32_id uint64_id using (unfold is_int64, is_int32, MinInt64,
  MaxInt64, MinInt32, MaxInt32 in *; lia) : goint.

(** Discharge machine-integer bounds by unfolding them to linear arithmetic. *)
Ltac go_lia :=
  unfold MaxTotalVotingPower, is_int64, is_int32, MinInt64, MaxInt64, MinInt32, MaxInt32 in *; lia.

(** ** Sums of integers *)

Fixpoint sumz (l : list Z) : Z :=
  match l with [] => 0 | x :: l' => x + sumz l' end.

Lemma sumz_cons x l : sumz (x :: l) = x + sumz l.
Proof. done. Qed.

Lemma sumz_app l1 l2 : sumz (l1 ++ l2) = sumz l1 + sumz l2.
Proof. induction l1; cbn; [done|]. rewrite IHl1. lia. Qed.

Lemma sumz_nonneg l : Forall (fun x => 0 <= x) l -> 0 <= sumz l.
Proof. induction 1; cbn; lia. Qed.

#[export] Instance sumz_perm : Proper ((≡ₚ) ==> (=)) sumz.
Proof. intros l1 l2 H. induction H; cbn; lia. Qed.

Lemma sumz_take_le k l : Forall (fun x => 0 <= x) l -> 0 <= sumz (take k l) <= sumz l.
Proof.
  intros Hl. rewrite <-(take_drop k l) at 1 3. rewrite sumz_app.
  pose proof (sumz_nonneg _ (Forall_take _ k _ Hl)).
  pose proof (sumz_nonneg _ (Forall_drop _ k _ Hl)).
  replace (take k (take k l ++ drop k l)) with (take k l) by (by rewrite take_drop). lia.
Qed.

Lemma sumz_elem_le x l : Forall (fun x => 0 <= x) l -> x ∈ l -> x <= sumz l.
Proof.
  induction 1 as [|y l Hy Hl IH]; [by intros ?%not_elem_of_nil|].
  intros [->|Hx]%elem_of_cons; cbn; pose proof (sumz_nonneg l Hl); [lia|]. specialize (IH Hx). lia.
Qed.

(** An [int64] accumulator over a list of non-negative terms whose true sum
    fits never wraps. *)
Lemma foldl_int64_sum (l : list Z) (acc : Z) :
  Forall (fun x => 0 <= x) l -> 0 <= acc -> acc + sumz l <= MaxInt64 ->
  foldl (fun a x => int64 (a + x)) acc l = acc + sumz l.
Proof.
  revert acc. induction l as [|x l IH]; intros acc Hl Hacc Hmax; cbn in *; [lia|].
  inversion Hl as [|? ? Hx Hl']; subst. pose proof (sumz_nonneg l Hl').
  rewrite int64_id by go_lia. rewrite IH; [lia|done|lia|lia].
Qed.

Create HintDb golist.
Create Rewrite HintDb golist.
#[export] Hint Rewrite @sumz_cons @sumz_app : golist.
#[export] Hint Resolve sumz_nonneg : golist.

(** Case analysis on the boolean tests Go conditions compile to. *)
Ltac case_bool :=
  repeat match goal with
  | H : (_ && _)%bool = true |- _ => apply andb_true_iff in H as [? ?]
  | H : (_ || _)%bool = false |- _ => apply orb_false_iff in H as [? ?]
  | H : negb _ = true |- _ => apply negb_true_iff in H
  | H : negb _ = false |- _ => apply negb_false_iff in H
  | H : (_ <? _)%Z = true |- _ => apply Z.ltb_lt in H
  | H : (_ <? _)%Z = false |- _ => apply Z.ltb_ge in H
  | H : (_ <=? _)%Z = true |- _ => apply Z.leb_le in H
  | H : (_ <=? _)%Z = false |- _ => apply Z.leb_gt in H
  | H : (_ =? _)%Z = true |- _ => apply Z.eqb_eq in H
  | H : (_ =? _)%Z = false |- _ => apply Z.eqb_neq in H
  | H : bool_decide _ = true |- _ => apply bool_decide_eq_true in H
  | H : bool_decide _ = false |- _ => apply bool_decide_eq_false in H
  end.

(** ** [time] *)

(** A [time.Time] is the number of nanoseconds since Go's zero time; a
    [time.Duration] is an [int64] number of nanoseconds. *)
Definition time_IsZero (t : Z) : bool := t =? 0.

(** [t.Sub(u)] saturates. *)
Definition time_Sub (t u : Z) : Z := Z.max MinInt64 (Z.min MaxInt64 (t - u)).
Definition time_Add (t d : Z) : Z := t + d.

Definition Millisecond : Z := 1000000.
Definition Second : Z := 1000000000.
Definition Hour : Z := 3600 * Second.

(** Go's integer division truncates toward zero. *)
Definition go_div (a b : Z) : Z := Z.quot a b.
Definition go_rem (a b : Z) : Z := Z.rem a b.

Lemma time_Sub_range t u : is_int64 (time_Sub t u).
Proof. unfold time_Sub. go_lia. Qed.
#[export] Hint Resolve time_Sub_range : goint.

(** ** Reachability *)

Lemma rtc_invariant {A} (R : relation A) (P : A -> Prop) x y :
  (forall a b, P a -> R a b -> P b) -> P x -> rtc R x y -> P y.
Proof. intros Hstep Hx Hr. induction Hr; eauto. Qed.
