(* ===== verification/GoNum.v ===== *)
(** * Go's floating-point numbers

    [float64] and [big.Float] values are exact rationals ([Q]) together with the
    infinities and NaN; every operation computes the exact result and rounds it
    to 53 bits, ties to even.  [float64] also has IEEE's exponent range
    (subnormals below [2^-1022], overflow to infinity at [2^1024]); a [big.Float]
    built by [big.NewFloat] has precision 53 and an exponent range that the
    program cannot leave.  The sign of zero is not represented. *)

From S2P Require Import Prelude.
From Stdlib Require Export QArith Qround Qpower Qabs.
From Stdlib Require Import Lqa.

Local Open Scope Q_scope.

Create HintDb goq.
Create Rewrite HintDb goq.

(** ** Powers of two and the binary exponent of a rational *)

Definition two_pow (e : Z) : Q := (2 # 1) ^ e.

Lemma two_pow_pos e : 0 < two_pow e.
Proof. unfold two_pow. apply Qpower_0_lt. reflexivity. Qed.

Lemma two_pow_plus a b : two_pow (a + b) == two_pow a * two_pow b.
Proof. unfold two_pow. apply Qpower_plus. intros H; discriminate H. Qed.

Lemma two_pow_split a b : two_pow a == two_pow (a - b) * two_pow b.
Proof. rewrite <-two_pow_plus. by replace (a - b + b)%Z with a by lia. Qed.

Lemma two_pow_0 : two_pow 0 == 1.
Proof. reflexivity. Qed.

Lemma two_pow_opp a : two_pow a * two_pow (- a) == 1.
Proof. rewrite <-two_pow_plus, Z.add_opp_diag_r. reflexivity. Qed.

Lemma two_pow_nonneg e : (0 <= e)%Z -> two_pow e == inject_Z (2 ^ e).
Proof. intros He. unfold two_pow. symmetry. rewrite Zpower_Qpower by done. reflexivity. Qed.

Lemma two_pow_le a b : (a <= b)%Z -> two_pow a <= two_pow b.
Proof.
  intros H. replace b with (a + (b - a))%Z by lia. rewrite two_pow_plus.
  rewrite (two_pow_nonneg (b - a)) by lia. pose proof (two_pow_pos a).
  assert (1 <= inject_Z (2 ^ (b - a))).
  { change 1 with (inject_Z 1). rewrite <-Zle_Qle. pose proof (Z.pow_pos_nonneg 2 (b - a)). lia. }
  nra.
Qed.

#[export] Hint Resolve two_pow_pos two_pow_le : goq.

Definition qlog2 (q : Q) : Z :=
  let e0 := (Z.log2 (Qnum q) - Z.log2 (QDen q))%Z in
  if Qle_bool (two_pow e0) q then e0 else (e0 - 1)%Z.

Lemma Qnum_den q : q * inject_Z (QDen q) == inject_Z (Qnum q).
Proof. unfold Qeq, Qmult, inject_Z; cbn. destruct q; cbn. lia. Qed.

Lemma Qmult_lt_cancel x y z : 0 < z -> x * z < y * z -> x < y.
Proof. intros Hz H. by apply Qmult_lt_r in H. Qed.

Lemma qlog2_spec q : 0 < q -> two_pow (qlog2 q) <= q /\ q < two_pow (qlog2 q + 1).
Proof.
  intros Hq. set (n := Qnum q). set (d := QDen q).
  assert (Hn : (0 < n)%Z) by (unfold n; unfold Qlt in Hq; cbn in Hq; lia).
  assert (Hd : (0 < d)%Z) by (unfold d; lia).
  pose proof (Z.log2_spec n Hn) as [Hn1 Hn2]. pose proof (Z.log2_spec d Hd) as [Hd1 Hd2].
  pose proof (Z.log2_nonneg n). pose proof (Z.log2_nonneg d).
  pose proof (Qnum_den q) as Hnd. fold n d in Hnd.
  set (ln := Z.log2 n) in *. set (ld := Z.log2 d) in *.
  assert (Hlo : inject_Z (2 ^ ln) <= inject_Z n) by (rewrite <-Zle_Qle; lia).
  assert (Hhi : inject_Z n < inject_Z (2 ^ Z.succ ln)) by (rewrite <-Zlt_Qlt; lia).
  assert (Hdlo : inject_Z (2 ^ ld) <= inject_Z d) by (rewrite <-Zle_Qle; lia).
  assert (Hdhi : inject_Z d < inject_Z (2 ^ Z.succ ld)) by (rewrite <-Zlt_Qlt; lia).
  rewrite <-two_pow_nonneg in Hlo, Hhi, Hdlo, Hdhi by lia.
  pose proof (two_pow_pos ld).
  assert (Hup : q < two_pow (ln - ld + 1)).
  { apply (Qmult_lt_cancel _ _ (two_pow ld)); [done|]. rewrite <-two_pow_plus.
    replace (ln - ld + 1 + ld)%Z with (Z.succ ln) by lia. nra. }
  assert (Hdn : two_pow (ln - ld - 1) < q).
  { apply (Qmult_lt_cancel _ _ (two_pow (Z.succ ld))); [apply two_pow_pos|].
    rewrite <-two_pow_plus. replace (ln - ld - 1 + Z.succ ld)%Z with ln by lia. nra. }
  unfold qlog2. fold n d ln ld. destruct (Qle_bool _ q) eqn:E.
  - apply Qle_bool_iff in E. done.
  - assert (~ two_pow (ln - ld) <= q) by (rewrite <-Qle_bool_iff; congruence).
    split; [apply Qlt_le_weak, Hdn|]. replace (ln - ld - 1 + 1)%Z with (ln - ld)%Z by lia.
    by apply Qnot_le_lt.
Qed.

Lemma two_pow_lt_inv a b : two_pow a < two_pow b -> (a < b)%Z.
Proof.
  intros H. destruct (Z.lt_ge_cases a b) as [?|Hge]; [done|].
  apply two_pow_le in Hge. exfalso. lra.
Qed.

Lemma qlog2_le x y : 0 < x -> x <= y -> (qlog2 x <= qlog2 y)%Z.
Proof.
  intros Hx Hxy. assert (Hy : 0 < y) by lra.
  pose proof (qlog2_spec x Hx). pose proof (qlog2_spec y Hy).
  assert (qlog2 x < qlog2 y + 1)%Z by (apply two_pow_lt_inv; lra). lia.
Qed.

Lemma qlog2_unique x e : two_pow e <= x -> x < two_pow (e + 1) -> qlog2 x = e.
Proof.
  intros H1 H2. pose proof (two_pow_pos e). pose proof (qlog2_spec x ltac:(lra)).
  assert (qlog2 x < e + 1)%Z by (apply two_pow_lt_inv; lra).
  assert (e < qlog2 x + 1)%Z by (apply two_pow_lt_inv; lra). lia.
Qed.

(** ** Rounding to nearest, ties to even *)

Definition rne (q : Q) : Z :=
  let f := Qfloor q in
  match Qcompare (q - inject_Z f) (1 # 2) with
  | Lt => f
  | Gt => (f + 1)%Z
  | Eq => if Z.even f then f else (f + 1)%Z
  end.

Lemma rne_bounds q : (Qfloor q <= rne q <= Qfloor q + 1)%Z.
Proof. unfold rne. destruct (Qcompare _ _); [destruct (Z.even _)|..]; lia. Qed.

Lemma rne_le x y : x <= y -> (rne x <= rne y)%Z.
Proof.
  intros H. pose proof (Qfloor_resp_le _ _ H) as Hf.
  pose proof (rne_bounds x). pose proof (rne_bounds y).
  destruct (Z.eq_dec (Qfloor x) (Qfloor y)) as [E|]; [|lia].
  unfold rne. rewrite <-E.
  destruct (Qcompare_spec (x - inject_Z (Qfloor x)) (1 # 2));
    destruct (Qcompare_spec (y - inject_Z (Qfloor x)) (1 # 2));
    try destruct (Z.even _); try lia; exfalso; lra.
Qed.

#[export] Instance rne_proper : Proper (Qeq ==> eq) rne.
Proof.
  intros x y H. apply Z.le_antisymm; apply rne_le; rewrite H; apply Qle_refl.
Qed.

Lemma rne_Z z : rne (inject_Z z) = z.
Proof.
  unfold rne. rewrite Qfloor_Z.
  destruct (Qcompare_spec (inject_Z z - inject_Z z) (1 # 2)); [exfalso; lra|done|exfalso; lra].
Qed.

(** The exponent of the last place: 53 significant bits, not below [emin]. *)
Definition ulp_exp (emin : option Z) (e : Z) : Z :=
  match emin with None => e - 52 | Some m => Z.max (e - 52) m end.

Definition rnd_pos (emin : option Z) (q : Q) : Q :=
  let u := ulp_exp emin (qlog2 q) in
  Qred (inject_Z (rne (q * two_pow (- u))) * two_pow u).

Definition rnd (emin : option Z) (q : Q) : Q :=
  match Qcompare q 0 with
  | Eq => 0
  | Gt => rnd_pos emin q
  | Lt => - rnd_pos emin (- q)
  end.

Lemma ulp_exp_le emin a b : (a <= b)%Z -> (ulp_exp emin a <= ulp_exp emin b)%Z.
Proof. destruct emin; cbn; lia. Qed.

Lemma rnd_pos_nonneg emin q : 0 < q -> 0 <= rnd_pos emin q.
Proof.
  intros Hq. unfold rnd_pos. rewrite Qred_correct.
  set (u := ulp_exp _ _). pose proof (two_pow_pos u). pose proof (two_pow_pos (- u)).
  assert (0 <= inject_Z (rne (q * two_pow (- u)))).
  { change 0 with (inject_Z 0). rewrite <-Zle_Qle. rewrite <-(rne_Z 0). apply rne_le.
    change (inject_Z 0) with 0. nra. }
  nra.
Qed.

(** A number on the grid of its own exponent rounds to itself. *)
Lemma rnd_pos_grid emin q k :
  q * two_pow (- ulp_exp emin (qlog2 q)) == inject_Z k -> rnd_pos emin q == q.
Proof.
  intros H. unfold rnd_pos. rewrite Qred_correct. rewrite H, rne_Z, <-H.
  rewrite <-Qmult_assoc. setoid_rewrite Qmult_comm at 2. rewrite two_pow_opp. ring.
Qed.

Lemma rnd_pos_le emin x y : 0 < x -> x <= y -> rnd_pos emin x <= rnd_pos emin y.
Proof.
  intros Hx Hxy. pose proof (qlog2_le x y Hx Hxy) as Hlog.
  pose proof (ulp_exp_le emin _ _ Hlog) as Hu.
  unfold rnd_pos. rewrite !Qred_correct.
  set (ux := ulp_exp emin (qlog2 x)) in *. set (uy := ulp_exp emin (qlog2 y)) in *.
  destruct (Z.eq_dec ux uy) as [<-|Hne].
  { pose proof (two_pow_pos ux). pose proof (two_pow_pos (- ux)).
    assert (rne (x * two_pow (- ux)) <= rne (y * two_pow (- ux)))%Z as Hr by (apply rne_le; nra).
    rewrite Zle_Qle in Hr. nra. }
  set (ey := qlog2 y) in *.
  assert (Hexy : (qlog2 x < ey)%Z).
  { destruct (Z.eq_dec (qlog2 x) ey) as [E|]; [|lia]. unfold ux, uy in Hne. rewrite E in Hne. lia. }
  assert (Huy : (uy <= ey)%Z) by (unfold uy, ulp_exp, ux, ulp_exp in *; destruct emin; lia).
  pose proof (qlog2_spec y ltac:(lra)) as [Hy _]. fold ey in Hy.
  pose proof (qlog2_spec x Hx) as [_ Hx2].
  assert (Hxe : x <= two_pow ey).
  { apply Qlt_le_weak. eapply Qlt_le_trans; [exact Hx2|]. apply two_pow_le. lia. }
  apply (Qle_trans _ (two_pow ey)).
  - assert (Hr : (rne (x * two_pow (- ux)) <= 2 ^ (ey - ux))%Z).
    { rewrite <-(rne_Z (2 ^ (ey - ux))). apply rne_le. rewrite <-two_pow_nonneg by lia.
      unfold Z.sub. rewrite two_pow_plus. pose proof (two_pow_pos (- ux)). nra. }
    rewrite Zle_Qle, <-two_pow_nonneg in Hr by lia. pose proof (two_pow_pos ux).
    pose proof (two_pow_split ey ux). nra.
  - assert (Hr : (2 ^ (ey - uy) <= rne (y * two_pow (- uy)))%Z).
    { rewrite <-(rne_Z (2 ^ (ey - uy))). apply rne_le. rewrite <-two_pow_nonneg by lia.
      unfold Z.sub. rewrite two_pow_plus. pose proof (two_pow_pos (- uy)). nra. }
    rewrite Zle_Qle, <-two_pow_nonneg in Hr by lia. pose proof (two_pow_pos uy).
    pose proof (two_pow_split ey uy). nra.
Qed.

Lemma rnd_nonneg emin q : 0 <= q -> 0 <= rnd emin q.
Proof.
  intros Hq. unfold rnd. destruct (Qcompare_spec q 0); [apply Qle_refl|exfalso; lra|].
  by apply rnd_pos_nonneg.
Qed.

Lemma rnd_le emin x y : 0 <= x -> x <= y -> rnd emin x <= rnd emin y.
Proof.
  intros Hx Hxy. unfold rnd at 1. destruct (Qcompare_spec x 0); [by apply rnd_nonneg; lra|exfalso; lra|].
  unfold rnd. destruct (Qcompare_spec y 0); [exfalso; lra..|]. by apply rnd_pos_le.
Qed.

(** Integers of at most 53 bits are exact, whenever the grid reaches [2^0]. *)
Lemma rnd_Z emin z :
  match emin with Some m => (m <= 0)%Z | None => True end ->
  (0 <= z <= 2 ^ 53)%Z -> rnd emin (inject_Z z) == inject_Z z.
Proof.
  intros Hm [Hz0 Hz]. unfold rnd. destruct (Qcompare_spec (inject_Z z) 0) as [E|E|E].
  - by rewrite E.
  - exfalso. change 0 with (inject_Z 0) in E. rewrite <-Zlt_Qlt in E. lia.
  - change 0 with (inject_Z 0) in E. rewrite <-Zlt_Qlt in E.
    assert (He : qlog2 (inject_Z z) = Z.log2 z).
    { pose proof (Z.log2_spec z E) as [H1 H2]. pose proof (Z.log2_nonneg z).
      apply qlog2_unique; rewrite two_pow_nonneg by lia;
        rewrite <-?Zle_Qle, <-?Zlt_Qlt; unfold Z.succ in *; lia. }
    set (u := ulp_exp emin (Z.log2 z)).
    assert (Hu : (u <= 0)%Z \/ (u = 1 /\ z = 2 ^ 53)%Z).
    { pose proof (Z.log2_le_mono z (2 ^ 53) Hz) as Hl. rewrite Z.log2_pow2 in Hl by lia.
      destruct (Z.eq_dec (Z.log2 z) 53) as [E53|].
      - right. pose proof (Z.log2_spec z E) as [H1 _]. rewrite E53 in H1.
        unfold u, ulp_exp. rewrite E53. destruct emin; lia.
      - left. unfold u, ulp_exp. destruct emin; lia. }
    destruct Hu as [Hu|[Hu ->]].
    + apply (rnd_pos_grid emin _ (z * 2 ^ (- u))). rewrite He. fold u.
      rewrite two_pow_nonneg by lia. by rewrite inject_Z_mult.
    + apply (rnd_pos_grid emin _ (2 ^ 52)). rewrite He. fold u. rewrite Hu. reflexivity.
Qed.

(** ** The two number types *)

Inductive gofloat : Type :=
  | Fin (q : Q)
  | Inf (neg : bool)
  | NaN.

Definition is_fin (x : gofloat) : bool := match x with Fin _ => true | _ => false end.

(** The rational value; only meaningful on finite numbers. *)
Definition fval (x : gofloat) : Q := match x with Fin q => q | _ => 0 end.

Definition Qneg (q : Q) : bool := negb (Qle_bool 0 q).

(** [float64]: grid down to [2^-1074], overflow at [2^1024]. *)
Definition f64_round (q : Q) : gofloat :=
  let r := rnd (Some (-1074)%Z) q in
  if Qle_bool (two_pow 1024) (Qabs r) then Inf (Qneg r) else Fin r.

(** [big.Float] of precision 53. *)
Definition big_round (q : Q) : gofloat := Fin (rnd None q).

Section Arith.
Variable round : Q -> gofloat.

Definition f_add (x y : gofloat) : gofloat :=
  match x, y with
  | Fin a, Fin b => round (a + b)
  | NaN, _ | _, NaN => NaN
  | Inf s, Inf t => if Bool.eqb s t then Inf s else NaN
  | Inf s, _ | _, Inf s => Inf s
  end.

Definition f_neg (x : gofloat) : gofloat :=
  match x with Fin a => Fin (- a) | Inf s => Inf (negb s) | NaN => NaN end.

Definition f_sub (x y : gofloat) : gofloat := f_add x (f_neg y).

Definition f_mul (x y : gofloat) : gofloat :=
  match x, y with
  | Fin a, Fin b => round (a * b)
  | NaN, _ | _, NaN => NaN
  | Inf s, Inf t => Inf (xorb s t)
  | Inf s, Fin a | Fin a, Inf s => if Qeq_bool a 0 then NaN else Inf (xorb s (Qneg a))
  end.

Definition f_div (x y : gofloat) : gofloat :=
  match x, y with
  | Fin a, Fin b =>
      if Qeq_bool b 0 then (if Qeq_bool a 0 then NaN else Inf (Qneg a)) else round (a / b)
  | NaN, _ | _, NaN => NaN
  | Inf _, Inf _ => NaN
  | Inf s, Fin b => Inf (xorb s (Qneg b))
  | Fin _, Inf _ => Fin 0
  end.
End Arith.

Abbreviation f64_add := (f_add f64_round).
Abbreviation f64_sub := (f_sub f64_round).
Abbreviation f64_mul := (f_mul f64_round).
Abbreviation f64_div := (f_div f64_round).

(** [float64(z)] for an integer. *)
Definition f64_of_Z (z : Z) : gofloat := f64_round (inject_Z z).
Definition f64_zero : gofloat := Fin 0.

(** Comparisons: false as soon as one side is NaN. *)
Definition f_lt (x y : gofloat) : bool :=
  match x, y with
  | Fin a, Fin b => negb (Qle_bool b a)
  | NaN, _ | _, NaN => false
  | Inf s, Inf t => s && negb t
  | Inf s, Fin _ => s
  | Fin _, Inf t => negb t
  end.
Definition f_eq (x y : gofloat) : bool :=
  match x, y with
  | Fin a, Fin b => Qeq_bool a b
  | Inf s, Inf t => Bool.eqb s t
  | _, _ => false
  end.

(** Conversion to an integer truncates toward zero; outside the target type,
    and on NaN and infinities, the language leaves the result to the
    implementation ([None]). *)
Definition Qtrunc (q : Q) : Z := if Qle_bool 0 q then Qfloor q else Qceiling q.
Definition f_to_int64 (x : gofloat) : option Z :=
  match x with
  | Fin q => let t := Qtrunc q in
             if (MinInt64 <=? t) && (t <=? MaxInt64) then Some t else None
  | _ => None
  end%Z.

(** [math.Sqrt], correctly rounded: sixty bits of the root and a sticky bit. *)
Definition f64_sqrt (x : gofloat) : gofloat :=
  match x with
  | NaN => NaN
  | Inf s => if s then NaN else Inf false
  | Fin q =>
      if Qneg q then NaN else if Qeq_bool q 0 then Fin 0 else
      let t := (60 - Z.div (qlog2 q) 2)%Z in
      let scaled := q * two_pow (2 * t) in
      let r := Z.sqrt (Qfloor scaled) in
      let sticky := if Qeq_bool (inject_Z (r * r)) scaled then 0 else 1 # 2 in
      f64_round ((inject_Z r + sticky) * two_pow (- t))
  end.

Lemma f64_round_small q :
  0 <= q -> q < two_pow 1023 -> f64_round q = Fin (rnd (Some (-1074)%Z) q).
Proof.
  intros Hq Hs. unfold f64_round. destruct (Qle_bool _ _) eqn:E; [|done].
  exfalso. apply Qle_bool_iff in E.
  pose proof (rnd_nonneg (Some (-1074)%Z) q Hq).
  rewrite Qabs_pos in E by done.
  pose proof (rnd_le (Some (-1074)%Z) q (two_pow 1023) Hq (Qlt_le_weak _ _ Hs)) as Hr.
  assert (Hg : rnd (Some (-1074)%Z) (two_pow 1023) <= two_pow 1023)
    by (apply Qle_bool_iff; vm_compute; reflexivity).
  assert (Hc : two_pow 1023 < two_pow 1024)
    by (apply Qnot_le_lt; rewrite <-Qle_bool_iff; vm_compute; discriminate).
  lra.
Qed.

(** A [float64] of an [int64] is a finite non-negative number when the integer is. *)
Lemma f64_of_Z_nonneg z :
  (0 <= z <= MaxInt64)%Z -> exists q, f64_of_Z z = Fin q /\ 0 <= q /\ q <= two_pow 63.
Proof.
  intros Hz. unfold f64_of_Z.
  assert (H0 : 0 <= inject_Z z) by (change 0 with (inject_Z 0); rewrite <-Zle_Qle; lia).
  assert (H1 : inject_Z z <= two_pow 63).
  { rewrite two_pow_nonneg by lia. rewrite <-Zle_Qle. unfold MaxInt64 in Hz. lia. }
  assert (Hlt : inject_Z z < two_pow 1023).
  { eapply Qle_lt_trans; [exact H1|]. apply Qnot_le_lt. rewrite <-Qle_bool_iff. vm_compute. discriminate. }
  exists (rnd (Some (-1074)%Z) (inject_Z z)). split; [by apply f64_round_small|].
  split; [by apply rnd_nonneg|].
  eapply Qle_trans; [by apply rnd_le; [|exact H1]|]. apply Qle_bool_iff. vm_compute. reflexivity.
Qed.

(** A quotient of two integers with [0 <= a <= b], [b] positive, rounds into [0, 1],
    and multiplying by 100 keeps it in [0, 100]. *)
Lemma rnd_ratio_le_1 emin a b :
  match emin with Some m => (m <= 0)%Z | None => True end ->
  0 <= a -> a <= b -> 0 < b -> 0 <= rnd emin (a / b) /\ rnd emin (a / b) <= 1.
Proof.
  intros Hm Ha Hab Hb.
  assert (Hq0 : 0 <= a / b) by (apply Qle_shift_div_l; lra).
  assert (Hq1 : a / b <= 1) by (apply Qle_shift_div_r; lra).
  split; [by apply rnd_nonneg|].
  change 1 with (inject_Z 1) in *. rewrite <-(rnd_Z emin 1) by (done || lia). by apply rnd_le.
Qed.

Lemma rnd_percent emin x :
  match emin with Some m => (m <= 0)%Z | None => True end ->
  0 <= x -> x <= 1 -> 0 <= rnd emin (x * 100) /\ rnd emin (x * 100) <= 100.
Proof.
  intros Hm H0 H1. split; [apply rnd_nonneg; lra|].
  change 100 with (inject_Z 100) in *. rewrite <-(rnd_Z emin 100) at 2 by (done || lia).
  apply rnd_le; change (inject_Z 100) with 100; lra.
Qed.

#[export] Hint Resolve rnd_nonneg rnd_le : goq.

(** ** Exact integers in [float64] *)

(** [x] is the integer [z], exactly. *)
Definition f_is (x : gofloat) (z : Z) : Prop := exists q, x = Fin q /\ q == inject_Z z.

Lemma rnd_eq emin x y : 0 <= x -> x == y -> rnd emin x == rnd emin y.
Proof. intros Hx E. apply Qle_antisym; apply rnd_le; rewrite <-?E; try done; apply Qle_refl. Qed.

Lemma two_pow_lt_check a b : Qle_bool (two_pow b) (two_pow a) = false -> two_pow a < two_pow b.
Proof. intros H. apply Qnot_le_lt. rewrite <-Qle_bool_iff, H. done. Qed.

Lemma inject_nonneg z : (0 <= z)%Z -> 0 <= inject_Z z.
Proof. intros. change 0 with (inject_Z 0). by rewrite <-Zle_Qle. Qed.

Lemma f64_round_Z q z : q == inject_Z z -> (0 <= z <= 2 ^ 53)%Z -> f_is (f64_round q) z.
Proof.
  intros E Hz. pose proof (inject_nonneg z ltac:(lia)).
  assert (H0 : 0 <= q) by by rewrite E.
  eexists. split; [apply f64_round_small; [done|]|].
  - apply (Qle_lt_trans _ (two_pow 53)); [|by apply two_pow_lt_check; vm_compute].
    rewrite E, two_pow_nonneg by lia. rewrite <-Zle_Qle. lia.
  - rewrite (rnd_eq _ _ _ H0 E). by apply rnd_Z.
Qed.

Lemma f64_of_Z_exact z : (0 <= z <= 2 ^ 53)%Z -> f_is (f64_of_Z z) z.
Proof. by apply f64_round_Z. Qed.

Lemma f64_zero_exact : f_is f64_zero 0.
Proof. by exists 0. Qed.

Lemma f_is_add x y a b : f_is x a -> f_is y b -> (0 <= a + b <= 2 ^ 53)%Z -> f_is (f64_add x y) (a + b).
Proof.
  intros (p & -> & Hp) (q & -> & Hq) Hab. apply f64_round_Z; [|done]. by rewrite Hp, Hq, inject_Z_plus.
Qed.

Lemma f_is_mul x y a b : f_is x a -> f_is y b -> (0 <= a * b <= 2 ^ 53)%Z -> f_is (f64_mul x y) (a * b).
Proof.
  intros (p & -> & Hp) (q & -> & Hq) Hab. apply f64_round_Z; [|done]. by rewrite Hp, Hq, inject_Z_mult.
Qed.

Lemma f_is_lt x y a b : f_is x a -> f_is y b -> f_lt x y = (a <? b)%Z.
Proof.
  intros (p & -> & Hp) (q & -> & Hq). cbn.
  destruct (Z.ltb_spec a b) as [H|H]; [apply negb_true_iff, not_true_iff_false|apply negb_false_iff];
    rewrite Qle_bool_iff, Hp, Hq, <-Zle_Qle; lia.
Qed.

(** The quotient of two exact integers is the correctly rounded quotient. *)
Lemma f_is_div x y a b :
  f_is x a -> f_is y b -> (0 <= a <= 2 ^ 53)%Z -> (0 < b)%Z ->
  exists q, f64_div x y = Fin q /\ q == rnd (Some (-1074)%Z) (inject_Z a / inject_Z b).
Proof.
  intros (p & -> & Hp) (q & -> & Hq) Ha Hb. cbn.
  assert (Hb1 : 1 <= inject_Z b) by (change 1 with (inject_Z 1); rewrite <-Zle_Qle; lia).
  pose proof (inject_nonneg a ltac:(lia)) as Ha0.
  destruct (Qeq_bool q 0) eqn:E; [apply Qeq_bool_iff in E; lra|].
  assert (H0 : 0 <= p / q) by (apply Qle_shift_div_l; lra).
  assert (Hle : p / q <= inject_Z a) by (apply Qle_shift_div_r; rewrite ?Hp, ?Hq; nra).
  eexists. split; [apply f64_round_small; [done|]|].
  - apply (Qle_lt_trans _ (two_pow 53)); [|by apply two_pow_lt_check; vm_compute].
    eapply Qle_trans; [exact Hle|]. rewrite two_pow_nonneg by lia. rewrite <-Zle_Qle. lia.
  - apply rnd_eq; [done|]. by rewrite Hp, Hq.
Qed.

(** [100.0 * a / b] of two exact integers [0 <= a <= b] is the correctly rounded
    percentage, between 0 and 100. *)
Lemma f64_percent x y a b :
  f_is x a -> f_is y b -> (0 <= a <= b)%Z -> (0 < b <= 2 ^ 46)%Z ->
  exists q, f64_div (f64_mul (Fin 100) x) y = Fin q /\
    q == rnd (Some (-1074)%Z) (inject_Z (100 * a) / inject_Z b) /\ 0 <= q /\ q <= 100.
Proof.
  intros Hx Hy Hab Hb.
  assert (Hm : f_is (f64_mul (Fin 100) x) (100 * a)) by (apply f_is_mul; [by exists 100|done|lia]).
  destruct (f_is_div _ y (100 * a) b Hm Hy) as (q & Hq & Hr); [lia..|].
  exists q. split; [done|]. split; [done|].
  assert (H1 : 1 <= inject_Z b) by (change 1 with (inject_Z 1); rewrite <-Zle_Qle; lia).
  assert (H0 : 0 <= inject_Z (100 * a) / inject_Z b).
  { apply Qle_shift_div_l; [lra|]. pose proof (inject_nonneg (100 * a) ltac:(lia)). lra. }
  split; [rewrite Hr; by apply rnd_nonneg|]. rewrite Hr.
  apply (Qle_trans _ (rnd (Some (-1074)%Z) (inject_Z 100))); [|rewrite rnd_Z by lia; apply Qle_refl].
  apply rnd_le; [done|]. apply Qle_shift_div_r; [lra|].
  rewrite <-inject_Z_mult, <-Zle_Qle. lia.
Qed.

(** [Float64] of a [big.Float]: the nearest [float64]. *)
Definition big_Float64 (x : gofloat) : gofloat := match x with Fin q => f64_round q | _ => x end.
