(* ===== verification/GoText.v ===== *)
(** * Go's strings, [strconv] and [encoding/hex]

    A Go [string] and a Go [[]byte] are both Rocq strings: sequences of bytes. *)

From S2P Require Import Prelude GoNum.
From Stdlib Require Import Ascii.
Local Open Scope Z_scope.

Abbreviation bytes := string (only parsing).

(** ** [strconv.Itoa], [strconv.FormatInt] and [%d] *)

Definition itoa (z : Z) : string := pretty z.

(** The end of a line. *)
Definition nl : string := String (ascii_of_nat 10) EmptyString.

#[export] Instance itoa_inj : Inj (=) (=) itoa.
Proof. unfold itoa. apply _. Qed.

(** ** [strconv.ParseUint] and [strconv.ParseInt], base 10 *)

Inductive num_parse : Type :=
  | NumOk (z : Z)
  | NumSyntax
  | NumRange (clamped : Z).

Definition digit_val (c : ascii) : option Z :=
  let n := Z.of_nat (nat_of_ascii c) in
  if (48 <=? n) && (n <=? 57) then Some (n - 48) else None.

(** The digit loop: the overflow test comes before the rest of the text is
    looked at, as in [strconv]. *)
Fixpoint parse_digits (max n : Z) (s : string) : num_parse :=
  match s with
  | EmptyString => NumOk n
  | String c s' =>
      match digit_val c with
      | None => NumSyntax
      | Some d => let n1 := n * 10 + d in
                  if max <? n1 then NumRange max else parse_digits max n1 s'
      end
  end.

Definition parse_uint (bits : Z) (s : string) : num_parse :=
  match s with
  | EmptyString => NumSyntax
  | _ => parse_digits (2 ^ bits - 1) 0 s
  end.

Definition parse_int (bits : Z) (s : string) : num_parse :=
  let cutoff := 2 ^ (bits - 1) in
  let signed (neg : bool) (t : string) :=
    match parse_uint bits t with
    | NumSyntax => NumSyntax
    | NumOk un | NumRange un =>
        if negb neg && (cutoff <=? un) then NumRange (cutoff - 1)
        else if neg && (cutoff <? un) then NumRange (- cutoff)
        else NumOk (if neg then - un else un)
    end in
  match s with
  | EmptyString => NumSyntax
  | String c t => if Ascii.eqb c "-" then signed true t
                  else if Ascii.eqb c "+" then signed false t else signed false s
  end.

Definition dquote : string := String (ascii_of_nat 34) EmptyString.

Definition num_error (fn s msg : string) : string :=
  "strconv." +:+ fn +:+ ": parsing " +:+ dquote +:+ s +:+ dquote +:+ ": " +:+ msg.

(** The [(value, error)] pair as a result; the value returned beside an error is dropped. *)
Definition num_res (fn s : string) (r : num_parse) : res Z :=
  match r with
  | NumOk z => Ok z
  | NumSyntax => Err (num_error fn s "invalid syntax")
  | NumRange _ => Err (num_error fn s "value out of range")
  end.
Definition ParseInt (s : string) (bits : Z) : res Z := num_res "ParseInt" s (parse_int bits s).
Definition ParseUint (s : string) (bits : Z) : res Z := num_res "ParseUint" s (parse_uint bits s).

(** [n, _ := strconv.ParseInt(s, 10, bits)]: zero on a syntax error, the
    clamped value on a range error. *)
Definition ParseInt_value (s : string) (bits : Z) : Z :=
  match parse_int bits s with NumOk z => z | NumSyntax => 0 | NumRange z => z end.

Lemma digit_val_char x : (x < 10)%N -> digit_val (pretty_N_char x) = Some (Z.of_N x).
Proof.
  intros H. assert (x = 0 \/ x = 1 \/ x = 2 \/ x = 3 \/ x = 4 \/ x = 5 \/ x = 6 \/ x = 7
    \/ x = 8 \/ x = 9)%N as Hx by lia.
  clear H. destruct_or! Hx; by subst x.
Qed.

Lemma parse_digits_go max x s :
  (Z.of_N x <= max) -> parse_digits max 0 (pretty_N_go x s) = parse_digits max (Z.of_N x) s.
Proof.
  revert s. induction (N.lt_wf_0 x) as [x _ IH]; intros s Hx.
  assert (x = 0 \/ 0 < x)%N as [->|?] by lia; [by rewrite pretty_N_go_0|].
  rewrite pretty_N_go_step by done. rewrite IH; [|by apply N.div_lt|].
  2:{ pose proof (N.Div0.div_le_upper_bound x 10 x). lia. }
  cbn. rewrite digit_val_char by (by apply N.mod_lt). cbn.
  replace (Z.of_N (x `div` 10) * 10 + Z.of_N (x `mod` 10)) with (Z.of_N x).
  2:{ rewrite (N.div_mod x 10) at 1 by done. lia. }
  destruct (Z.ltb_spec max (Z.of_N x)); [lia|done].
Qed.

Lemma pretty_N_cons x : exists c s, pretty (x : N) = String c s /\ is_Some (digit_val c).
Proof.
  unfold pretty, pretty_N. case_decide; [by eexists _, _|].
  assert (Hgo : forall s, (exists c s', s = String c s' /\ is_Some (digit_val c)) ->
    exists c s', pretty_N_go x s = String c s' /\ is_Some (digit_val c)).
  { clear. induction (N.lt_wf_0 x) as [x _ IH]; intros s Hs.
    assert (x = 0 \/ 0 < x)%N as [->|?] by lia; [by rewrite pretty_N_go_0|].
    rewrite pretty_N_go_step by done. apply IH; [by apply N.div_lt|].
    eexists _, _. split; [done|]. rewrite digit_val_char by (by apply N.mod_lt). eauto. }
  rewrite pretty_N_go_step by lia. set (y := (x `div` 10)%N). set (m := (x `mod` 10)%N).
  assert (Hm : is_Some (digit_val (pretty_N_char m)))
    by (rewrite digit_val_char by (by apply N.mod_lt); eauto).
  clearbody y m. clear - Hm. generalize (""). revert m Hm.
  induction (N.lt_wf_0 y) as [y _ IH]; intros m Hm s.
  assert (y = 0 \/ 0 < y)%N as [->|?] by lia; [rewrite pretty_N_go_0; eauto|].
  rewrite pretty_N_go_step by done. apply IH; [by apply N.div_lt|].
  rewrite digit_val_char by (by apply N.mod_lt). eauto.
Qed.

Lemma parse_digits_itoa max x :
  Z.of_N x <= max -> parse_digits max 0 (pretty x) = NumOk (Z.of_N x).
Proof.
  intros H. unfold pretty, pretty_N. case_decide as Hx.
  - subst x. cbn [parse_digits]. change (digit_val "0") with (Some 0). cbv iota beta zeta.
    change (0 * 10 + 0) with 0. destruct (Z.ltb_spec max 0); [lia|done].
  - by rewrite parse_digits_go by done.
Qed.

Lemma itoa_nonneg z : 0 <= z -> itoa z = pretty (Z.to_N z).
Proof. intros Hz. unfold itoa. destruct z as [|p|p]; [done|done|lia]. Qed.

Lemma parse_uint_itoa bits z : 0 <= z < 2 ^ bits -> parse_uint bits (itoa z) = NumOk z.
Proof.
  intros Hz. rewrite itoa_nonneg by lia. destruct (pretty_N_cons (Z.to_N z)) as (c & s & Hcs & _).
  unfold parse_uint. rewrite Hcs, <-Hcs. rewrite parse_digits_itoa by lia. f_equal. lia.
Qed.

Lemma digit_not_sign c : is_Some (digit_val c) -> Ascii.eqb c "-" = false /\ Ascii.eqb c "+" = false.
Proof.
  intros [d Hd]. split; apply Ascii.eqb_neq; intros ->; vm_compute in Hd; discriminate.
Qed.

Lemma ParseInt_itoa bits z :
  0 < bits -> - 2 ^ (bits - 1) <= z < 2 ^ (bits - 1) -> ParseInt (itoa z) bits = Ok z.
Proof.
  intros Hb Hz. assert (Hpow : 2 ^ bits = 2 * 2 ^ (bits - 1)).
  { rewrite <-Z.pow_succ_r by lia. f_equal. lia. }
  unfold ParseInt, parse_int. destruct (decide (0 <= z)) as [Hp|Hn].
  - pose proof (parse_uint_itoa bits z ltac:(lia)) as Hu.
    pose proof (itoa_nonneg z Hp) as E.
    destruct (pretty_N_cons (Z.to_N z)) as (c & s & Hcs & Hd). rewrite <-E in Hcs.
    rewrite Hcs in *. destruct (digit_not_sign c Hd) as [-> ->]. rewrite Hu. cbn.
    destruct (Z.leb_spec (2 ^ (bits - 1)) z); [lia|done].
  - destruct z as [|p|p]; [lia..|].
    pose proof (parse_uint_itoa bits (Z.pos p) ltac:(lia)) as Hu.
    change (itoa (Z.neg p)) with (String "-" (itoa (Z.pos p))).
    cbn [Ascii.eqb Bool.eqb]. rewrite Hu. cbn.
    destruct (Z.ltb_spec (2 ^ (bits - 1)) (Z.pos p)); [lia|done].
Qed.

Lemma ParseUint_itoa bits z : 0 <= z < 2 ^ bits -> ParseUint (itoa z) bits = Ok z.
Proof. intros Hz. unfold ParseUint. by rewrite parse_uint_itoa. Qed.

(** ** [strings] *)

Lemma append_nil_l s : "" +:+ s = s.
Proof. done. Qed.
Lemma append_cons c s t : String c s +:+ t = String c (s +:+ t).
Proof. done. Qed.
Create Rewrite HintDb gostr.
#[export] Hint Rewrite append_nil_l append_cons : gostr.


(** [strings.Split] on a one-byte separator. *)
Fixpoint split_on (sep : ascii) (s : string) : list string :=
  match s with
  | EmptyString => [EmptyString]
  | String c s' =>
      if Ascii.eqb c sep then EmptyString :: split_on sep s'
      else match split_on sep s' with
           | [] => [String c EmptyString]
           | p :: ps => String c p :: ps
           end
  end.

Fixpoint join (sep : string) (l : list string) : string :=
  match l with
  | [] => EmptyString
  | [s] => s
  | s :: l' => s +:+ sep +:+ join sep l'
  end.

Fixpoint no_char (c : ascii) (s : string) : bool :=
  match s with EmptyString => true | String d s' => negb (Ascii.eqb d c) && no_char c s' end.

Lemma split_on_app sep s t :
  no_char sep s = true -> split_on sep (s +:+ String sep t) = s :: split_on sep t.
Proof.
  induction s as [|c s IH]; autorewrite with gostr; cbn -[Ascii.eqb];
    [by rewrite Ascii.eqb_refl|].
  intros [Hc Hs]%andb_true_iff. apply negb_true_iff in Hc. rewrite Hc, IH by done. done.
Qed.

Lemma split_on_none sep s : no_char sep s = true -> split_on sep s = [s].
Proof.
  induction s as [|c s IH]; cbn -[Ascii.eqb]; [done|].
  intros [Hc Hs]%andb_true_iff. apply negb_true_iff in Hc. by rewrite Hc, IH.
Qed.

Lemma pretty_N_no_char c x : digit_val c = None -> no_char c (pretty (x : N)) = true.
Proof.
  intros Hc. assert (Hch : forall y, (y < 10)%N -> Ascii.eqb (pretty_N_char y) c = false).
  { intros y Hy. apply Ascii.eqb_neq. intros <-. by rewrite digit_val_char in Hc. }
  unfold pretty, pretty_N. case_decide.
  { change (negb (Ascii.eqb (pretty_N_char 0) c) && true = true). by rewrite Hch. }
  assert (Hgo : forall s, no_char c s = true -> no_char c (pretty_N_go x s) = true).
  { clear -Hch. induction (N.lt_wf_0 x) as [x _ IH]; intros s Hs.
    assert (x = 0 \/ 0 < x)%N as [->|?] by lia; [by rewrite pretty_N_go_0|].
    rewrite pretty_N_go_step by done. apply IH; [by apply N.div_lt|].
    cbn [no_char]. rewrite Hch by (by apply N.mod_lt). done. }
  by apply Hgo.
Qed.

Lemma itoa_no_char c z : digit_val c = None -> Ascii.eqb "-" c = false -> no_char c (itoa z) = true.
Proof.
  intros Hc Hd. unfold itoa. destruct z as [|p|p].
  - apply (pretty_N_no_char c 0 Hc).
  - apply (pretty_N_no_char c (N.pos p) Hc).
  - change (negb (Ascii.eqb "-" c) && no_char c (pretty (N.pos p)) = true).
    rewrite Hd. apply (pretty_N_no_char c (N.pos p) Hc).
Qed.

Fixpoint has_prefix (p s : string) : bool :=
  match p, s with
  | EmptyString, _ => true
  | String a p', String b s' => Ascii.eqb a b && has_prefix p' s'
  | _, EmptyString => false
  end.

(** [strings.Contains] *)
Fixpoint contains (s sub : string) : bool :=
  has_prefix sub s || match s with EmptyString => false | String _ s' => contains s' sub end.

Lemma has_prefix_app p t : has_prefix p (p +:+ t) = true.
Proof.
  induction p as [|c p IH]; autorewrite with gostr; cbn -[Ascii.eqb]; [done|].
  by rewrite Ascii.eqb_refl.
Qed.

Lemma contains_app a b sub : contains b sub = true -> contains (a +:+ b) sub = true.
Proof.
  intros H. induction a as [|c a IH]; autorewrite with gostr; [done|].
  cbn [contains]. rewrite IH. apply orb_true_r.
Qed.

(** [s[:n]] and [s[n:]]; the callers' bounds are checked where the code slices. *)
Fixpoint stake (n : nat) (s : string) : string :=
  match n, s with
  | S n', String c s' => String c (stake n' s')
  | _, _ => EmptyString
  end.
Fixpoint sdrop (n : nat) (s : string) : string :=
  match n, s with
  | S n', String _ s' => sdrop n' s'
  | _, _ => s
  end.
Definition slen (s : string) : nat := String.length s.

(** [s[lo:hi]] with Go's bounds check. *)
Definition slice (lo hi : Z) (s : string) : res string :=
  if (0 <=? lo) && (lo <=? hi) && (hi <=? Z.of_nat (slen s))
  then Ok (stake (Z.to_nat (hi - lo)) (sdrop (Z.to_nat lo) s)) else Panic.

Lemma slen_app s t : slen (s +:+ t) = (slen s + slen t)%nat.
Proof. unfold slen. induction s as [|c s IH]; autorewrite with gostr; cbn; [done|]. by rewrite IH. Qed.

Lemma slen_stake n s : slen (stake n s) = Nat.min n (slen s).
Proof. revert s. induction n as [|n IH]; intros [|c s]; cbn -[Ascii.eqb]; [done..|]. f_equal. apply IH. Qed.

Lemma append_nil_r s : s +:+ "" = s.
Proof. induction s as [|c s IH]; autorewrite with gostr; cbn; [done|]. by rewrite IH. Qed.

Lemma append_assoc a b c : (a +:+ b) +:+ c = a +:+ b +:+ c.
Proof. induction a as [|x a IH]; autorewrite with gostr; cbn; [done|]. by rewrite IH. Qed.

(** ** [encoding/hex] *)

Definition hex_val (c : ascii) : option nat :=
  let n := nat_of_ascii c in
  if ((48 <=? n) && (n <=? 57))%nat then Some (n - 48)%nat
  else if ((97 <=? n) && (n <=? 102))%nat then Some (n - 87)%nat
  else if ((65 <=? n) && (n <=? 70))%nat then Some (n - 55)%nat else None.

(** [hex.DecodeString]: both cases of the letters are accepted. *)
Fixpoint hex_decode (s : string) : option bytes :=
  match s with
  | EmptyString => Some EmptyString
  | String a (String b s') =>
      match hex_val a, hex_val b with
      | Some x, Some y => String (ascii_of_nat (16 * x + y)) <$> hex_decode s'
      | _, _ => None
      end
  | String _ EmptyString => None
  end.

Definition hex_digit (upper : bool) (n : nat) : ascii :=
  ascii_of_nat (if (n <? 10)%nat then 48 + n else if upper then 55 + n else 87 + n)%nat.

Fixpoint hex_encode (upper : bool) (b : bytes) : string :=
  match b with
  | EmptyString => EmptyString
  | String c b' => let n := nat_of_ascii c in
      String (hex_digit upper (n / 16)%nat) (String (hex_digit upper (n mod 16)%nat)
        (hex_encode upper b'))
  end.

Lemma hex_decode_encode u b : hex_decode (hex_encode u b) = Some b.
Proof.
  induction b as [|c b IH]; [done|].
  assert (Hc : hex_val (hex_digit u (nat_of_ascii c / 16)) = Some (nat_of_ascii c / 16)%nat /\
               hex_val (hex_digit u (nat_of_ascii c mod 16)) = Some (nat_of_ascii c mod 16)%nat).
  { destruct u, c as [[] [] [] [] [] [] [] []]; vm_compute; done. }
  destruct Hc as [H1 H2].
  change (hex_encode u (String c b)) with
    (String (hex_digit u (nat_of_ascii c / 16)%nat)
       (String (hex_digit u (nat_of_ascii c mod 16)%nat) (hex_encode u b))).
  cbn [hex_decode]. rewrite H1, H2, IH.
  by rewrite <-Nat.div_mod_eq, ascii_nat_embedding.
Qed.

(** ** [fmt] verbs for numbers *)

Fixpoint zeros (n : nat) : string :=
  match n with O => EmptyString | S n' => String "0" (zeros n') end.
Fixpoint spaces (n : nat) : string :=
  match n with O => EmptyString | S n' => String " " (spaces n') end.

(** [%.<d>f]: the exact decimal value rounded to [d] digits, ties to even. *)
Definition fmt_fixed (d : nat) (x : gofloat) : string :=
  match x with
  | NaN => "NaN"
  | Inf s => if s then "-Inf" else "+Inf"
  | Fin q =>
      let k := rne (Qmult (Qabs q) (inject_Z (10 ^ Z.of_nat d))) in
      let frac := itoa (k mod 10 ^ Z.of_nat d) in
      (if Qneg q then "-" else "") +:+ itoa (k / 10 ^ Z.of_nat d) +:+
      match d with
      | O => EmptyString
      | _ => "." +:+ zeros (d - slen frac) +:+ frac
      end
  end.

(** Characters of a UTF-8 text: the bytes that do not continue one. *)
Fixpoint rune_count (s : string) : nat :=
  match s with
  | EmptyString => O
  | String (Ascii _ _ _ _ _ _ b6 b7) s' =>
      ((if b7 && negb b6 then 0 else 1) + rune_count s')%nat
  end.

(** [%-<w>s] *)
Definition pad_right (w : nat) (s : string) : string := s +:+ spaces (w - rune_count s).

(** ** [path.Clean] and [path.Join] *)

(** The elements kept so far, last first; [rooted] paths drop a leading [..]. *)
Definition clean_step (rooted : bool) (out : list string) (elem : string) : list string :=
  if bool_decide (elem = "") || bool_decide (elem = ".") then out
  else if bool_decide (elem = "..") then
    match out with
    | [] => if rooted then [] else [".."]
    | e :: out' => if bool_decide (e = "..") then ".." :: out else out'
    end
  else elem :: out.

Definition path_Clean (p : string) : string :=
  if bool_decide (p = "") then "."
  else
    let rooted := has_prefix "/" p in
    let body := join "/" (reverse (foldl (clean_step rooted) [] (split_on "/"%char p))) in
    if rooted then "/" +:+ body else if bool_decide (body = "") then "." else body.

Definition path_Join (elems : list string) : string :=
  let elems := filter (fun e => e <> "") elems in
  match elems with [] => "" | _ => path_Clean (join "/" elems) end.

Example path_join_ex :
  path_Join ["/rpc/"; "/status"] = "/rpc/status" /\ path_Join [""; "/net_info"] = "/net_info" /\
  path_Join ["/a/b"; "../c/./d"] = "/a/c/d" /\ path_Join ["/"; "/.."] = "/" /\ path_Join ["a"; "../.."] = "..".
Proof. vm_compute. by split_and!. Qed.
