(* ===== verification/GoTime.v ===== *)
(** * Numbers, instants and durations as text

    [strconv.ParseFloat] on decimal texts (hexadecimal mantissas are left out),
    [time.Parse] with the layout ["2006-01-02 15:04:05"], [time.ParseDuration] and
    [Duration.String]. *)

From S2P Require Import Prelude GoNum GoText.
From Stdlib Require Import Ascii.
Local Open Scope Z_scope.

(** The digits at the head of a text: their value, their number, the rest. *)
Fixpoint digit_run (acc : Z) (n : nat) (s : string) : Z * nat * string :=
  match s with
  | String c s' =>
      match digit_val c with
      | Some d => digit_run (acc * 10 + d) (S n) s'
      | None => (acc, n, s)
      end
  | EmptyString => (acc, n, s)
  end.

Definition is_char (c : ascii) (s : string) : option string :=
  match s with String c' s' => if Ascii.eqb c c' then Some s' else None | EmptyString => None end.

Definition take_sign (s : string) : bool * string :=
  match is_char "-" s with
  | Some s' => (true, s')
  | None => match is_char "+" s with Some s' => (false, s') | None => (false, s) end
  end.

Definition lower (c : ascii) : ascii :=
  let n := nat_of_ascii c in if ((65 <=? n) && (n <=? 90))%nat then ascii_of_nat (n + 32) else c.
Fixpoint to_lower (s : string) : string :=
  match s with EmptyString => EmptyString | String c s' => String (lower c) (to_lower s') end.

(** ** [strconv.ParseFloat(s, 64)]; [None] is an error (syntax or range). *)
Definition ParseFloat (s : string) : option gofloat :=
  let '(neg, t) := take_sign s in
  if bool_decide (to_lower t = "inf") || bool_decide (to_lower t = "infinity") then Some (Inf neg)
  else if bool_decide (to_lower s = "nan") then Some NaN
  else
    let '(int, n1, t1) := digit_run 0 0 t in
    let '(mant, n2, t2) := match is_char "." t1 with Some t' => digit_run int 0 t' | None => (int, O, t1) end in
    if (n1 + n2 =? 0)%nat then None
    else
      let exponent :=
        match (match is_char "e" t2 with Some t' => Some t' | None => is_char "E" t2 end) with
        | None => match t2 with EmptyString => Some 0 | _ => None end
        | Some t3 =>
            let '(eneg, t4) := take_sign t3 in
            let '(e, n3, t5) := digit_run 0 0 t4 in
            match n3, t5 with S _, EmptyString => Some (if eneg then - e else e) | _, _ => None end
        end in
      match exponent with
      | None => None
      | Some e =>
          let q := Qmult (inject_Z mant) (Qpower (10 # 1) (e - Z.of_nat n2)) in
          match f64_round (if neg then Qopp q else q) with Fin r => Some (Fin r) | _ => None end
      end.

(** ** [time.Parse("2006-01-02 15:04:05", s)] *)

Definition is_leap (y : Z) : bool := (y mod 4 =? 0) && (negb (y mod 100 =? 0) || (y mod 400 =? 0)).
Definition days_in (m y : Z) : Z :=
  if m =? 2 then (if is_leap y then 29 else 28)
  else if (m =? 4) || (m =? 6) || (m =? 9) || (m =? 11) then 30 else 31.
Definition days_before_year (y : Z) : Z := 365 * (y - 1) + (y - 1) / 4 - (y - 1) / 100 + (y - 1) / 400.
Definition days_before_month (m y : Z) : Z :=
  sumz ((fun k => days_in (Z.of_nat k + 1) y) <$> seq 0 (Z.to_nat (m - 1))).

(** Nanoseconds since the zero time, January 1 of year 1. *)
Definition civil (y mo d h mi s ns : Z) : Z :=
  (((days_before_year y + days_before_month mo y + (d - 1)) * 24 + h) * 60 + mi) * 60 * Second + s * Second + ns.

(** [getnum]: two digits, or one when [fixed] is false. *)
Definition getnum (fixed : bool) (s : string) : option (Z * string) :=
  match s with
  | String a s1 =>
      x ← digit_val a;
      match s1 with
      | String b s2 =>
          match digit_val b with
          | Some y => Some (x * 10 + y, s2)
          | None => if fixed then None else Some (x, s1)
          end
      | EmptyString => if fixed then None else Some (x, s1)
      end
  | EmptyString => None
  end.

Definition fraction (s : string) : option Z :=
  match s with
  | EmptyString => Some 0
  | String c t =>
      if Ascii.eqb c "." || Ascii.eqb c "," then
        let '(_, n, rest) := digit_run 0 0 t in
        match n, rest with
        | S _, EmptyString =>
            let kept := Nat.min n 9 in
            Some ((digit_run 0 0 (stake kept t)).1.1 * 10 ^ (9 - Z.of_nat kept))
        | _, _ => None
        end
      else None
  end.

Definition time_Parse (s : string) : option Z :=
  let '(y, n, _) := digit_run 0 0 (stake 4 s) in
  if negb (n =? 4)%nat then None else
  t ← is_char "-" (sdrop 4 s); p ← getnum true t; let '(mo, t) := p in
  t ← is_char "-" t; p ← getnum true t; let '(d, t) := p in
  t ← is_char " " t; p ← getnum false t; let '(h, t) := p in
  t ← is_char ":" t; p ← getnum true t; let '(mi, t) := p in
  t ← is_char ":" t; p ← getnum true t; let '(sec, t) := p in
  ns ← fraction t;
  if (1 <=? mo) && (mo <=? 12) && (1 <=? d) && (d <=? days_in mo y) && (h <? 24) && (mi <? 60) && (sec <? 60)
  then Some (civil y mo d h mi sec ns) else None.

(** ** [time.ParseDuration] *)

Definition unit_value (u : string) : option Z :=
  if bool_decide (u = "ns") then Some 1
  else if bool_decide (u = "us") || bool_decide (u = "µs") || bool_decide (u = "μs") then Some 1000
  else if bool_decide (u = "ms") then Some Millisecond
  else if bool_decide (u = "s") then Some Second
  else if bool_decide (u = "m") then Some (60 * Second)
  else if bool_decide (u = "h") then Some Hour
  else None.

(** [leadingFraction]: digits that would overflow are read and ignored. *)
Fixpoint leading_fraction (f scale : Z) (over : bool) (n : nat) (s : string) : Z * Z * nat * string :=
  match s with
  | String c s' =>
      match digit_val c with
      | Some d =>
          if over || (MaxInt64 / 10 <? f) || (2 ^ 63 <? f * 10 + d)
          then leading_fraction f scale true (S n) s'
          else leading_fraction (f * 10 + d) (scale * 10) false (S n) s'
      | None => (f, scale, n, s)
      end
  | EmptyString => (f, scale, n, s)
  end.

Fixpoint unit_run (s : string) : string * string :=
  match s with
  | String c s' =>
      if Ascii.eqb c "." then (EmptyString, s)
      else match digit_val c with
           | Some _ => (EmptyString, s)
           | None => let '(u, r) := unit_run s' in (String c u, r)
           end
  | EmptyString => (EmptyString, EmptyString)
  end.

Fixpoint duration_loop (fuel : nat) (orig : string) (d : Z) (s : string) : res Z :=
  let invalid := Err ("time: invalid duration " +:+ dquote +:+ orig +:+ dquote) in
  match s, fuel with
  | EmptyString, _ => Ok d
  | _, O => invalid
  | _, S fuel' =>
      let '(v, n1, t) := digit_run 0 0 s in
      if 2 ^ 63 <? v then invalid else
      let '(f, scale, n2, t) :=
        match is_char "." t with Some t' => leading_fraction 0 1 false 0 t' | None => (0, 1, O, t) end in
      if (n1 + n2 =? 0)%nat then invalid else
      let '(u, t) := unit_run t in
      if bool_decide (u = "") then Err ("time: missing unit in duration " +:+ dquote +:+ orig +:+ dquote) else
      match unit_value u with
      | None => Err ("time: unknown unit " +:+ dquote +:+ u +:+ dquote +:+ " in duration " +:+ dquote +:+ orig +:+ dquote)
      | Some unit =>
          if 2 ^ 63 / unit <? v then invalid else
          let v := v * unit in
          let v := if 0 <? f
                   then v + Qtrunc (fval (f64_mul (f64_of_Z f) (f64_div (f64_of_Z unit) (f64_of_Z scale)))) else v in
          if 2 ^ 63 <? v then invalid else
          if 2 ^ 63 <? d + v then invalid else duration_loop fuel' orig (d + v) t
      end
  end.

Definition ParseDuration (s : string) : res Z :=
  let invalid := Err ("time: invalid duration " +:+ dquote +:+ s +:+ dquote) in
  let '(neg, t) := take_sign s in
  if bool_decide (t = "0") then Ok 0
  else if bool_decide (t = "") then invalid
  else
    d ← duration_loop (slen t) s 0 t;
    if neg then Ok (- d) else if MaxInt64 <? d then invalid else Ok d.

(** ** [Duration.String] *)

(** [fmtFrac]: the last [prec] decimals without trailing zeros. *)
Fixpoint trim_zeros (n : nat) (v : Z) : Z * nat :=
  match n with
  | O => (v, O)
  | S n' => if v mod 10 =? 0 then trim_zeros n' (v / 10) else (v, n)
  end.
Definition fmt_frac (prec : nat) (v : Z) : string :=
  let whole := v / 10 ^ Z.of_nat prec in
  let '(frac, k) := trim_zeros prec (v mod 10 ^ Z.of_nat prec) in
  match k with
  | O => itoa whole
  | _ => let t := itoa frac in itoa whole +:+ "." +:+ zeros (k - slen t) +:+ t
  end.

Definition Duration_String (d : Z) : string :=
  let u := Z.abs d in
  let body :=
    if u =? 0 then "0s"
    else if u <? 1000 then itoa u +:+ "ns"
    else if u <? Millisecond then fmt_frac 3 u +:+ "µs"
    else if u <? Second then fmt_frac 6 u +:+ "ms"
    else
      let m := u / (60 * Second) in
      let secs := fmt_frac 9 (u mod (60 * Second)) +:+ "s" in
      if m =? 0 then secs
      else if m / 60 =? 0 then itoa m +:+ "m" +:+ secs
      else itoa (m / 60) +:+ "h" +:+ itoa (m mod 60) +:+ "m" +:+ secs in
  if d <? 0 then "-" +:+ body else body.

(** [Duration.Seconds]: whole seconds plus the fraction, in floats. *)
Definition Seconds (d : Z) : gofloat :=
  f64_add (f64_of_Z (go_div d Second)) (f64_div (f64_of_Z (go_rem d Second)) (f64_of_Z 1000000000)).

(** A conversion to [int64] outside the range gives the smallest [int64], as the
    compiler does on amd64. *)
Definition f_int64 (x : gofloat) : Z := default MinInt64 (f_to_int64 x).

Example parse_duration_ex :
  ParseDuration "1h30m" = Ok 5400000000000 /\ ParseDuration "-1.5s" = Ok (-1500000000) /\
  ParseDuration "3" = Err ("time: missing unit in duration " +:+ dquote +:+ "3" +:+ dquote).
Proof. vm_compute. done. Qed.
Example duration_string_ex :
  Duration_String 5400000000000 = "1h30m0s" /\ Duration_String 1500000 = "1.5ms".
Proof. vm_compute. done. Qed.
Example time_parse_ex :
  time_Parse "1970-01-01 00:00:00" = Some (62135596800 * Second) /\ time_Parse "2023-02-29 00:00:00" = None.
Proof. vm_compute. done. Qed.
Example parse_float_ex : ParseFloat "99.5" = Some (Fin (199 # 2)) /\ ParseFloat "1e" = None.
Proof. vm_compute. done. Qed.

(** A whole number of seconds is exact. *)
Lemma Seconds_whole k : 0 <= k <= 2 ^ 53 -> f_is (Seconds (k * Second)) k.
Proof.
  intros Hk. unfold Seconds, go_div, go_rem. rewrite Z.quot_mul, Z.rem_mul by done.
  replace k with (k + 0) at 2 by lia. apply f_is_add; [by apply f64_of_Z_exact| |lia].
  destruct (f_is_div (f64_of_Z 0) (f64_of_Z 1000000000) 0 1000000000) as (q & -> & Hq);
    [by apply f64_of_Z_exact..|done|done|].
  exists q. split; [done|]. rewrite Hq. by apply (rnd_Z (Some (-1074)) 0).
Qed.

Lemma f_is_int64 x z : f_is x z -> is_int64 z -> f_int64 x = z.
Proof.
  intros (q & -> & Hq) Hz. unfold f_int64, f_to_int64.
  assert (Ht : Qtrunc q = z).
  { unfold Qtrunc. destruct (Qle_bool 0 q); rewrite Hq; [apply Qfloor_Z|apply Qceiling_Z]. }
  rewrite Ht. unfold is_int64 in Hz. destruct (Z.leb_spec MinInt64 z), (Z.leb_spec z MaxInt64); try lia. done.
Qed.
