(* ===== verification/Deps.v ===== *)
(** * The libraries the program calls

    [butils] (sorted maps, ordered maps, sets) and CometBFT are not part of the
    repository: each is a class of operations and a class of the laws the code
    relies on.  Instances at the end show the laws can hold; the components are
    proved against the classes. *)

From S2P Require Import Prelude GoNum GoText.
From Stdlib Require Import Ascii.
Local Open Scope Z_scope.

(** ** [github.com/brynbellomy/go-utils] *)

Class Butils := {
  (** [SortedMap[K, V]] with an integer key *)
  SortedMap : Type -> Type;
  sm_new : forall {V}, SortedMap V;
  sm_get : forall {V}, SortedMap V -> Z -> option V;
  sm_insert : forall {V}, SortedMap V -> Z -> V -> SortedMap V;
  sm_iter : forall {V}, SortedMap V -> list (Z * V);
  sm_reverse_iter : forall {V}, SortedMap V -> list (Z * V);
  (** [Set[T]]; [set_range] is the order one [for range] loop sees *)
  GoSet : Type -> Type;
  set_new : forall {T}, GoSet T;
  set_add : forall {T} `{EqDecision T}, GoSet T -> T -> GoSet T;
  set_has : forall {T} `{EqDecision T}, GoSet T -> T -> bool;
  set_range : forall {T} `{EqDecision T}, GoSet T -> list T;
  (** [OrderedMap[string, V]] *)
  OrderedMap : Type -> Type;
  om_new : forall {V}, OrderedMap V;
  om_get : forall {V}, OrderedMap V -> string -> option V;
  om_set : forall {V}, OrderedMap V -> string -> V -> OrderedMap V;
  om_entries : forall {V}, OrderedMap V -> list (string * V);
}.

Class ButilsLaws (B : Butils) : Prop := {
  sm_get_new : forall V k, sm_get (@sm_new _ V) k = None;
  sm_get_insert : forall V (m : SortedMap V) k v k',
    sm_get (sm_insert m k v) k' = if decide (k = k') then Some v else sm_get m k';
  sm_iter_sorted : forall V (m : SortedMap V), StronglySorted Z.lt (sm_iter m).*1;
  sm_iter_elem : forall V (m : SortedMap V) k v, (k, v) ∈ sm_iter m <-> sm_get m k = Some v;
  sm_reverse : forall V (m : SortedMap V), sm_reverse_iter m = reverse (sm_iter m);
  set_has_new : forall T `{EqDecision T} (x : T), set_has set_new x = false;
  set_has_add : forall T `{EqDecision T} (s : GoSet T) x y,
    set_has (set_add s x) y = bool_decide (x = y) || set_has s y;
  set_range_elem : forall T `{EqDecision T} (s : GoSet T) x, x ∈ set_range s <-> set_has s x = true;
  set_range_nodup : forall T `{EqDecision T} (s : GoSet T), NoDup (set_range s);
  om_get_new : forall V k, om_get (@om_new _ V) k = None;
  om_get_set : forall V (m : OrderedMap V) k v k',
    om_get (om_set m k v) k' = if decide (k = k') then Some v else om_get m k';
  om_entries_elem : forall V (m : OrderedMap V) k v, (k, v) ∈ om_entries m <-> om_get m k = Some v;
  om_entries_nodup : forall V (m : OrderedMap V), NoDup (om_entries m).*1;
}.

Create HintDb butils.
Create Rewrite HintDb butils.
#[export] Hint Rewrite @sm_get_new @sm_get_insert @set_has_new @set_has_add @om_get_new @om_get_set
  using typeclasses eauto : butils.
#[export] Hint Resolve sm_iter_sorted set_range_nodup om_entries_nodup : butils.

(** The membership facts determine an iteration up to order. *)
Lemma set_range_nil `{ButilsLaws} {T} `{EqDecision T} (s : GoSet T) :
  set_range s = [] <-> forall x, set_has s x = false.
Proof.
  split.
  - intros Hr x. destruct (set_has s x) eqn:E; [|done].
    apply set_range_elem in E. rewrite Hr in E. by apply not_elem_of_nil in E.
  - intros Hn. destruct (set_range s) as [|x l] eqn:E; [done|].
    assert (Hx : x ∈ set_range s) by (rewrite E; set_solver).
    apply set_range_elem in Hx. by rewrite Hn in Hx.
Qed.

(** ** CometBFT, and the URL parser *)

(** [types.BlockID]: the fields the program reads or copies. *)
Record PartSetHeader := mkPSH { psh_Total : Z; psh_Hash : bytes }.
Record BlockID := mkBlockID { bid_Hash : bytes; bid_PartSetHeader : PartSetHeader }.

#[export] Instance psh_eq_dec : EqDecision PartSetHeader.
Proof. solve_decision. Defined.
#[export] Instance blockid_eq_dec : EqDecision BlockID.
Proof. solve_decision. Defined.

Definition zero_BlockID : BlockID := mkBlockID "" (mkPSH 0 "").

Class Comet := {
  (** [HexBytes.String] and [crypto.Address.String] *)
  HexBytes_String : bytes -> string;
  (** [BlockID.IsZero] *)
  BlockID_IsZero : BlockID -> bool;
  (** [crypto.PubKey.Address], from the key's bytes *)
  PubKey_Address : bytes -> bytes;
  (** [url.Parse(s)] followed by [Port()]: [None] when parsing fails *)
  url_Port : string -> option string;
}.

Class CometLaws (C : Comet) : Prop := {
  HexBytes_String_decode : forall b, hex_decode (HexBytes_String b) = Some b;
  IsZero_zero : BlockID_IsZero zero_BlockID = true;
  IsZero_hash : forall b, bid_Hash b <> "" -> BlockID_IsZero b = false;
}.

#[export] Instance HexBytes_String_inj `{CometLaws} : Inj (=) (=) HexBytes_String.
Proof. intros a b E. apply (f_equal hex_decode) in E. rewrite !HexBytes_String_decode in E. congruence. Qed.

(** [cptypes.SignedMsgType] values. *)
Definition PrevoteType : Z := 1.
Definition PrecommitType : Z := 2.

(** [ctypes.Vote] and the events of [ctypes.TMEventData] the program matches on. *)
Record Vote := mkVote {
  v_Type : Z; v_Height : Z; v_Round : Z; v_BlockID : BlockID; v_ValidatorAddress : bytes }.

Inductive TMEventData : Type :=
  | EventDataNewRound (height round : Z) (proposer : bytes)
  | EventDataVote (vote : option Vote)
  | EventDataRoundState (height round : Z) (step : string)
  | EventOther.

(** [ctypes.Validator] *)
Record CometValidator := mkCometValidator {
  cv_Address : bytes; cv_PubKey : option bytes (** a nil interface is [None] *); cv_VotingPower : Z }.

(** ** Instances *)

Section RefButils.
Definition key_le {V} (x y : Z * V) : Prop := x.1 <= y.1.
#[local] Instance key_le_dec {V} (x y : Z * V) : Decision (key_le x y).
Proof. unfold key_le. apply _. Defined.

Definition ref_sm_iter {V} (m : gmap Z V) : list (Z * V) := merge_sort key_le (map_to_list m).

Fixpoint ref_om_get {V} (m : list (string * V)) (k : string) : option V :=
  match m with
  | [] => None
  | (k', v) :: m' => if decide (k' = k) then Some v else ref_om_get m' k
  end.
Fixpoint ref_om_set {V} (m : list (string * V)) (k : string) (v : V) : list (string * V) :=
  match m with
  | [] => [(k, v)]
  | (k', w) :: m' => if decide (k' = k) then (k, v) :: m' else (k', w) :: ref_om_set m' k v
  end.
Fixpoint ref_om_entries {V} (m : list (string * V)) : list (string * V) :=
  match m with
  | [] => []
  | (k, v) :: m' => (k, v) :: filter (fun p => p.1 <> k) (ref_om_entries m')
  end.

#[export] Instance ref_butils : Butils := {
  SortedMap := gmap Z;
  sm_new V := ∅;
  sm_get V m k := m !! k;
  sm_insert V m k v := <[k := v]> m;
  sm_iter V m := ref_sm_iter m;
  sm_reverse_iter V m := reverse (ref_sm_iter m);
  GoSet := list;
  set_new T := [];
  set_add T _ s x := if decide (x ∈ s) then s else s ++ [x];
  set_has T _ s x := bool_decide (x ∈ s);
  set_range T _ s := remove_dups s;
  OrderedMap V := list (string * V);
  om_new V := [];
  om_get V := ref_om_get;
  om_set V := ref_om_set;
  om_entries V := ref_om_entries;
}.

Lemma ref_sm_iter_perm {V} (m : gmap Z V) : ref_sm_iter m ≡ₚ map_to_list m.
Proof. apply merge_sort_Permutation. Qed.

Lemma ref_sm_iter_sorted {V} (m : gmap Z V) : StronglySorted Z.lt (ref_sm_iter m).*1.
Proof.
  assert (Hnd : NoDup (ref_sm_iter m).*1).
  { rewrite ref_sm_iter_perm. apply NoDup_fst_map_to_list. }
  assert (Hs : StronglySorted key_le (ref_sm_iter m)).
  { apply StronglySorted_merge_sort; unfold key_le; [intros x y z ??; lia|intros x y; lia]. }
  revert Hnd. induction Hs as [|[k v] l Hl IH Hx]; cbn; [constructor|].
  intros [Hnin Hnd]%NoDup_cons. constructor; [by apply IH|].
  apply Forall_fmap. rewrite Forall_forall in Hx |- *. intros [k' v'] Hin. cbn.
  specialize (Hx _ Hin). unfold key_le in Hx. cbn in Hx.
  assert (k <> k').
  { intros ->. apply Hnin. apply list_elem_of_fmap. by exists (k', v'). } lia.
Qed.

Lemma ref_om_set_get {V} (m : list (string * V)) k v k' :
  ref_om_get (ref_om_set m k v) k' = if decide (k = k') then Some v else ref_om_get m k'.
Proof.
  induction m as [|[k0 v0] m IH]; cbn; [done|].
  destruct (decide (k0 = k)) as [->|]; cbn; repeat case_decide; congruence.
Qed.

Lemma ref_om_elem {V} (m : list (string * V)) k v :
  (k, v) ∈ ref_om_entries m <-> ref_om_get m k = Some v.
Proof.
  induction m as [|[k0 v0] m IH]; cbn; [set_solver|].
  rewrite elem_of_cons, list_elem_of_filter, IH. cbn.
  case_decide as E; [subst k0|]; split.
  - intros [[= ->]|[? _]]; [done|congruence].
  - intros [= ->]. by left.
  - intros [[= ? _]|[_ ?]]; [congruence|done].
  - intros Hg. right. by split.
Qed.

Lemma ref_om_nodup {V} (m : list (string * V)) : NoDup (ref_om_entries m).*1.
Proof.
  induction m as [|[k0 v0] m IH]; cbn; [constructor|]. constructor.
  - intros Hin. apply list_elem_of_fmap in Hin as ([k v] & E & Hf). cbn in E. subst k0.
    by apply list_elem_of_filter in Hf as [Hf _].
  - apply (sublist_NoDup _ (ref_om_entries m).*1); [done|]. apply fmap_sublist, sublist_filter.
Qed.

#[export] Instance ref_butils_laws : ButilsLaws ref_butils.
Proof.
  split; cbn; intros.
  - apply lookup_empty.
  - apply lookup_insert.
  - apply ref_sm_iter_sorted.
  - rewrite ref_sm_iter_perm. apply elem_of_map_to_list.
  - done.
  - apply bool_decide_eq_false. set_solver.
  - rewrite <-bool_decide_or. apply bool_decide_ext. case_decide; set_solver.
  - rewrite elem_of_remove_dups. by rewrite bool_decide_eq_true.
  - apply NoDup_remove_dups.
  - done.
  - apply ref_om_set_get.
  - apply ref_om_elem.
  - apply ref_om_nodup.
Qed.
End RefButils.

#[export] Instance ref_comet : Comet := {
  HexBytes_String := hex_encode true;
  BlockID_IsZero b := bool_decide (b = zero_BlockID);
  PubKey_Address b := b;
  url_Port s := match split_on ":" s with
                | [_; _; port] => Some port
                | [_; _] | [_] => Some ""
                | _ => None
                end;
}.

#[export] Instance ref_comet_laws : CometLaws ref_comet.
Proof.
  split; cbn.
  - apply hex_decode_encode.
  - done.
  - intros b Hb. apply bool_decide_eq_false. by intros ->.
Qed.
