(* ===== verification/Rounds.v ===== *)
(** * Votes and rounds ([pkg/types/vote.go], [pkg/types/round_data.go])

    [RoundDataMap] indexes votes and proposers by height and round.  The Go
    structure holds pointers to [RoundData]; here the record is in its slot and is
    written back after a change, and what [Iter] and [GetProposers] hand out are
    values.  [RoundHeap] runs the same operations on a heap of pointers, copies and
    client writes included, and shows that they refine these. *)

From S2P Require Import Prelude GoNum GoText Deps.
Local Open Scope Z_scope.

(** ** [VoteState] *)

Inductive VoteState := VoteStateNone | VoteStateNil | VoteStateForBlock.

#[export] Instance votestate_eq_dec : EqDecision VoteState.
Proof. solve_decision. Defined.

Definition Serialize (v : VoteState) (disableEmojis : bool) : string :=
  if disableEmojis then
    match v with
    | VoteStateForBlock => "[X[]"
    | VoteStateNil => "[0[]"
    | VoteStateNone => "[ []"
    end
  else
    match v with
    | VoteStateForBlock => "✅"
    | VoteStateNil => "🤷"
    | VoteStateNone => "❌"
    end.

Definition VoteStateFromCometBFT `{Comet} (voteExists : bool) (blockID : BlockID) : VoteState :=
  if negb voteExists then VoteStateNone
  else if BlockID_IsZero blockID then VoteStateNil
  else VoteStateForBlock.

Definition VoteStateFromVotesMap `{Comet} (votesMap : gmap Z BlockID) (msgType : Z) : VoteState :=
  match votesMap !! msgType with
  | Some blockID => VoteStateFromCometBFT true blockID
  | None => VoteStateFromCometBFT false zero_BlockID
  end.

(** ** [RoundData] and [RoundDataMap] *)

Section RoundData.
Context `{B : Butils} `{C : Comet}.

Record RoundData := mkRoundData {
  Proposers : GoSet string;
  Votes : gmap string (gmap Z BlockID) }.

Record HeightAndRound := mkHR { hr_Height : Z; hr_Round : Z }.

Record RoundDataMap := mkRDM { heights : SortedMap (SortedMap RoundData) }.

Definition NewRoundDataMap : RoundDataMap := mkRDM sm_new.

Definition new_RoundData : RoundData := mkRoundData set_new ∅.

(** The record reachable at a height and round. *)
Definition lookup_round (v : RoundDataMap) (height round : Z) : option RoundData :=
  roundMap ← sm_get (heights v) height; sm_get roundMap round.

(** Writing through the [*RoundData] pointer held at a height and round. *)
Definition write_round (v : RoundDataMap) (height round : Z) (rd : RoundData) : RoundDataMap :=
  match sm_get (heights v) height with
  | Some roundMap => mkRDM (sm_insert (heights v) height (sm_insert roundMap round rd))
  | None => v
  end.

Definition upsertRoundData (v : RoundDataMap) (height round : Z) : RoundDataMap * RoundData :=
  let '(hs, roundMap) :=
    match sm_get (heights v) height with
    | Some roundMap => (heights v, roundMap)
    | None => (sm_insert (heights v) height sm_new, sm_new)
    end in
  match sm_get roundMap round with
  | Some roundData => (mkRDM hs, roundData)
  | None => (mkRDM (sm_insert hs height (sm_insert roundMap round new_RoundData)), new_RoundData)
  end.

Definition AddProposer (v : RoundDataMap) (height round : Z) (proposer : string) : RoundDataMap :=
  let '(v', rd) := upsertRoundData v height round in
  write_round v' height round (mkRoundData (set_add (Proposers rd) proposer) (Votes rd)).

Definition GetProposers (v : RoundDataMap) (height round : Z) : option (GoSet string) :=
  match sm_get (heights v) height with
  | None => None
  | Some roundMap =>
      match sm_get roundMap round with
      | None => None
      | Some roundData => Some (Proposers roundData)
      end
  end.

Definition AddVote (v : RoundDataMap) (height round : Z) (validator : string)
    (msgType : Z) (blockID : BlockID) : RoundDataMap :=
  let '(v', rd) := upsertRoundData v height round in
  let votesMap := default ∅ (Votes rd !! validator) in
  write_round v' height round
    (mkRoundData (Proposers rd) (<[validator := <[msgType := blockID]> votesMap]> (Votes rd))).

Definition GetVote (v : RoundDataMap) (height round : Z) (validator : string)
    (msgType : Z) : VoteState :=
  match sm_get (heights v) height with
  | None => VoteStateNone
  | Some roundMap =>
      match sm_get roundMap round with
      | None => VoteStateNone
      | Some roundData =>
          match Votes roundData !! validator with
          | None => VoteStateNone
          | Some votesMap =>
              match votesMap !! msgType with
              | None => VoteStateNone
              | Some blockID =>
                  if BlockID_IsZero blockID then VoteStateNil else VoteStateForBlock
              end
          end
      end
  end.

(** The two nested loops over the sorted maps. *)
Definition sm_pairs {V} (m : SortedMap (SortedMap V)) : list (HeightAndRound * V) :=
  p ← sm_iter m; (fun q => (mkHR p.1 q.1, q.2)) <$> sm_iter p.2.
Definition sm_reverse_pairs {V} (m : SortedMap (SortedMap V)) : list (HeightAndRound * V) :=
  p ← sm_reverse_iter m; (fun q => (mkHR p.1 q.1, q.2)) <$> sm_reverse_iter p.2.

(** The pairs a full [for range] over [Iter()] and [ReverseIter()] yields. *)
Definition iter_list (v : RoundDataMap) : list (HeightAndRound * RoundData) := sm_pairs (heights v).
Definition reverse_iter_list (v : RoundDataMap) : list (HeightAndRound * RoundData) := sm_reverse_pairs (heights v).

(** The iterators themselves: [yield] threads the loop body's state and
    answers whether to go on. *)
Fixpoint yield_all {S A} (yield : S -> A -> S * bool) (s : S) (l : list A) : S :=
  match l with
  | [] => s
  | x :: l' => let '(s', go_on) := yield s x in if go_on then yield_all yield s' l' else s'
  end.
Definition Iter {S} (v : RoundDataMap) (yield : S -> HeightAndRound * RoundData -> S * bool) (s : S) : S :=
  yield_all yield s (iter_list v).
Definition ReverseIter {S} (v : RoundDataMap)
    (yield : S -> HeightAndRound * RoundData -> S * bool) (s : S) : S :=
  yield_all yield s (reverse_iter_list v).

(** *** Operations as data, for sequences and interleavings *)

Inductive round_op :=
  | OpProposer (height round : Z) (proposer : string)
  | OpVote (height round : Z) (validator : string) (msgType : Z) (blockID : BlockID).

Definition apply_op (v : RoundDataMap) (o : round_op) : RoundDataMap :=
  match o with
  | OpProposer h r p => AddProposer v h r p
  | OpVote h r a t b => AddVote v h r a t b
  end.
Definition apply_ops (v : RoundDataMap) (os : list round_op) : RoundDataMap := foldl apply_op v os.

(** Observational equality: the same records at every height and round. *)
Definition rd_equiv (a b : RoundData) : Prop :=
  (forall p, set_has (Proposers a) p = set_has (Proposers b) p) /\ Votes a = Votes b.
#[export] Instance rdm_equiv : Equiv RoundDataMap := fun v w =>
  forall h r, option_Forall2 rd_equiv (lookup_round v h r) (lookup_round w h r).
End RoundData.

Arguments RoundData {_}.
Arguments RoundDataMap {_}.

Section RoundFacts.
Context `{BL : ButilsLaws} `{C : Comet}.
Implicit Types v w : RoundDataMap.

Definition key_eq (h r h' r' : Z) : bool := (h =? h') && (r =? r').

Lemma key_eq_true h r h' r' : key_eq h r h' r' = true <-> h = h' /\ r = r'.
Proof. unfold key_eq. rewrite andb_true_iff, !Z.eqb_eq. done. Qed.

Lemma lookup_new h r : lookup_round NewRoundDataMap h r = None.
Proof. unfold lookup_round; cbn. by rewrite sm_get_new. Qed.

(** [upsertRoundData] followed by a write through the returned pointer. *)
Lemma upsert_write v h r (f : RoundData -> RoundData) h' r' :
  lookup_round (let '(v', rd) := upsertRoundData v h r in write_round v' h r (f rd)) h' r' =
  if key_eq h r h' r' then Some (f (default new_RoundData (lookup_round v h r)))
  else lookup_round v h' r'.
Proof.
  unfold lookup_round, upsertRoundData, write_round, key_eq.
  destruct (sm_get (heights v) h) as [m|] eqn:Eh; cbn;
    [destruct (sm_get m r) as [rd|] eqn:Er; cbn | rewrite sm_get_new; cbn];
    autorewrite with butils; rewrite ?Eh; repeat (rewrite decide_True by done); cbn;
    autorewrite with butils; destruct (Z.eqb_spec h h') as [<-|]; cbn;
    rewrite ?decide_True, ?decide_False by done; cbn; autorewrite with butils;
    try (destruct (Z.eqb_spec r r') as [<-|]; rewrite ?decide_True, ?decide_False by done);
    rewrite ?Eh; cbn; rewrite ?Er; try done.
Qed.

Definition rd_add_proposer (p : string) (rd : RoundData) : RoundData :=
  mkRoundData (set_add (Proposers rd) p) (Votes rd).
Definition rd_add_vote (a : string) (t : Z) (b : BlockID) (rd : RoundData) : RoundData :=
  mkRoundData (Proposers rd) (<[a := <[t := b]> (default ∅ (Votes rd !! a))]> (Votes rd)).

Lemma lookup_AddProposer v h r p h' r' :
  lookup_round (AddProposer v h r p) h' r' =
  if key_eq h r h' r' then Some (rd_add_proposer p (default new_RoundData (lookup_round v h r)))
  else lookup_round v h' r'.
Proof. apply (upsert_write v h r (rd_add_proposer p)). Qed.

Lemma lookup_AddVote v h r a t b h' r' :
  lookup_round (AddVote v h r a t b) h' r' =
  if key_eq h r h' r' then Some (rd_add_vote a t b (default new_RoundData (lookup_round v h r)))
  else lookup_round v h' r'.
Proof. apply (upsert_write v h r (rd_add_vote a t b)). Qed.

(** The block a validator voted for, if any. *)
Definition rd_vote (rd : RoundData) (a : string) (t : Z) : option BlockID :=
  m ← Votes rd !! a; m !! t.
Definition vote_at v (h r : Z) (a : string) (t : Z) : option BlockID :=
  rd ← lookup_round v h r; rd_vote rd a t.

Definition state_of_vote (o : option BlockID) : VoteState :=
  match o with
  | None => VoteStateNone
  | Some b => if BlockID_IsZero b then VoteStateNil else VoteStateForBlock
  end.

Lemma GetVote_at v h r a t : GetVote v h r a t = state_of_vote (vote_at v h r a t).
Proof.
  unfold GetVote, vote_at, rd_vote, lookup_round.
  destruct (sm_get (heights v) h) as [m|]; cbn; [|done].
  destruct (sm_get m r) as [rd|]; cbn; [|done].
  destruct (Votes rd !! a) as [vm|]; cbn; [|done]. by destruct (vm !! t).
Qed.

Lemma GetProposers_at v h r : GetProposers v h r = Proposers <$> lookup_round v h r.
Proof.
  unfold GetProposers, lookup_round.
  destruct (sm_get (heights v) h) as [m|]; cbn; [|done]. by destruct (sm_get m r).
Qed.

Definition same_vote (h r : Z) (a : string) (t : Z) (h' r' : Z) (a' : string) (t' : Z) : bool :=
  key_eq h r h' r' && bool_decide (a = a') && (t =? t').

Lemma rd_vote_add a t b rd a' t' :
  rd_vote (rd_add_vote a t b rd) a' t' =
  if bool_decide (a = a') && (t =? t') then Some b else rd_vote rd a' t'.
Proof.
  unfold rd_vote, rd_add_vote; cbn. destruct (decide (a = a')) as [<-|Ha].
  - rewrite bool_decide_eq_true_2, lookup_insert_eq by done. cbn.
    destruct (Z.eqb_spec t t') as [<-|Ht]; [by rewrite lookup_insert_eq|].
    rewrite lookup_insert_ne by done. by destruct (Votes rd !! a).
  - by rewrite bool_decide_eq_false_2, lookup_insert_ne by done.
Qed.

Lemma vote_at_AddVote v h r a t b h' r' a' t' :
  vote_at (AddVote v h r a t b) h' r' a' t' =
  if same_vote h r a t h' r' a' t' then Some b else vote_at v h' r' a' t'.
Proof.
  unfold vote_at, same_vote. rewrite lookup_AddVote.
  destruct (key_eq h r h' r') eqn:E; cbn; [|done]. apply key_eq_true in E as [<- <-].
  rewrite rd_vote_add. destruct (_ && _); [done|].
  by destruct (lookup_round v h r).
Qed.

Lemma vote_at_AddProposer v h r p h' r' a t :
  vote_at (AddProposer v h r p) h' r' a t = vote_at v h' r' a t.
Proof.
  unfold vote_at. rewrite lookup_AddProposer.
  destruct (key_eq h r h' r') eqn:E; cbn; [|done]. apply key_eq_true in E as [<- <-].
  by destruct (lookup_round v h r).
Qed.

(** *** The abstract contract: the last vote of a slot wins *)

Definition op_vote (h r : Z) (a : string) (t : Z) (o : round_op) : option BlockID :=
  match o with
  | OpVote h' r' a' t' b => if same_vote h' r' a' t' h r a t then Some b else None
  | OpProposer _ _ _ => None
  end.
Definition last_vote (os : list round_op) (h r : Z) (a : string) (t : Z) : option BlockID :=
  last (omap (op_vote h r a t) os).

Definition op_proposer (h r : Z) (p : string) (o : round_op) : bool :=
  match o with
  | OpProposer h' r' p' => key_eq h' r' h r && bool_decide (p' = p)
  | OpVote _ _ _ _ _ => false
  end.

Lemma vote_at_apply_ops v os h r a t :
  vote_at (apply_ops v os) h r a t =
  match last_vote os h r a t with Some b => Some b | None => vote_at v h r a t end.
Proof.
  unfold last_vote. induction os as [|o os IH] using rev_ind; [done|].
  unfold apply_ops. rewrite foldl_app. cbn. fold (apply_ops v os).
  rewrite omap_app. destruct o as [h' r' p|h' r' a' t' b]; cbn.
  - rewrite vote_at_AddProposer, IH. by rewrite app_nil_r.
  - rewrite vote_at_AddVote, IH. destruct (same_vote _ _ _ _ _ _ _ _).
    + by rewrite last_snoc.
    + by rewrite app_nil_r.
Qed.

(** C1: whatever sequence of votes and proposers was recorded, [GetVote] reports
    the state of the last vote recorded for that height, round, validator and
    message type, and [VoteStateNone] when there is none. *)
Theorem GetVote_last_vote_wins os h r a t :
  GetVote (apply_ops NewRoundDataMap os) h r a t = state_of_vote (last_vote os h r a t).
Proof.
  rewrite GetVote_at, vote_at_apply_ops. destruct (last_vote os h r a t); [done|].
  unfold vote_at. by rewrite lookup_new.
Qed.

(** *** Observational equality *)

#[export] Instance rd_equiv_equivalence : Equivalence rd_equiv.
Proof.
  split.
  - intros a. split; done.
  - intros a b [H1 H2]. split; [intros p; by rewrite H1|done].
  - intros a b c [H1 H2] [H3 H4]. split; [intros p; by rewrite H1|congruence].
Qed.

#[export] Instance rdm_equivalence : Equivalence (≡@{RoundDataMap}).
Proof.
  split.
  - intros v h r. reflexivity.
  - intros v w Hvw h r. symmetry. apply Hvw.
  - intros u v w Huv Hvw h r. etransitivity; [apply Huv|apply Hvw].
Qed.

Lemma rd_equiv_default v w h r : v ≡ w ->
  rd_equiv (default new_RoundData (lookup_round v h r)) (default new_RoundData (lookup_round w h r)).
Proof. intros Hvw. destruct (Hvw h r); cbn; [done|reflexivity]. Qed.

#[export] Instance rd_add_proposer_proper p : Proper (rd_equiv ==> rd_equiv) (rd_add_proposer p).
Proof.
  intros x y [H1 H2]. split; cbn; [intros q|done]. autorewrite with butils. by rewrite H1.
Qed.
#[export] Instance rd_add_vote_proper a t b : Proper (rd_equiv ==> rd_equiv) (rd_add_vote a t b).
Proof. intros x y [H1 H2]. split; cbn; [done|by rewrite H2]. Qed.

#[export] Instance AddProposer_proper :
  Proper ((≡) ==> (=) ==> (=) ==> (=) ==> (≡)) AddProposer.
Proof.
  intros v w Hvw ? h -> ? r -> ? p -> h' r'. rewrite !lookup_AddProposer.
  destruct (key_eq _ _ _ _); [|apply Hvw]. constructor. apply rd_add_proposer_proper. by apply rd_equiv_default.
Qed.
#[export] Instance AddVote_proper :
  Proper ((≡) ==> (=) ==> (=) ==> (=) ==> (=) ==> (=) ==> (≡)) AddVote.
Proof.
  intros v w Hvw ? h -> ? r -> ? a -> ? t -> ? b -> h' r'. rewrite !lookup_AddVote.
  destruct (key_eq _ _ _ _); [|apply Hvw]. constructor. apply rd_add_vote_proper. by apply rd_equiv_default.
Qed.
#[export] Instance apply_op_proper : Proper ((≡) ==> (=) ==> (≡)) apply_op.
Proof. intros v w Hvw ? [|] ->; cbn; by rewrite Hvw. Qed.
#[export] Instance apply_ops_proper : Proper ((≡) ==> (=) ==> (≡)) apply_ops.
Proof.
  intros v w Hvw ? os ->. revert v w Hvw. induction os as [|o os IH]; intros v w Hvw; cbn; [done|].
  apply IH. by rewrite Hvw.
Qed.
#[export] Instance GetVote_proper : Proper ((≡) ==> (=) ==> (=) ==> (=) ==> (=) ==> (=)) GetVote.
Proof.
  intros v w Hvw ? h -> ? r -> ? a -> ? t ->. rewrite !GetVote_at. unfold vote_at, rd_vote.
  destruct (Hvw h r) as [x y [_ Hv]|]; cbn; [by rewrite Hv|done].
Qed.
End RoundFacts.

(** ** Interleavings of concurrent writers

    Every operation runs under the map's mutex, so a concurrent execution of two
    goroutines is an interleaving of their operations. *)

Inductive interleave {A} : list A -> list A -> list A -> Prop :=
  | il_nil : interleave [] [] []
  | il_left x xs ys zs : interleave xs ys zs -> interleave (x :: xs) ys (x :: zs)
  | il_right y xs ys zs : interleave xs ys zs -> interleave xs (y :: ys) (y :: zs).

Section RoundOrder.
Context `{BL : ButilsLaws} `{C : Comet}.
Implicit Types v w : RoundDataMap.

(** Two operations that do not write the same vote. *)
Definition independent (o1 o2 : round_op) : bool :=
  match o1, o2 with
  | OpVote h r a t _, OpVote h' r' a' t' _ => negb (same_vote h r a t h' r' a' t')
  | _, _ => true
  end.

Definition op_key (o : round_op) : Z * Z :=
  match o with OpProposer h r _ => (h, r) | OpVote h r _ _ _ => (h, r) end.
Definition op_fn (o : round_op) : RoundData -> RoundData :=
  match o with
  | OpProposer _ _ p => rd_add_proposer p
  | OpVote _ _ a t b => rd_add_vote a t b
  end.

Lemma lookup_apply_op v o h r :
  lookup_round (apply_op v o) h r =
  if key_eq (op_key o).1 (op_key o).2 h r
  then Some (op_fn o (default new_RoundData (lookup_round v h r))) else lookup_round v h r.
Proof.
  destruct o; cbn; rewrite ?lookup_AddProposer, ?lookup_AddVote;
    destruct (key_eq _ _ _ _) eqn:E; try done; by apply key_eq_true in E as [-> ->].
Qed.

Lemma op_fn_comm o1 o2 rd :
  independent o1 o2 = true -> op_key o1 = op_key o2 ->
  rd_equiv (op_fn o2 (op_fn o1 rd)) (op_fn o1 (op_fn o2 rd)).
Proof.
  destruct o1 as [h r p|h r a t b], o2 as [h' r' p'|h' r' a' t' b']; cbn; intros Hi Hk;
    simplify_eq; split; cbn; try done.
  - intros q. autorewrite with butils. destruct (bool_decide _), (bool_decide _); done.
  - apply negb_true_iff in Hi. unfold same_vote in Hi.
    assert (key_eq h' r' h' r' = true) as Hkk by (by apply key_eq_true).
    rewrite Hkk in Hi. cbn in Hi. destruct (decide (a = a')) as [<-|Ha].
    + rewrite bool_decide_eq_true_2 in Hi by done. cbn in Hi. apply Z.eqb_neq in Hi.
      rewrite !lookup_insert_eq. cbn. rewrite !insert_insert_eq. f_equal.
      by apply insert_insert_ne.
    + rewrite !lookup_insert_ne by done. by apply insert_insert_ne.
Qed.

Lemma apply_op_comm v o1 o2 :
  independent o1 o2 = true -> apply_op (apply_op v o1) o2 ≡ apply_op (apply_op v o2) o1.
Proof.
  intros Hi h r. rewrite !lookup_apply_op.
  destruct (key_eq (op_key o1).1 (op_key o1).2 h r) eqn:E1;
    destruct (key_eq (op_key o2).1 (op_key o2).2 h r) eqn:E2; cbn; try reflexivity.
  constructor. apply op_fn_comm; [done|].
  apply key_eq_true in E1 as [? ?], E2 as [? ?]. destruct (op_key o1), (op_key o2); cbn in *; congruence.
Qed.

Lemma apply_ops_comm v y xs :
  (forall x, x ∈ xs -> independent x y = true) ->
  apply_ops (apply_op v y) xs ≡ apply_op (apply_ops v xs) y.
Proof.
  revert v. induction xs as [|x xs IH]; intros v Hx; [done|].
  change (apply_ops (apply_op (apply_op v y) x) xs ≡ apply_op (apply_ops (apply_op v x) xs) y).
  rewrite <-(apply_op_comm v x y) by (apply Hx; set_solver).
  apply IH. intros x' Hin. apply Hx. set_solver.
Qed.

(** Two goroutines that record independent votes and proposers leave the
    same observable map in every interleaving: the one of running them in turn. *)
Theorem interleaving_irrelevant v xs ys zs :
  (forall x y, x ∈ xs -> y ∈ ys -> independent x y = true) ->
  interleave xs ys zs -> apply_ops v zs ≡ apply_ops v (xs ++ ys).
Proof.
  intros Hind Hil. revert v. induction Hil as [|x xs ys zs Hil IH|y xs ys zs Hil IH]; intros v.
  - done.
  - apply IH. intros ????. apply Hind; set_solver.
  - change (apply_ops (apply_op v y) zs ≡ apply_ops v (xs ++ y :: ys)).
    rewrite IH by (intros ????; apply Hind; set_solver).
    unfold apply_ops. rewrite !foldl_app. cbn. fold (apply_ops (apply_op v y) xs) (apply_ops v xs).
    apply apply_ops_proper; [|done]. apply apply_ops_comm. intros x Hx. apply Hind; set_solver.
Qed.

(** *** Iteration *)

Definition hr_lt (x y : HeightAndRound) : Prop :=
  hr_Height x < hr_Height y \/ (hr_Height x = hr_Height y /\ hr_Round x < hr_Round y).

Lemma sm_pairs_elem {V} (m : SortedMap (SortedMap V)) hr x :
  (hr, x) ∈ sm_pairs m <-> (r ← sm_get m (hr_Height hr); sm_get r (hr_Round hr)) = Some x.
Proof.
  unfold sm_pairs. rewrite list_elem_of_bind. split.
  - intros ([h rm] & Hq & Hp). cbn in Hq. apply list_elem_of_fmap in Hq as ([r y] & E & Hin).
    cbn in E. simplify_eq. cbn. apply sm_iter_elem in Hp, Hin. by rewrite Hp.
  - destruct hr as [h r]; cbn. destruct (sm_get m h) as [rm|] eqn:Em; cbn; [|done].
    intros Hr. exists (h, rm). split; [|by apply sm_iter_elem].
    apply list_elem_of_fmap. exists (r, x). split; [done|]. by apply sm_iter_elem.
Qed.

Lemma sm_pairs_sorted {V} (m : SortedMap (SortedMap V)) : StronglySorted hr_lt (sm_pairs m).*1.
Proof.
  unfold sm_pairs. pose proof (sm_iter_sorted _ m) as Hs.
  induction (sm_iter m) as [|[h rm] l IH]; cbn; [constructor|].
  cbn in Hs. inversion Hs as [|? ? Hl Hh]; subst. rewrite fmap_app.
  apply StronglySorted_app_2; [|clear -BL|by apply IH].
  2:{ pose proof (sm_iter_sorted _ rm) as Hm.
    induction (sm_iter rm) as [|[r x] l IH]; cbn in *; [constructor|].
    inversion Hm as [|? ? Hl Hr]; subst. constructor; [by apply IH|].
    rewrite !Forall_fmap. rewrite Forall_fmap in Hr. eapply Forall_impl; [exact Hr|].
    intros [r' x'] Hlt. right. by split. }
  intros x y (p & -> & Hp)%list_elem_of_fmap (q & -> & Hq)%list_elem_of_fmap.
  apply list_elem_of_fmap in Hp as ([r rd] & -> & _).
  apply list_elem_of_bind in Hq as ([h' m'] & Hq & Hin).
  apply list_elem_of_fmap in Hq as ([r' rd'] & -> & _). left. cbn.
  rewrite Forall_fmap, Forall_forall in Hh. apply (Hh _ Hin).
Qed.

Lemma sm_pairs_reverse {V} (m : SortedMap (SortedMap V)) : sm_reverse_pairs m = reverse (sm_pairs m).
Proof.
  unfold sm_reverse_pairs, sm_pairs. rewrite sm_reverse.
  induction (sm_iter m) as [|p l IH]; [done|].
  rewrite reverse_cons, bind_app, IH, !bind_cons, reverse_app. f_equal.
  change ([] ≫= _) with (@nil (HeightAndRound * V)).
  by rewrite app_nil_r, sm_reverse, fmap_reverse.
Qed.

(** Sorted by key, two lists of the same pairs are the same list. *)
Lemma sorted_pairs_unique {V} (l1 l2 : list (HeightAndRound * V)) :
  StronglySorted hr_lt l1.*1 -> StronglySorted hr_lt l2.*1 -> (forall p, p ∈ l1 <-> p ∈ l2) -> l1 = l2.
Proof.
  assert (Hanti : AntiSymm (=) (fun p q : HeightAndRound * V => hr_lt p.1 q.1)).
  { intros [[h r] x] [[h' r'] x']. unfold hr_lt. cbn. lia. }
  assert (HS : forall l : list (HeightAndRound * V), StronglySorted hr_lt l.*1 ->
    StronglySorted (fun p q => hr_lt p.1 q.1) l /\ NoDup l).
  { induction l as [|p l IH]; cbn; intros H; [split; constructor|].
    inversion H as [|? ? H1 H2]; subst. rewrite Forall_fmap in H2. destruct (IH H1) as [H3 H4].
    split; constructor; try done. intros Hin. rewrite Forall_forall in H2. specialize (H2 _ Hin).
    unfold hr_lt in H2. cbn in H2. lia. }
  intros [H1 N1]%HS [H2 N2]%HS He. exact (StronglySorted_unique _ _ _ H1 H2 (list_relations.list.NoDup_Permutation _ _ N1 N2 He)).
Qed.

Lemma iter_elem v hr rd :
  (hr, rd) ∈ iter_list v <-> lookup_round v (hr_Height hr) (hr_Round hr) = Some rd.
Proof. apply sm_pairs_elem. Qed.

Lemma iter_sorted v : StronglySorted hr_lt (iter_list v).*1.
Proof. apply sm_pairs_sorted. Qed.

Lemma reverse_iter v : reverse_iter_list v = reverse (iter_list v).
Proof. apply sm_pairs_reverse. Qed.

Lemma iter_keys_elem v hr :
  hr ∈ (iter_list v).*1 <-> is_Some (lookup_round v (hr_Height hr) (hr_Round hr)).
Proof.
  rewrite list_elem_of_fmap. split.
  - intros ([k rd] & -> & Hin%iter_elem). by exists rd.
  - intros [rd Hrd]. exists (hr, rd). split; [done|]. by apply iter_elem.
Qed.

(** The rounds visited depend on the keys only. *)
Lemma sorted_keys_unique (l1 l2 : list HeightAndRound) :
  StronglySorted hr_lt l1 -> StronglySorted hr_lt l2 -> (forall hr, hr ∈ l1 <-> hr ∈ l2) -> l1 = l2.
Proof.
  intros H1 H2 He. assert (E : (fun hr => (hr, tt)) <$> l1 = (fun hr => (hr, tt)) <$> l2).
  { apply sorted_pairs_unique; rewrite <-?list_fmap_compose; cbn; rewrite ?list_fmap_id; try done.
    intros [hr []]. rewrite !list_elem_of_fmap. naive_solver. }
  apply (f_equal (fmap fst)) in E. rewrite <-!list_fmap_compose in E. cbn in E. by rewrite !list_fmap_id in E.
Qed.

(** Recording a vote of a round later than all others adds that round at the end. *)
Lemma iter_keys_later v h r a t b : (forall hr, hr ∈ (iter_list v).*1 -> hr_lt hr (mkHR h r)) ->
  (iter_list (AddVote v h r a t b)).*1 = (iter_list v).*1 ++ [mkHR h r].
Proof.
  intros Hlt. apply sorted_keys_unique; [apply iter_sorted| |].
  - apply StronglySorted_app_2; [|apply iter_sorted|repeat constructor].
    intros x y Hx ->%list_elem_of_singleton. by apply Hlt.
  - intros [h' r']. rewrite elem_of_app, !iter_keys_elem, list_elem_of_singleton. cbn. rewrite lookup_AddVote.
    destruct (key_eq h r h' r') eqn:E.
    + apply key_eq_true in E as [<- <-]. split; [by right|by eexists].
    + split; [by left|intros [?|[= <- <-]]; [done|]]. by rewrite (proj2 (key_eq_true _ _ _ _)) in E.
Qed.

Lemma yield_all_fold {S A} (f : S -> A -> S) s l : yield_all (fun s x => (f s x, true)) s l = foldl f s l.
Proof. revert s. induction l as [|x l IH]; intros s; cbn; [done|]. apply IH. Qed.

(** Ranging over [Iter()] visits every recorded round exactly once, in
    ascending order of height and, within a height, of round; [ReverseIter()]
    visits the same pairs in the opposite order. *)
Theorem iter_lexicographic v {S} (f : S -> HeightAndRound * RoundData -> S) (s : S) :
  (exists l, Iter v (fun s x => (f s x, true)) s = foldl f s l /\
     ReverseIter v (fun s x => (f s x, true)) s = foldl f s (reverse l) /\
     StronglySorted hr_lt l.*1 /\
     forall h r rd, (mkHR h r, rd) ∈ l <-> lookup_round v h r = Some rd).
Proof.
  exists (iter_list v). unfold Iter, ReverseIter. rewrite !yield_all_fold, reverse_iter.
  split_and!; [done|done|apply iter_sorted|]. intros h r rd. apply (iter_elem v (mkHR h r) rd).
Qed.
End RoundOrder.

(** ** Witnesses, over the reference collections *)

Section RoundWitnesses.
Definition w_blk : BlockID := mkBlockID "b" (mkPSH 1 "p").
Definition w_ops : list round_op := [OpVote 7 0 "V" 1 zero_BlockID; OpProposer 7 0 "P"; OpVote 7 0 "V" 1 w_blk].

Lemma GetVote_last_vote_wins_witness :
  GetVote (B := ref_butils) (apply_ops NewRoundDataMap w_ops) 7 0 "V" 1 = VoteStateForBlock.
Proof. exact (GetVote_last_vote_wins (B := ref_butils) w_ops 7 0 "V" 1). Defined.

Lemma interleaving_irrelevant_witness :
  apply_ops (B := ref_butils) NewRoundDataMap [OpVote 7 0 "W" 1 w_blk; OpVote 7 0 "V" 1 w_blk] ≡
  apply_ops NewRoundDataMap [OpVote 7 0 "V" 1 w_blk; OpVote 7 0 "W" 1 w_blk].
Proof.
  apply (interleaving_irrelevant (B := ref_butils) NewRoundDataMap [OpVote 7 0 "V" 1 w_blk] [OpVote 7 0 "W" 1 w_blk]).
  - intros x y ->%list_elem_of_singleton ->%list_elem_of_singleton. vm_compute. reflexivity.
  - apply il_right, il_left, il_nil.
Defined.

Lemma iter_lexicographic_witness :
  exists l, Iter (B := ref_butils) (apply_ops NewRoundDataMap w_ops) (fun s x => (s + 1, true)) 0 =
    foldl (fun s (_ : HeightAndRound * RoundData (B := ref_butils)) => s + 1) 0 l.
Proof.
  destruct (iter_lexicographic (B := ref_butils) (apply_ops NewRoundDataMap w_ops) (fun s _ => s + 1) 0) as (l & H & _).
  by exists l.
Defined.
End RoundWitnesses.
