(* ===== verification/RoundHeap.v ===== *)
(** * Votes and rounds in memory ([pkg/types/round_data.go])

    [Rounds] models [RoundDataMap] with records as values.  In Go a round is a
    pointer, its proposers and votes are maps reached by reference, and a block
    identifier carries two byte slices.  Here the same operations run on an
    explicit heap, the deep copies of [Iter] and [GetProposers] included, and any
    client that writes through what it was given runs between them. *)

From S2P Require Import Prelude GoNum GoText Deps Rounds.
From Stdlib Require Import Ascii.
Local Open Scope Z_scope.

(** ** The heap *)

#[local] Notation loc := nat.

(** A slice: nil, or a pointer to an array and a length; a block identifier as
    the struct the code copies by value. *)
Definition hslice : Type := option (loc * nat).
Record HBlockID := mkHB { hb_Hash : hslice; hb_Total : Z; hb_PartsHash : hslice }.

Section Heap.
Context `{B : Butils} `{C : Comet}.

Inductive cell :=
  | CBytes (bs : list ascii)
  | CSet (s : GoSet string)
  | CInner (m : gmap Z HBlockID)
  | COuter (m : gmap string loc)
  | CRound (proposers votes : loc).

(** [h_next] is the allocator: no location at or above it is in use. *)
Record heap := mkHeap { h_cells : gmap loc cell; h_next : loc }.

Definition heap0 : heap := mkHeap ∅ 0.

(** Computations on the heap; [None] is a panic (a nil pointer). *)
Definition HM (A : Type) : Type := heap -> option (A * heap).
#[export] Instance HM_ret : MRet HM := fun A x h => Some (x, h).
#[export] Instance HM_bind : MBind HM := fun A C f m h =>
  match m h with Some (x, h') => f x h' | None => None end.

Definition alloc (c : cell) : HM loc := fun h =>
  Some (h_next h, mkHeap (<[h_next h := c]> (h_cells h)) (S (h_next h))).
Definition store (l : loc) (c : cell) : HM unit := fun h =>
  if bool_decide (is_Some (h_cells h !! l)) then Some (tt, mkHeap (<[l := c]> (h_cells h)) (h_next h)) else None.
Definition asks {A} (f : heap -> A) : HM A := fun h => Some (f h, h).
Definition load_bytes (l : loc) : HM (list ascii) := fun h =>
  match h_cells h !! l with Some (CBytes b) => Some (b, h) | _ => None end.
Definition load_set (l : loc) : HM (GoSet string) := fun h =>
  match h_cells h !! l with Some (CSet s) => Some (s, h) | _ => None end.
Definition load_inner (l : loc) : HM (gmap Z HBlockID) := fun h =>
  match h_cells h !! l with Some (CInner m) => Some (m, h) | _ => None end.
Definition load_outer (l : loc) : HM (gmap string loc) := fun h =>
  match h_cells h !! l with Some (COuter m) => Some (m, h) | _ => None end.
Definition load_entry (l : loc) : HM (loc * loc) := fun h =>
  match h_cells h !! l with Some (CRound p v) => Some ((p, v), h) | _ => None end.

(** ** [copyBlockID], [copyRoundData] *)

(** [append(b[:0:0], b...)]: nothing is allocated for nil or for no bytes. *)
Definition copy_slice (s : hslice) : HM hslice :=
  match s with
  | None => mret None
  | Some (l, 0%nat) => mret (Some (l, 0%nat))
  | Some (l, n) => bs ← load_bytes l; l' ← alloc (CBytes (take n bs)); mret (Some (l', n))
  end.

Definition copyBlockID (b : HBlockID) : HM HBlockID :=
  hash ← copy_slice (hb_Hash b);
  parts ← copy_slice (hb_PartsHash b);
  mret (mkHB hash (hb_Total b) parts).

(** [for k, v := range m { ... }] over the pairs a map yields. *)
Fixpoint for_each {A} (l : list A) (body : A -> HM unit) : HM unit :=
  match l with
  | [] => mret tt
  | x :: l' => _ ← body x; for_each l' body
  end.

Definition copy_votes (m : gmap Z HBlockID) (dst : loc) : HM unit :=
  for_each (map_to_list m) (fun p =>
    b ← copyBlockID p.2;
    d ← load_inner dst;
    store dst (CInner (<[p.1 := b]> d))).

(** One validator's entry: the new inner map. *)
Definition copy_inner (l : loc) : HM loc :=
  votesMap ← load_inner l;
  dst ← alloc (CInner ∅);
  _ ← copy_votes votesMap dst;
  mret dst.

Definition copyRoundData (rd : loc) : HM loc :=
  pv ← load_entry rd;
  s ← load_set pv.1;
  p ← alloc (CSet s);
  src ← load_outer pv.2;
  v ← alloc (COuter ∅);
  out ← alloc (CRound p v);
  _ ← for_each (map_to_list src) (fun q =>
    dst ← copy_inner q.2;
    o ← load_outer v;
    store v (COuter (<[q.1 := dst]> o)));
  mret out.

(** ** The operations: the sorted maps, which never leave the structure, hold
    pointers to rounds *)

Definition HRDM : Type := SortedMap (SortedMap loc).

Definition h_lookup (v : HRDM) (height round : Z) : option loc :=
  m ← sm_get v height; sm_get m round.

Definition h_upsertRoundData (v : HRDM) (height round : Z) : HM (HRDM * loc) :=
  let '(hs, roundMap) :=
    match sm_get v height with
    | Some roundMap => (v, roundMap)
    | None => (sm_insert v height sm_new, sm_new)
    end in
  match sm_get roundMap round with
  | Some roundData => mret (hs, roundData)
  | None =>
      p ← alloc (CSet set_new);
      vs ← alloc (COuter ∅);
      rd ← alloc (CRound p vs);
      mret (sm_insert hs height (sm_insert roundMap round rd), rd)
  end.

Definition h_AddProposer (v : HRDM) (height round : Z) (proposer : string) : HM HRDM :=
  up ← h_upsertRoundData v height round;
  pv ← load_entry up.2;
  s ← load_set pv.1;
  _ ← store pv.1 (CSet (set_add s proposer));
  mret up.1.

(** The inner map of a validator, made if there is none. *)
Definition get_entry (v : loc) (o : gmap string loc) (a : string) : HM loc :=
  match o !! a with
  | Some l => mret l
  | None => l ← alloc (CInner ∅); _ ← store v (COuter (<[a := l]> o)); mret l
  end.

Definition h_AddVote (v : HRDM) (height round : Z) (validator : string) (msgType : Z)
    (blockID : HBlockID) : HM HRDM :=
  up ← h_upsertRoundData v height round;
  pv ← load_entry up.2;
  votes ← load_outer pv.2;
  votesMap ← get_entry pv.2 votes validator;
  m ← load_inner votesMap;
  _ ← store votesMap (CInner (<[msgType := blockID]> m));
  mret up.1.

Definition h_GetProposers (v : HRDM) (height round : Z) : HM (option loc) :=
  match sm_get v height with
  | None => mret None
  | Some roundMap =>
      match sm_get roundMap round with
      | None => mret None
      | Some rd => pv ← load_entry rd; s ← load_set pv.1; l ← alloc (CSet s); mret (Some l)
      end
  end.

(** What a slice and a block identifier say. *)
Definition read_slice (h : heap) (s : hslice) : bytes :=
  match s with
  | None => ""
  | Some (l, n) =>
      match h_cells h !! l with Some (CBytes bs) => String.string_of_list_ascii (take n bs) | _ => "" end
  end.
Definition read_blockID (h : heap) (b : HBlockID) : BlockID :=
  mkBlockID (read_slice h (hb_Hash b)) (mkPSH (hb_Total b) (read_slice h (hb_PartsHash b))).

Definition h_GetVote (v : HRDM) (height round : Z) (validator : string) (msgType : Z) : HM VoteState :=
  match sm_get v height with
  | None => mret VoteStateNone
  | Some roundMap =>
      match sm_get roundMap round with
      | None => mret VoteStateNone
      | Some rd =>
          pv ← load_entry rd;
          votes ← load_outer pv.2;
          match votes !! validator with
          | None => mret VoteStateNone
          | Some l =>
              votesMap ← load_inner l;
              match votesMap !! msgType with
              | None => mret VoteStateNone
              | Some b => z ← asks (fun h => BlockID_IsZero (read_blockID h b));
                  mret (if z : bool then VoteStateNil else VoteStateForBlock)
              end
          end
      end
  end.

(** [Iter()] and [ReverseIter()] up to the [limit]-th pair, where the body
    returns false: the pairs handed to the body. *)
Fixpoint hand_out (l : list (HeightAndRound * loc)) : HM (list (HeightAndRound * loc)) :=
  match l with
  | [] => mret []
  | p :: l' => c ← copyRoundData p.2; rest ← hand_out l'; mret ((p.1, c) :: rest)
  end.
Definition h_Iter (v : HRDM) (limit : nat) : HM (list (HeightAndRound * loc)) :=
  hand_out (take limit (sm_pairs v)).
Definition h_ReverseIter (v : HRDM) (limit : nat) : HM (list (HeightAndRound * loc)) :=
  hand_out (take limit (sm_reverse_pairs v)).

(** What a pointer to a round says. *)
Definition read_set (h : heap) (l : loc) : GoSet string :=
  match h_cells h !! l with Some (CSet s) => s | _ => set_new end.
Definition read_inner (h : heap) (l : loc) : gmap Z BlockID :=
  match h_cells h !! l with Some (CInner m) => read_blockID h <$> m | _ => ∅ end.
Definition read_outer (h : heap) (l : loc) : gmap string (gmap Z BlockID) :=
  match h_cells h !! l with Some (COuter m) => read_inner h <$> m | _ => ∅ end.
Definition read_round (h : heap) (l : loc) : RoundData :=
  match h_cells h !! l with
  | Some (CRound p v) => mkRoundData (read_set h p) (read_outer h v)
  | _ => new_RoundData
  end.
End Heap.

Arguments heap {_}.
Arguments cell {_}.
Arguments HRDM {_}.

(** ** What a heap may become: everything allocated stays as it is, but for the
    cells of [X] *)

Section HeapFacts.
Context `{BL : ButilsLaws} `{C : Comet}.
Implicit Types (n : nat) (h : heap) (l : loc) (X : gset loc).

Definition heap_wf h : Prop := forall l, is_Some (h_cells h !! l) -> (l < h_next h)%nat.

Record ext X h h' : Prop := {
  ext_wf : heap_wf h';
  ext_next : (h_next h <= h_next h')%nat;
  ext_same : forall l, (l < h_next h)%nat -> l ∉ X -> h_cells h' !! l = h_cells h !! l }.

Lemma ext_refl X h : heap_wf h -> ext X h h.
Proof. intros Hw. by split. Qed.
Lemma ext_trans X h1 h2 h3 : ext X h1 h2 -> ext X h2 h3 -> ext X h1 h3.
Proof.
  intros [H1 H2 H3] [H4 H5 H6]. split; [done|lia|]. intros l Hl Hx. rewrite H6 by (lia || done). by apply H3.
Qed.
Lemma ext_mono X Y h h' : X ⊆ Y -> ext X h h' -> ext Y h h'.
Proof. intros Hxy [H1 H2 H3]. split; [done..|]. intros l Hl Hy. apply H3; set_solver. Qed.
(** Cells that did not exist before need not be named. *)
Lemma ext_fresh X h h' : ext X h h' -> (forall l, l ∈ X -> (h_next h <= l)%nat) -> ext ∅ h h'.
Proof. intros [H1 H2 H3] Hx. split; [done..|]. intros l Hl _. apply H3; [done|]. intros Hin%Hx. lia. Qed.

Lemma lookup_lt h l c : heap_wf h -> h_cells h !! l = Some c -> (l < h_next h)%nat.
Proof. intros Hw E. apply Hw. by rewrite E. Qed.
Lemma ext_lookup X h h' l c :
  heap_wf h -> ext X h h' -> l ∉ X -> h_cells h !! l = Some c -> h_cells h' !! l = Some c.
Proof. intros Hw He Hx E. rewrite (ext_same _ _ _ He); [done|by eapply lookup_lt|done]. Qed.

Lemma ext_kept h h' l c :
  heap_wf h -> ext ∅ h h' -> h_cells h !! l = Some c -> h_cells h' !! l = Some c.
Proof. intros Hw He. by apply (ext_lookup ∅). Qed.

Lemma alloc_ext h c : heap_wf h -> ext ∅ h (mkHeap (<[h_next h := c]> (h_cells h)) (S (h_next h))).
Proof.
  intros Hw. split; unfold heap_wf; cbn [h_cells h_next].
  - intros l. destruct (decide (l = h_next h)) as [->|Hne]; [lia|].
    rewrite lookup_insert_ne by done. intros Hs%Hw. lia.
  - lia.
  - intros l Hl _. apply lookup_insert_ne. lia.
Qed.

Lemma store_ext h l c : heap_wf h -> is_Some (h_cells h !! l) ->
  ext {[ l ]} h (mkHeap (<[l := c]> (h_cells h)) (h_next h)).
Proof.
  intros Hw Hl. split; unfold heap_wf; cbn [h_cells h_next].
  - intros l'. destruct (decide (l' = l)) as [->|Hne]; [intros _; by apply Hw|].
    rewrite lookup_insert_ne by done. apply Hw.
  - lia.
  - intros l' _ Hne. apply lookup_insert_ne. set_solver.
Qed.

Lemma store_run h l c : is_Some (h_cells h !! l) ->
  store l c h = Some (tt, mkHeap (<[l := c]> (h_cells h)) (h_next h)).
Proof. intros Hl. unfold store. by rewrite bool_decide_eq_true_2. Qed.

(** *** What can be read, at locations from [n] on *)

Definition slice_ok (n : nat) h (s : hslice) : Prop :=
  match s with
  | Some (l, S k) => (n <= l)%nat /\ exists bs, h_cells h !! l = Some (CBytes bs) /\ (S k <= length bs)%nat
  | _ => True
  end.
Definition bid_ok n h (b : HBlockID) : Prop := slice_ok n h (hb_Hash b) /\ slice_ok n h (hb_PartsHash b).
Definition inner_ok n h l : Prop :=
  (n <= l)%nat /\ exists m, h_cells h !! l = Some (CInner m) /\ map_Forall (fun _ b => bid_ok n h b) m.
Definition outer_ok n h l : Prop :=
  (n <= l)%nat /\ exists m, h_cells h !! l = Some (COuter m) /\ map_Forall (fun _ li => inner_ok n h li) m.
Definition round_ok n h l : Prop :=
  (n <= l)%nat /\ exists p v s, h_cells h !! l = Some (CRound p v) /\
    (n <= p)%nat /\ h_cells h !! p = Some (CSet s) /\ outer_ok n h v.

Lemma slice_ok_mono n k h s : (k <= n)%nat -> slice_ok n h s -> slice_ok k h s.
Proof. intros Hk. destruct s as [[l [|j]]|]; [done| |done]. intros [H1 H2]. split; [lia|done]. Qed.
Lemma bid_ok_mono n k h b : (k <= n)%nat -> bid_ok n h b -> bid_ok k h b.
Proof. intros Hk [H1 H2]. split; by eapply slice_ok_mono. Qed.
Lemma inner_ok_mono n k h l : (k <= n)%nat -> inner_ok n h l -> inner_ok k h l.
Proof.
  intros Hk (H1 & m & E & Hm). split; [lia|]. exists m. split; [done|]. intros t b Hb. eapply bid_ok_mono; [done|by eapply Hm].
Qed.
Lemma round_ok_mono n k h l : (k <= n)%nat -> round_ok n h l -> round_ok k h l.
Proof.
  intros Hk (H1 & p & v & s & E & H2 & Ep & H3 & m & Ev & Hm). split; [lia|]. exists p, v, s.
  split_and!; [done|lia|done|]. split; [lia|]. exists m. split; [done|].
  intros a li Ha. eapply inner_ok_mono; [done|by eapply Hm].
Qed.

(** [X] holds no array. *)
Definition no_bytes h X : Prop := forall l bs, l ∈ X -> h_cells h !! l <> Some (CBytes bs).

Lemma read_slice_0 h l : read_slice h (Some (l, 0%nat)) = "".
Proof. cbn. repeat case_match; done. Qed.

Section Frame.
Context X h h' (Hw : heap_wf h) (He : ext X h h') (Hx : no_bytes h X).

Lemma slice_frame n s : slice_ok n h s -> slice_ok n h' s /\ read_slice h' s = read_slice h s.
Proof.
  destruct s as [[l [|k]]|]; [by rewrite !read_slice_0| |done].
  intros (Hln & bs & E & Hn). assert (E' : h_cells h' !! l = Some (CBytes bs)).
  { eapply ext_lookup; [done..| |done]. intros Hin. by eapply Hx. }
  split; [split; [done|by exists bs]|]. unfold read_slice. by rewrite E, E'.
Qed.

Lemma bid_frame n b : bid_ok n h b -> bid_ok n h' b /\ read_blockID h' b = read_blockID h b.
Proof.
  intros [[H1 H2]%slice_frame [H3 H4]%slice_frame]. split; [done|]. unfold read_blockID. by rewrite H2, H4.
Qed.

Lemma inner_frame n l : l ∉ X -> inner_ok n h l -> inner_ok n h' l /\ read_inner h' l = read_inner h l.
Proof.
  intros Hl (Hln & m & E & Hm). assert (E' : h_cells h' !! l = Some (CInner m)) by (by eapply ext_lookup).
  split.
  - split; [done|]. exists m. split; [done|]. intros t b Hb. apply (bid_frame n), (Hm _ _ Hb).
  - unfold read_inner. rewrite E, E'. apply map_fmap_ext. intros t b Hb. apply (bid_frame n), (Hm _ _ Hb).
Qed.
End Frame.

(** With no cell changed, whole rounds keep their reading. *)
Lemma no_bytes_cell h l c : h_cells h !! l = Some c -> (forall bs, c <> CBytes bs) -> no_bytes h {[ l ]}.
Proof. intros E Hc l' bs ->%elem_of_singleton E'. rewrite E in E'. injection E' as E'. by eapply Hc. Qed.
Lemma no_bytes_empty h : no_bytes h ∅.
Proof. intros l bs Hl. set_solver. Qed.

Lemma outer_frame n h h' l : heap_wf h -> ext ∅ h h' -> outer_ok n h l ->
  outer_ok n h' l /\ read_outer h' l = read_outer h l.
Proof.
  intros Hw He (Hln & m & E & Hm). assert (E' : h_cells h' !! l = Some (COuter m)) by (eapply ext_kept; eassumption).
  pose proof (fun l => inner_frame _ _ _ Hw He (no_bytes_empty h) n l) as Hi. split.
  - split; [done|]. exists m. split; [done|]. intros a li Ha. apply Hi; [set_solver|]. apply (Hm _ _ Ha).
  - unfold read_outer. rewrite E, E'. apply map_fmap_ext. intros a li Ha. apply Hi; [set_solver|]. apply (Hm _ _ Ha).
Qed.

Lemma round_frame n h h' l : heap_wf h -> ext ∅ h h' -> round_ok n h l ->
  round_ok n h' l /\ read_round h' l = read_round h l.
Proof.
  intros Hw He (Hln & p & v & s & E1 & Hp & E2 & Ho). destruct (outer_frame _ _ _ _ Hw He Ho) as [Ho' Er].
  assert (h_cells h' !! l = Some (CRound p v)) as E1' by (eapply ext_kept; eassumption).
  assert (h_cells h' !! p = Some (CSet s)) as E2' by (eapply ext_kept; eassumption).
  split; [split; [done|by exists p, v, s]|]. unfold read_round, read_set. by rewrite E1, E1', E2, E2', Er.
Qed.
End HeapFacts.

(** ** Running computations *)

Section Runs.
Context `{B : Butils} `{C : Comet}.
Implicit Types (h : heap) (l : loc).

Lemma bind_run {A D} (m : HM A) (f : A -> HM D) h x h' : m h = Some (x, h') -> (m ≫= f) h = f x h'.
Proof. intros E. unfold mbind, HM_bind. by rewrite E. Qed.

(** Loading what is there. *)
Lemma load_bytes_run h l bs : h_cells h !! l = Some (CBytes bs) -> load_bytes l h = Some (bs, h).
Proof. intros E. unfold load_bytes. by rewrite E. Qed.
Lemma load_set_run h l s : h_cells h !! l = Some (CSet s) -> load_set l h = Some (s, h).
Proof. intros E. unfold load_set. by rewrite E. Qed.
Lemma load_inner_run h l m : h_cells h !! l = Some (CInner m) -> load_inner l h = Some (m, h).
Proof. intros E. unfold load_inner. by rewrite E. Qed.
Lemma load_outer_run h l m : h_cells h !! l = Some (COuter m) -> load_outer l h = Some (m, h).
Proof. intros E. unfold load_outer. by rewrite E. Qed.
Lemma load_round_run h l p v : h_cells h !! l = Some (CRound p v) -> load_entry l h = Some ((p, v), h).
Proof. intros E. unfold load_entry. by rewrite E. Qed.
End Runs.

(** One step of a computation: the next load, allocation or store is run. *)
Ltac hrun :=
  first
    [ erewrite bind_run; [|first [ eassumption | reflexivity
        | eapply load_bytes_run; eassumption | eapply load_set_run; eassumption
        | eapply load_inner_run; eassumption | eapply load_outer_run; eassumption
        | eapply load_round_run; eassumption
        | eapply store_run; by eexists ]]; cbn [fst snd] ].

(** ** The copies are deep and faithful *)

Section CopyFacts.
Context `{BL : ButilsLaws} `{C : Comet}.
Implicit Types (n : nat) (h : heap) (l : loc) (X : gset loc).

Lemma copy_slice_spec n h s : heap_wf h -> (n <= h_next h)%nat -> slice_ok 0 h s ->
  exists s' h', copy_slice s h = Some (s', h') /\ ext ∅ h h' /\ slice_ok n h' s' /\ read_slice h' s' = read_slice h s.
Proof.
  intros Hw Hn Hs. destruct s as [[l [|k]]|].
  - exists (Some (l, 0%nat)), h. rewrite !read_slice_0. split_and!; [done|by apply ext_refl|done..].
  - destruct Hs as (_ & bs & E & Hk). do 2 eexists. split; [cbn; hrun; hrun; reflexivity|].
    split; [by apply alloc_ext|]. split.
    + split; [done|]. exists (take (S k) bs). cbn [h_cells].
      split; [apply lookup_insert_eq|]. rewrite length_take. lia.
    + unfold read_slice. cbn [h_cells]. rewrite lookup_insert_eq, E, take_take. by rewrite Nat.min_id.
  - exists None, h. split_and!; [done|by apply ext_refl|done..].
Qed.

Lemma copyBlockID_spec n h b : heap_wf h -> (n <= h_next h)%nat -> bid_ok 0 h b ->
  exists b' h', copyBlockID b h = Some (b', h') /\ ext ∅ h h' /\ bid_ok n h' b' /\ read_blockID h' b' = read_blockID h b.
Proof.
  intros Hw Hn [H1 H2].
  destruct (copy_slice_spec n h _ Hw Hn H1) as (s1 & h1 & E1 & X1 & O1 & R1).
  assert (Hw1 := ext_wf _ _ _ X1). assert (Hn1 := ext_next _ _ _ X1).
  destruct (slice_frame _ _ _ Hw X1 (no_bytes_empty h) _ _ H2) as [H2' R2'].
  destruct (copy_slice_spec n h1 (hb_PartsHash b) Hw1 ltac:(lia) H2') as (s2 & h2 & E2 & X2 & O2 & R2).
  destruct (slice_frame _ _ _ Hw1 X2 (no_bytes_empty h1) _ _ O1) as [O1' R1'].
  exists (mkHB s1 (hb_Total b) s2), h2. split; [unfold copyBlockID; hrun; hrun; done|].
  split; [by eapply ext_trans|]. split; [done|]. unfold read_blockID. cbn. by rewrite R1', R1, R2, R2'.
Qed.

(** A [for range] over a map that inserts each pair builds the mapped map. *)
Lemma foldl_insert_fmap {K V W} `{Countable K} (f : V -> W) (m : gmap K V) :
  foldl (fun acc p => <[p.1 := f p.2]> acc) ∅ (map_to_list m) = f <$> m.
Proof.
  assert (HG : forall (l : list (K * V)) acc, NoDup l.*1 ->
    foldl (fun acc p => <[p.1 := f p.2]> acc) acc l = (f <$> (list_to_map l : gmap K V)) ∪ acc).
  { induction l as [|[k v] l IH]; intros acc Hnd; cbn; [by rewrite fmap_empty, map_empty_union|].
    cbn in Hnd. inversion Hnd as [|? ? Hk Hl]; subst. rewrite IH by done. rewrite fmap_insert.
    rewrite <-insert_union_l, insert_union_r; [done|].
    rewrite lookup_fmap. apply fmap_None. by apply not_elem_of_list_to_map_1. }
  rewrite HG by apply NoDup_fst_map_to_list. rewrite list_to_map_to_list. apply map_union_empty.
Qed.

Lemma map_Forall_insert_pair {K V} `{Countable K} (P : V -> Prop) (m : gmap K V) k v :
  P v -> map_Forall (fun _ => P) m -> map_Forall (fun _ => P) (<[k := v]> m).
Proof. intros Hv Hm. by apply map_Forall_insert_2. Qed.

Lemma copy_votes_loop n dst ps : forall h d0,
  heap_wf h -> (n <= h_next h)%nat -> h_cells h !! dst = Some (CInner d0) ->
  map_Forall (fun _ b => bid_ok n h b) d0 -> Forall (fun p : Z * HBlockID => bid_ok 0 h p.2) ps ->
  exists h' d',
    for_each ps (fun p => b ← copyBlockID p.2; d ← load_inner dst; store dst (CInner (<[p.1 := b]> d))) h = Some (tt, h') /\
    ext {[ dst ]} h h' /\ h_cells h' !! dst = Some (CInner d') /\ map_Forall (fun _ b => bid_ok n h' b) d' /\
    read_blockID h' <$> d' = foldl (fun acc p => <[p.1 := read_blockID h p.2]> acc) (read_blockID h <$> d0) ps.
Proof.
  induction ps as [|[t b] ps IH]; intros h d0 Hw Hn Hd Hd0 Hl; cbn [for_each foldl fst snd].
  { exists h, d0. split_and!; [done|by apply ext_refl|done..]. }
  inversion Hl as [|? ? Hb Hl']; subst. cbn in Hb.
  destruct (copyBlockID_spec n h b Hw Hn Hb) as (b' & h1 & E1 & X1 & O1 & R1).
  assert (Hw1 := ext_wf _ _ _ X1). assert (Hn1 := ext_next _ _ _ X1).
  assert (Hd1 : h_cells h1 !! dst = Some (CInner d0)) by exact (ext_kept _ _ _ _ Hw X1 Hd).
  set (h2 := mkHeap (<[dst := CInner (<[t := b']> d0)]> (h_cells h1)) (h_next h1)).
  assert (X2 : ext {[ dst ]} h1 h2) by (apply store_ext; [done|by rewrite Hd1]).
  assert (Hw2 := ext_wf _ _ _ X2).
  assert (Hnb : no_bytes h1 {[ dst ]}) by (by apply (no_bytes_cell _ _ _ Hd1)).
  pose proof (bid_frame _ _ _ Hw X1 (no_bytes_empty h)) as F1. pose proof (bid_frame _ _ _ Hw1 X2 Hnb) as F2.
  assert (F12 : forall k c, bid_ok k h c -> bid_ok k h2 c /\ read_blockID h2 c = read_blockID h c).
  { intros k c [H1 H2]%F1. destruct (F2 _ _ H1) as [H3 H4]. split; [done|by rewrite H4]. }
  destruct (IH h2 (<[t := b']> d0)) as (h' & d' & E' & X' & D' & O' & R'); [done| | | | |].
  - cbn. lia.
  - cbn [h2 h_cells]. by rewrite lookup_insert_eq.
  - apply map_Forall_insert_pair; [by apply F2|]. intros k c Hc. apply F12, (Hd0 _ _ Hc).
  - eapply Forall_impl; [exact Hl'|]. intros p Hp. by apply F12.
  - exists h', d'. split.
    { erewrite bind_run; [exact E'|]. hrun. hrun. apply store_run. by rewrite Hd1. }
    split; [eapply ext_trans; [exact (ext_mono _ _ _ _ (empty_subseteq _) X1)|by eapply ext_trans]|].
    split_and!; [done..|]. rewrite R', fmap_insert. rewrite (proj2 (F2 _ _ O1)), R1.
    replace (read_blockID h2 <$> d0) with (read_blockID h <$> d0)
      by (apply map_fmap_ext; intros k c Hc; symmetry; apply (F12 n), (Hd0 _ _ Hc)).
    clear -F12 Hl'. generalize (<[t := read_blockID h b]> (read_blockID h <$> d0)). intros acc. revert acc.
    induction Hl' as [|[k c] ps Hc Hl IH]; intros acc; cbn [foldl fst snd]; [done|].
    cbn in Hc. by rewrite (proj2 (F12 _ _ Hc)), IH.
Qed.

Lemma copy_inner_spec n h l : heap_wf h -> (n <= h_next h)%nat -> inner_ok 0 h l ->
  exists dst h', copy_inner l h = Some (dst, h') /\ ext ∅ h h' /\ inner_ok n h' dst /\ read_inner h' dst = read_inner h l.
Proof.
  intros Hw Hn (_ & m & E & Hm).
  set (h1 := mkHeap (<[h_next h := CInner ∅]> (h_cells h)) (S (h_next h))).
  assert (X1 : ext ∅ h h1) by (by apply alloc_ext). assert (Hw1 := ext_wf _ _ _ X1).
  pose proof (bid_frame _ _ _ Hw X1 (no_bytes_empty h)) as F1.
  destruct (copy_votes_loop n (h_next h) (map_to_list m) h1 ∅) as (h' & d' & E' & X' & D' & O' & R').
  - done.
  - cbn. lia.
  - cbn [h1 h_cells]. apply lookup_insert_eq.
  - apply map_Forall_empty.
  - apply Forall_forall. intros [t b] Hb%elem_of_map_to_list. apply F1, (Hm _ _ Hb).
  - exists (h_next h), h'. split; [unfold copy_inner; hrun; hrun; erewrite bind_run; [|exact E']; done|].
    split; [|split].
    + apply (ext_fresh {[ h_next h ]}); [eapply ext_trans; [exact (ext_mono _ _ _ _ (empty_subseteq _) X1)|done]|]. set_solver by lia.
    + split; [done|]. by exists d'.
    + unfold read_inner at 1. rewrite D', R', fmap_empty, foldl_insert_fmap.
      unfold read_inner. rewrite E. apply map_fmap_ext. intros t b Hb. apply (F1 0%nat), (Hm _ _ Hb).
Qed.

Lemma copy_outer_loop n v ps : forall h o0,
  heap_wf h -> (n <= h_next h)%nat -> h_cells h !! v = Some (COuter o0) ->
  map_Forall (fun _ li => inner_ok n h li) o0 -> Forall (fun p : string * loc => inner_ok 0 h p.2) ps ->
  exists h' o',
    for_each ps (fun q => dst ← copy_inner q.2; o ← load_outer v; store v (COuter (<[q.1 := dst]> o))) h = Some (tt, h') /\
    ext {[ v ]} h h' /\ h_cells h' !! v = Some (COuter o') /\ map_Forall (fun _ li => inner_ok n h' li) o' /\
    read_inner h' <$> o' = foldl (fun acc p => <[p.1 := read_inner h p.2]> acc) (read_inner h <$> o0) ps.
Proof.
  induction ps as [|[a l] ps IH]; intros h o0 Hw Hn Hv Ho0 Hl; cbn [for_each foldl fst snd].
  { exists h, o0. split_and!; [done|by apply ext_refl|done..]. }
  inversion Hl as [|? ? Hb Hl']; subst. cbn in Hb.
  destruct (copy_inner_spec n h l Hw Hn Hb) as (dst & h1 & E1 & X1 & O1 & R1).
  assert (Hw1 := ext_wf _ _ _ X1). assert (Hn1 := ext_next _ _ _ X1).
  assert (Hv1 : h_cells h1 !! v = Some (COuter o0)) by exact (ext_kept _ _ _ _ Hw X1 Hv).
  set (h2 := mkHeap (<[v := COuter (<[a := dst]> o0)]> (h_cells h1)) (h_next h1)).
  assert (X2 : ext {[ v ]} h1 h2) by (apply store_ext; [done|by rewrite Hv1]).
  assert (Hw2 := ext_wf _ _ _ X2).
  assert (Hnb : no_bytes h1 {[ v ]}) by (by apply (no_bytes_cell _ _ _ Hv1)).
  assert (Hne : forall k l', inner_ok k h1 l' -> l' ∉ ({[ v ]} : gset loc)).
  { intros k l' (_ & m & E & _) ->%elem_of_singleton. congruence. }
  pose proof (fun k l => inner_frame _ _ _ Hw X1 (no_bytes_empty h) k l (not_elem_of_empty l)) as F1.
  pose proof (fun k l H => inner_frame _ _ _ Hw1 X2 Hnb k l (Hne k l H) H) as F2.
  assert (F12 : forall k c, inner_ok k h c -> inner_ok k h2 c /\ read_inner h2 c = read_inner h c).
  { intros k c [H1 H2]%F1. destruct (F2 _ _ H1) as [H3 H4]. split; [done|by rewrite H4]. }
  destruct (IH h2 (<[a := dst]> o0)) as (h' & o' & E' & X' & D' & O' & R'); [done| | | | |].
  - cbn. lia.
  - cbn [h2 h_cells]. apply lookup_insert_eq.
  - apply map_Forall_insert_pair; [by apply F2|]. intros k c Hc. apply F12, (Ho0 _ _ Hc).
  - eapply Forall_impl; [exact Hl'|]. intros p Hp. by apply F12.
  - exists h', o'. split.
    { erewrite bind_run; [exact E'|]. hrun. hrun. apply store_run. by rewrite Hv1. }
    split; [eapply ext_trans; [exact (ext_mono _ _ _ _ (empty_subseteq _) X1)|by eapply ext_trans]|].
    split_and!; [done..|]. rewrite R', fmap_insert. rewrite (proj2 (F2 _ _ O1)), R1.
    replace (read_inner h2 <$> o0) with (read_inner h <$> o0)
      by (apply map_fmap_ext; intros k c Hc; symmetry; apply (F12 n), (Ho0 _ _ Hc)).
    clear -F12 Hl'. generalize (<[a := read_inner h l]> (read_inner h <$> o0)). intros acc. revert acc.
    induction Hl' as [|[k c] ps Hc Hl IH]; intros acc; cbn [foldl fst snd]; [done|].
    cbn in Hc. by rewrite (proj2 (F12 _ _ Hc)), IH.
Qed.

Lemma copyRoundData_spec h rd : heap_wf h -> round_ok 0 h rd ->
  exists out h', copyRoundData rd h = Some (out, h') /\ ext ∅ h h' /\
    round_ok (h_next h) h' out /\ read_round h' out = read_round h rd.
Proof.
  intros Hw (_ & p & v & s & E & _ & Ep & _ & src & Ev & Hsrc).
  set (h1 := mkHeap (<[h_next h := CSet s]> (h_cells h)) (S (h_next h))).
  set (h2 := mkHeap (<[h_next h1 := COuter ∅]> (h_cells h1)) (S (h_next h1))).
  set (h3 := mkHeap (<[h_next h2 := CRound (h_next h) (h_next h1)]> (h_cells h2)) (S (h_next h2))).
  assert (X1 : ext ∅ h h1) by (by apply alloc_ext). assert (Hw1 := ext_wf _ _ _ X1).
  assert (X2 : ext ∅ h1 h2) by (by apply alloc_ext). assert (Hw2 := ext_wf _ _ _ X2).
  assert (X3 : ext ∅ h2 h3) by (by apply alloc_ext). assert (Hw3 := ext_wf _ _ _ X3).
  assert (X13 : ext ∅ h h3) by (eapply ext_trans; [exact X1|by eapply ext_trans]).
  assert (E1 : h_cells h1 !! h_next h = Some (CSet s)) by (cbn [h1 h_cells]; apply lookup_insert_eq).
  assert (E2 : h_cells h2 !! h_next h1 = Some (COuter ∅)) by (cbn [h2 h_cells]; apply lookup_insert_eq).
  assert (E3 : h_cells h3 !! h_next h2 = Some (CRound (h_next h) (h_next h1))) by (cbn [h3 h_cells]; apply lookup_insert_eq).
  pose proof (ext_kept _ _ _ _ Hw2 X3 (ext_kept _ _ _ _ Hw1 X2 E1)) as E1'.
  pose proof (ext_kept _ _ _ _ Hw2 X3 E2) as E2'.
  pose proof (fun l => inner_frame _ _ _ Hw X13 (no_bytes_empty h) 0 l (not_elem_of_empty l)) as F.
  pose proof (ext_kept _ _ _ _ Hw X1 Ev) as Ev1.
  destruct (copy_outer_loop (h_next h) (h_next h1) (map_to_list src) h3 ∅) as (h' & o' & E' & X' & D' & O' & R').
  - done.
  - cbn. lia.
  - exact E2'.
  - apply map_Forall_empty.
  - apply Forall_forall. intros [a l] Hb%elem_of_map_to_list. apply F, (Hsrc _ _ Hb).
  - assert (Hk : forall l c, l <> h_next h1 -> h_cells h3 !! l = Some c -> h_cells h' !! l = Some c).
    { intros l c Hl. apply (ext_lookup _ _ _ _ _ Hw3 X'). set_solver. }
    assert (Ep' : h_cells h' !! h_next h = Some (CSet s)) by (apply Hk; [cbn; lia|done]).
    assert (Er' : h_cells h' !! h_next h2 = Some (CRound (h_next h) (h_next h1))) by (apply Hk; [cbn; lia|done]).
    exists (h_next h2), h'. split; [|split; [|split]].
    + unfold copyRoundData. hrun. hrun. hrun. erewrite bind_run; [|eapply load_outer_run; exact Ev1].
      hrun. hrun. erewrite bind_run; [|exact E']. done.
    + apply (ext_fresh {[ h_next h1 ]}); [eapply ext_trans; [exact (ext_mono _ _ _ _ (empty_subseteq _) X13)|done]|].
      intros l ->%elem_of_singleton. cbn. lia.
    + split; [cbn; lia|]. exists (h_next h), (h_next h1), s. split_and!; [done|lia|done|]. split; [cbn; lia|]. by exists o'.
    + unfold read_round. rewrite Er', E. unfold read_set, read_outer. rewrite Ep', D', Ep, Ev. f_equal.
      rewrite R', fmap_empty, foldl_insert_fmap. apply map_fmap_ext. intros a l Hb. apply F, (Hsrc _ _ Hb).
Qed.

(** What a loop over [Iter()] or [ReverseIter()] is given. *)
Lemma hand_out_spec ps : forall h, heap_wf h -> Forall (fun p : HeightAndRound * loc => round_ok 0 h p.2) ps ->
  exists out h', hand_out ps h = Some (out, h') /\ ext ∅ h h' /\
    Forall (fun p => round_ok (h_next h) h' p.2) out /\
    (fun p => (p.1, read_round h' p.2)) <$> out = (fun p => (p.1, read_round h p.2)) <$> ps.
Proof.
  induction ps as [|[hr rd] ps IH]; intros h Hw Hl; cbn [hand_out fmap list_fmap fst snd].
  { exists [], h. split_and!; [done|by apply ext_refl|done..]. }
  inversion Hl as [|? ? Hr Hl']; subst.
  destruct (copyRoundData_spec h rd Hw Hr) as (c & h1 & E1 & X1 & O1 & R1).
  assert (Hw1 := ext_wf _ _ _ X1). assert (Hn1 := ext_next _ _ _ X1).
  destruct (IH h1 Hw1) as (out & h' & E' & X' & O' & R').
  { eapply Forall_impl; [exact Hl'|]. intros p Hp. by apply (round_frame _ _ _ _ Hw X1). }
  destruct (round_frame _ _ _ _ Hw1 X' O1) as [O1' R1'].
  exists ((hr, c) :: out), h'. split; [hrun; hrun; done|]. split; [by eapply ext_trans|]. split.
  - constructor; [done|]. eapply Forall_impl; [exact O'|]. intros p Hp. by eapply round_ok_mono.
  - cbn. rewrite R1', R1. f_equal. rewrite R'. apply list_fmap_ext. intros i p Hp. f_equal.
    apply (round_frame 0 _ _ _ Hw X1). rewrite Forall_forall in Hl'. apply Hl'. by eapply list_elem_of_lookup_2.
Qed.
End CopyFacts.

(** ** Clients

    [w_writable] is what code outside the structure can write to: what it
    allocated and everything it can reach from what it was given.  A block
    identifier passed to [AddVote] is kept as it is, so its arrays count as given
    away from then on.  [w_log] is the history of the recorded operations, with
    each identifier as it read when it was recorded. *)

Section Clients.
Context `{B : Butils} `{C : Comet}.
Implicit Types (h : heap) (l : loc).

Definition reach_slice (s : hslice) : gset loc := match s with Some (l, S _) => {[ l ]} | _ => ∅ end.
Definition reach_blockID (b : HBlockID) : gset loc := reach_slice (hb_Hash b) ∪ reach_slice (hb_PartsHash b).
Definition reach_inner h l : gset loc :=
  {[ l ]} ∪ match h_cells h !! l with
            | Some (CInner m) => ⋃ ((fun p => reach_blockID p.2) <$> map_to_list m)
            | _ => ∅
            end.
Definition reach_outer h l : gset loc :=
  {[ l ]} ∪ match h_cells h !! l with
            | Some (COuter m) => ⋃ ((fun p => reach_inner h p.2) <$> map_to_list m)
            | _ => ∅
            end.
Definition reach_round h l : gset loc :=
  {[ l ]} ∪ match h_cells h !! l with Some (CRound p v) => {[ p ]} ∪ reach_outer h v | _ => ∅ end.

Record world := mkWorld {
  w_heap : heap; w_map : HRDM; w_writable : gset loc; w_log : list round_op }.

Definition world0 : world := mkWorld heap0 sm_new ∅ [].

Inductive client_action :=
  | ActProposer (height round : Z) (proposer : string)
  | ActVote (height round : Z) (validator : string) (msgType : Z) (blockID : HBlockID)
  | ActGetProposers (height round : Z)
  | ActIter (limit : nat)
  | ActReverseIter (limit : nat)
  | ActNew (c : cell)
  | ActWrite (l : loc) (c : cell).

(** A client passes slices of arrays that exist, and writes where it can. *)
Definition slice_okb h (s : hslice) : bool :=
  match s with
  | Some (l, S k) => match h_cells h !! l with Some (CBytes bs) => bool_decide (S k <= length bs)%nat | _ => false end
  | _ => true
  end.
Definition legal (w : world) (a : client_action) : bool :=
  match a with
  | ActVote _ _ _ _ b => slice_okb (w_heap w) (hb_Hash b) && slice_okb (w_heap w) (hb_PartsHash b)
  | ActWrite l _ => bool_decide (l ∈ w_writable w)
  | _ => true
  end.

Definition handed (h : heap) (out : list (HeightAndRound * loc)) : gset loc :=
  ⋃ ((fun p => reach_round h p.2) <$> out).

Definition client_exec (w : world) (a : client_action) : option world :=
  match a with
  | ActProposer ht r p =>
      '(m, h) ← h_AddProposer (w_map w) ht r p (w_heap w);
      Some (mkWorld h m (w_writable w) (w_log w ++ [OpProposer ht r p]))
  | ActVote ht r v t b =>
      '(m, h) ← h_AddVote (w_map w) ht r v t b (w_heap w);
      Some (mkWorld h m (w_writable w ∖ reach_blockID b)
              (w_log w ++ [OpVote ht r v t (read_blockID (w_heap w) b)]))
  | ActGetProposers ht r =>
      '(o, h) ← h_GetProposers (w_map w) ht r (w_heap w);
      Some (mkWorld h (w_map w) (w_writable w ∪ match o with Some l => {[ l ]} | None => ∅ end) (w_log w))
  | ActIter n =>
      '(out, h) ← h_Iter (w_map w) n (w_heap w);
      Some (mkWorld h (w_map w) (w_writable w ∪ handed h out) (w_log w))
  | ActReverseIter n =>
      '(out, h) ← h_ReverseIter (w_map w) n (w_heap w);
      Some (mkWorld h (w_map w) (w_writable w ∪ handed h out) (w_log w))
  | ActNew c =>
      '(l, h) ← alloc c (w_heap w);
      Some (mkWorld h (w_map w) ({[ l ]} ∪ w_writable w) (w_log w))
  | ActWrite l c =>
      '(_, h) ← store l c (w_heap w);
      Some (mkWorld h (w_map w) (w_writable w) (w_log w))
  end.

Fixpoint run_clients (w : world) (acts : list client_action) : option world :=
  match acts with
  | [] => Some w
  | a :: acts' => w' ← client_exec w a; run_clients w' acts'
  end.

(** Every action is legal when its turn comes. *)
Fixpoint legal_run (w : world) (acts : list client_action) : bool :=
  match acts with
  | [] => true
  | a :: acts' => legal w a && match client_exec w a with Some w' => legal_run w' acts' | None => true end
  end.
End Clients.

Arguments world {_}.
Arguments client_action {_}.

(** ** Ownership: which cells belong to which round *)

Inductive tag :=
  | TRound (height round : Z) | TSet (height round : Z) | TOuter (height round : Z)
  | TInner (height round : Z) (validator : string).
Definition tag_key (t : tag) : Z * Z :=
  match t with TRound h r | TSet h r | TOuter h r | TInner h r _ => (h, r) end.

Section Ownership.
Context `{BL : ButilsLaws} `{C : Comet}.
Implicit Types (h : heap) (l : loc) (m : HRDM) (own : gmap loc tag) (F K : gset loc).

Definition read_view h m (ht r : Z) : option RoundData := read_round h <$> h_lookup m ht r.

(** A round in the map: its cells carry its tags, its arrays are frozen. *)
Definition round_own own F h (ht r : Z) l : Prop :=
  own !! l = Some (TRound ht r) /\ exists p v s o,
    h_cells h !! l = Some (CRound p v) /\
    own !! p = Some (TSet ht r) /\ h_cells h !! p = Some (CSet s) /\
    own !! v = Some (TOuter ht r) /\ h_cells h !! v = Some (COuter o) /\
    forall a li, o !! a = Some li ->
      own !! li = Some (TInner ht r a) /\ exists i, h_cells h !! li = Some (CInner i) /\
      forall t b, i !! t = Some b -> bid_ok 0 h b /\ reach_blockID b ⊆ F.

Record hinv own F K h m : Prop := {
  inv_wf : heap_wf h;
  inv_rounds : forall ht r l, h_lookup m ht r = Some l -> round_own own F h ht r l;
  inv_own : forall l t, own !! l = Some t -> (l < h_next h)%nat /\ l ∉ K;
  inv_frozen : forall l, l ∈ F -> (exists bs, h_cells h !! l = Some (CBytes bs)) /\ l ∉ K;
  inv_writable : forall l, l ∈ K -> is_Some (h_cells h !! l) }.

Lemma round_own_ok own F h ht r l : round_own own F h ht r l -> round_ok 0 h l.
Proof.
  intros (_ & p & v & s & o & E & _ & Ep & _ & Ev & Ho). split; [lia|]. exists p, v, s.
  split_and!; [done|lia|done|]. split; [lia|]. exists o. split; [done|].
  intros a li (_ & i & Ei & Hi)%Ho. split; [lia|]. exists i. split; [done|]. intros t b Hb. by apply (Hi t).
Qed.

(** A heap that agrees on a round's cells and on the arrays reads the same. *)
Lemma own_frame own own' F F' h h' ht r l :
  round_own own F h ht r l ->
  (forall l' t, own !! l' = Some t -> tag_key t = (ht, r) -> h_cells h' !! l' = h_cells h !! l') ->
  (forall l', l' ∈ F -> h_cells h' !! l' = h_cells h !! l') -> own ⊆ own' -> F ⊆ F' ->
  round_own own' F' h' ht r l /\ read_round h' l = read_round h l.
Proof.
  intros (Hl & p & v & s & o & E & Hp & Ep & Hv & Ev & Ho) Hs Hf Hown HF.
  assert (Hk : forall l' t, own !! l' = Some t -> own' !! l' = Some t) by (intros l' t Ht; by eapply lookup_weaken).
  assert (Hb : forall b, bid_ok 0 h b -> reach_blockID b ⊆ F ->
    bid_ok 0 h' b /\ read_blockID h' b = read_blockID h b).
  { assert (Hsl : forall sl, slice_ok 0 h sl -> reach_slice sl ⊆ F ->
      slice_ok 0 h' sl /\ read_slice h' sl = read_slice h sl).
    { intros [[l' [|k]]|] Hok Hr; [by rewrite !read_slice_0| |done]. cbn in Hok, Hr |- *.
      rewrite (Hf l') by set_solver. done. }
    intros b [H1 H2] Hr. unfold reach_blockID in Hr.
    destruct (Hsl _ H1 ltac:(set_solver)) as [H3 H4], (Hsl _ H2 ltac:(set_solver)) as [H5 H6].
    split; [done|]. unfold read_blockID. by rewrite H4, H6. }
  pose proof E as E'. rewrite <-(Hs _ _ Hl eq_refl) in E'.
  pose proof Ep as Ep'. rewrite <-(Hs _ _ Hp eq_refl) in Ep'.
  pose proof Ev as Ev'. rewrite <-(Hs _ _ Hv eq_refl) in Ev'.
  split.
  - split; [by apply Hk|]. exists p, v, s, o. split_and!; [done|by apply Hk|done|by apply Hk|done|].
    intros a li (Hli & i & Ei & Hi)%Ho. split; [by apply Hk|].
    rewrite <-(Hs _ _ Hli eq_refl) in Ei. exists i. split; [done|].
    intros t b [H1 H2]%Hi. split; [by apply Hb|set_solver].
  - unfold read_round. rewrite E, E'. unfold read_set, read_outer. rewrite Ep, Ep', Ev, Ev'. f_equal.
    apply map_fmap_ext. intros a li (Hli & i & Ei & Hi)%Ho. unfold read_inner.
    rewrite (Hs _ _ Hli eq_refl), Ei. apply map_fmap_ext. intros t b [H1 H2]%Hi. by apply Hb.
Qed.

(** Changing the cells of one round changes the reading of that round only. *)
Lemma inv_change own own' F K h h' m ht r l :
  hinv own F K h m -> h_lookup m ht r = Some l -> heap_wf h' -> (h_next h <= h_next h')%nat ->
  (forall l' t, own !! l' = Some t -> tag_key t <> (ht, r) -> h_cells h' !! l' = h_cells h !! l') ->
  (forall l', l' ∈ F -> h_cells h' !! l' = h_cells h !! l') ->
  (forall l', l' ∈ K -> is_Some (h_cells h' !! l')) ->
  own ⊆ own' ->
  (forall l' t, own' !! l' = Some t -> own !! l' = Some t \/ (h_next h <= l' < h_next h')%nat) ->
  round_own own' F h' ht r l ->
  hinv own' F K h' m /\
  forall ht' r', read_view h' m ht' r' =
    if key_eq ht r ht' r' then Some (read_round h' l) else read_view h m ht' r'.
Proof.
  intros [Hw Hr Ho Hf Hk] Hl Hw' Hn Hs HsF HsK Hown Hnew Hro.
  assert (Hfr : forall ht' r' l', (ht, r) <> (ht', r') -> h_lookup m ht' r' = Some l' ->
    round_own own' F h' ht' r' l' /\ read_round h' l' = read_round h l').
  { intros ht' r' l' Hne Hl'. eapply own_frame; [by apply Hr|..|done|done]; [|exact HsF].
    intros l2 t H2 H3. apply (Hs l2 t); [done|]. congruence. }
  split.
  - split; [done| | | |done].
    + intros ht' r' l' Hl'. destruct (decide ((ht, r) = (ht', r'))) as [[= <- <-]|Hne]; [congruence|].
      by apply Hfr.
    + intros l' t [Ht|[H1 H2]]%Hnew; [destruct (Ho _ _ Ht); split; [lia|done]|]. split; [done|].
      intros Hin%Hk%Hw. lia.
    + intros l' Hin. rewrite HsF by done. by apply Hf.
  - intros ht' r'. unfold read_view. destruct (key_eq ht r ht' r') eqn:Ek.
    + apply key_eq_true in Ek as [<- <-]. by rewrite Hl.
    + destruct (h_lookup m ht' r') as [l'|] eqn:El; [|done]. cbn. f_equal. apply Hfr with ht' r'; [|done].
      intros [= <- <-]. by rewrite (proj2 (key_eq_true _ _ _ _)) in Ek.
Qed.

Lemma h_lookup_insert m ht r rd ht' r' :
  let '(hs, rm) := match sm_get m ht with Some rm => (m, rm) | None => (sm_insert m ht sm_new, sm_new) end in
  h_lookup (sm_insert hs ht (sm_insert rm r rd)) ht' r' =
  if key_eq ht r ht' r' then Some rd else h_lookup m ht' r'.
Proof.
  unfold h_lookup, key_eq. destruct (sm_get m ht) as [rm|] eqn:Eh; autorewrite with butils;
    destruct (Z.eqb_spec ht ht') as [<-|Hne]; cbn; rewrite ?decide_True, ?decide_False by done; cbn;
    autorewrite with butils; rewrite ?decide_True, ?decide_False by done; try done;
    destruct (Z.eqb_spec r r') as [<-|Hne']; rewrite ?decide_True, ?decide_False by done; rewrite ?Eh; cbn;
    by autorewrite with butils.
Qed.

(** A round already known. *)
Lemma upsert_found h m ht r l : h_lookup m ht r = Some l -> h_upsertRoundData m ht r h = Some ((m, l), h).
Proof.
  unfold h_lookup, h_upsertRoundData. destruct (sm_get m ht) as [rm|]; [|done]. cbn. by intros ->.
Qed.

(** The three allocations of a new round, and who owns them. *)
Definition new_round_heap (h : heap) : heap :=
  let p := h_next h in
  mkHeap (<[S (S p) := CRound p (S p)]> (<[S p := COuter ∅]> (<[p := CSet set_new]> (h_cells h)))) (S (S (S p))).
Definition own_new own (p : loc) (ht r : Z) :=
  <[S (S p) := TRound ht r]> (<[S p := TOuter ht r]> (<[p := TSet ht r]> own)).

Lemma new_round_ext h : heap_wf h -> ext ∅ h (new_round_heap h).
Proof.
  intros Hw. pose proof (alloc_ext h (CSet set_new) Hw) as X1.
  pose proof (alloc_ext _ (COuter ∅) (ext_wf _ _ _ X1)) as X2.
  pose proof (alloc_ext _ (CRound (h_next h) (S (h_next h))) (ext_wf _ _ _ X2)) as X3.
  eapply ext_trans; [exact X1|]. eapply ext_trans; [exact X2|exact X3].
Qed.

Lemma new_round_owned own F h ht r :
  round_own (own_new own (h_next h) ht r) F (new_round_heap h) ht r (S (S (h_next h))).
Proof.
  set (p := h_next h). split; [apply lookup_insert_eq|]. exists p, (S p), set_new, ∅.
  unfold new_round_heap, own_new; cbn [h_cells]; fold p.
  split_and!; [..|intros a li Ha; by rewrite lookup_empty in Ha];
    rewrite ?lookup_insert_eq, ?lookup_insert_ne by lia; rewrite ?lookup_insert_eq, ?lookup_insert_ne by lia;
    rewrite ?lookup_insert_eq; done.
Qed.

Lemma new_round_reads h : read_round (new_round_heap h) (S (S (h_next h))) = new_RoundData.
Proof.
  set (p := h_next h). unfold read_round, new_round_heap. cbn [h_cells]. fold p. rewrite lookup_insert_eq.
  unfold read_set, read_outer. cbn [h_cells]. rewrite (lookup_insert_ne _ (S (S p)) p) by lia.
  rewrite (lookup_insert_ne _ (S p) p) by lia. rewrite lookup_insert_eq, (lookup_insert_ne _ (S (S p)) (S p)) by lia.
  by rewrite lookup_insert_eq, fmap_empty.
Qed.

Lemma own_new_mono own F K h m ht r : hinv own F K h m -> own ⊆ own_new own (h_next h) ht r.
Proof.
  intros Hi. assert (Hnone : forall l, (h_next h <= l)%nat -> own !! l = None).
  { intros l Hl. apply eq_None_not_Some. intros [t Ht]. apply (inv_own _ _ _ _ _ Hi) in Ht. lia. }
  unfold own_new. etransitivity; [|etransitivity]; [apply (insert_subseteq own (h_next h) (TSet ht r))|..|apply insert_subseteq];
    [apply Hnone; lia|apply insert_subseteq|]; rewrite !lookup_insert_ne by lia; apply Hnone; lia.
Qed.

Lemma upsert_new h m ht r : h_lookup m ht r = None ->
  exists m', h_upsertRoundData m ht r h = Some ((m', S (S (h_next h))), new_round_heap h) /\
    forall ht' r', h_lookup m' ht' r' = if key_eq ht r ht' r' then Some (S (S (h_next h))) else h_lookup m ht' r'.
Proof.
  intros El. pose proof (h_lookup_insert m ht r (S (S (h_next h)))) as Hlk.
  unfold h_upsertRoundData. unfold h_lookup in El.
  destruct (match sm_get m ht with Some rm => (m, rm) | None => (sm_insert m ht sm_new, sm_new) end) as [hs rm] eqn:Em.
  assert (Hrm : sm_get rm r = None).
  { destruct (sm_get m ht) as [rm'|]; simplify_eq; [exact El|apply sm_get_new]. }
  rewrite Hrm. eexists. split; [reflexivity|exact Hlk].
Qed.

(** One more round, over cells nobody held, keeps the invariant. *)
Lemma inv_new own F K h m m' ht r :
  hinv own F K h m ->
  (forall ht' r', h_lookup m' ht' r' = if key_eq ht r ht' r' then Some (S (S (h_next h))) else h_lookup m ht' r') ->
  hinv (own_new own (h_next h) ht r) F K (new_round_heap h) m' /\
  forall ht' r' l', h_lookup m ht' r' = Some l' -> read_round (new_round_heap h) l' = read_round h l'.
Proof.
  intros Hi Hlk. pose proof (inv_wf _ _ _ _ _ Hi) as Hw. pose proof (new_round_ext h Hw) as X.
  assert (Hfr : forall ht' r' l', h_lookup m ht' r' = Some l' ->
    round_own (own_new own (h_next h) ht r) F (new_round_heap h) ht' r' l' /\ read_round (new_round_heap h) l' = read_round h l').
  { intros ht' r' l' Hl'. eapply own_frame; [by apply Hi|..|by eapply own_new_mono|done].
    - intros l2 t Ht _. apply (ext_same _ _ _ X); [by apply (inv_own _ _ _ _ _ Hi l2 t)|set_solver].
    - intros l2 Hl2. apply (inv_frozen _ _ _ _ _ Hi) in Hl2 as [[bs Eb] _]. by rewrite (ext_kept _ _ _ _ Hw X Eb). }
  split; [|by intros ht' r' l' Hl'; eapply Hfr]. split.
  - apply X.
  - intros ht' r' l'. rewrite Hlk. destruct (key_eq ht r ht' r') eqn:Ek.
    + apply key_eq_true in Ek as [<- <-]. intros [= <-]. apply new_round_owned.
    + intros Hl'. by apply Hfr.
  - intros l t Ht. assert (Hcase : own !! l = Some t \/ (h_next h <= l < S (S (S (h_next h))))%nat).
    { unfold own_new in Ht. rewrite !lookup_insert_Some in Ht. naive_solver lia. }
    destruct Hcase as [Ho|[H1 H2]].
    + destruct (inv_own _ _ _ _ _ Hi _ _ Ho). split; [pose proof (ext_next _ _ _ X); lia|done].
    + split; [done|]. intros Hin%(inv_writable _ _ _ _ _ Hi)%Hw. lia.
  - intros l Hl. apply (inv_frozen _ _ _ _ _ Hi) in Hl as [[bs Eb] Hk]. split; [|done]. exists bs. by eapply ext_kept.
  - intros l [c Ec]%(inv_writable _ _ _ _ _ Hi). exists c. by eapply ext_kept.
Qed.

Lemma upsert_spec own F K h m ht r : hinv own F K h m ->
  exists m' l h' own', h_upsertRoundData m ht r h = Some ((m', l), h') /\ hinv own' F K h' m' /\
    h_lookup m' ht r = Some l /\ ext ∅ h h' /\
    forall ht' r', read_view h' m' ht' r' =
      if key_eq ht r ht' r' then Some (default new_RoundData (read_view h m ht r)) else read_view h m ht' r'.
Proof.
  intros Hi. assert (Hkk : key_eq ht r ht r = true) by (by apply key_eq_true).
  destruct (h_lookup m ht r) as [l|] eqn:El.
  - exists m, l, h, own. rewrite (upsert_found h m ht r l El). split_and!; [done..|apply ext_refl, Hi|].
    intros ht' r'. destruct (key_eq ht r ht' r') eqn:Ek; [|done]. apply key_eq_true in Ek as [<- <-].
    unfold read_view. by rewrite El.
  - destruct (upsert_new h m ht r El) as (m' & E & Hlk). destruct (inv_new own F K h m m' ht r Hi Hlk) as [Hi' Hrd].
    exists m', (S (S (h_next h))), (new_round_heap h), (own_new own (h_next h) ht r).
    split_and!; [done|done|by rewrite Hlk, Hkk|apply new_round_ext, Hi|].
    intros ht' r'. unfold read_view. rewrite Hlk, El. destruct (key_eq ht r ht' r'); cbn; [by rewrite new_round_reads|].
    destruct (h_lookup m ht' r') as [l'|] eqn:El'; [|done]. cbn. f_equal. by eapply Hrd.
Qed.
End Ownership.

(** ** The operations on the heap do what [Rounds] says *)

Section Refinement.
Context `{BL : ButilsLaws} `{C : Comet}.
Implicit Types (h : heap) (l : loc) (m : HRDM) (own : gmap loc tag) (F K : gset loc).

(** The pure functions on the reading of one round. *)
Lemma read_round_parts h l p v s o :
  h_cells h !! l = Some (CRound p v) -> h_cells h !! p = Some (CSet s) -> h_cells h !! v = Some (COuter o) ->
  read_round h l = mkRoundData s (read_inner h <$> o).
Proof. intros E Ep Ev. unfold read_round. rewrite E. unfold read_set, read_outer. by rewrite Ep, Ev. Qed.

Lemma owned_ne own l l' t t' : own !! l = Some t -> own !! l' = Some t' -> t <> t' -> l <> l'.
Proof. intros H1 H2 Ht ->. congruence. Qed.

(** Two cells of different tags are different. *)
Ltac owned := (eapply owned_ne; [eassumption|eassumption|congruence]).

(** Storing into a cell of a round. *)
Lemma inv_store own F K h m ht r l l0 t0 c0 c :
  hinv own F K h m -> h_lookup m ht r = Some l ->
  own !! l0 = Some t0 -> tag_key t0 = (ht, r) -> h_cells h !! l0 = Some c0 -> (forall bs, c0 <> CBytes bs) ->
  let h2 := mkHeap (<[l0 := c]> (h_cells h)) (h_next h) in
  round_own own F h2 ht r l ->
  hinv own F K h2 m /\
  forall ht' r', read_view h2 m ht' r' =
    if key_eq ht r ht' r' then Some (read_round h2 l) else read_view h m ht' r'.
Proof.
  intros Hi Hl Ht0 Hk0 E0 Hc0 h2 Hro. assert (Hw := inv_wf _ _ _ _ _ Hi).
  assert (Hs : forall l', l' <> l0 -> h_cells h2 !! l' = h_cells h !! l')
    by (intros l' Hne; apply lookup_insert_ne; done).
  apply (inv_change own own F K h h2 m ht r l); try done.
  - apply (store_ext h l0 c Hw). by rewrite E0.
  - intros l' t Ht Hk. apply Hs. intros ->. congruence.
  - intros l' [[bs Eb] _]%(inv_frozen _ _ _ _ _ Hi). apply Hs. intros ->. rewrite E0 in Eb. apply (Hc0 bs). congruence.
  - intros l' Hin%(inv_writable _ _ _ _ _ Hi). destruct (decide (l' = l0)) as [->|Hne]; [|by rewrite Hs].
    cbn [h2 h_cells]. by rewrite lookup_insert_eq.
  - by left.
Qed.

(** The entries of an owned round, as they read before and after a store elsewhere. *)
Lemma inner_store own F h ht r l0 t0 c0 c a li i :
  heap_wf h -> own !! l0 = Some t0 -> t0 <> TInner ht r a -> h_cells h !! l0 = Some c0 -> (forall bs, c0 <> CBytes bs) ->
  own !! li = Some (TInner ht r a) -> h_cells h !! li = Some (CInner i) ->
  (forall t b, i !! t = Some b -> bid_ok 0 h b /\ reach_blockID b ⊆ F) ->
  let h2 := mkHeap (<[l0 := c]> (h_cells h)) (h_next h) in
  h_cells h2 !! li = Some (CInner i) /\ read_inner h2 li = read_inner h li /\
  forall t b, i !! t = Some b -> bid_ok 0 h2 b /\ reach_blockID b ⊆ F.
Proof.
  intros Hw Ht0 Hne E0 Hc0 Hli Ei Hi h2.
  assert (X : ext {[ l0 ]} h h2) by (apply store_ext; [done|by rewrite E0]).
  assert (Hnb : no_bytes h {[ l0 ]}) by (by apply (no_bytes_cell _ _ _ E0)).
  assert (Hl : li <> l0) by (intros ->; congruence).
  split; [cbn; by rewrite lookup_insert_ne|]. split.
  - eapply (inner_frame {[ l0 ]} h h2 Hw X Hnb 0); [set_solver|]. split; [lia|]. exists i. split; [done|].
    intros t b Hb. by apply (Hi t).
  - intros t b [Hok Hr]%Hi. split; [|done]. by apply (bid_frame {[ l0 ]} h h2 Hw X Hnb).
Qed.

(** What [upsertRoundData] returned reads as the round, or as a new one. *)
Lemma upsert_reads h m h1 m1 ht r l :
  (forall ht' r', read_view h1 m1 ht' r' =
     if key_eq ht r ht' r' then Some (default new_RoundData (read_view h m ht r)) else read_view h m ht' r') ->
  h_lookup m1 ht r = Some l -> read_round h1 l = default new_RoundData (read_view h m ht r).
Proof.
  intros V1 Hl. specialize (V1 ht r). rewrite (proj2 (key_eq_true _ _ _ _)) in V1 by done.
  unfold read_view in V1 at 1. rewrite Hl in V1. cbn in V1. congruence.
Qed.

Lemma AddProposer_spec own F K h m ht r a : hinv own F K h m ->
  exists m' h' own', h_AddProposer m ht r a h = Some (m', h') /\ hinv own' F K h' m' /\
    forall ht' r', read_view h' m' ht' r' =
      if key_eq ht r ht' r' then Some (rd_add_proposer a (default new_RoundData (read_view h m ht r)))
      else read_view h m ht' r'.
Proof.
  intros Hi. destruct (upsert_spec _ _ _ _ _ ht r Hi) as (m1 & l & h1 & own1 & E1 & Hi1 & Hl & X1 & V1).
  destruct (inv_rounds _ _ _ _ _ Hi1 _ _ _ Hl) as (Hlo & p & v & s & o & E & Hpo & Ep & Hvo & Ev & Ho).
  assert (Hw1 := inv_wf _ _ _ _ _ Hi1). pose proof (upsert_reads _ _ _ _ _ _ _ V1 Hl) as Hrl.
  set (h2 := mkHeap (<[p := CSet (set_add s a)]> (h_cells h1)) (h_next h1)).
  assert (El2 : h_cells h2 !! l = Some (CRound p v)) by (cbn [h2 h_cells]; rewrite lookup_insert_ne by (apply not_eq_sym; owned); done).
  assert (Ev2 : h_cells h2 !! v = Some (COuter o)) by (cbn [h2 h_cells]; rewrite lookup_insert_ne by (apply not_eq_sym; owned); done).
  assert (Ep2 : h_cells h2 !! p = Some (CSet (set_add s a))) by apply lookup_insert_eq.
  pose proof (fun a' li i => inner_store own1 F h1 ht r p _ _ (CSet (set_add s a)) a' li i Hw1 Hpo ltac:(done) Ep ltac:(done)) as HI.
  destruct (inv_store own1 F K h1 m1 ht r l p _ _ (CSet (set_add s a)) Hi1 Hl Hpo eq_refl Ep) as [Hi2 V2]; [done| |].
  - split; [done|]. exists p, v, (set_add s a), o. split_and!; [done..|].
    intros a' li (Hli & i & Ei & Hb)%Ho. split; [done|]. destruct (HI a' li i) as (H1 & _ & H2); [done..|].
    exists i. split; [exact H1|exact H2].
  - exists m1, h2, own1. split; [unfold h_AddProposer; hrun; hrun; hrun; hrun; done|]. split; [done|].
    intros ht' r'. fold h2 in V2. rewrite V2, V1. destruct (key_eq ht r ht' r'); [|done]. rewrite <-Hrl. f_equal.
    rewrite (read_round_parts h1 l p v s o), (read_round_parts h2 l p v (set_add s a) o) by done.
    unfold rd_add_proposer. cbn [Proposers Votes]. f_equal. apply map_fmap_ext.
    intros a' li (Hli & i & Ei & Hb)%Ho. by destruct (HI a' li i) as (_ & H1 & _).
Qed.

(** New cells, tagged or given to the client, change no reading. *)
Lemma inv_ext own own' F K Y h h' m : hinv own F K h m -> ext ∅ h h' -> own ⊆ own' ->
  (forall l t, own' !! l = Some t -> own !! l = Some t \/ ((h_next h <= l < h_next h')%nat /\ l ∉ Y)) ->
  (forall l, l ∈ Y -> (h_next h <= l)%nat /\ is_Some (h_cells h' !! l)) ->
  hinv own' F (K ∪ Y) h' m /\ forall ht r, read_view h' m ht r = read_view h m ht r.
Proof.
  intros Hi X Hown Hnew HY. assert (Hw := inv_wf _ _ _ _ _ Hi).
  assert (Hfr : forall ht' r' l', h_lookup m ht' r' = Some l' ->
    round_own own' F h' ht' r' l' /\ read_round h' l' = read_round h l').
  { intros ht' r' l' Hl'. eapply own_frame; [by apply Hi|..|done|done].
    - intros l2 t Ht _. apply (ext_same _ _ _ X); [by apply (inv_own _ _ _ _ _ Hi l2 t)|set_solver].
    - intros l2 Hl2. apply (inv_frozen _ _ _ _ _ Hi) in Hl2 as [[bs Eb] _]. by rewrite (ext_kept _ _ _ _ Hw X Eb). }
  split; [split|].
  - apply X.
  - intros ht r l Hl. by apply Hfr.
  - intros l t Ht. rewrite not_elem_of_union. destruct (Hnew _ _ Ht) as [Ho|[[H1 H2] H3]].
    + destruct (inv_own _ _ _ _ _ Hi _ _ Ho). pose proof (ext_next _ _ _ X).
      split; [lia|]. split; [done|]. intros Hin%HY. lia.
    + split; [done|]. split; [|done]. intros Hin%(inv_writable _ _ _ _ _ Hi)%Hw. lia.
  - intros l Hl. apply (inv_frozen _ _ _ _ _ Hi) in Hl as [[bs Eb] Hk].
    split; [exists bs; by eapply ext_kept|]. apply not_elem_of_union. split; [done|]. intros [H1 _]%HY.
    apply lookup_lt in Eb; [lia|done].
  - intros l [[c Ec]%(inv_writable _ _ _ _ _ Hi)|Hl]%elem_of_union; [|by apply HY].
    exists c. by eapply ext_kept.
  - intros ht r. unfold read_view. destruct (h_lookup m ht r) as [l'|] eqn:El'; [|done]. cbn. f_equal. by eapply Hfr.
Qed.

Lemma round_own_parts own F K h m ht r l p v s o :
  hinv own F K h m -> h_lookup m ht r = Some l ->
  h_cells h !! l = Some (CRound p v) -> h_cells h !! p = Some (CSet s) -> h_cells h !! v = Some (COuter o) ->
  own !! l = Some (TRound ht r) /\ own !! p = Some (TSet ht r) /\ own !! v = Some (TOuter ht r) /\
  forall a li, o !! a = Some li ->
    own !! li = Some (TInner ht r a) /\ exists i, h_cells h !! li = Some (CInner i) /\
    forall t b, i !! t = Some b -> bid_ok 0 h b /\ reach_blockID b ⊆ F.
Proof.
  intros Hi Hl E Ep Ev.
  destruct (inv_rounds _ _ _ _ _ Hi _ _ _ Hl) as (Hlo & p' & v' & s' & o' & E' & Hpo & Ep' & Hvo & Ev' & Ho).
  assert (p' = p /\ v' = v /\ s' = s /\ o' = o) as (-> & -> & -> & ->) by (split_and!; congruence). done.
Qed.

Lemma get_entry_spec own F K h m ht r l a p v s o :
  hinv own F K h m -> h_lookup m ht r = Some l ->
  h_cells h !! l = Some (CRound p v) -> h_cells h !! p = Some (CSet s) -> h_cells h !! v = Some (COuter o) ->
  exists li h' own' i, get_entry v o a h = Some (li, h') /\ hinv own' F K h' m /\ ext {[ v ]} h h' /\
    h_cells h' !! l = Some (CRound p v) /\ h_cells h' !! p = Some (CSet s) /\
    h_cells h' !! v = Some (COuter (<[a := li]> o)) /\ h_cells h' !! li = Some (CInner i) /\
    read_inner h' li = default ∅ (Votes (read_round h l) !! a) /\
    (forall a' li', a' <> a -> o !! a' = Some li' -> read_inner h' li' = read_inner h li') /\
    forall ht' r', key_eq ht r ht' r' = false -> read_view h' m ht' r' = read_view h m ht' r'.
Proof.
  intros Hi Hl E Ep Ev. assert (Hw := inv_wf _ _ _ _ _ Hi).
  destruct (round_own_parts _ _ _ _ _ _ _ _ _ _ _ _ Hi Hl E Ep Ev) as (Hlo & Hpo & Hvo & Ho).
  rewrite (read_round_parts h l p v s o) by done. cbn [Votes]. rewrite lookup_fmap. unfold get_entry.
  destruct (o !! a) as [li|] eqn:Ea; cbn [fmap option_fmap option_map default].
  - destruct (Ho _ _ Ea) as (Hli & i & Ei & Hb). exists li, h, own, i.
    rewrite insert_id by done. pose proof (ext_refl {[ v ]} _ Hw). by split_and!.
  - set (n := h_next h). set (h1 := mkHeap (<[n := CInner ∅]> (h_cells h)) (S n)).
    assert (X1 : ext ∅ h h1) by (by apply alloc_ext).
    assert (Hnone : own !! n = None).
    { apply eq_None_not_Some. intros [t Ht]. apply (inv_own _ _ _ _ _ Hi) in Ht. unfold n in Ht. lia. }
    set (own1 := <[n := TInner ht r a]> own).
    destruct (inv_ext own own1 F K ∅ h h1 m Hi X1) as [Hi1 V1].
    { by apply insert_subseteq. }
    { intros l' t. unfold own1. rewrite lookup_insert_Some. intros [[<- <-]|[_ H]]; [right|by left].
      cbn. split; [unfold n; lia|set_solver]. }
    { set_solver. }
    rewrite (right_id_L ∅ (∪)) in Hi1. assert (Hw1 := inv_wf _ _ _ _ _ Hi1).
    pose proof (ext_kept _ _ _ _ Hw X1 E) as E1. pose proof (ext_kept _ _ _ _ Hw X1 Ep) as Ep1.
    pose proof (ext_kept _ _ _ _ Hw X1 Ev) as Ev1.
    destruct (round_own_parts _ _ _ _ _ _ _ _ _ _ _ _ Hi1 Hl E1 Ep1 Ev1) as (Hlo1 & Hpo1 & Hvo1 & Ho1).
    assert (En1 : h_cells h1 !! n = Some (CInner ∅)) by apply lookup_insert_eq.
    assert (Hn1 : own1 !! n = Some (TInner ht r a)) by apply lookup_insert_eq.
    set (c2 := COuter (<[a := n]> o)). set (h2 := mkHeap (<[v := c2]> (h_cells h1)) (h_next h1)).
    assert (E2 : h_cells h2 !! l = Some (CRound p v)) by (cbn [h2 h_cells]; rewrite lookup_insert_ne by (apply not_eq_sym; owned); done).
    assert (Ep2 : h_cells h2 !! p = Some (CSet s)) by (cbn [h2 h_cells]; rewrite lookup_insert_ne by (apply not_eq_sym; owned); done).
    assert (Ev2 : h_cells h2 !! v = Some c2) by apply lookup_insert_eq.
    pose proof (fun a' li i => inner_store own1 F h1 ht r v _ _ c2 a' li i Hw1 Hvo1 ltac:(done) Ev1 ltac:(done)) as HI.
    destruct (HI a n ∅) as (En2 & Rn2 & _); [done..|intros t b Hb; by rewrite lookup_empty in Hb|].
    destruct (inv_store own1 F K h1 m ht r l v _ _ c2 Hi1 Hl Hvo1 eq_refl Ev1) as [Hi2 V2]; [done| |].
    { split; [done|]. exists p, v, s, (<[a := n]> o). split_and!; [done..|].
      intros a' li'. rewrite lookup_insert_Some. intros [[<- <-]|[Hne (Hli & i & Ei & Hb)%Ho1]].
      - split; [done|]. exists ∅. split; [exact En2|]. intros t b Hb. by rewrite lookup_empty in Hb.
      - split; [done|]. destruct (HI a' li' i) as (H1 & _ & H2); [done..|]. exists i. split; [exact H1|exact H2]. }
    fold h2 in Hi2, V2, En2, Rn2. exists n, h2, own1, ∅. split_and!; try done.
    + erewrite bind_run; [|reflexivity]. fold n h1. hrun. done.
    + eapply ext_trans; [exact (ext_mono _ _ _ _ (empty_subseteq _) X1)|]. apply store_ext; [done|by rewrite Ev1].
    + unfold read_inner. by rewrite En2, fmap_empty.
    + intros a' li' Hne Hoa. destruct (Ho1 _ _ Hoa) as (Hli & i & Ei & Hb). destruct (HI a' li' i) as (_ & H1 & _); [done..|]. fold h2 in H1.
      rewrite H1. apply (inner_frame ∅ h h1 Hw X1 (no_bytes_empty h) 0); [apply not_elem_of_empty|].
      destruct (Ho a' li') as (_ & i0 & Ei0 & Hb0); [done|]. split; [lia|]. exists i0. split; [done|].
      intros t b Hb'. by apply (Hb0 t).
    + intros ht' r' Hk. by rewrite V2, Hk, V1.
Qed.

(** The arrays of an identifier that was passed in are never written again. *)
Lemma hinv_freeze own F K h m b : hinv own F K h m -> bid_ok 0 h b ->
  hinv own (F ∪ reach_blockID b) (K ∖ reach_blockID b) h m.
Proof.
  intros [Hw Hr Ho Hf Hk] [H1 H2]. split; [done| | | |].
  - intros ht r l Hl. apply (own_frame own own F (F ∪ reach_blockID b) h h ht r l (Hr _ _ _ Hl)); set_solver.
  - intros l t Ht. destruct (Ho _ _ Ht). set_solver.
  - intros l [Hl%Hf|Hl]%elem_of_union; [set_solver|]. split; [|set_solver].
    assert (Hs : forall s, slice_ok 0 h s -> l ∈ reach_slice s -> exists bs, h_cells h !! l = Some (CBytes bs)).
    { intros [[l' [|k]]|]; cbn; [set_solver| |set_solver]. intros (_ & bs & E & _) ->%elem_of_singleton. by exists bs. }
    unfold reach_blockID in Hl. apply elem_of_union in Hl as [Hl|Hl]; eauto.
  - intros l Hl. apply Hk. set_solver.
Qed.

Lemma AddVote_spec own F K h m ht r a t b : hinv own F K h m -> bid_ok 0 h b ->
  exists m' h' own', h_AddVote m ht r a t b h = Some (m', h') /\
    hinv own' (F ∪ reach_blockID b) (K ∖ reach_blockID b) h' m' /\
    forall ht' r', read_view h' m' ht' r' =
      if key_eq ht r ht' r' then Some (rd_add_vote a t (read_blockID h b) (default new_RoundData (read_view h m ht r)))
      else read_view h m ht' r'.
Proof.
  intros Hi0 Hb0. set (F' := F ∪ reach_blockID b). set (K' := K ∖ reach_blockID b).
  pose proof (hinv_freeze _ _ _ _ _ _ Hi0 Hb0) as Hi. fold F' K' in Hi.
  destruct (upsert_spec _ _ _ _ _ ht r Hi) as (m1 & l & h1 & own1 & E1 & Hi1 & Hl & X1 & V1).
  pose proof (upsert_reads _ _ _ _ _ _ _ V1 Hl) as Hrl. rewrite <-Hrl.
  destruct (inv_rounds _ _ _ _ _ Hi1 _ _ _ Hl) as (_ & p & v & s & o & E & _ & Ep & _ & Ev & _).
  destruct (get_entry_spec _ _ _ _ _ ht r l a p v s o Hi1 Hl E Ep Ev)
    as (li & h2 & own2 & i & E2 & Hi2 & X2 & El2 & Ep2 & Ev2 & Ei2 & Ri2 & Ro2 & V2).
  assert (Hw2 := inv_wf _ _ _ _ _ Hi2).
  destruct (bid_frame _ _ _ (inv_wf _ _ _ _ _ Hi) X1 (no_bytes_empty h) 0 b Hb0) as [Hb1 Rb1].
  destruct (bid_frame _ _ _ (inv_wf _ _ _ _ _ Hi1) X2 (no_bytes_cell _ _ _ Ev ltac:(done)) 0 b Hb1) as [Hb2 Rb2].
  destruct (round_own_parts _ _ _ _ _ _ _ _ _ _ _ _ Hi2 Hl El2 Ep2 Ev2) as (Hlo & Hpo & Hvo & Ho).
  destruct (Ho a li) as (Hli & i' & Ei' & Hbi); [apply lookup_insert_eq|]. rewrite Ei2 in Ei'. injection Ei' as <-.
  set (c3 := CInner (<[t := b]> i)). set (h3 := mkHeap (<[li := c3]> (h_cells h2)) (h_next h2)).
  assert (X3 : ext {[ li ]} h2 h3) by (apply store_ext; [done|by rewrite Ei2]).
  pose proof (bid_frame _ _ _ Hw2 X3 (no_bytes_cell _ _ _ Ei2 ltac:(done)) 0) as F3.
  assert (El3 : h_cells h3 !! l = Some (CRound p v)) by (cbn [h3 h_cells]; rewrite lookup_insert_ne by (apply not_eq_sym; owned); done).
  assert (Ep3 : h_cells h3 !! p = Some (CSet s)) by (cbn [h3 h_cells]; rewrite lookup_insert_ne by (apply not_eq_sym; owned); done).
  assert (Ev3 : h_cells h3 !! v = Some (COuter (<[a := li]> o))) by (cbn [h3 h_cells]; rewrite lookup_insert_ne by (apply not_eq_sym; owned); done).
  assert (Ei3 : h_cells h3 !! li = Some c3) by apply lookup_insert_eq.
  assert (HI : forall a' li', a' <> a -> o !! a' = Some li' -> exists j, own2 !! li' = Some (TInner ht r a') /\
    h_cells h3 !! li' = Some (CInner j) /\ read_inner h3 li' = read_inner h2 li' /\
    forall t' b', j !! t' = Some b' -> bid_ok 0 h3 b' /\ reach_blockID b' ⊆ F').
  { intros a' li' Hne Hoa. destruct (Ho a' li') as (Hli' & j & Ej & Hj); [by rewrite lookup_insert_ne|].
    destruct (inner_store own2 F' h2 ht r li _ _ c3 a' li' j Hw2 Hli ltac:(congruence) Ei2 ltac:(done) Hli' Ej Hj) as (H1 & H2 & H3).
    by exists j. }
  destruct (inv_store own2 F' K' h2 m1 ht r l li _ _ c3 Hi2 Hl Hli eq_refl Ei2) as [Hi3 V3]; [done| |].
  { split; [done|]. exists p, v, s, (<[a := li]> o). split_and!; [done..|].
    intros a' li'. rewrite lookup_insert_Some. intros [[<- <-]|[Hne Hoa]].
    - split; [done|]. exists (<[t := b]> i). split; [exact Ei3|]. intros t' b'. rewrite lookup_insert_Some.
      intros [[<- <-]|[_ [H1 H2]%Hbi]]; (split; [by apply F3|]); [set_solver|done].
    - destruct (HI a' li') as (j & H1 & H2 & _ & H3); [done..|]. split; [done|]. exists j. split; [exact H2|exact H3]. }
  fold h3 in Hi3, V3. exists m1, h3, own2. split; [unfold h_AddVote; hrun; hrun; hrun; hrun; hrun; hrun; done|].
  split; [done|]. intros ht' r'. rewrite V3. destruct (key_eq ht r ht' r') eqn:Ek; [f_equal|by rewrite V2, V1, Ek].
  rewrite (read_round_parts h3 l p v s _ El3 Ep3 Ev3). unfold rd_add_vote. rewrite <-Ri2.
  rewrite (read_round_parts h1 l p v s o E Ep Ev). cbn [Proposers Votes]. f_equal. apply map_eq. intros a'.
  rewrite lookup_fmap. destruct (decide (a' = a)) as [->|Hne].
  - rewrite !lookup_insert_eq. cbn. f_equal. unfold read_inner. rewrite Ei3, Ei2. unfold c3. rewrite fmap_insert.
    rewrite (proj2 (F3 _ Hb2)), Rb2, Rb1. f_equal. apply map_fmap_ext. intros t' b' [Hb' _]%Hbi. by apply F3.
  - rewrite !lookup_insert_ne, lookup_fmap by done. destruct (o !! a') as [li'|] eqn:Eo; [|done]. cbn. f_equal.
    destruct (HI a' li') as (j & _ & _ & -> & _); [done..|]. by apply Ro2 with a'.
Qed.

(** *** The readers *)

Lemma GetVote_spec own F K h m v ht r a t : hinv own F K h m ->
  (forall ht r, read_view h m ht r = lookup_round v ht r) ->
  h_GetVote m ht r a t h = Some (GetVote v ht r a t, h).
Proof.
  intros Hi Hv. rewrite GetVote_at. unfold vote_at. rewrite <-Hv. unfold read_view, h_GetVote, h_lookup.
  destruct (sm_get m ht) as [rm|] eqn:Eh; cbn; [|done]. destruct (sm_get rm r) as [l|] eqn:Er; cbn; [|done].
  assert (Hl : h_lookup m ht r = Some l) by (unfold h_lookup; by rewrite Eh).
  destruct (inv_rounds _ _ _ _ _ Hi _ _ _ Hl) as (_ & p & vo & s & o & E & _ & Ep & _ & Ev & Ho).
  rewrite (read_round_parts h l p vo s o) by done. unfold rd_vote. cbn [Votes]. rewrite lookup_fmap.
  hrun. hrun. destruct (o !! a) as [li|] eqn:Ea; cbn; [|done].
  destruct (Ho _ _ Ea) as (_ & i & Ei & _). hrun. unfold read_inner. rewrite Ei, lookup_fmap.
  by destruct (i !! t).
Qed.

Lemma GetProposers_spec own F K h m v ht r : hinv own F K h m ->
  (forall ht r, read_view h m ht r = lookup_round v ht r) ->
  exists o h', h_GetProposers m ht r h = Some (o, h') /\ ext ∅ h h' /\
    read_set h' <$> o = GetProposers v ht r /\
    forall l, o = Some l -> (h_next h <= l)%nat /\ is_Some (h_cells h' !! l).
Proof.
  intros Hi Hv. assert (Hw := inv_wf _ _ _ _ _ Hi). rewrite GetProposers_at, <-Hv.
  unfold read_view, h_GetProposers, h_lookup.
  destruct (sm_get m ht) as [rm|] eqn:Eh; cbn; [|exists None, h; by split_and!; [|apply ext_refl|..]].
  destruct (sm_get rm r) as [l|] eqn:Er; cbn; [|exists None, h; by split_and!; [|apply ext_refl|..]].
  assert (Hl : h_lookup m ht r = Some l) by (unfold h_lookup; by rewrite Eh).
  destruct (inv_rounds _ _ _ _ _ Hi _ _ _ Hl) as (_ & p & vo & s & o & E & _ & Ep & _ & Ev & Ho).
  rewrite (read_round_parts h l p vo s o) by done.
  do 2 eexists. split; [hrun; hrun; hrun; reflexivity|]. split; [by apply alloc_ext|]. cbn. split.
  - unfold read_set. cbn. by rewrite lookup_insert_eq.
  - intros l' [= <-]. split; [done|]. by rewrite lookup_insert_eq.
Qed.

Lemma pairs_ok own F K h m : hinv own F K h m -> Forall (fun p : HeightAndRound * loc => round_ok 0 h p.2) (sm_pairs m).
Proof.
  intros Hi. apply Forall_forall. intros [hr l] Hin%sm_pairs_elem. eapply round_own_ok, (inv_rounds _ _ _ _ _ Hi), Hin.
Qed.

(** The pairs of the pointers read as the pairs of the values. *)
Lemma pairs_read h m v : (forall ht r, read_view h m ht r = lookup_round v ht r) ->
  (fun p : HeightAndRound * loc => (p.1, read_round h p.2)) <$> sm_pairs m = iter_list v.
Proof.
  intros Hv. apply sorted_pairs_unique.
  - replace (_.*1) with (sm_pairs m).*1; [apply sm_pairs_sorted|]. by rewrite <-list_fmap_compose.
  - apply iter_sorted.
  - intros [hr rd]. rewrite iter_elem, <-Hv, list_elem_of_fmap. unfold read_view. split.
    + intros ([hr' l] & [= -> ->] & Hl%sm_pairs_elem). cbn. unfold h_lookup. by rewrite Hl.
    + intros (l & Hl & ->)%fmap_Some. exists (hr, l). split; [done|]. by apply sm_pairs_elem.
Qed.

Lemma Iter_spec own F K h m v n ps ls : hinv own F K h m ->
  (forall ht r, read_view h m ht r = lookup_round v ht r) ->
  (ps = sm_pairs m /\ ls = iter_list v) \/ (ps = sm_reverse_pairs m /\ ls = reverse_iter_list v) ->
  exists out h', hand_out (take n ps) h = Some (out, h') /\ ext ∅ h h' /\
    Forall (fun p => round_ok (h_next h) h' p.2) out /\
    (fun p => (p.1, read_round h' p.2)) <$> out = take n ls.
Proof.
  intros Hi Hv Hps. pose proof (pairs_ok _ _ _ _ _ Hi) as Hok. pose proof (pairs_read _ _ _ Hv) as Hrd.
  destruct (hand_out_spec (take n ps) h (inv_wf _ _ _ _ _ Hi)) as (out & h' & E & X & O & R).
  { apply Forall_take. destruct Hps as [[-> _]|[-> _]]; [done|]. rewrite sm_pairs_reverse. by apply Forall_reverse. }
  exists out, h'. split_and!; [done..|]. rewrite R, fmap_take. f_equal.
  destruct Hps as [[-> ->]|[-> ->]]; [done|]. by rewrite sm_pairs_reverse, reverse_iter, fmap_reverse, Hrd.
Qed.

(** What a client reaches from a fresh copy is fresh. *)
Lemma reach_round_ok n h l x : round_ok n h l -> x ∈ reach_round h l -> (n <= x)%nat /\ is_Some (h_cells h !! x).
Proof.
  assert (Hsl : forall s, slice_ok n h s -> x ∈ reach_slice s -> (n <= x)%nat /\ is_Some (h_cells h !! x)).
  { intros [[l' [|k]]|]; cbn; [set_solver| |set_solver]. intros (Hn & bs & E & _) ->%elem_of_singleton. split; [done|by exists (CBytes bs)]. }
  assert (Hin : forall li, inner_ok n h li -> x ∈ reach_inner h li -> (n <= x)%nat /\ is_Some (h_cells h !! x)).
  { intros li (Hn & i & E & Hi). unfold reach_inner. rewrite E.
    intros [->%elem_of_singleton|Hu]%elem_of_union; [split; [done|by rewrite E]|].
    apply elem_of_union_list in Hu as (Y & HY & Hx). apply list_elem_of_fmap in HY as ([t b] & -> & Hb).
    apply elem_of_map_to_list in Hb. destruct (Hi _ _ Hb) as [H1 H2].
    apply elem_of_union in Hx as [Hx|Hx]; [by apply (Hsl _ H1)|by apply (Hsl _ H2)]. }
  intros (Hn & p & v & s & E & Hp & Ep & Hv & o & Ev & Ho). unfold reach_round, reach_outer. rewrite E, Ev.
  intros [->%elem_of_singleton|[->%elem_of_singleton|[->%elem_of_singleton|Hu]%elem_of_union]%elem_of_union]%elem_of_union.
  - split; [done|by rewrite E].
  - split; [done|by rewrite Ep].
  - split; [done|by rewrite Ev].
  - apply elem_of_union_list in Hu as (Y & HY & Hx). apply list_elem_of_fmap in HY as ([a li] & -> & Hb).
    apply elem_of_map_to_list in Hb. by eapply Hin, Hx; eapply Ho.
Qed.

Lemma handed_ok n h out x : Forall (fun p : HeightAndRound * loc => round_ok n h p.2) out -> x ∈ handed h out ->
  (n <= x)%nat /\ is_Some (h_cells h !! x).
Proof.
  intros Ho Hx. apply elem_of_union_list in Hx as (Y & HY & Hx). apply list_elem_of_fmap in HY as (p & -> & Hp).
  rewrite Forall_forall in Ho. eapply reach_round_ok; [by apply Ho|done].
Qed.
End Refinement.

(** ** Any client, any number of operations *)

Section ClientFacts.
Context `{BL : ButilsLaws} `{C : Comet}.
Implicit Types (h : heap) (l : loc) (w : world).

Definition recorded w : RoundDataMap := apply_ops NewRoundDataMap (w_log w).

(** The structure reads as what was recorded, and the client cannot write to it. *)
Definition sim w : Prop :=
  exists own F, hinv own F (w_writable w) (w_heap w) (w_map w) /\
    forall ht r, read_view (w_heap w) (w_map w) ht r = lookup_round (recorded w) ht r.

Lemma sim_world0 : sim world0.
Proof.
  exists ∅, ∅. split; [split|]; cbn.
  - intros l [c Ec]. cbn in Ec. by rewrite lookup_empty in Ec.
  - intros ht r l. unfold h_lookup. by rewrite sm_get_new.
  - intros l t. by rewrite lookup_empty.
  - set_solver.
  - set_solver.
  - intros ht r. unfold recorded, world0. cbn. rewrite lookup_new. unfold read_view, h_lookup. by rewrite sm_get_new.
Qed.

Lemma slice_okb_ok h s : slice_okb h s = true -> slice_ok 0 h s.
Proof.
  destruct s as [[l [|k]]|]; [done| |done]. unfold slice_okb, slice_ok.
  destruct (h_cells h !! l) as [[bs| | | |]|]; try done. intros Hk%bool_decide_eq_true_1. split; [lia|by exists bs].
Qed.

(** Giving the client cells that did not exist. *)
Lemma sim_give own F K Y h h' m v :
  hinv own F K h m -> ext ∅ h h' -> (forall l, l ∈ Y -> (h_next h <= l)%nat /\ is_Some (h_cells h' !! l)) ->
  (forall ht r, read_view h m ht r = lookup_round v ht r) ->
  exists own F, hinv own F (K ∪ Y) h' m /\ forall ht r, read_view h' m ht r = lookup_round v ht r.
Proof.
  intros Hi X HY Hv. exists own, F. destruct (inv_ext own own F K Y h h' m Hi X) as [Hi' V]; [done|by left|done|].
  split; [done|]. intros ht r. by rewrite V.
Qed.

Lemma recorded_snoc os o ht r :
  lookup_round (apply_ops NewRoundDataMap (os ++ [o])) ht r =
  lookup_round (apply_op (apply_ops NewRoundDataMap os) o) ht r.
Proof. unfold apply_ops. by rewrite foldl_app. Qed.

(** A client writes to a cell it may write to. *)
Lemma sim_write h m K os l c : sim (mkWorld h m K os) -> l ∈ K ->
  exists h', store l c h = Some (tt, h') /\ sim (mkWorld h' m K os).
Proof.
  intros (own & F & Hi & Hv) Hl. unfold recorded in Hv. cbn in Hi, Hv. assert (Hw := inv_wf _ _ _ _ _ Hi).
  destruct (inv_writable _ _ _ _ _ Hi _ Hl) as [c0 Ec]. rewrite store_run by (by rewrite Ec). eexists. split; [reflexivity|].
  set (h' := mkHeap (<[l := c]> (h_cells h)) (h_next h)).
  assert (Hs : forall l', l' <> l -> h_cells h' !! l' = h_cells h !! l') by (intros l' Hne; apply lookup_insert_ne; done).
  assert (HsO : forall l' t, own !! l' = Some t -> h_cells h' !! l' = h_cells h !! l').
  { intros l' t Ht. apply Hs. intros ->. by destruct (inv_own _ _ _ _ _ Hi _ _ Ht). }
  assert (HsF : forall l', l' ∈ F -> h_cells h' !! l' = h_cells h !! l').
  { intros l' Hin. apply Hs. intros ->. by destruct (inv_frozen _ _ _ _ _ Hi _ Hin). }
  assert (Hfr : forall ht r l', h_lookup m ht r = Some l' -> round_own own F h' ht r l' /\ read_round h' l' = read_round h l').
  { intros ht r l' Hl'. eapply own_frame; [by apply Hi| |exact HsF|done|done]. intros l2 t Ht _. by eapply HsO. }
  exists own, F. cbn [w_heap w_map w_writable]. split; [split|].
  - by apply (store_ext h l c Hw).
  - intros ht r l' Hl'. by apply Hfr.
  - intros l' t Ht. by eapply (inv_own _ _ _ _ _ Hi).
  - intros l' Hin. rewrite HsF by done. by apply (inv_frozen _ _ _ _ _ Hi).
  - intros l' Hin. destruct (decide (l' = l)) as [->|Hne]; [cbn; by rewrite lookup_insert_eq|].
    rewrite Hs by done. by apply (inv_writable _ _ _ _ _ Hi).
  - intros ht r. unfold recorded. cbn [w_log]. rewrite <-Hv. unfold read_view.
    destruct (h_lookup m ht r) as [l'|] eqn:El; [|done]. cbn. f_equal. by eapply Hfr.
Qed.

Lemma exec_sim w a : sim w -> legal w a = true -> exists w', client_exec w a = Some w' /\ sim w'.
Proof.
  intros (own & F & Hi & Hv) Hl. destruct w as [h m K os]. unfold recorded in Hv. cbn in Hi, Hv.
  assert (Hw := inv_wf _ _ _ _ _ Hi).
  destruct a as [ht r p|ht r a t b|ht r|n|n|c|l c]; cbn [client_exec legal w_heap w_map w_writable w_log] in *.
  - destruct (AddProposer_spec _ _ _ _ _ ht r p Hi) as (m' & h' & own' & -> & Hi' & V).
    eexists. split; [reflexivity|]. exists own', F. cbn [w_heap w_map w_writable]. split; [done|]. intros ht' r'. unfold recorded. cbn [w_heap w_map w_log].
    rewrite recorded_snoc. cbn [apply_op]. rewrite lookup_AddProposer, V. by rewrite !Hv.
  - apply andb_true_iff in Hl as [H1%slice_okb_ok H2%slice_okb_ok].
    destruct (AddVote_spec _ _ _ _ _ ht r a t b Hi (conj H1 H2)) as (m' & h' & own' & -> & Hi' & V).
    eexists. split; [reflexivity|]. eexists own', _. cbn [w_heap w_map w_writable]. split; [exact Hi'|]. intros ht' r'. unfold recorded. cbn [w_heap w_map w_log].
    rewrite recorded_snoc. cbn [apply_op]. rewrite lookup_AddVote, V. by rewrite !Hv.
  - destruct (GetProposers_spec _ _ _ _ _ _ ht r Hi Hv) as (o & h' & -> & X & _ & Ho).
    eexists. split; [reflexivity|]. eapply sim_give; [done..| |done].
    destruct o as [l|]; [|set_solver]. intros l' ->%elem_of_singleton. by apply Ho.
  - destruct (Iter_spec _ _ _ _ _ _ n _ _ Hi Hv (or_introl (conj eq_refl eq_refl))) as (out & h' & E & X & O & _).
    unfold h_Iter. rewrite E. eexists. split; [reflexivity|]. eapply sim_give; [done..| |done].
    intros l Hin. by eapply handed_ok.
  - destruct (Iter_spec _ _ _ _ _ _ n _ _ Hi Hv (or_intror (conj eq_refl eq_refl))) as (out & h' & E & X & O & _).
    unfold h_ReverseIter. rewrite E. eexists. split; [reflexivity|]. eapply sim_give; [done..| |done].
    intros l Hin. by eapply handed_ok.
  - eexists. split; [reflexivity|]. cbn. rewrite (comm_L (∪) {[ h_next h ]} K). eapply sim_give; [done|by apply alloc_ext| |done].
    intros l ->%elem_of_singleton. cbn. by rewrite lookup_insert_eq.
  - apply bool_decide_eq_true_1 in Hl. destruct (sim_write h m K os l c) as (h' & E & Hs'); [by exists own, F|done|].
    rewrite E. by eexists.
Qed.

Lemma run_sim acts : forall w, sim w -> legal_run w acts = true -> exists w', run_clients w acts = Some w' /\ sim w'.
Proof.
  induction acts as [|a acts IH]; intros w Hs Hl; cbn [run_clients legal_run] in *; [by exists w|].
  apply andb_true_iff in Hl as [Ha Hl]. destruct (exec_sim w a Hs Ha) as (w1 & E & Hs1). rewrite E in Hl |- *. cbn.
  by apply IH.
Qed.

(** C2: The map's contents belong to the map.  After any sequence of
    operations, with any client writing whatever it likes to everything it
    allocated, but for the bytes of a block identifier once it was recorded, and
    to everything it reaches from what [Iter], [ReverseIter] and
    [GetProposers] gave it, no operation panics, votes and proposers are those of
    the recorded operations, and an iteration stopped after [n] pairs has handed
    out exactly the first [n] recorded rounds, in the iterator's order. *)
Theorem rounds_are_isolated acts (Hlegal : legal_run world0 acts = true) :
  exists w, run_clients world0 acts = Some w /\
    (forall ht r a t, h_GetVote (w_map w) ht r a t (w_heap w) = Some (GetVote (recorded w) ht r a t, w_heap w)) /\
    (forall ht r, exists o h, h_GetProposers (w_map w) ht r (w_heap w) = Some (o, h) /\
       read_set h <$> o = GetProposers (recorded w) ht r) /\
    (forall n, exists out h, h_Iter (w_map w) n (w_heap w) = Some (out, h) /\
       (fun p => (p.1, read_round h p.2)) <$> out = take n (iter_list (recorded w))) /\
    (forall n, exists out h, h_ReverseIter (w_map w) n (w_heap w) = Some (out, h) /\
       (fun p => (p.1, read_round h p.2)) <$> out = take n (reverse_iter_list (recorded w))).
Proof.
  destruct (run_sim acts world0 sim_world0 Hlegal) as (w & E & own & F & Hi & Hv). exists w. split; [done|].
  split_and!.
  - intros ht r a t. by eapply GetVote_spec.
  - intros ht r. destruct (GetProposers_spec _ _ _ _ _ _ ht r Hi Hv) as (o & h & H1 & _ & H2 & _). by exists o, h.
  - intros n. destruct (Iter_spec _ _ _ _ _ _ n _ _ Hi Hv (or_introl (conj eq_refl eq_refl))) as (out & h & H1 & _ & _ & H2).
    by exists out, h.
  - intros n. destruct (Iter_spec _ _ _ _ _ _ n _ _ Hi Hv (or_intror (conj eq_refl eq_refl))) as (out & h & H1 & _ & _ & H2).
    by exists out, h.
Qed.
End ClientFacts.

(** ** Witnesses *)

Section HeapWitnesses.
(** A vote and a proposer are recorded, the whole map is handed out (the copy of
    the round is at 7, its proposers at 5, its votes at 6, the inner map at 8 and
    the array at 9), and the client scribbles over all of it. *)
Definition scribble : list (client_action (B := ref_butils)) :=
  [ActNew (CBytes ["a"; "b"]%char);
   ActVote 7 0 "V" 1 (mkHB (Some (0%nat, 2%nat)) 1 None);
   ActProposer 7 0 "P";
   ActIter 9;
   ActWrite 9 (CBytes ["x"; "y"]%char);
   ActWrite 8 (CInner ∅); ActWrite 6 (COuter ∅); ActWrite 5 (CSet (set_add set_new "Q"));
   ActWrite 7 (CRound 0 0);
   ActGetProposers 7 0].

Lemma rounds_are_isolated_witness :
  exists w, run_clients world0 scribble = Some w /\
    h_GetVote (w_map w) 7 0 "V" 1 (w_heap w) = Some (GetVote (recorded w) 7 0 "V" 1, w_heap w).
Proof.
  destruct (rounds_are_isolated (B := ref_butils) scribble) as (w & H1 & H2 & _); [vm_compute; reflexivity|].
  exists w. split; [exact H1|apply H2].
Defined.

(** [AddVote] keeps the caller's slices: an array overwritten after it was passed
    in changes what the map says, which is why passing it gives it away. *)
Definition voted_hash (h : heap (B := ref_butils)) (l : loc) : string :=
  match Votes (read_round h l) !! "V" with
  | Some m => match m !! 1 with Some b => bid_Hash b | None => "" end
  | None => ""
  end.
Definition kept_slices : list string :=
  match run_clients (B := ref_butils) world0
    [ActNew (CBytes ["a"; "b"]%char); ActVote 7 0 "V" 1 (mkHB (Some (0%nat, 2%nat)) 1 None)] with
  | Some w =>
      match store 0 (CBytes ["x"; "y"]%char) (w_heap w) with
      | Some (_, h) =>
          match h_Iter (w_map w) 1 h with
          | Some (out, h') => (fun p => voted_hash h' p.2) <$> out
          | None => []
          end
      | None => []
      end
  | None => []
  end.
Example kept_slices_ex : kept_slices = ["xy"].
Proof. vm_compute. reflexivity. Qed.
End HeapWitnesses.
