(* ===== verification/Types.v ===== *)
(** * Validators, peers and RPC records ([pkg/types]) *)

From S2P Require Import Prelude GoNum GoText Deps.
From Stdlib Require Import Ascii.
Local Open Scope Z_scope.

(** ** [validator.cosmos.go], [validator.go] *)

Record CosmosValidator := mkCosmosValidator {
  Moniker : string;
  ConsensusPubkey : option bytes;
  CometConsensusPubkey : bytes;
  OperatorAddress : string;
  ConsensusAddress : string;
  AssignedAddress : string;
  RawAssignedAddress : string }.

Record TMValidator := mkTMValidator {
  tv_Comet : option CometValidator;
  tv_Cosmos : option CosmosValidator;
  Index : Z;
  VotingPowerPercent : option gofloat;
  PeerID : string }.

Definition GetDisplayAddress `{Comet} (v : TMValidator) : string :=
  match tv_Comet v with
  | Some c => HexBytes_String (cv_Address c)
  | None =>
      match tv_Cosmos v with
      | Some c => OperatorAddress c
      | None => ""
      end
  end.

Definition short_address (addr : string) : string :=
  if (10 <? slen addr)%nat
  then stake 6 addr +:+ "..." +:+ sdrop (slen addr - 4) addr
  else addr.

Definition GetDisplayName `{Comet} (v : TMValidator) : string :=
  match tv_Cosmos v with
  | Some c => if bool_decide (Moniker c = "") then short_address (GetDisplayAddress v) else Moniker c
  | None => short_address (GetDisplayAddress v)
  end.

Definition HasAssignedKey (v : TMValidator) : bool :=
  match tv_Cosmos v with
  | Some c => negb (bool_decide (AssignedAddress c = ""))
  | None => false
  end.

(** ** [upgrade.go], [abci.go] *)

Record Upgrade := mkUpgrade { up_Name : string; up_Height : Z }.

Record AbciResponse := mkAbciResponse { abci_Code : Z; abci_Log : string; abci_Value : bytes }.

(** ** [net_info.go] *)

(** [ByteSize] and [NanoDuration] are [int64]s, [Percent] a [uint32], [CustomTime] an
    instant. *)
Record FlowStatus := mkFlowStatus {
  fs_Start : Z;
  fs_Bytes : Z;
  fs_Samples : Z;
  fs_InstRate : Z;
  fs_CurRate : Z;
  fs_AvgRate : Z;
  fs_PeakRate : Z;
  fs_BytesRem : Z;
  fs_Duration : Z;
  fs_Idle : Z;
  fs_TimeRem : Z;
  fs_Progress : Z;
  fs_Active : bool }.

Record ChannelStatus := mkChannelStatus {
  ch_ID : Z;
  ch_SendQueueCapacity : string;
  ch_SendQueueSize : string;
  ch_Priority : string;
  ch_RecentlySent : string }.

Record ConnectionStatus := mkConnectionStatus {
  cs_Duration : Z;
  cs_SendMonitor : FlowStatus;
  cs_RecvMonitor : FlowStatus;
  cs_Channels : list ChannelStatus }.

Record ProtocolVersion := mkProtocolVersion { pv_P2P : Z; pv_Block : Z; pv_App : Z }.

Record DefaultNodeInfoOther := mkNodeInfoOther { TxIndex : string; RPCAddress : string }.

Record DefaultNodeInfo := mkNodeInfo {
  dni_ProtocolVersion : ProtocolVersion;
  dni_DefaultNodeID : string;
  dni_ListenAddr : string;
  dni_Network : string;
  dni_Version : string;
  dni_Channels : bytes;
  dni_Moniker : string;
  dni_Other : DefaultNodeInfoOther }.

Record Peer := mkPeer {
  peer_NodeInfo : DefaultNodeInfo;
  peer_IsOutbound : bool;
  peer_ConnectionStatus : ConnectionStatus;
  peer_RemoteIP : string }.

(** The fields the program reads through the node info. *)
Definition peer_ID (p : Peer) : string := dni_DefaultNodeID (peer_NodeInfo p).
Definition peer_Moniker (p : Peer) : string := dni_Moniker (peer_NodeInfo p).
Definition peer_Version (p : Peer) : string := dni_Version (peer_NodeInfo p).
Definition peer_Protocol (p : Peer) : Z * Z * Z :=
  let v := dni_ProtocolVersion (peer_NodeInfo p) in (pv_P2P v, pv_Block v, pv_App v).
Definition peer_RPCAddress (p : Peer) : string := RPCAddress (dni_Other (peer_NodeInfo p)).

Record NetInfo := mkNetInfo {
  ni_Listening : bool;
  ni_Listeners : list string;
  ni_NPeers : string;
  ni_Peers : list Peer }.

(** A monitor with these rates, the rest zero. *)
Definition flow_at (cur avg : Z) : FlowStatus := mkFlowStatus 0 0 0 0 cur avg 0 0 0 0 0 0 false.

Definition peer_URL `{Comet} (p : Peer) : string :=
  match url_Port (peer_RPCAddress p) with
  | None => "http://" +:+ peer_RemoteIP p +:+ ":26657"
  | Some port => "http" +:+ "://" +:+ peer_RemoteIP p +:+ ":" +:+ port
  end.

(** [NanoDuration.UnmarshalJSON]: the quotes are optional. *)
Definition is_quote (c : option ascii) : bool :=
  match c with Some c => Ascii.eqb c (ascii_of_nat 34) | None => false end.

Definition NanoDuration_UnmarshalJSON (b : bytes) : res Z :=
  let s :=
    if (2 <=? slen b)%nat && is_quote (String.get 0 b) && is_quote (String.get (slen b - 1) b)
    then stake (slen b - 2) (sdrop 1 b) else b in
  match ParseInt s 64 with
  | Ok nanos => Ok nanos
  | Err e => Err ("invalid duration: " +:+ e)
  | Panic => Panic
  end.

(** The text [CustomTime.UnmarshalJSON] hands to [time.Parse]: [s[1:len(s)-1]]. *)
Definition CustomTime_text (b : bytes) : res string := slice 1 (Z.of_nat (slen b) - 1) b.

(** [Percent.String]: the thousands digit written by [1000 + p%1000] is
    overwritten with the decimal point. *)
Definition Percent_String (p : Z) : string :=
  let whole := itoa (uint64 p / 1000) in
  let rest := itoa (1000 + uint64 p mod 1000) in
  match rest with
  | String _ frac => whole +:+ String "." (frac +:+ "%")
  | EmptyString => whole
  end.

Definition KB : Z := Z.shiftl 1 10.
Definition MB : Z := Z.shiftl 1 20.
Definition GB : Z := Z.shiftl 1 30.
Definition TB : Z := Z.shiftl 1 40.
Definition PB : Z := Z.shiftl 1 50.

Definition ByteSize_String (b : Z) : string :=
  let unit (u : Z) (suffix : string) :=
    fmt_fixed 2 (f64_div (f64_of_Z b) (f64_of_Z u)) +:+ suffix in
  if PB <=? b then unit PB "pb"
  else if TB <=? b then unit TB "tb"
  else if GB <=? b then unit GB "gb"
  else if MB <=? b then unit MB "mb"
  else if KB <=? b then unit KB "kb"
  else itoa b +:+ "b".

(** ** [RPC] ([state.go]) *)

Record RPC := mkRPC {
  rpc_ID : string;
  rpc_IP : string;
  rpc_URL : string;
  rpc_Moniker : string;
  rpc_ValidatorAddress : string;
  rpc_ValidatorMoniker : string }.

#[export] Instance rpc_eq_dec : EqDecision RPC.
Proof. solve_decision. Defined.

Definition zero_RPC : RPC := mkRPC "" "" "" "" "" "".

Definition NewRPCFromPeer `{Comet} (peer : Peer) : RPC :=
  mkRPC (peer_ID peer) (peer_RemoteIP peer) (peer_URL peer) (peer_Moniker peer) "" "".

(** ** Facts *)

Section TypeFacts.
Context `{C : Comet}.

Lemma short_address_length addr : (slen (short_address addr) <= 13)%nat.
Proof.
  unfold short_address. destruct (Nat.ltb_spec 10 (slen addr)); [|lia].
  rewrite !slen_app, slen_stake. assert (Hd : forall n s, slen (sdrop n s) = (slen s - n)%nat).
  { clear. induction n as [|n IH]; intros [|c s]; try done. apply IH. }
  rewrite Hd. change (slen "...") with 3%nat. lia.
Qed.

Example percent_string_ex : Percent_String 12345 = "12.345%" /\ Percent_String 7 = "0.007%".
Proof. by vm_compute. Qed.
Example bytesize_ex : ByteSize_String 1536 = "1.50kb" /\ ByteSize_String 1023 = "1023b".
Proof. by vm_compute. Qed.
End TypeFacts.

Section JsonFacts.
Lemma sdrop_app n s t : slen s = n -> sdrop n (s +:+ t) = t.
Proof.
  revert n. induction s as [|c s IH]; intros n <-; autorewrite with gostr; [done|]. by apply IH.
Qed.
Lemma stake_app n s t : slen s = n -> stake n (s +:+ t) = s.
Proof.
  revert n. induction s as [|c s IH]; intros n <-; autorewrite with gostr; [by destruct t|].
  change (slen (String c s)) with (S (slen s)). cbn [stake]. by rewrite IH.
Qed.
Lemma get_app_r s t n : String.get (slen s + n) (s +:+ t) = String.get n t.
Proof. induction s as [|c s IH]; autorewrite with gostr; [done|]. exact IH. Qed.

Definition quoted (s : string) : string := dquote +:+ s +:+ dquote.

Lemma quoted_inner s : stake (slen (quoted s) - 2) (sdrop 1 (quoted s)) = s.
Proof.
  unfold quoted. rewrite (sdrop_app 1 dquote) by done. apply stake_app.
  rewrite !slen_app. change (slen dquote) with 1%nat. lia.
Qed.

Lemma quoted_last s : String.get (slen (quoted s) - 1) (quoted s) = Some (ascii_of_nat 34).
Proof.
  unfold quoted. rewrite <-append_assoc, slen_app. change (slen dquote) with 1%nat.
  replace (slen (dquote +:+ s) + 1 - 1)%nat with (slen (dquote +:+ s) + 0)%nat by lia.
  by rewrite get_app_r.
Qed.

(** A duration written as a JSON number or as a quoted JSON string of that
    number decodes to the same value. *)
Theorem NanoDuration_roundtrip z (Hz : is_int64 z) :
  NanoDuration_UnmarshalJSON (quoted (itoa z)) = Ok z /\
  NanoDuration_UnmarshalJSON (itoa z) = Ok z.
Proof.
  assert (HP : ParseInt (itoa z) 64 = Ok z) by (apply ParseInt_itoa; go_lia).
  unfold NanoDuration_UnmarshalJSON. split.
  - rewrite quoted_last, quoted_inner.
    assert ((2 <=? slen (quoted (itoa z)))%nat = true) as ->.
    { apply Nat.leb_le. unfold quoted. rewrite !slen_app. change (slen dquote) with 1%nat. lia. }
    change (String.get 0 (quoted (itoa z))) with (Some (ascii_of_nat 34)).
    cbn [is_quote andb]. rewrite Ascii.eqb_refl. cbn [andb]. by rewrite HP.
  - assert (is_quote (String.get 0 (itoa z)) = false) as ->.
    { pose proof (itoa_no_char (ascii_of_nat 34) z eq_refl eq_refl) as Hn.
      destruct (itoa z) as [|c s]; [done|]. cbn -[Ascii.eqb] in *.
      apply andb_true_iff in Hn as [Hn _]. by apply negb_true_iff in Hn. }
    rewrite andb_false_r. cbn [andb]. by rewrite HP.
Qed.

Lemma NanoDuration_roundtrip_witness :
  is_int64 699569204788255 /\
  NanoDuration_UnmarshalJSON (quoted (itoa 699569204788255)) = Ok 699569204788255.
Proof. split; [go_lia|]. apply (NanoDuration_roundtrip 699569204788255). go_lia. Defined.

(** The three decimals of [Percent.String], checked for every remainder. *)
Definition milli_text (m : Z) : string :=
  match itoa (1000 + m) with String _ frac => frac | EmptyString => "" end.
Definition milli_ok (m : Z) : bool :=
  bool_decide (slen (milli_text m) = 3%nat) &&
  bool_decide (ParseUint (milli_text m) 64 = Ok m) &&
  negb (bool_decide (itoa (1000 + m) = "")).

Lemma milli_ok_all m : 0 <= m < 1000 -> milli_ok m = true.
Proof.
  intros Hm. assert (Hall : forallb milli_ok (Z.of_nat <$> seq 0 1000) = true) by (vm_compute; done).
  rewrite forallb_forall in Hall. apply Hall, list_elem_of_In, list_elem_of_fmap.
  exists (Z.to_nat m). split; [lia|]. apply elem_of_seq. lia.
Qed.

(** [Percent.String] prints thousandths of a percent as a whole part and
    exactly three decimals; reading both parts back gives the value. *)
Theorem Percent_String_decimal p (Hp : 0 <= p < 2 ^ 32) :
  exists whole frac,
    Percent_String p = whole +:+ "." +:+ frac +:+ "%" /\
    ParseUint whole 64 = Ok (p / 1000) /\ slen frac = 3%nat /\ ParseUint frac 64 = Ok (p mod 1000).
Proof.
  exists (itoa (p / 1000)), (milli_text (p mod 1000)).
  pose proof (milli_ok_all (p mod 1000) (Z.mod_pos_bound p 1000 ltac:(lia))) as Hok.
  unfold milli_ok in Hok. case_bool. unfold Percent_String. rewrite uint64_id by lia.
  split_and!; [|by apply ParseUint_itoa; pose proof (Z.div_le_upper_bound p 1000 (2 ^ 32)); split;
    [apply Z.div_pos; lia|lia]|done|done].
  unfold milli_text. by destruct (itoa (1000 + p mod 1000)).
Qed.

Lemma Percent_String_decimal_witness :
  0 <= 12345 < 2 ^ 32 /\ exists whole frac, Percent_String 12345 = whole +:+ "." +:+ frac +:+ "%".
Proof.
  split; [lia|]. destruct (Percent_String_decimal 12345 ltac:(lia)) as (w & f & H & _).
  by exists w, f.
Defined.
End JsonFacts.
