(* ===== verification/MetricTypes.v ===== *)
(** * The health records ([pkg/metrics/types.go]) *)

From S2P Require Import Prelude GoNum.
Local Open Scope Z_scope.

Record ASNShare := mkASNShare {
  as_ASN : Z; as_Description : string; as_Validators : Z; as_PowerPct : gofloat }.

Record EquivocationEvent := mkEquivocationEvent {
  eq_ValidatorAddress : string;
  eq_Moniker : string;
  eq_Height : Z;
  eq_Round : Z;
  eq_VoteType : string;
  eq_BlockIDA : string;
  eq_BlockIDB : string;
  eq_DetectedAt : Z }.

(** [NetworkHealth], one sub-record per group of fields. *)
Record Liveness := mkLiveness {
  ChainHalted : bool; SecondsSinceHeight : gofloat; CurrentMaxRound : Z;
  OfflineCount : Z; OfflinePowerPct : gofloat }.
Record Quality := mkQuality {
  RoundsPerBlockAvg : gofloat; RoundZeroCommitPct : gofloat;
  AvgBlockTime : Z; BlockTimeStdDev : option Z; BlockIntervals : list Z }.
Record StepTiming := mkStepTiming {
  AvgProposeTime : Z; AvgPrevoteTime : Z; AvgPrecommitTime : Z; StepTimingSample : Z }.
Record Mempool := mkMempool { MempoolTxs : Z; MempoolBytes : Z; MempoolKnown : bool }.
Record Decentralization := mkDecentralization {
  Nakamoto33 : Z; Nakamoto66 : Z; Gini : gofloat; Top10Pct : gofloat }.

Record NetworkHealth := mkNetworkHealth {
  nh_liveness : Liveness;
  nh_quality : Quality;
  nh_steps : StepTiming;
  nh_mempool : Mempool;
  nh_decentralization : Decentralization;
  TopASNs : list ASNShare;
  Equivocations : list EquivocationEvent }.

Definition zero_Decentralization : Decentralization := mkDecentralization 0 0 f64_zero f64_zero.
Definition zero_Quality : Quality := mkQuality f64_zero f64_zero 0 (Some 0) [].

(** [&NetworkHealth{}] *)
Definition zero_NetworkHealth : NetworkHealth :=
  mkNetworkHealth (mkLiveness false f64_zero 0 0 f64_zero) zero_Quality
    (mkStepTiming 0 0 0 0) (mkMempool 0 0 false) zero_Decentralization [] [].

(** [ValidatorHealthRow], with its groups of fields. *)
Record RowHistory := mkRowHistory {
  HasHistory : bool; SigningRatePct : gofloat; BlocksMissed : Z; PrevoteRatePct : gofloat;
  PrecommitRatePct : gofloat; ProposerSharePct : gofloat }.
Record RowLatency := mkRowLatency {
  HasLatency : bool; AvgPrevoteArrival : Z; AvgPrecommitArrival : Z; MaxPrecommitArrival : Z }.

Record ValidatorHealthRow := mkRow {
  row_Address : string;
  row_Moniker : string;
  row_VotingPowerPct : gofloat;
  row_history : RowHistory;
  row_latency : RowLatency;
  row_Online : bool;
  row_ASN : Z;
  row_ASNOrg : string;
  row_Equivocated : bool }.

Definition zero_RowHistory : RowHistory := mkRowHistory false f64_zero 0 f64_zero f64_zero f64_zero.
Definition zero_RowLatency : RowLatency := mkRowLatency false 0 0 0.

(** Writes of one group of fields. *)
Definition with_liveness (nh : NetworkHealth) (x : Liveness) : NetworkHealth :=
  mkNetworkHealth x (nh_quality nh) (nh_steps nh) (nh_mempool nh) (nh_decentralization nh)
    (TopASNs nh) (Equivocations nh).
Definition with_quality (nh : NetworkHealth) (x : Quality) : NetworkHealth :=
  mkNetworkHealth (nh_liveness nh) x (nh_steps nh) (nh_mempool nh) (nh_decentralization nh)
    (TopASNs nh) (Equivocations nh).
Definition with_steps (nh : NetworkHealth) (x : StepTiming) : NetworkHealth :=
  mkNetworkHealth (nh_liveness nh) (nh_quality nh) x (nh_mempool nh) (nh_decentralization nh)
    (TopASNs nh) (Equivocations nh).
Definition with_mempool (nh : NetworkHealth) (x : Mempool) : NetworkHealth :=
  mkNetworkHealth (nh_liveness nh) (nh_quality nh) (nh_steps nh) x (nh_decentralization nh)
    (TopASNs nh) (Equivocations nh).
Definition with_asns (nh : NetworkHealth) (x : list ASNShare) : NetworkHealth :=
  mkNetworkHealth (nh_liveness nh) (nh_quality nh) (nh_steps nh) (nh_mempool nh)
    (nh_decentralization nh) x (Equivocations nh).

Definition with_online (r : ValidatorHealthRow) (x : bool) : ValidatorHealthRow :=
  mkRow (row_Address r) (row_Moniker r) (row_VotingPowerPct r) (row_history r) (row_latency r)
    x (row_ASN r) (row_ASNOrg r) (row_Equivocated r).
Definition with_history (r : ValidatorHealthRow) (x : RowHistory) : ValidatorHealthRow :=
  mkRow (row_Address r) (row_Moniker r) (row_VotingPowerPct r) x (row_latency r)
    (row_Online r) (row_ASN r) (row_ASNOrg r) (row_Equivocated r).
Definition with_latency (r : ValidatorHealthRow) (x : RowLatency) : ValidatorHealthRow :=
  mkRow (row_Address r) (row_Moniker r) (row_VotingPowerPct r) (row_history r) x
    (row_Online r) (row_ASN r) (row_ASNOrg r) (row_Equivocated r).
Definition with_asn (r : ValidatorHealthRow) (asn : Z) (org : string) : ValidatorHealthRow :=
  mkRow (row_Address r) (row_Moniker r) (row_VotingPowerPct r) (row_history r) (row_latency r)
    (row_Online r) asn org (row_Equivocated r).
