(* ===== verification/State.v ===== *)
(** * The shared state ([pkg/types/state.go])

    [State] is one record behind a mutex; each accessor runs under the lock, so
    it is one atomic function of the record.  The fields are grouped into
    sub-records; the accessors keep the names of the Go methods.
    [VotesByRound] has a mutex of its own. *)

From S2P Require Import Prelude GoNum GoText GoTime Deps Rounds Types MetricTypes.
From Stdlib Require Import Lqa.
Local Open Scope Z_scope.

(** The fields the program reads of [rpctypes.ResultStatus]. *)
Record ResultStatus := mkResultStatus {
  rs_ID : string; rs_Network : string; rs_Version : string; rs_Moniker : string;
  rs_ValidatorAddress : bytes }.

(** What the [any]-typed fields hold. *)
Inductive health_any :=
  | AnyNetworkHealth (nh : NetworkHealth)
  | AnyRows (rows : list ValidatorHealthRow).

Record ConsensusFields := mkConsensus { c_Height : Z; c_Round : Z; c_Step : Z; c_StartTime : Z }.
Record ChainFields := mkChain {
  s_ChainInfo : option ResultStatus; s_Upgrade : option Upgrade; s_BlockTime : Z;
  s_NetInfo : option NetInfo }.
Record HealthFields := mkHealth {
  s_networkHealth : option health_any; s_validatorHealth : option health_any;
  s_mempoolTxs : Z; s_mempoolBytes : Z; s_mempoolKnown : bool }.
Record ErrorFields := mkErrors {
  e_ConsensusState : option string; e_Validators : option string;
  e_UpgradePlan : option string; e_ChainInfo : option string }.

Section State.
Context `{B : Butils} `{C : Comet}.

Record RPCFields := mkRPCFields {
  s_currentRPC : string;
  s_knownRPCs : OrderedMap RPC;
  s_rpcPeers : OrderedMap (list Peer) }.

Record State := mkState {
  s_consensus : ConsensusFields;
  s_TMValidators : list TMValidator;
  s_validatorsByPeerID : gmap string TMValidator;
  s_chain : ChainFields;
  s_health : HealthFields;
  VotesByRound : RoundDataMap;
  s_rpcs : RPCFields;
  s_errors : ErrorFields }.

Definition NewState (firstRPC : string) (now : Z) : State :=
  mkState (mkConsensus 0 0 0 now) [] ∅ (mkChain None None 0 None)
    (mkHealth None None 0 0 false) NewRoundDataMap
    (mkRPCFields firstRPC om_new om_new) (mkErrors None None None None).

(** Field writes. *)
Definition with_consensus (f : ConsensusFields) (s : State) : State :=
  mkState f (s_TMValidators s) (s_validatorsByPeerID s) (s_chain s) (s_health s)
    (VotesByRound s) (s_rpcs s) (s_errors s).
Definition with_chain (f : ChainFields -> ChainFields) (s : State) : State :=
  mkState (s_consensus s) (s_TMValidators s) (s_validatorsByPeerID s) (f (s_chain s)) (s_health s)
    (VotesByRound s) (s_rpcs s) (s_errors s).
Definition with_health (f : HealthFields -> HealthFields) (s : State) : State :=
  mkState (s_consensus s) (s_TMValidators s) (s_validatorsByPeerID s) (s_chain s) (f (s_health s))
    (VotesByRound s) (s_rpcs s) (s_errors s).
Definition with_votes (v : RoundDataMap) (s : State) : State :=
  mkState (s_consensus s) (s_TMValidators s) (s_validatorsByPeerID s) (s_chain s) (s_health s)
    v (s_rpcs s) (s_errors s).
Definition with_rpcs (f : RPCFields -> RPCFields) (s : State) : State :=
  mkState (s_consensus s) (s_TMValidators s) (s_validatorsByPeerID s) (s_chain s) (s_health s)
    (VotesByRound s) (f (s_rpcs s)) (s_errors s).
Definition with_errors (f : ErrorFields -> ErrorFields) (s : State) : State :=
  mkState (s_consensus s) (s_TMValidators s) (s_validatorsByPeerID s) (s_chain s) (s_health s)
    (VotesByRound s) (s_rpcs s) (f (s_errors s)).

(** ** RPC registry *)

Definition CurrentRPC (s : State) : RPC :=
  match om_get (s_knownRPCs (s_rpcs s)) (s_currentRPC (s_rpcs s)) with
  | None => mkRPC "" "" (s_currentRPC (s_rpcs s)) "" "" ""
  | Some rpc => rpc
  end.
Definition SetCurrentRPCURL (rpcURL : string) : State -> State :=
  with_rpcs (fun f => mkRPCFields rpcURL (s_knownRPCs f) (s_rpcPeers f)).
Definition KnownRPCByURL (s : State) (url : string) : option RPC :=
  om_get (s_knownRPCs (s_rpcs s)) url.
Definition KnownRPCs (s : State) : OrderedMap RPC := s_knownRPCs (s_rpcs s).
Definition AddKnownRPC (rpc : RPC) : State -> State :=
  with_rpcs (fun f => mkRPCFields (s_currentRPC f) (om_set (s_knownRPCs f) (rpc_URL rpc) rpc) (s_rpcPeers f)).
Definition IsKnownRPC (s : State) (rpcURL : string) : bool :=
  match om_get (s_knownRPCs (s_rpcs s)) rpcURL with Some _ => true | None => false end.
Definition RPCAtIndex (s : State) (index : nat) : option RPC :=
  snd <$> om_entries (s_knownRPCs (s_rpcs s)) !! index.
Definition AddRPCPeers (rpcURL : string) (peers : list Peer) : State -> State :=
  with_rpcs (fun f => mkRPCFields (s_currentRPC f) (s_knownRPCs f) (om_set (s_rpcPeers f) rpcURL peers)).
Definition RPCPeers (s : State) (rpcURL : string) : list Peer :=
  default [] (om_get (s_rpcPeers (s_rpcs s)) rpcURL).

(** ** Consensus events *)

Definition add_event (v : RoundDataMap) (event : TMEventData) : res RoundDataMap :=
  match event with
  | EventDataNewRound height round proposer =>
      Ok (AddProposer v height round (HexBytes_String proposer))
  | EventDataVote vote =>
      x ← deref vote;
      Ok (AddVote v (v_Height x) (v_Round x) (HexBytes_String (v_ValidatorAddress x))
            (v_Type x) (v_BlockID x))
  | _ => Ok v
  end.
Definition AddCometBFTEvents (s : State) (events : list TMEventData) : res State :=
  v ← foldM add_event (VotesByRound s) events; Ok (with_votes v s).

(** ** Plain accessors *)

Definition SetChainInfo (info : option ResultStatus) : State -> State :=
  with_chain (fun f => mkChain info (s_Upgrade f) (s_BlockTime f) (s_NetInfo f)).
Definition GetChainInfo (s : State) := s_ChainInfo (s_chain s).
Definition SetUpgrade (upgrade : option Upgrade) : State -> State :=
  with_chain (fun f => mkChain (s_ChainInfo f) upgrade (s_BlockTime f) (s_NetInfo f)).
Definition GetUpgrade (s : State) := s_Upgrade (s_chain s).
Definition SetBlockTime (blockTime : Z) : State -> State :=
  with_chain (fun f => mkChain (s_ChainInfo f) (s_Upgrade f) blockTime (s_NetInfo f)).
Definition GetBlockTime (s : State) := s_BlockTime (s_chain s).
Definition SetNetInfo (info : option NetInfo) : State -> State :=
  with_chain (fun f => mkChain (s_ChainInfo f) (s_Upgrade f) (s_BlockTime f) info).
Definition GetNetInfo (s : State) := s_NetInfo (s_chain s).

Definition SetNetworkHealth (h : option health_any) : State -> State :=
  with_health (fun f => mkHealth h (s_validatorHealth f) (s_mempoolTxs f) (s_mempoolBytes f) (s_mempoolKnown f)).
Definition GetNetworkHealth (s : State) := s_networkHealth (s_health s).
Definition SetValidatorHealth (rows : option health_any) : State -> State :=
  with_health (fun f => mkHealth (s_networkHealth f) rows (s_mempoolTxs f) (s_mempoolBytes f) (s_mempoolKnown f)).
Definition GetValidatorHealth (s : State) := s_validatorHealth (s_health s).
Definition SetMempool (txs bytes : Z) : State -> State :=
  with_health (fun f => mkHealth (s_networkHealth f) (s_validatorHealth f) txs bytes true).
Definition GetMempool (s : State) : Z * Z * bool :=
  (s_mempoolTxs (s_health s), s_mempoolBytes (s_health s), s_mempoolKnown (s_health s)).

Definition SetConsensusStateError (err : option string) : State -> State :=
  with_errors (fun f => mkErrors err (e_Validators f) (e_UpgradePlan f) (e_ChainInfo f)).
Definition GetConsensusStateError (s : State) := e_ConsensusState (s_errors s).
Definition SetValidatorsError (err : option string) : State -> State :=
  with_errors (fun f => mkErrors (e_ConsensusState f) err (e_UpgradePlan f) (e_ChainInfo f)).
Definition SetUpgradePlanError (err : option string) : State -> State :=
  with_errors (fun f => mkErrors (e_ConsensusState f) (e_Validators f) err (e_ChainInfo f)).
Definition GetUpgradePlanError (s : State) := e_UpgradePlan (s_errors s).
Definition SetChainInfoError (err : option string) : State -> State :=
  with_errors (fun f => mkErrors (e_ConsensusState f) (e_Validators f) (e_UpgradePlan f) err).
Definition GetChainInfoError (s : State) := e_ChainInfo (s_errors s).

Definition SetConsensusHeight (height round step startTime : Z) : State -> State :=
  with_consensus (mkConsensus height round step startTime).
Definition GetConsensusHeight (s : State) : Z * Z * Z * Z :=
  let c := s_consensus s in (c_Height c, c_Round c, c_Step c, c_StartTime c).
Definition GetTMValidators (s : State) := s_TMValidators s.
Definition SetTMValidators (validators : list TMValidator) (s : State) : State :=
  mkState (s_consensus s) validators (s_validatorsByPeerID s) (s_chain s) (s_health s)
    (VotesByRound s) (s_rpcs s) (s_errors s).

(** The lookups by peer id; letters other than ASCII's do not occur in one. *)
Definition ValidatorByPeerID (s : State) (peerID : string) : option TMValidator :=
  s_validatorsByPeerID s !! to_lower peerID.
Definition ValidatorsByPeerID (s : State) : gmap string TMValidator := s_validatorsByPeerID s.

(** ** Voting power *)

Definition counted (countDisagreeing : bool) (state : VoteState) : bool :=
  match state with
  | VoteStateForBlock => true
  | VoteStateNil => countDisagreeing
  | VoteStateNone => false
  end.

Definition tally_step (votes : RoundDataMap) (height round msgType : Z) (countDisagreeing : bool)
    (acc : Z * Z) (validator : TMValidator) : res (Z * Z) :=
  let '(voted, totalVP) := acc in
  cv ← deref (tv_Comet validator);
  let totalVP := totalVP + cv_VotingPower cv in
  let state := GetVote votes height round (GetDisplayAddress validator) msgType in
  Ok (if counted countDisagreeing state then voted + cv_VotingPower cv else voted, totalVP).

Definition votingPowerPercent (validators : list TMValidator) (votes : RoundDataMap)
    (height round msgType : Z) (countDisagreeing : bool) : res gofloat :=
  match validators with
  | [] => Ok (Fin 0)
  | _ =>
      acc ← foldM (tally_step votes height round msgType countDisagreeing) (0, 0) validators;
      let '(voted, totalVP) := acc in
      if totalVP =? 0 then Ok (Fin 0)
      else
        let percent := big_round (inject_Z voted) in
        let percent := f_div big_round percent (big_round (inject_Z totalVP)) in
        Ok (f_mul big_round percent (Fin 100))
  end.

Definition GetTotalVotingPowerPrevotedPercent (s : State) (countDisagreeing : bool) : res gofloat :=
  votingPowerPercent (s_TMValidators s) (VotesByRound s) (c_Height (s_consensus s))
    (int32 (c_Round (s_consensus s))) PrevoteType countDisagreeing.
Definition GetTotalVotingPowerPrecommittedPercent (s : State) (countDisagreeing : bool) : res gofloat :=
  votingPowerPercent (s_TMValidators s) (VotesByRound s) (c_Height (s_consensus s))
    (int32 (c_Round (s_consensus s))) PrecommitType countDisagreeing.
End State.

Arguments State {_}.

(** ** Facts *)

Section PercentFacts.
Local Open Scope Q_scope.

(** The arithmetic of [votingPowerPercent] on the two totals. *)
Definition percent_of (voted total : Z) : gofloat :=
  f_mul big_round (f_div big_round (big_round (inject_Z voted)) (big_round (inject_Z total))) (Fin 100).

Lemma big_pos total : (0 < total)%Z -> 0 < rnd None (inject_Z total).
Proof.
  intros Ht. apply (Qlt_le_trans _ 1); [reflexivity|].
  change 1 with (inject_Z 1). rewrite <-(rnd_Z None 1) by (done || lia).
  apply rnd_le; [done|]. rewrite <-Zle_Qle. lia.
Qed.

Lemma percent_of_fin voted total :
  (0 < total)%Z ->
  percent_of voted total =
  Fin (rnd None (rnd None (rnd None (inject_Z voted) / rnd None (inject_Z total)) * 100)).
Proof.
  intros Ht. unfold percent_of, big_round. cbn -[rnd].
  assert (Qeq_bool (rnd None (inject_Z total)) 0 = false) as ->; [|done].
  apply not_true_iff_false. rewrite Qeq_bool_iff. pose proof (big_pos total Ht). lra.
Qed.

Lemma voted_rounds voted total : (0 <= voted <= total)%Z ->
  0 <= rnd None (inject_Z voted) /\ rnd None (inject_Z voted) <= rnd None (inject_Z total).
Proof.
  intros Hv. assert (0 <= inject_Z voted) by (change 0 with (inject_Z 0); rewrite <-Zle_Qle; lia).
  split; [by apply rnd_nonneg|]. apply rnd_le; [done|]. rewrite <-Zle_Qle. lia.
Qed.

Lemma percent_of_range voted total :
  (0 <= voted <= total)%Z -> (0 < total)%Z ->
  exists q, percent_of voted total = Fin q /\ 0 <= q /\ q <= 100.
Proof.
  intros Hv Ht. rewrite percent_of_fin by done. eexists. split; [done|].
  destruct (voted_rounds voted total Hv) as [H0 Hle]. pose proof (big_pos total Ht).
  destruct (rnd_ratio_le_1 None _ _ I H0 Hle ltac:(done)) as [? ?]. by apply rnd_percent.
Qed.

Lemma percent_of_full total : (0 < total)%Z -> exists q, percent_of total total = Fin q /\ q == 100.
Proof.
  intros Ht. rewrite percent_of_fin by done. eexists. split; [done|]. pose proof (big_pos total Ht).
  assert (Hm : forall a b, a == b -> 0 <= a -> rnd None a == rnd None b).
  { intros a b E Ha. apply Qle_antisym; apply rnd_le; rewrite <-?E; try done; apply Qle_refl. }
  rewrite (Hm _ (inject_Z 100)).
  - by rewrite rnd_Z by (done || lia).
  - rewrite (Hm _ (inject_Z 1)); [rewrite rnd_Z by (done || lia); reflexivity| |].
    + change (inject_Z 1) with 1. field. lra.
    + apply Qle_shift_div_l; lra.
  - assert (0 <= rnd None (rnd None (inject_Z total) / rnd None (inject_Z total)));
      [|nra]. apply rnd_nonneg. apply Qle_shift_div_l; lra.
Qed.

Lemma percent_of_mono v1 v2 total :
  (0 <= v1 <= v2)%Z -> (v2 <= total)%Z -> (0 < total)%Z ->
  fval (percent_of v1 total) <= fval (percent_of v2 total).
Proof.
  intros H1 H2 Ht. rewrite !percent_of_fin by done. cbn -[rnd].
  destruct (voted_rounds v1 v2 H1) as [H0 Hle]. pose proof (big_pos total Ht).
  assert (Hd : rnd None (inject_Z v1) / rnd None (inject_Z total) <=
               rnd None (inject_Z v2) / rnd None (inject_Z total)).
  { unfold Qdiv. apply Qmult_le_compat_r; [done|]. apply Qinv_le_0_compat. lra. }
  assert (Hp : 0 <= rnd None (inject_Z v1) / rnd None (inject_Z total)) by (apply Qle_shift_div_l; lra).
  pose proof (rnd_nonneg None _ Hp). pose proof (rnd_le None _ _ Hp Hd). apply rnd_le; nra.
Qed.
End PercentFacts.

Section StateFacts.
Context `{BL : ButilsLaws} `{C : Comet}.
Implicit Types s : State.

Definition power (v : TMValidator) : Z := default 0 (cv_VotingPower <$> tv_Comet v).

(** Every validator carries its CometBFT record and a non-negative power. *)
Definition comet_known (vs : list TMValidator) : Prop :=
  Forall (fun v => is_Some (tv_Comet v) /\ 0 <= power v) vs.

Definition voted_power votes h r t cd (v : TMValidator) : Z :=
  if counted cd (GetVote votes h r (GetDisplayAddress v) t) then power v else 0.

Lemma tally_step_ok votes h r t cd a b v :
  is_Some (tv_Comet v) ->
  tally_step votes h r t cd (a, b) v = Ok (a + voted_power votes h r t cd v, b + power v).
Proof.
  intros [cv Hcv]. unfold tally_step, voted_power, power. rewrite Hcv. cbn.
  destruct (counted _ _); by rewrite ?Z.add_0_r.
Qed.

Lemma tally_fold votes h r t cd vs a b :
  Forall (fun v => is_Some (tv_Comet v)) vs ->
  foldM (tally_step votes h r t cd) (a, b) vs =
  Ok (a + sumz (voted_power votes h r t cd <$> vs), b + sumz (power <$> vs)).
Proof.
  intros Hvs. revert a b. induction Hvs as [|v vs Hv Hvs IH]; intros a b.
  { cbn. by rewrite !Z.add_0_r. }
  cbn [foldM]. rewrite tally_step_ok by done. cbn [mbind res_bind].
  by rewrite IH, !fmap_cons, !sumz_cons, !Z.add_assoc.
Qed.

Lemma voted_le_total votes h r t cd vs :
  comet_known vs ->
  0 <= sumz (voted_power votes h r t cd <$> vs) <= sumz (power <$> vs).
Proof.
  induction 1 as [|v vs [_ Hp] Hvs IH]; cbn; [lia|]. unfold voted_power at 1 3.
  destruct (counted _ _); lia.
Qed.

Lemma voted_agreeing_le votes h r t vs :
  comet_known vs ->
  sumz (voted_power votes h r t false <$> vs) <= sumz (voted_power votes h r t true <$> vs).
Proof.
  induction 1 as [|v vs [_ Hp] Hvs IH]; cbn; [lia|]. unfold voted_power at 1 3.
  destruct (GetVote _ _ _ _ _); cbn; lia.
Qed.

Lemma votingPowerPercent_eq vs votes h r t cd :
  comet_known vs ->
  votingPowerPercent vs votes h r t cd =
  Ok (if sumz (power <$> vs) =? 0 then Fin 0
      else percent_of (sumz (voted_power votes h r t cd <$> vs)) (sumz (power <$> vs))).
Proof.
  intros Hvs. destruct vs as [|v vs']; [done|]. unfold votingPowerPercent.
  rewrite tally_fold by (eapply Forall_impl; [exact Hvs|]; naive_solver).
  rewrite !Z.add_0_l. cbn [mbind res_bind]. by destruct (_ =? 0).
Qed.

(** C35: with the CometBFT record of every validator present, the voting-power
    percentage is a finite number between 0 and 100: no division by zero, no
    infinity, no overshoot from rounding; it is 100 when all the power is counted. *)
Theorem votingPowerPercent_range vs votes h r t cd (Hvs : comet_known vs) :
  exists q, votingPowerPercent vs votes h r t cd = Ok (Fin q) /\ (0 <= q)%Q /\ (q <= 100)%Q /\
    (sumz (voted_power votes h r t cd <$> vs) = sumz (power <$> vs) ->
     0 < sumz (power <$> vs) -> (q == 100)%Q).
Proof.
  rewrite votingPowerPercent_eq by done.
  pose proof (voted_le_total votes h r t cd vs Hvs) as Hle.
  destruct (Z.eqb_spec (sumz (power <$> vs)) 0) as [E|E].
  - exists 0%Q. split_and!; [done|by apply Qle_refl|done|lia].
  - destruct (percent_of_range _ _ Hle ltac:(lia)) as (q & Hq & H0 & H1).
    exists q. split_and!; [by rewrite Hq|done|done|]. intros Heq Hpos. rewrite Heq in Hq.
    destruct (percent_of_full _ Hpos) as (q' & Hq' & ?). congruence.
Qed.

(** The "agreeing" percentage, which leaves nil votes out, never exceeds
    the "total" one. *)
Theorem agreeing_le_total vs votes h r t q1 q2 (Hvs : comet_known vs)
  (H1 : votingPowerPercent vs votes h r t false = Ok (Fin q1))
  (H2 : votingPowerPercent vs votes h r t true = Ok (Fin q2)) : (q1 <= q2)%Q.
Proof.
  rewrite votingPowerPercent_eq in H1, H2 by done.
  pose proof (voted_le_total votes h r t true vs Hvs).
  pose proof (voted_le_total votes h r t false vs Hvs).
  pose proof (voted_agreeing_le votes h r t vs Hvs).
  set (v1 := sumz (voted_power votes h r t false <$> vs)) in *.
  set (v2 := sumz (voted_power votes h r t true <$> vs)) in *.
  set (tot := sumz (power <$> vs)) in *.
  destruct (Z.eqb_spec tot 0); [simplify_eq; apply Qle_refl|].
  assert (Hm : (fval (percent_of v1 tot) <= fval (percent_of v2 tot))%Q)
    by (apply percent_of_mono; lia).
  injection H1 as H1. injection H2 as H2. rewrite H1, H2 in Hm. exact Hm.
Qed.

(** *** Events *)

Definition event_op (e : TMEventData) : option round_op :=
  match e with
  | EventDataNewRound h r p => Some (OpProposer h r (HexBytes_String p))
  | EventDataVote (Some x) =>
      Some (OpVote (v_Height x) (v_Round x) (HexBytes_String (v_ValidatorAddress x)) (v_Type x) (v_BlockID x))
  | _ => None
  end.

Definition nil_vote (e : TMEventData) : bool :=
  match e with EventDataVote None => true | _ => false end.

Lemma add_events_fold v events :
  foldM add_event v events =
  if existsb nil_vote events then Panic else Ok (apply_ops v (omap event_op events)).
Proof.
  revert v. induction events as [|e events IH]; intros v; [done|].
  destruct e as [h r p|[x|]|h r st|]; cbn -[AddProposer AddVote]; try done; rewrite IH;
    by destruct (existsb _ _).
Qed.

(** A batch of websocket events without a nil vote pointer leaves the votes
    map that the same votes and proposers produce one by one and changes no other
    field; a nil vote pointer panics. *)
Theorem AddCometBFTEvents_spec s events :
  AddCometBFTEvents s events =
  if existsb nil_vote events then Panic
  else Ok (with_votes (apply_ops (VotesByRound s) (omap event_op events)) s).
Proof. unfold AddCometBFTEvents. rewrite add_events_fold. by destruct (existsb _ _). Qed.

(** *** The RPC registry, over every sequence of writers *)

Inductive state_step : State -> State -> Prop :=
  | step_current s url : state_step s (SetCurrentRPCURL url s)
  | step_known s rpc : state_step s (AddKnownRPC rpc s)
  | step_peers s url peers : state_step s (AddRPCPeers url peers s)
  | step_events s s' events : AddCometBFTEvents s events = Ok s' -> state_step s s'
  | step_chain s info : state_step s (SetChainInfo info s)
  | step_upgrade s u : state_step s (SetUpgrade u s)
  | step_blocktime s d : state_step s (SetBlockTime d s)
  | step_netinfo s n : state_step s (SetNetInfo n s)
  | step_health s h : state_step s (SetNetworkHealth h s)
  | step_rows s h : state_step s (SetValidatorHealth h s)
  | step_mempool s t b : state_step s (SetMempool t b s)
  | step_err_consensus s e : state_step s (SetConsensusStateError e s)
  | step_err_validators s e : state_step s (SetValidatorsError e s)
  | step_err_upgrade s e : state_step s (SetUpgradePlanError e s)
  | step_err_chain s e : state_step s (SetChainInfoError e s)
  | step_height s h r st t : state_step s (SetConsensusHeight h r st t s)
  | step_validators s vs : state_step s (SetTMValidators vs s).

Definition reachable (seed : string) (now : Z) : State -> Prop :=
  rtc state_step (NewState seed now).

(** Every registered RPC is filed under its own URL. *)
Definition rpc_wf s : Prop := forall url rpc, KnownRPCByURL s url = Some rpc -> rpc_URL rpc = url.

Lemma rpc_wf_step s s' : rpc_wf s -> state_step s s' -> rpc_wf s'.
Proof.
  intros Hwf Hst. destruct Hst as [| s rpc | | s s' events He | | | | | | | | | | | | |]; try exact Hwf.
  - intros url r. unfold KnownRPCByURL; cbn. autorewrite with butils.
    case_decide; [naive_solver|apply Hwf].
  - unfold AddCometBFTEvents in He. rewrite add_events_fold in He.
    destruct (existsb _ _); cbn in He; simplify_eq. exact Hwf.
Qed.

Lemma reachable_wf seed now s : reachable seed now s -> rpc_wf s.
Proof.
  apply rtc_invariant; [exact rpc_wf_step|].
  intros url rpc. unfold KnownRPCByURL; cbn. by autorewrite with butils.
Qed.

(** In every state reachable through the setters, in any order, the current
    RPC has the current URL, whether or not it was ever registered. *)
Theorem CurrentRPC_url seed now s (Hr : reachable seed now s) :
  rpc_URL (CurrentRPC s) = s_currentRPC (s_rpcs s).
Proof.
  apply reachable_wf in Hr. unfold CurrentRPC.
  destruct (om_get _ _) as [rpc|] eqn:E; [|done]. by apply Hr.
Qed.

(** No writer fills the validators by peer id: a lookup never finds one. *)
Theorem ValidatorByPeerID_never seed now s (Hr : reachable seed now s) peerID : ValidatorByPeerID s peerID = None.
Proof.
  assert (H : s_validatorsByPeerID s = ∅).
  { revert Hr. apply (rtc_invariant state_step (fun s => s_validatorsByPeerID s = ∅)); [|done].
    intros s0 s1 H0 Hst. destruct Hst as [| | | s2 s3 events He | | | | | | | | | | | | |]; try exact H0.
    unfold AddCometBFTEvents in He. rewrite add_events_fold in He. destruct (existsb _ _); cbn in He; by simplify_eq. }
  unfold ValidatorByPeerID. by rewrite H, lookup_empty.
Qed.
End StateFacts.

(** ** Witnesses *)

Section StateWitnesses.
Definition w_val (a : bytes) (p : Z) : TMValidator :=
  mkTMValidator (Some (mkCometValidator a (Some a) p)) None 0 None "".
Definition w_block : BlockID := mkBlockID "b" (mkPSH 0 "").
Definition w_votes : RoundDataMap (B := ref_butils) :=
  AddVote (AddVote NewRoundDataMap 5 0 (HexBytes_String "x") PrevoteType w_block)
    5 0 (HexBytes_String "y") PrevoteType zero_BlockID.

Lemma w_known : comet_known [w_val "x" 3; w_val "y" 1].
Proof. repeat constructor; cbn; eauto; unfold power; cbn; lia. Qed.

Lemma votingPowerPercent_range_witness :
  comet_known [w_val "x" 3; w_val "y" 1] /\
  exists q, votingPowerPercent [w_val "x" 3; w_val "y" 1] w_votes 5 0 PrevoteType false = Ok (Fin q)
    /\ (0 <= q)%Q /\ (q <= 100)%Q.
Proof.
  split; [exact w_known|].
  destruct (votingPowerPercent_range _ w_votes 5 0 PrevoteType false w_known) as (q & Hq & H0 & H1 & _).
  exact (ex_intro _ q (conj Hq (conj H0 H1))).
Defined.

Example w_agreeing :
  votingPowerPercent [w_val "x" 3; w_val "y" 1] w_votes 5 0 PrevoteType false = Ok (Fin (75 # 1)).
Proof. vm_compute. reflexivity. Qed.
Example w_total :
  votingPowerPercent [w_val "x" 3; w_val "y" 1] w_votes 5 0 PrevoteType true = Ok (Fin (100 # 1)).
Proof. vm_compute. reflexivity. Qed.

Lemma agreeing_le_total_witness : ((75 # 1) <= (100 # 1))%Q.
Proof. exact (agreeing_le_total _ _ _ _ _ _ _ w_known w_agreeing w_total). Defined.

Lemma CurrentRPC_url_witness :
  rpc_URL (CurrentRPC (SetCurrentRPCURL "http://b" (NewState "http://a" 0))) = "http://b".
Proof.
  apply (CurrentRPC_url "http://a" 0 (SetCurrentRPCURL "http://b" (NewState "http://a" 0))).
  eapply rtc_l; [apply step_current|apply rtc_refl].
Defined.
End StateWitnesses.
