(* ===== verification/Decentralization.v ===== *)
(** * Decentralization metrics ([pkg/metrics/enrich_decentralization.go])

    Powers are [int64]s and every sum wraps; CometBFT bounds a validator set's
    total power by [MaxTotalVotingPower], which the theorems assume where the
    code relies on it. *)

From S2P Require Import Prelude GoNum GoText Deps Types MetricTypes.
Local Open Scope Z_scope.

(** ** The code *)

(** [sort.Slice] on a copy: the result is the sorted list, whatever the algorithm. *)
Definition sort_desc (p : list Z) : list Z := merge_sort Z.ge p.
Definition sort_asc (p : list Z) : list Z := merge_sort Z.le p.

Fixpoint nakamoto_loop (total cum i n33 n66 : Z) (s : list Z) : Z * Z :=
  match s with
  | [] => (n33, n66)
  | x :: s' =>
      let cum := int64 (cum + x) in
      let n33 := if (n33 =? 0) && (total <? int64 (cum * 3)) then i + 1 else n33 in
      if (n66 =? 0) && (int64 (total * 2) <? int64 (cum * 3)) then (n33, i + 1)
      else nakamoto_loop total cum (i + 1) n33 n66 s'
  end.

Definition nakamoto (p : list Z) : Z * Z :=
  let s := sort_desc p in
  let total := foldl (fun a x => int64 (a + x)) 0 s in
  nakamoto_loop total 0 0 0 0 s.

Definition gini_step (acc : Z * Z * Z) (x : Z) : Z * Z * Z :=
  let '(i, sum, weighted) := acc in
  (i + 1, int64 (sum + x), int64 (weighted + int64 (int64 (i + 1) * x))).

Definition gini_value (n sum weighted : Z) : gofloat :=
  f64_sub
    (f64_div (f64_mul (Fin 2) (f64_of_Z weighted)) (f64_mul (f64_of_Z n) (f64_of_Z sum)))
    (f64_div (f64_of_Z (n + 1)) (f64_of_Z n)).

Definition gini (p : list Z) : gofloat :=
  let n := Z.of_nat (length p) in
  if n =? 0 then f64_zero
  else
    let s := sort_asc p in
    let '(_, sum, weighted) := foldl gini_step (0, 0, 0) s in
    if sum =? 0 then f64_zero else gini_value n sum weighted.

Definition top_step (topN : Z) (acc : Z * Z * Z) (x : Z) : Z * Z * Z :=
  let '(i, total, top) := acc in
  (i + 1, int64 (total + x), if i <? topN then int64 (top + x) else top).

Definition topNShare (p : list Z) (topN : Z) : gofloat :=
  let s := sort_desc p in
  let '(_, total, top) := foldl (top_step topN) (0, 0, 0) s in
  if total =? 0 then f64_zero
  else f64_div (f64_mul (Fin 100) (f64_of_Z top)) (f64_of_Z total).

Definition enrichDecentralization (nh : NetworkHealth) (v : list TMValidator) : NetworkHealth :=
  let p := omap (fun val => cv_VotingPower <$> tv_Comet val) v in
  match p with
  | [] => nh
  | _ =>
      let '(n33, n66) := nakamoto p in
      mkNetworkHealth (nh_liveness nh) (nh_quality nh) (nh_steps nh) (nh_mempool nh)
        (mkDecentralization n33 n66 (gini p) (topNShare p 10)) (TopASNs nh) (Equivocations nh)
  end.

(** ** Sorting *)

#[export] Instance Zge_total : Total Z.ge.
Proof. intros x y. lia. Qed.
#[export] Instance Zge_trans : Transitive Z.ge.
Proof. intros x y z. lia. Qed.

Lemma sort_desc_perm p : sort_desc p ≡ₚ p.
Proof. apply merge_sort_Permutation. Qed.
Lemma sort_asc_perm p : sort_asc p ≡ₚ p.
Proof. apply merge_sort_Permutation. Qed.
Lemma sort_desc_sorted p : StronglySorted Z.ge (sort_desc p).
Proof. apply StronglySorted_merge_sort; apply _. Qed.
Lemma sort_asc_sorted p : StronglySorted Z.le (sort_asc p).
Proof. apply StronglySorted_merge_sort; apply _. Qed.

(** ** Coalitions

    No coalition of [k] validators is stronger than the [k] strongest ones. *)

Lemma coalition_le_prefix (s l : list Z) :
  StronglySorted Z.ge s -> Forall (fun x => 0 <= x) s -> l ⊆+ s ->
  sumz l <= sumz (take (length l) s).
Proof.
  intros Hs. revert l. induction Hs as [|x s Hs IH Hx]; intros l Hnn Hl.
  { apply submseteq_nil_r in Hl as ->. done. }
  inversion Hnn as [|? ? Hx0 Hnn']; subst.
  apply submseteq_cons_r in Hl as [Hl|(l' & Hp & Hl')].
  - destruct l as [|y l']; [done|]. cbn.
    assert (y <= x).
    { rewrite Forall_forall in Hx. assert (y ∈ s) as Hy.
      { eapply elem_of_submseteq; [|exact Hl]. set_solver. } specialize (Hx _ Hy). lia. }
    assert (l' ⊆+ s) as Hl'.
    { etransitivity; [|exact Hl]. by apply submseteq_cons. }
    specialize (IH l' Hnn' Hl'). lia.
  - rewrite Hp. specialize (IH l' Hnn' Hl'). cbn. lia.
Qed.

(** ** The loop finds the shortest prefix beyond each threshold *)

Fixpoint first_exceeding (bound cum i : Z) (s : list Z) : Z :=
  match s with
  | [] => 0
  | x :: s' => if bound <? 3 * (cum + x) then i + 1 else first_exceeding bound (cum + x) (i + 1) s'
  end.

Lemma nakamoto_loop_eq total cum i n33 s :
  0 <= total <= MaxTotalVotingPower -> 0 <= cum -> 0 <= i -> Forall (fun x => 0 <= x) s ->
  cum + sumz s <= total ->
  nakamoto_loop total cum i n33 0 s =
  (if n33 =? 0 then first_exceeding total cum i s else n33, first_exceeding (2 * total) cum i s).
Proof.
  intros Ht. assert (3 * total <= MaxInt64) as Hb by go_lia.
  revert cum i n33. induction s as [|x s IH]; intros cum i n33 Hc Hi Hs Hsum; cbn in *.
  { by destruct (Z.eqb_spec n33 0) as [->|]. }
  inversion Hs as [|? ? Hx Hs']; subst. pose proof (sumz_nonneg s Hs').
  rewrite !(int64_id (cum + x)), (int64_id (total * 2)), (int64_id ((cum + x) * 3)) by go_lia.
  rewrite (Z.mul_comm total 2), (Z.mul_comm (cum + x) 3).
  destruct (Z.ltb_spec (2 * total) (3 * (cum + x))).
  - destruct (Z.ltb_spec total (3 * (cum + x))); [|lia]. by destruct (n33 =? 0).
  - rewrite IH by (done || lia).
    destruct (Z.ltb_spec total (3 * (cum + x))); destruct (Z.eqb_spec n33 0) as [E|E]; cbn;
      try (destruct (Z.eqb_spec (i + 1) 0); [lia|]); try done;
      destruct (Z.eqb_spec n33 0); done || lia.
Qed.

Lemma first_exceeding_spec bound cum i s :
  Forall (fun x => 0 <= x) s -> bound < 3 * (cum + sumz s) -> 3 * cum <= bound ->
  exists k, (0 < k <= length s)%nat /\ first_exceeding bound cum i s = i + Z.of_nat k /\
    bound < 3 * (cum + sumz (take k s)) /\ 3 * (cum + sumz (take (k - 1) s)) <= bound.
Proof.
  revert cum i. induction s as [|x s IH]; intros cum i Hs Hsum Hc; cbn in *; [lia|].
  inversion Hs as [|? ? Hx Hs']; subst. destruct (Z.ltb_spec bound (3 * (cum + x))).
  - exists 1%nat. cbn. rewrite take_0. cbn. split_and!; lia.
  - destruct (IH (cum + x) (i + 1) Hs' ltac:(lia) ltac:(lia)) as (k & Hk & -> & H1 & H2).
    exists (S k). cbn [take sumz Nat.sub]. rewrite Nat.sub_0_r. split_and!; try lia.
    destruct k as [|k]; [lia|]. cbn [take sumz Nat.sub] in *. rewrite Nat.sub_0_r in H2. lia.
Qed.

Lemma total_is_sum p :
  Forall (fun x => 0 <= x) p -> sumz p <= MaxTotalVotingPower ->
  foldl (fun a x => int64 (a + x)) 0 (sort_desc p) = sumz p.
Proof.
  intros Hp Hm. rewrite foldl_int64_sum; rewrite ?(sort_desc_perm p); try done.
  unfold MaxTotalVotingPower in Hm. go_lia.
Qed.

(** The smallest number of validators whose combined power exceeds [num/3] of the total. *)
Definition is_nakamoto (num : Z) (p : list Z) (n : Z) : Prop :=
  (exists l, l ⊆+ p /\ Z.of_nat (length l) = n /\ num * sumz p < 3 * sumz l) /\
  (forall l, l ⊆+ p -> num * sumz p < 3 * sumz l -> n <= Z.of_nat (length l)).

Lemma first_exceeding_nakamoto num p :
  Forall (fun x => 0 <= x) p -> 0 < sumz p -> 0 <= num <= 2 ->
  is_nakamoto num p (first_exceeding (num * sumz p) 0 0 (sort_desc p)).
Proof.
  intros Hp Hpos Hnum. set (s := sort_desc p). assert (Hs : s ≡ₚ p) by apply sort_desc_perm.
  assert (Hnn : Forall (fun x => 0 <= x) s) by by rewrite Hs.
  assert (Hsum : sumz s = sumz p) by by rewrite Hs.
  destruct (first_exceeding_spec (num * sumz p) 0 0 s Hnn) as (k & Hk & -> & H1 & H2); [nia..|].
  rewrite !Z.add_0_l in *. split.
  - exists (take k s). split_and!; [|rewrite length_take; lia|lia].
    rewrite <-Hs. apply sublist_submseteq, sublist_take.
  - intros l Hl Hexc. destruct (Z.le_gt_cases (Z.of_nat k) (Z.of_nat (length l))); [done|].
    exfalso. rewrite <-Hs in Hl.
    pose proof (coalition_le_prefix s l (sort_desc_sorted p) Hnn Hl).
    pose proof (sumz_take_le (length l) (take (k - 1) s) (Forall_take _ _ _ Hnn)) as Hle.
    rewrite take_take, Nat.min_l in Hle by lia. lia.
Qed.

(** C38: on non-negative powers within CometBFT's limit, not all zero, the two
    counts are the true Nakamoto coefficients: some coalition of that many
    validators holds more than 1/3 (2/3) of the power, and no smaller one does. *)
Theorem nakamoto_minimal p (Hp : Forall (fun x => 0 <= x) p)
  (Hmax : sumz p <= MaxTotalVotingPower) (Hpos : 0 < sumz p) :
  is_nakamoto 1 p (nakamoto p).1 /\ is_nakamoto 2 p (nakamoto p).2.
Proof.
  unfold nakamoto. rewrite total_is_sum by done.
  rewrite nakamoto_loop_eq; [|lia|lia|lia|by rewrite sort_desc_perm|rewrite sort_desc_perm; lia].
  cbn [fst snd Z.eqb]. split.
  - replace (sumz p) with (1 * sumz p) by lia. apply first_exceeding_nakamoto; done || lia.
  - apply first_exceeding_nakamoto; done || lia.
Qed.

Lemma nakamoto_minimal_witness :
  nakamoto [10; 40; 20; 30] = (1, 2) /\ is_nakamoto 1 [10; 40; 20; 30] 1.
Proof.
  split; [vm_compute; reflexivity|].
  apply (nakamoto_minimal [10; 40; 20; 30]); [repeat constructor; lia|vm_compute; discriminate|reflexivity].
Defined.

(** ** Gini: the two integers behind the coefficient *)

Fixpoint weighted_from (i : Z) (s : list Z) : Z :=
  match s with [] => 0 | x :: s' => (i + 1) * x + weighted_from (i + 1) s' end.

Lemma weighted_le i s :
  Forall (fun x => 0 <= x) s -> 0 <= i ->
  0 <= weighted_from i s <= (i + Z.of_nat (length s)) * sumz s.
Proof.
  revert i. induction s as [|x s IH]; intros i Hs Hi; cbn; [lia|].
  inversion Hs as [|? ? Hx Hs']; subst. specialize (IH (i + 1) Hs' ltac:(lia)).
  pose proof (sumz_nonneg s Hs'). nia.
Qed.

Lemma gini_fold i sum w s :
  Forall (fun x => 0 <= x) s -> 0 <= i -> 0 <= sum -> 0 <= w ->
  sum + sumz s <= MaxInt64 -> i + Z.of_nat (length s) <= MaxInt64 ->
  w + weighted_from i s <= MaxInt64 ->
  foldl gini_step (i, sum, w) s = (i + Z.of_nat (length s), sum + sumz s, w + weighted_from i s).
Proof.
  revert i sum w. induction s as [|x s IH]; intros i sum w Hs Hi Hsum Hw H1 H2 H3; cbn in *.
  { by rewrite !Z.add_0_r. }
  inversion Hs as [|? ? Hx Hs']; subst. pose proof (sumz_nonneg s Hs').
  pose proof (weighted_le (i + 1) s Hs' ltac:(lia)).
  assert (0 <= (i + 1) * x) by nia.
  rewrite !(int64_id (i + 1)), (int64_id ((i + 1) * x)), (int64_id (sum + x)),
    (int64_id (w + (i + 1) * x)) by go_lia.
  rewrite IH by (done || lia). f_equal; [f_equal|]; lia.
Qed.

(** Ascending order gives the later, larger elements the larger weights. *)
Lemma weighted_lower i s :
  StronglySorted Z.le s -> Forall (fun x => 0 <= x) s ->
  (2 * i + Z.of_nat (length s) + 1) * sumz s <= 2 * weighted_from i s.
Proof.
  intros Hs. revert i. induction Hs as [|x s Hs IH Hx]; intros i Hnn; cbn; [lia|].
  inversion Hnn as [|? ? Hx0 Hnn']; subst. specialize (IH (i + 1) Hnn').
  assert (Z.of_nat (length s) * x <= sumz s).
  { clear -Hx. induction Hx; cbn; lia. }
  lia.
Qed.

(** When the weighted sum fits an [int64], the Gini coefficient is the float
    formula applied to the exact sums, and these keep the exact coefficient
    [2w/(n s) - (n+1)/n] between 0 and [(n-1)/n]. *)
Theorem gini_exact_bounds p (Hp : Forall (fun x => 0 <= x) p) (Hpos : 0 < sumz p)
  (Hfit : Z.of_nat (length p) * sumz p <= MaxInt64) :
  let n := Z.of_nat (length p) in
  exists w, gini p = gini_value n (sumz p) w /\
    (n + 1) * sumz p <= 2 * w /\ 2 * w <= (n + 1) * sumz p + (n - 1) * sumz p.
Proof.
  cbn zeta. exists (weighted_from 0 (sort_asc p)).
  assert (Hs : sort_asc p ≡ₚ p) by apply sort_asc_perm.
  assert (Hnn : Forall (fun x => 0 <= x) (sort_asc p)) by by rewrite Hs.
  assert (Hlen : length (sort_asc p) = length p) by by rewrite Hs.
  assert (Hsum : sumz (sort_asc p) = sumz p) by by rewrite Hs.
  pose proof (weighted_le 0 _ Hnn ltac:(lia)) as Hw. rewrite Hlen, Hsum in Hw.
  pose proof (weighted_lower 0 _ (sort_asc_sorted p) Hnn) as Hl. rewrite Hlen, Hsum in Hl.
  assert (Hn : 0 < Z.of_nat (length p)) by (destruct p; cbn in *; lia).
  split; [|nia]. unfold gini. destruct (Z.eqb_spec (Z.of_nat (length p)) 0); [lia|].
  rewrite gini_fold by (done || rewrite ?Hlen, ?Hsum; nia).
  rewrite Hsum, !Z.add_0_l. destruct (Z.eqb_spec (sumz p) 0); [lia|done].
Qed.

Lemma gini_exact_bounds_witness :
  gini [1; 1; 1; 1] = Fin 0 /\ exists w, gini [1; 1; 1; 1] = gini_value 4 4 w /\ 20 <= 2 * w.
Proof.
  split; [vm_compute; reflexivity|].
  destruct (gini_exact_bounds [1; 1; 1; 1]) as (w & H1 & H2 & _);
    [repeat constructor; lia|reflexivity|vm_compute; discriminate|].
  exact (ex_intro _ w (conj H1 H2)).
Defined.

(** The weighted sum can overflow on a validator set CometBFT accepts: a
    hundred equal validators, whose coefficient should be 0, get a negative one. *)
Theorem gini_overflow :
  sumz (replicate 100 (10 ^ 16)) <= MaxTotalVotingPower /\
  f_lt (gini (replicate 100 (10 ^ 16))) (Fin (-1)) = true.
Proof. split; [vm_compute; discriminate|vm_compute; reflexivity]. Qed.
