(* ===== verification/Equivocation.v ===== *)
(** * Equivocation detection ([pkg/metrics/equivocation.go])

    The detector remembers the first block hash seen for each slot (height,
    validator, round, vote type) and reports a second, different one. *)

From S2P Require Import Prelude GoNum GoText Deps MetricTypes.
From Stdlib Require Import Ascii.
Local Open Scope Z_scope.

(** ** The code *)

Record equivState := mkEquiv {
  seen : gmap Z (gmap string string);
  events : list EquivocationEvent }.

Definition maxEquivEvents : Z := 256.
Definition defaultEvictionWindow : Z := 500.

Definition newEquivState : equivState := mkEquiv ∅ [].

Definition slotKey (addr : string) (r vt : Z) : string :=
  addr +:+ "|" +:+ itoa r +:+ "|" +:+ itoa vt.

Definition voteTypeName (t : Z) : string := if t =? PrecommitType then "precommit" else "prevote".

(** [s = append(s, v)] cut to its last [cap] elements, as every ring of the package does it. *)
Definition append_cap {A} (cap : Z) (s : list A) (v : A) : list A :=
  let s' := s ++ [v] in
  if cap <? Z.of_nat (length s') then drop (length s' - Z.to_nat cap) s' else s'.

Definition evict (cutoff : Z) (m : gmap Z (gmap string string)) : gmap Z (gmap string string) :=
  filter (fun p => cutoff <= p.1) m.

Definition observeForEquivocation `{Comet} (windowBlocks now : Z) (b : equivState)
    (e : TMEventData) : equivState :=
  match e with
  | EventDataVote (Some v) =>
      if bool_decide (bid_Hash (v_BlockID v) = "") then b
      else
        let blockIDHex := HexBytes_String (bid_Hash (v_BlockID v)) in
        let height := v_Height v in
        let addr := HexBytes_String (v_ValidatorAddress v) in
        let sk := slotKey addr (v_Round v) (v_Type v) in
        let bucket := default ∅ (seen b !! height) in
        let '(bucket, evs) :=
          match bucket !! sk with
          | None => (<[sk := blockIDHex]> bucket, events b)
          | Some prev =>
              if bool_decide (prev = blockIDHex) then (bucket, events b)
              else (bucket,
                    append_cap maxEquivEvents (events b)
                      (mkEquivocationEvent addr "" height (v_Round v) (voteTypeName (v_Type v))
                         prev blockIDHex now))
          end in
        let window := if windowBlocks <=? 0 then defaultEvictionWindow else windowBlocks in
        mkEquiv (evict (int64 (height - window)) (<[height := bucket]> (seen b))) evs
  | _ => b
  end.

Definition enrichEquivocations (nh : NetworkHealth) (b : equivState) : NetworkHealth :=
  mkNetworkHealth (nh_liveness nh) (nh_quality nh) (nh_steps nh) (nh_mempool nh)
    (nh_decentralization nh) (TopASNs nh) (events b).

Definition set_Equivocated (r : ValidatorHealthRow) : ValidatorHealthRow :=
  mkRow (row_Address r) (row_Moniker r) (row_VotingPowerPct r) (row_history r) (row_latency r)
    (row_Online r) (row_ASN r) (row_ASNOrg r) true.

Definition enrichEquivocationFlags (rows : list ValidatorHealthRow) (b : equivState) :
    list ValidatorHealthRow :=
  match events b with
  | [] => rows
  | _ =>
      let flagged : gset string := list_to_set (eq_ValidatorAddress <$> events b) in
      (fun r => if bool_decide (row_Address r ∈ flagged) then set_Equivocated r else r) <$> rows
  end.

(** ** [slotKey] is injective, whatever the address contains *)

Lemma append_inj_l a b c : a +:+ b = a +:+ c -> b = c.
Proof. induction a as [|x a IH]; autorewrite with gostr; [done|]. intros E. injection E. apply IH. Qed.

Lemma bar_split_inj a b s t :
  no_char "|" s = true -> no_char "|" t = true ->
  a +:+ String "|" s = b +:+ String "|" t -> a = b /\ s = t.
Proof.
  intros Hs Ht. assert (Hbar : forall x u, no_char "|" (x +:+ String "|" u) = false).
  { induction x as [|c x IH]; intros u; autorewrite with gostr; [done|].
    cbn -[Ascii.eqb String.append]. rewrite IH. apply andb_false_r. }
  revert b. induction a as [|c a IH]; intros [|d b]; autorewrite with gostr;
    intros [=]; subst.
  - done.
  - by rewrite Hbar in Hs.
  - by rewrite Hbar in Ht.
  - by destruct (IH b) as [-> ->].
Qed.

Lemma slotKey_inj a1 r1 t1 a2 r2 t2 :
  slotKey a1 r1 t1 = slotKey a2 r2 t2 -> a1 = a2 /\ r1 = r2 /\ t1 = t2.
Proof.
  assert (Hn : forall z, no_char "|" (itoa z) = true) by (intros z; by apply itoa_no_char).
  assert (Hre : forall a r t, slotKey a r t =
    (a +:+ String "|" (itoa r)) +:+ String "|" (itoa t)).
  { intros a r t. unfold slotKey. rewrite append_assoc. by autorewrite with gostr. }
  rewrite !Hre. intros E. apply bar_split_inj in E as [E Et]; [|done..].
  apply bar_split_inj in E as [-> Er]; [|done..]. apply (inj itoa) in Et, Er. done.
Qed.

Lemma append_cap_length {A} cap (s : list A) v :
  0 <= cap -> (Z.of_nat (length s) <= cap) -> Z.of_nat (length (append_cap cap s v)) <= cap.
Proof.
  intros Hc Hs. unfold append_cap. destruct (Z.ltb_spec cap (Z.of_nat (length (s ++ [v])))); [|lia].
  rewrite length_drop, length_app in *. cbn in *. lia.
Qed.

Lemma append_cap_elem {A} cap (s : list A) v x : x ∈ append_cap cap s v -> x ∈ s \/ x = v.
Proof.
  unfold append_cap. intros Hx. assert (x ∈ s ++ [v]) as Hx'.
  { destruct (_ <? _); [|done]. eapply elem_of_submseteq; [exact Hx|].
    apply sublist_submseteq, sublist_drop. }
  set_solver.
Qed.

Lemma append_cap_last {A} cap (s : list A) v : 0 < cap -> last (append_cap cap s v) = Some v.
Proof.
  intros Hc. unfold append_cap. destruct (Z.ltb_spec cap (Z.of_nat (length (s ++ [v])))) as [Hl|].
  - rewrite length_app in *. cbn in *. rewrite drop_app_le by lia. apply last_snoc.
  - apply last_snoc.
Qed.

#[export] Hint Resolve append_cap_length : golist.

(** ** Traces *)

Section Traces.
Context `{CL : CometLaws}.
Variable windowBlocks : Z.

Definition window : Z := if windowBlocks <=? 0 then defaultEvictionWindow else windowBlocks.

(** Each event comes with the clock reading of its handler. *)
Definition observe_all (b : equivState) (tr : list (Z * TMEventData)) : equivState :=
  foldl (fun b p => observeForEquivocation windowBlocks p.1 b p.2) b tr.
Definition run (tr : list (Z * TMEventData)) : equivState := observe_all newEquivState tr.

Definition v_slot (v : Vote) : string :=
  slotKey (HexBytes_String (v_ValidatorAddress v)) (v_Round v) (v_Type v).
Definition v_hex (v : Vote) : string := HexBytes_String (bid_Hash (v_BlockID v)).
Definition voted_in (tr : list (Z * TMEventData)) (v : Vote) : Prop :=
  exists now, (now, EventDataVote (Some v)) ∈ tr.

Definition first_seen (b : equivState) (h : Z) (sk : string) : option string :=
  m ← seen b !! h; m !! sk.

Lemma v_slot_inj v w : v_slot v = v_slot w ->
  v_ValidatorAddress v = v_ValidatorAddress w /\ v_Round v = v_Round w /\ v_Type v = v_Type w.
Proof. intros (E & ? & ?)%slotKey_inj. apply (inj HexBytes_String) in E. done. Qed.

Lemma run_snoc tr p : run (tr ++ [p]) = observeForEquivocation windowBlocks p.1 (run tr) p.2.
Proof. unfold run, observe_all. by rewrite foldl_app. Qed.

(** An observation either changes nothing or handles a vote for a block. *)
Lemma observe_cases now b e :
  observeForEquivocation windowBlocks now b e = b \/
  exists v, e = EventDataVote (Some v) /\ bid_Hash (v_BlockID v) <> "".
Proof.
  destruct e as [| [v|] | |]; cbn; try by left.
  case_bool_decide; [by left|]. right. eauto.
Qed.

Definition conflict_event (now : Z) (v : Vote) (prev : string) : EquivocationEvent :=
  mkEquivocationEvent (HexBytes_String (v_ValidatorAddress v)) "" (v_Height v) (v_Round v)
    (voteTypeName (v_Type v)) prev (v_hex v) now.

(** What one such vote does to the first-seen table and to the events. *)
Lemma observe_vote now b v :
  bid_Hash (v_BlockID v) <> "" ->
  let b' := observeForEquivocation windowBlocks now b (EventDataVote (Some v)) in
  (forall h sk, first_seen b' h sk =
     if decide (int64 (v_Height v - window) <= h) then
       if decide (h = v_Height v /\ sk = v_slot v)
       then Some (default (v_hex v) (first_seen b h sk)) else first_seen b h sk
     else None) /\
  events b' =
    match first_seen b (v_Height v) (v_slot v) with
    | None => events b
    | Some prev => if bool_decide (prev = v_hex v) then events b
                   else append_cap maxEquivEvents (events b) (conflict_event now v prev)
    end.
Proof.
  intros Hne. cbn. rewrite bool_decide_eq_false_2 by done.
  fold (v_hex v) (v_slot v) window.
  set (m := default ∅ (seen b !! v_Height v)).
  assert (Hm : forall sk, first_seen b (v_Height v) sk = m !! sk)
    by (intros sk; unfold first_seen, m; by destruct (seen b !! v_Height v)).
  assert (Hget : forall m' evs, (forall sk, m' !! sk = if decide (sk = v_slot v)
      then Some (default (v_hex v) (m !! sk)) else m !! sk) -> forall h sk,
    first_seen (mkEquiv (evict (int64 (v_Height v - window)) (<[v_Height v:=m']> (seen b))) evs) h sk =
    (if decide (int64 (v_Height v - window) <= h) then
       if decide (h = v_Height v /\ sk = v_slot v)
       then Some (default (v_hex v) (first_seen b h sk)) else first_seen b h sk
     else None)).
  { intros m' evs Hm' h sk. unfold first_seen at 1, evict. cbn [seen].
    rewrite map_lookup_filter, lookup_insert.
    destruct (decide (v_Height v = h)) as [<-|Hh].
    - rewrite Hm. cbn. unfold guard. repeat case_decide; cbn; rewrite ?Hm';
        repeat case_decide; done || naive_solver.
    - rewrite (decide_False (P := h = v_Height v /\ _)) by naive_solver. unfold first_seen.
      destruct (seen b !! h) as [mh|]; cbn; [|by case_decide].
      unfold guard. repeat case_decide; done || contradiction. }
  rewrite Hm. destruct (m !! v_slot v) as [prev|] eqn:Ep; [case_bool_decide|]; cbn; (split; [|done]);
    apply Hget; intros sk; rewrite ?lookup_insert; repeat case_decide; subst;
    rewrite ?Ep; done || congruence.
Qed.

(** ** Soundness *)

(** Two observed votes of one validator for one height, round and type, for
    two different blocks: the evidence behind an event. *)
Definition evidence (tr : list (Z * TMEventData)) (ev : EquivocationEvent) : Prop :=
  exists v w, voted_in tr v /\ voted_in tr w /\
    v_ValidatorAddress v = v_ValidatorAddress w /\ v_Height v = v_Height w /\
    v_Round v = v_Round w /\ v_Type v = v_Type w /\
    bid_Hash (v_BlockID v) <> bid_Hash (v_BlockID w) /\
    bid_Hash (v_BlockID v) <> "" /\ bid_Hash (v_BlockID w) <> "" /\
    eq_ValidatorAddress ev = HexBytes_String (v_ValidatorAddress w) /\
    eq_Height ev = v_Height w /\ eq_Round ev = v_Round w /\
    eq_VoteType ev = voteTypeName (v_Type w) /\
    eq_BlockIDA ev = v_hex v /\ eq_BlockIDB ev = v_hex w.

Definition table_sound (tr : list (Z * TMEventData)) (b : equivState) : Prop :=
  forall h sk x, first_seen b h sk = Some x ->
    exists v, voted_in tr v /\ v_Height v = h /\ v_slot v = sk /\ v_hex v = x /\
      bid_Hash (v_BlockID v) <> "".

Lemma voted_in_snoc tr p v : voted_in tr v -> voted_in (tr ++ [p]) v.
Proof. intros [now H]. exists now. set_solver. Qed.
Lemma voted_in_last tr now v : voted_in (tr ++ [(now, EventDataVote (Some v))]) v.
Proof. exists now. set_solver. Qed.

Lemma evidence_snoc tr p ev : evidence tr ev -> evidence (tr ++ [p]) ev.
Proof. intros (v & w & Hv & Hw & H). exists v, w. eauto using voted_in_snoc. Qed.

Lemma run_sound tr : table_sound tr (run tr) /\ (forall ev, ev ∈ events (run tr) -> evidence tr ev).
Proof.
  induction tr as [|[now e] tr [IHt IHe]] using rev_ind.
  { split; [|set_solver]. intros h sk x. unfold first_seen, run; cbn. by rewrite lookup_empty. }
  rewrite run_snoc. cbn [fst snd].
  destruct (observe_cases now (run tr) e) as [->|(v & -> & Hne)].
  { split; [|eauto using evidence_snoc]. intros h sk x Hx.
    destruct (IHt _ _ _ Hx) as (v & ? & ?). exists v. eauto using voted_in_snoc. }
  destruct (observe_vote now (run tr) v Hne) as [Hseen Hev]. split.
  - intros h sk x. rewrite Hseen. case_decide; [|done].
    destruct (decide (h = v_Height v /\ sk = v_slot v)) as [[-> ->]|].
    + destruct (first_seen (run tr) (v_Height v) (v_slot v)) as [y|] eqn:Ey; cbn; intros [= <-].
      * destruct (IHt _ _ _ Ey) as (w & ? & ?). exists w. eauto using voted_in_snoc.
      * exists v. eauto using voted_in_last.
    + intros Hx. destruct (IHt _ _ _ Hx) as (w & ? & ?). exists w. eauto using voted_in_snoc.
  - rewrite Hev. intros ev. destruct (first_seen _ _ _) as [prev|] eqn:Ep;
      [case_bool_decide|]; eauto using evidence_snoc.
    intros [Hin| ->]%append_cap_elem; [eauto using evidence_snoc|].
    destruct (IHt _ _ _ Ep) as (w & Hw & Hh & Hs & Hx & Hwne).
    apply v_slot_inj in Hs as (Ha & Hr & Ht). exists w, v.
    split_and!; eauto using voted_in_snoc, voted_in_last; try done.
    intros Heq. subst prev. unfold v_hex in *. congruence.
Qed.
End Traces.

Section Detection.
Context `{CL : CometLaws}.
Variable windowBlocks : Z.
Hypothesis window_range : windowBlocks <= MaxInt64.
#[local] Abbreviation run := (run windowBlocks).

(** C28: every reported event is backed by two observed votes of that validator
    for two different blocks at the same height, round and type. *)
Theorem equivocation_sound tr ev (Hev : ev ∈ events (run tr)) : evidence tr ev.
Proof. by apply run_sound in Hev. Qed.

Lemma window_pos : 0 < window windowBlocks <= MaxInt64.
Proof.
  unfold window. destruct (Z.leb_spec windowBlocks 0); [|lia]. split; [done|].
  unfold defaultEvictionWindow. go_lia.
Qed.

(** Votes with a height in this range, relative to [h], leave [h]'s bucket alone. *)
Definition keeps (h : Z) (p : Z * TMEventData) : Prop :=
  match p.2 with
  | EventDataVote (Some v) => 0 <= v_Height v <= MaxInt64 /\ v_Height v <= h + window windowBlocks
  | _ => True
  end.

Lemma keeps_cutoff h now v :
  keeps h (now, EventDataVote (Some v)) -> int64 (v_Height v - window windowBlocks) <= h.
Proof.
  pose proof window_pos. intros [? ?]. cbn in *. rewrite int64_id by go_lia. lia.
Qed.

Lemma first_seen_kept tr1 tr2 h sk x :
  first_seen (run tr1) h sk = Some x -> Forall (keeps h) tr2 ->
  first_seen (run (tr1 ++ tr2)) h sk = Some x.
Proof.
  intros Hx. induction tr2 as [|[now e] tr2 IH] using rev_ind; intros Hk;
    [by rewrite app_nil_r|].
  apply Forall_app in Hk as [Hk Hp]. inversion Hp as [|? ? He _]; subst.
  rewrite app_assoc, run_snoc. cbn [fst snd].
  destruct (observe_cases windowBlocks now (run (tr1 ++ tr2)) e) as [->|(v & -> & Hne)];
    [by apply IH|].
  destruct (observe_vote windowBlocks now (run (tr1 ++ tr2)) v Hne) as [Hs _].
  rewrite Hs, (IH Hk), decide_True by (by eapply keeps_cutoff). by case_decide.
Qed.

Lemma vote_seen tr now v :
  bid_Hash (v_BlockID v) <> "" -> 0 <= v_Height v <= MaxInt64 ->
  is_Some (first_seen (run (tr ++ [(now, EventDataVote (Some v))])) (v_Height v) (v_slot v)).
Proof.
  intros Hne Hh. rewrite run_snoc. cbn [fst snd].
  destruct (observe_vote windowBlocks now (run tr) v Hne) as [Hs _]. pose proof window_pos.
  rewrite Hs, decide_True by (rewrite int64_id by go_lia; lia). rewrite decide_True by done. eauto.
Qed.

(** The event is reported when the vote is handled. *)
Lemma conflict_reported tr now v x :
  bid_Hash (v_BlockID v) <> "" ->
  first_seen (run tr) (v_Height v) (v_slot v) = Some x -> x <> v_hex v ->
  last (events (run (tr ++ [(now, EventDataVote (Some v))]))) = Some (conflict_event now v x).
Proof.
  intros Hne Hx Hd. rewrite run_snoc. cbn [fst snd].
  destruct (observe_vote windowBlocks now (run tr) v Hne) as [_ ->].
  rewrite Hx, bool_decide_eq_false_2 by done. by apply append_cap_last.
Qed.

(** Of two conflicting votes the second, or already the first, is reported when it
    is handled; [q] is what the trace has left then. *)
Lemma conflict_in_prefix tr1 tr2 n1 n2 v w
  (Hslot : v_slot v = v_slot w) (Hheight : v_Height v = v_Height w)
  (Hdiff : bid_Hash (v_BlockID v) <> bid_Hash (v_BlockID w))
  (Hv : bid_Hash (v_BlockID v) <> "") (Hw : bid_Hash (v_BlockID w) <> "")
  (Hh : 0 <= v_Height v <= MaxInt64) (Hkeep : Forall (keeps (v_Height v)) tr2) :
  let tr := tr1 ++ (n1, EventDataVote (Some v)) :: tr2 ++ [(n2, EventDataVote (Some w))] in
  exists p q ev, tr = p ++ q /\ (length q <= S (length tr2))%nat /\ last (events (run p)) = Some ev /\
    eq_ValidatorAddress ev = HexBytes_String (v_ValidatorAddress v) /\
    eq_Height ev = v_Height v /\ eq_Round ev = v_Round v /\ eq_VoteType ev = voteTypeName (v_Type v).
Proof.
  cbn zeta. set (pv := (n1, EventDataVote (Some v))). set (pw := (n2, EventDataVote (Some w))).
  pose proof (v_slot_inj v w Hslot) as (Ha & Hr & Ht).
  destruct (vote_seen tr1 n1 v Hv Hh) as [x Hx]. fold pv in Hx.
  pose proof (first_seen_kept (tr1 ++ [pv]) tr2 _ _ _ Hx Hkeep) as Hx2.
  destruct (decide (x = v_hex w)) as [Hxw|Hxw].
  - (* the first hash is [w]'s, so [v] itself was the conflict *)
    assert (Hold : first_seen (run tr1) (v_Height v) (v_slot v) = Some x).
    { rewrite run_snoc in Hx. cbn [fst snd pv] in Hx.
      destruct (observe_vote windowBlocks n1 (run tr1) v Hv) as [Hs _]. rewrite Hs in Hx.
      case_decide; [|done]. rewrite decide_True in Hx by done. injection Hx as Hx.
      destruct (first_seen _ _ _); cbn in Hx; [by subst|].
      exfalso. apply Hdiff. unfold v_hex in *. apply (inj HexBytes_String). congruence. }
    exists (tr1 ++ [pv]), (tr2 ++ [pw]), (conflict_event n1 v x). split_and!; try done.
    + by rewrite <-app_assoc.
    + rewrite length_app. cbn. lia.
    + apply conflict_reported; [done..|]. subst x. unfold v_hex.
      intros E%(inj HexBytes_String). by apply Hdiff.
  - exists (tr1 ++ pv :: tr2 ++ [pw]), [], (conflict_event n2 w x). split; [by rewrite app_nil_r|]. split; [cbn; lia|].
    assert (Heq : tr1 ++ pv :: tr2 ++ [pw] = ((tr1 ++ [pv]) ++ tr2) ++ [pw])
      by (by rewrite <-!app_assoc). rewrite Heq. split.
    + apply conflict_reported; [done| |done]. by rewrite <-Hheight, <-Hslot.
    + cbn. by rewrite Ha, Hheight, Hr, Ht.
Qed.

(** Completeness within the window.  When two votes of one slot name two
    different blocks, and no vote in between is more than the window ahead, an
    event for that validator, height, round and type is the newest one reported
    at some point no later than the second vote. *)
Theorem equivocation_detected tr1 tr2 n1 n2 v w
  (Hslot : v_slot v = v_slot w) (Hheight : v_Height v = v_Height w)
  (Hdiff : bid_Hash (v_BlockID v) <> bid_Hash (v_BlockID w))
  (Hv : bid_Hash (v_BlockID v) <> "") (Hw : bid_Hash (v_BlockID w) <> "")
  (Hh : 0 <= v_Height v <= MaxInt64) (Hkeep : Forall (keeps (v_Height v)) tr2) :
  let tr := tr1 ++ (n1, EventDataVote (Some v)) :: tr2 ++ [(n2, EventDataVote (Some w))] in
  exists p ev, p `prefix_of` tr /\ last (events (run p)) = Some ev /\
    eq_ValidatorAddress ev = HexBytes_String (v_ValidatorAddress v) /\
    eq_Height ev = v_Height v /\ eq_Round ev = v_Round v /\ eq_VoteType ev = voteTypeName (v_Type v).
Proof.
  cbn zeta. destruct (conflict_in_prefix tr1 tr2 n1 n2 v w) as (p & q & ev & Hpq & _ & Hev & H); [done..|].
  exists p, ev. split; [by exists q|]. split; [exact Hev|exact H].
Qed.

(** The event list never exceeds its cap. *)
Theorem events_bounded tr : Z.of_nat (length (events (run tr))) <= maxEquivEvents.
Proof.
  induction tr as [|[now e] tr IH] using rev_ind; [done|]. rewrite run_snoc. cbn [fst snd].
  destruct (observe_cases windowBlocks now (run tr) e) as [->|(v & -> & Hne)]; [done|].
  destruct (observe_vote windowBlocks now (run tr) v Hne) as [_ ->].
  destruct (first_seen _ _ _); [case_bool_decide|]; auto with golist. by apply append_cap_length.
Qed.
End Detection.

(** ** Witnesses and limits *)

Section EquivocationWitnesses.
Definition w_vote (h : Z) (blk : string) : TMEventData :=
  EventDataVote (Some (mkVote PrevoteType h 0 (mkBlockID blk (mkPSH 0 "")) "v")).
Definition w_conflict (t : Z) : EquivocationEvent :=
  mkEquivocationEvent (HexBytes_String "v") "" 7 0 "prevote" (HexBytes_String "a") (HexBytes_String "b") t.

Lemma equivocation_sound_witness :
  evidence [(1, w_vote 7 "a"); (2, w_vote 7 "b")] (w_conflict 2).
Proof.
  apply (equivocation_sound 100 [(1, w_vote 7 "a"); (2, w_vote 7 "b")] (w_conflict 2)).
  apply list_elem_of_here.
Defined.

Lemma equivocation_detected_witness :
  exists p ev, p `prefix_of` [(1, w_vote 7 "a"); (2, w_vote 9 "c"); (3, w_vote 7 "b")] /\
    last (events (run 100 p)) = Some ev /\ eq_Height ev = 7.
Proof.
  destruct (equivocation_detected 100 ltac:(go_lia) [] [(2, w_vote 9 "c")] 1 3
    (mkVote PrevoteType 7 0 (mkBlockID "a" (mkPSH 0 "")) "v")
    (mkVote PrevoteType 7 0 (mkBlockID "b" (mkPSH 0 "")) "v")) as (p & ev & H1 & H2 & _ & H3 & _);
    [reflexivity|reflexivity|discriminate|discriminate|discriminate|cbn; go_lia
    |repeat constructor; cbn; go_lia|].
  exists p, ev. split; [exact H1|]. split; [exact H2|exact H3].
Defined.

Lemma events_bounded_witness :
  Z.of_nat (length (events (run 100 [(1, w_vote 7 "a"); (2, w_vote 7 "b")]))) <= maxEquivEvents.
Proof. apply (events_bounded 100 [(1, w_vote 7 "a"); (2, w_vote 7 "b")]). Defined.

(** The same conflicting vote delivered again is reported again: one slot
    with two distinct blocks can produce more than one event. *)
Theorem repeated_conflict_reported_twice :
  events (run 100 [(1, w_vote 7 "a"); (2, w_vote 7 "b"); (3, w_vote 7 "b")]) = [w_conflict 2; w_conflict 3].
Proof. vm_compute. reflexivity. Qed.
End EquivocationWitnesses.
