(* ===== verification/Asn.v ===== *)
(** * Offline ASN lookup ([pkg/asn/asn.go])

    The dataset is a list of address ranges sorted by their start; a lookup is a
    binary search ([sort.Search]) for the last range that starts at or below the
    address, and a containment test. *)

From S2P Require Import Prelude GoNum GoText.
From Stdlib Require Import Ascii.
Local Open Scope Z_scope.

(** ** [net.ParseIP] and [IP.To4] *)

(** One decimal field of a dotted quad: no leading zero, at most 255. *)
Fixpoint ipv4_field (digits : nat) (acc : Z) (s : string) : option Z :=
  match s with
  | EmptyString => if (digits =? 0)%nat then None else Some acc
  | String c s' =>
      match digit_val c with
      | None => None
      | Some d =>
          if (digits =? 1)%nat && (acc =? 0) then None
          else let n := acc * 10 + d in if 255 <? n then None else ipv4_field (S digits) n s'
      end
  end.

Definition parseIPv4 (s : string) : option (list Z) :=
  match split_on "." s with
  | [_; _; _; _] as fs => mapM (ipv4_field 0 0) fs
  | _ => None
  end.

(** The hexadecimal digits at the head of a text: their value, how many, the rest. *)
Fixpoint hex_run (off : nat) (acc : Z) (s : string) : option (Z * nat * string) :=
  match s with
  | EmptyString => Some (acc, off, EmptyString)
  | String c s' =>
      match hex_val c with
      | None => Some (acc, off, s)
      | Some d => if (3 <? off)%nat then None else hex_run (S off) (acc * 16 + Z.of_nat d) s'
      end
  end.

(** The loop of the IPv6 parser: at most eight fields; [ell] is the position of
    the ellipsis. *)
Fixpoint ipv6_fields (fuel : nat) (ip : list Z) (ell : option nat) (s : string) :
    option (list Z * option nat * string) :=
  match fuel with
  | O => Some (ip, ell, s)
  | S fuel' =>
      if (16 <=? length ip)%nat then Some (ip, ell, s) else
      match hex_run 0 0 s with
      | None => None
      | Some (_, O, _) => None
      | Some (acc, _, rest) =>
          match rest with
          | EmptyString => Some (ip ++ [acc / 256; acc mod 256], ell, EmptyString)
          | String c rest' =>
              if Ascii.eqb c "." then
                if (match ell with None => negb (length ip =? 12)%nat | Some _ => false end)
                   || (16 <? length ip + 4)%nat then None
                else q ← parseIPv4 s; Some (ip ++ q, ell, EmptyString)
              else if negb (Ascii.eqb c ":") then None
              else
                let ip' := ip ++ [acc / 256; acc mod 256] in
                match rest' with
                | EmptyString => None
                | String c2 rest2 =>
                    if Ascii.eqb c2 ":" then
                      match ell with
                      | Some _ => None
                      | None =>
                          match rest2 with
                          | EmptyString => Some (ip', Some (length ip'), EmptyString)
                          | _ => ipv6_fields fuel' ip' (Some (length ip')) rest2
                          end
                      end
                    else ipv6_fields fuel' ip' ell rest'
                end
          end
      end
  end.

Definition expand_ellipsis (ip : list Z) (ell : option nat) : option (list Z) :=
  if (length ip <? 16)%nat then
    e ← ell; Some (take e ip ++ replicate (16 - length ip) 0 ++ drop e ip)
  else match ell with None => Some ip | Some _ => None end.

Definition parseIPv6 (s : string) : option (list Z) :=
  if negb (no_char "%" s) then None else
  let start := if has_prefix "::" s then (sdrop 2 s, Some O) else (s, None) in
  match start with
  | (EmptyString, Some _) => Some (replicate 16 0)
  | (t, ell) =>
      r ← ipv6_fields 9 [] ell t;
      let '(ip, ell', rest) := r in
      match rest with EmptyString => expand_ellipsis ip ell' | _ => None end
  end.

(** The first of [.], [:] and [%] chooses the parser. *)
Fixpoint ParseIP_kind (s : string) : option bool :=
  match s with
  | EmptyString => None
  | String c s' =>
      if Ascii.eqb c "." then Some true
      else if Ascii.eqb c ":" then Some false
      else if Ascii.eqb c "%" then None
      else ParseIP_kind s'
  end.

Definition v4_prefix : list Z := replicate 10 0 ++ [255; 255].

Definition ParseIP (s : string) : option (list Z) :=
  match ParseIP_kind s with
  | Some true => app v4_prefix <$> parseIPv4 s
  | Some false => parseIPv6 s
  | None => None
  end.

Definition To4 (ip : list Z) : option (list Z) :=
  if bool_decide (take 12 ip = v4_prefix) then Some (drop 12 ip) else None.

(** ** The code *)

Record asnRange := mkRange { r_start : Z; r_end : Z; r_asn : Z; r_org : string }.

Record Lookup := mkLookup { ranges : list asnRange }.

Definition ipToU32 (s : string) : res Z :=
  match ParseIP s with
  | None => Err ("asn: invalid IP " +:+ dquote +:+ s +:+ dquote)
  | Some ip =>
      match To4 ip with
      | Some [a; b; c; d] => Ok (((a * 256 + b) * 256 + c) * 256 + d)
      | _ => Err ("asn: not an IPv4 address " +:+ dquote +:+ s +:+ dquote)
      end
  end.

Definition tab : ascii := ascii_of_nat 9.

(** One line of the dataset: [None] is skipped. *)
Definition parse_line (line : string) : option asnRange :=
  if bool_decide (line = "") || has_prefix "#" line then None
  else
    match split_on tab line with
    | f0 :: f1 :: f2 :: _ :: f4 :: _ =>
        match ipToU32 f0 with
        | Ok start =>
            match ipToU32 f1 with
            | Ok stop =>
                match ParseUint f2 32 with
                | Ok asnNum => Some (mkRange start stop (uint32 asnNum) f4)
                | _ => None
                end
            | _ => None
            end
        | _ => None
        end
    | _ => None
    end.

(** [sort.Search]: the smallest index in [0, n) that satisfies [f]. *)
Fixpoint search_loop (fuel : nat) (f : nat -> bool) (i j : nat) : nat :=
  match fuel with
  | O => i
  | S fuel' =>
      if (i <? j)%nat then
        let h := ((i + j) / 2)%nat in
        if negb (f h) then search_loop fuel' f (S h) j else search_loop fuel' f i h
      else i
  end.
Definition sort_Search (n : nat) (f : nat -> bool) : nat := search_loop n f 0 n.

Definition start_above (rs : list asnRange) (addr : Z) (k : nat) : bool :=
  match rs !! k with Some r => addr <? r_start r | None => true end.

(** [Lookup.Lookup]; the receiver may be nil. *)
Definition Lookup_Lookup (l : option Lookup) (ip : string) : option (Z * string) :=
  match l with
  | None => None
  | Some l =>
      match ranges l with
      | [] => None
      | _ =>
          match ipToU32 ip with
          | Ok addr =>
              let n := length (ranges l) in
              let i := sort_Search n (start_above (ranges l) addr) in
              if (i =? 0)%nat then None
              else
                candidate ← ranges l !! (i - 1)%nat;
                if r_end candidate <? addr then None
                else Some (r_asn candidate, r_org candidate)
          | _ => None
          end
      end
  end.

Section Load.
(** [sort.Slice] orders by start and is not stable: any such sort. *)
Variable sort_by_start : list asnRange -> list asnRange.

(** [Load], from the outcome of opening the file, the scanner's lines and its error. *)
Definition Load (path : string) (file : string + list string) (scan_err : option string) : res Lookup :=
  match file with
  | inl e => Err ("asn.Load: open " +:+ dquote +:+ path +:+ dquote +:+ ": " +:+ e)
  | inr lines =>
      let rs := omap parse_line lines in
      match scan_err with
      | Some e => Err ("asn.Load: scan " +:+ dquote +:+ path +:+ dquote +:+ ": " +:+ e)
      | None => Ok (mkLookup (sort_by_start rs))
      end
  end.
End Load.

(** ** Binary search *)

Lemma search_loop_spec fuel f i j :
  (j - i <= fuel)%nat -> (i <= j)%nat ->
  (forall a b, (a <= b)%nat -> f a = true -> f b = true) ->
  (i <= search_loop fuel f i j <= j)%nat /\
  (forall k, (i <= k < search_loop fuel f i j)%nat -> f k = false) /\
  (forall k, (search_loop fuel f i j <= k < j)%nat -> f k = true).
Proof.
  intros Hf Hij Hmono. revert i j Hf Hij. induction fuel as [|fuel IH]; intros i j Hf Hij; cbn [search_loop].
  { split; [lia|]. split; intros; lia. }
  destruct (Nat.ltb_spec i j); [|split; [lia|]; split; intros; lia].
  pose proof (Nat.div_lt_upper_bound (i + j) 2 j ltac:(lia) ltac:(lia)) as Hu.
  pose proof (Nat.div_le_lower_bound (i + j) 2 i ltac:(lia) ltac:(lia)) as Hl.
  set (h := ((i + j) / 2)%nat) in *. destruct (f h) eqn:Eh; cbn [negb].
  - destruct (IH i h) as (H1 & H2 & H3); [lia..|]. split; [lia|]. split; [done|].
    intros k Hk. destruct (Nat.lt_ge_cases k h); [by apply H3; lia|]. by apply (Hmono h).
  - destruct (IH (S h) j) as (H1 & H2 & H3); [lia..|]. split; [lia|]. split; [|done].
    intros k Hk. destruct (Nat.le_gt_cases k h); [|by apply H2; lia].
    destruct (f k) eqn:Ek; [|done]. by rewrite (Hmono k h) in Eh.
Qed.

Definition starts_sorted (rs : list asnRange) : Prop := StronglySorted Z.le (r_start <$> rs).

Lemma starts_sorted_le rs i j x y :
  starts_sorted rs -> rs !! i = Some x -> rs !! j = Some y -> (i <= j)%nat -> r_start x <= r_start y.
Proof.
  unfold starts_sorted. revert i j. induction rs as [|r rs IH]; intros i j Hs Hi Hj Hle; [done|].
  cbn in Hs. inversion Hs as [|? ? Hs' Hr]; subst.
  destruct i as [|i], j as [|j]; cbn in *; simplify_eq; try lia.
  - rewrite Forall_fmap, Forall_forall in Hr. apply Hr. by eapply list_elem_of_lookup_2.
  - apply (IH i j); done || lia.
Qed.

Lemma start_above_mono rs addr a b :
  starts_sorted rs -> (a <= b)%nat -> start_above rs addr a = true -> start_above rs addr b = true.
Proof.
  intros Hs Hab. unfold start_above. destruct (rs !! a) as [x|] eqn:Ea.
  - destruct (rs !! b) as [y|] eqn:Eb; [|done]. rewrite !Z.ltb_lt.
    pose proof (starts_sorted_le rs a b x y Hs Ea Eb Hab). lia.
  - apply lookup_ge_None in Ea. rewrite (lookup_ge_None_2 rs b) by lia. done.
Qed.

(** The binary search stops at the last range that starts at or below the address. *)
Lemma candidate_spec rs addr :
  starts_sorted rs ->
  let i := sort_Search (length rs) (start_above rs addr) in
  (forall k r, rs !! k = Some r -> (k < i)%nat -> r_start r <= addr) /\
  (forall k r, rs !! k = Some r -> (i <= k)%nat -> addr < r_start r) /\ (i <= length rs)%nat.
Proof.
  intros Hs i. destruct (search_loop_spec (length rs) (start_above rs addr) 0 (length rs))
    as (H1 & H2 & H3); [lia..|by eauto using start_above_mono|]. fold (sort_Search (length rs) (start_above rs addr)) in *. fold i in H1, H2, H3.
  split_and!; [| |lia]; intros k r Hk Hik.
  - specialize (H2 k ltac:(lia)). unfold start_above in H2. rewrite Hk in H2. case_bool. lia.
  - pose proof (lookup_lt_Some _ _ _ Hk). specialize (H3 k ltac:(lia)).
    unfold start_above in H3. rewrite Hk in H3. by case_bool.
Qed.

Definition covers (r : asnRange) (addr : Z) : Prop := r_start r <= addr <= r_end r.

(** No two ranges share an address. *)
Definition disjoint_ranges (rs : list asnRange) : Prop :=
  forall r r' addr, r ∈ rs -> r' ∈ rs -> covers r addr -> covers r' addr -> r = r'.

Section LookupFacts.
Implicit Types rs : list asnRange.

Lemma Lookup_sound rs ip addr asn org :
  starts_sorted rs -> ipToU32 ip = Ok addr ->
  Lookup_Lookup (Some (mkLookup rs)) ip = Some (asn, org) ->
  exists r, r ∈ rs /\ covers r addr /\ r_asn r = asn /\ r_org r = org.
Proof.
  intros Hs Hip. unfold Lookup_Lookup; cbn [ranges]. destruct rs as [|r0 rs']; [done|].
  set (rs := r0 :: rs') in *. rewrite Hip.
  destruct (candidate_spec rs addr Hs) as (H1 & _ & _). set (i := sort_Search _ _) in *.
  destruct (Nat.eqb_spec i 0); [done|]. destruct (rs !! (i - 1)%nat) as [r|] eqn:Er; [|done].
  cbn. destruct (Z.ltb_spec (r_end r) addr); [done|]. intros [= <- <-].
  exists r. split_and!; [by eapply list_elem_of_lookup_2|split; [|done]|done..].
  apply (H1 _ _ Er). lia.
Qed.

Lemma Lookup_complete rs ip addr r :
  starts_sorted rs -> disjoint_ranges rs -> ipToU32 ip = Ok addr -> r ∈ rs -> covers r addr ->
  (forall r', r' ∈ rs -> r_start r' <= r_end r') ->
  Lookup_Lookup (Some (mkLookup rs)) ip = Some (r_asn r, r_org r).
Proof.
  intros Hs Hd Hip Hr Hc Hwf. unfold Lookup_Lookup; cbn [ranges]. destruct rs as [|r0 rs']; [set_solver|].
  set (rs := r0 :: rs') in *. rewrite Hip.
  destruct (candidate_spec rs addr Hs) as (H1 & H2 & H3). set (i := sort_Search _ _) in *.
  pose proof Hr as Hr'. apply list_elem_of_lookup in Hr' as [k Hk].
  assert (k < i)%nat as Hki.
  { destruct (Nat.lt_ge_cases k i); [done|]. specialize (H2 _ _ Hk ltac:(lia)). destruct Hc. lia. }
  destruct (Nat.eqb_spec i 0); [lia|].
  destruct (rs !! (i - 1)%nat) as [c|] eqn:Ec.
  2:{ apply lookup_ge_None in Ec. lia. }
  cbn. pose proof (starts_sorted_le rs k (i - 1) r c Hs Hk Ec ltac:(lia)) as Hle.
  pose proof (H1 _ _ Ec ltac:(lia)) as Hca.
  assert (c ∈ rs) as Hcin by (by eapply list_elem_of_lookup_2).
  (* the candidate's start lies inside [r], so it is [r] *)
  assert (c = r) as ->.
  { apply (Hd c r (r_start c)); [done..| |]; unfold covers in *; specialize (Hwf c Hcin); lia. }
  destruct (Z.ltb_spec (r_end r) addr); [destruct Hc; lia|done].
Qed.
End LookupFacts.

(** ** A concrete sort, for the instances below *)

Definition range_le (a b : asnRange) : Prop := r_start a <= r_start b.
#[export] Instance range_le_dec : RelDecision range_le.
Proof. intros a b. unfold range_le. apply _. Defined.
#[export] Instance range_le_trans : Transitive range_le.
Proof. intros a b c. unfold range_le. lia. Qed.
#[export] Instance range_le_total : Total range_le.
Proof. intros a b. unfold range_le. lia. Qed.

Definition ref_sort_by_start (rs : list asnRange) : list asnRange := merge_sort range_le rs.

Lemma ref_sort_perm rs : ref_sort_by_start rs ≡ₚ rs.
Proof. apply merge_sort_Permutation. Qed.

Lemma ref_sort_sorted rs : starts_sorted (ref_sort_by_start rs).
Proof.
  unfold starts_sorted, ref_sort_by_start.
  pose proof (StronglySorted_merge_sort range_le rs) as H.
  induction H as [|r l Hl IH Hr]; cbn; constructor; [done|].
  rewrite Forall_fmap. exact Hr.
Qed.

(** ** Properties *)

(** C40: a dataset whose ranges are non-empty and pairwise disjoint is looked up
    exactly: for any sort [sort.Slice] may perform, after [Load] the binary
    search answers (asn, org) for a parsable IPv4 address if and only if some
    line of the file parses to a range with that number and organisation that
    covers the address. *)
Theorem load_lookup_exact (sort_by_start : list asnRange -> list asnRange) path lines l ip addr asn org :
  (forall rs, sort_by_start rs ≡ₚ rs) ->
  (forall rs, starts_sorted (sort_by_start rs)) ->
  Load sort_by_start path (inr lines) None = Ok l ->
  disjoint_ranges (omap parse_line lines) ->
  Forall (fun r => r_start r <= r_end r) (omap parse_line lines) ->
  ipToU32 ip = Ok addr ->
  Lookup_Lookup (Some l) ip = Some (asn, org) <->
  exists line r, line ∈ lines /\ parse_line line = Some r /\ covers r addr /\
    r_asn r = asn /\ r_org r = org.
Proof.
  intros Hperm Hsort [= <-] Hd Hwf Hip. split.
  - intros (r & Hr & Hc & <- & <-)%(Lookup_sound _ _ addr); [|done..].
    rewrite Hperm, list_elem_of_omap in Hr. destruct Hr as (line & Hl & Hp). by exists line, r.
  - intros (line & r & Hl & Hp & Hc & <- & <-).
    assert (r ∈ omap parse_line lines) as Hr by (rewrite list_elem_of_omap; eauto).
    apply (Lookup_complete _ _ addr); [done| |done|by rewrite Hperm|done|].
    + intros r1 r2 a. rewrite !Hperm. apply Hd.
    + intros r'. rewrite Hperm. intros Hr'. rewrite Forall_forall in Hwf. by apply Hwf.
Qed.

Definition demo_lines : list string :=
  [ "# comment"; "";
    "9.0.0.0" +:+ String tab ("9.0.0.255" +:+ String tab ("64500" +:+ String tab ("DE" +:+ String tab "B")));
    "1.2.3.0" +:+ String tab ("1.2.3.255" +:+ String tab ("64496" +:+ String tab ("US" +:+ String tab "A"))) ].

Example demo_parsed :
  omap parse_line demo_lines = [mkRange 150994944 150995199 64500 "B"; mkRange 16909056 16909311 64496 "A"].
Proof. vm_compute. reflexivity. Qed.

Lemma load_lookup_exact_witness :
  Lookup_Lookup (Some (mkLookup (ref_sort_by_start (omap parse_line demo_lines)))) "1.2.3.4" = Some (64496, "A").
Proof.
  refine (proj2 (load_lookup_exact ref_sort_by_start "f" demo_lines _ "1.2.3.4" 16909060 64496 "A"
    ref_sort_perm ref_sort_sorted eq_refl _ _ _) _).
  - rewrite demo_parsed. intros r r' a. rewrite !elem_of_cons, !elem_of_nil. unfold covers.
    intros [->|[->|[]]] [->|[->|[]]]; cbn; first [done|lia].
  - rewrite demo_parsed. repeat constructor; cbn; lia.
  - vm_compute. reflexivity.
  - exists ("1.2.3.0" +:+ String tab ("1.2.3.255" +:+ String tab ("64496" +:+ String tab ("US" +:+ String tab "A")))).
    exists (mkRange 16909056 16909311 64496 "A"). split_and!; [unfold demo_lines; set_solver|vm_compute; reflexivity|..|done|done]; unfold covers; cbn; lia.
Defined.

(** [ipToU32] accepts more than dotted quads: an IPv4-mapped IPv6 address
    is converted as the IPv4 address it embeds, while the other IPv6 forms are
    errors. *)
Theorem ipToU32_accepts_mapped :
  ipToU32 "::ffff:1.2.3.4" = ipToU32 "1.2.3.4" /\ ipToU32 "1.2.3.4" = Ok 16909060 /\
  ipToU32 "::1" = Err ("asn: not an IPv4 address " +:+ dquote +:+ "::1" +:+ dquote).
Proof. vm_compute. done. Qed.
