(* ===== verification/Timing.v ===== *)
(** * Block and step timing ([pkg/metrics/builder.go], [steptiming.go], [enrich_blocktime.go])

    The builder remembers, in rings of [ringCapacity] entries, how long each
    height lasted and the highest round it reached, and accumulates how long the
    consensus steps take. *)

From S2P Require Import Prelude GoNum GoText Deps MetricTypes Equivocation.
Local Open Scope Z_scope.

(** ** The code *)

Definition ringCapacity : Z := 200.

Definition appendRing (s : list Z) (v : Z) : list Z := append_cap ringCapacity s v.
Definition appendRing32 (s : list Z) (v : Z) : list Z := append_cap ringCapacity s v.

(** The timing fields of [Builder]. *)
Record Timing := mkTiming {
  lastHeight : Z;
  lastHeightChangeAt : Z;
  blockIntervals : list Z;
  maxRoundPerHeight : list Z;
  curHeightMaxRound : Z }.

Definition zero_Timing : Timing := mkTiming 0 0 [] [] 0.

(** [observe], from the height and round the state holds and the clock. *)
Definition observe (b : Timing) (height round now : Z) : Timing :=
  if height =? lastHeight b then
    if curHeightMaxRound b <? int32 round
    then mkTiming (lastHeight b) (lastHeightChangeAt b) (blockIntervals b) (maxRoundPerHeight b) (int32 round)
    else b
  else
    let '(iv, mr) :=
      if negb (lastHeight b =? 0) && (lastHeight b <? height) then
        (if negb (time_IsZero (lastHeightChangeAt b))
         then appendRing (blockIntervals b) (time_Sub now (lastHeightChangeAt b)) else blockIntervals b,
         appendRing32 (maxRoundPerHeight b) (curHeightMaxRound b))
      else (blockIntervals b, maxRoundPerHeight b) in
    mkTiming height now iv mr (int32 round).

Definition interval_mean (iv : list Z) : Z :=
  go_div (foldl (fun a d => int64 (a + d)) 0 iv) (Z.of_nat (length iv)).

Definition interval_variance (mean : Z) (iv : list Z) : gofloat :=
  foldl (fun acc d => let diff := f64_of_Z (int64 (d - mean)) in f64_add acc (f64_mul diff diff)) f64_zero iv.

Definition count_zero (mr : list Z) : Z := Z.of_nat (length (filter (fun r => r = 0) mr)).

Definition enrichBlockTime (nh : NetworkHealth) (b : Timing) : NetworkHealth :=
  let q := nh_quality nh in
  let iv := blockIntervals b in
  let q :=
    match iv with
    | [] => q
    | _ =>
        let mean := interval_mean iv in
        mkQuality (RoundsPerBlockAvg q) (RoundZeroCommitPct q) mean
          (f_to_int64 (f64_sqrt (f64_div (interval_variance mean iv) (f64_of_Z (Z.of_nat (length iv))))))
          iv
    end in
  let mr := maxRoundPerHeight b in
  let q :=
    match mr with
    | [] => q
    | _ =>
        let n := f64_of_Z (Z.of_nat (length mr)) in
        mkQuality (f64_div (f64_of_Z (foldl (fun a r => int64 (a + r)) 0 mr)) n)
          (f64_div (f64_mul (Fin 100) (f64_of_Z (count_zero mr))) n)
          (AvgBlockTime q) (BlockTimeStdDev q) (BlockIntervals q)
    end in
  with_quality nh q.

(** *** Step timing *)

Record durSamples := mkSamples { total : Z; count : Z }.

Definition add (d : durSamples) (v : Z) : durSamples := mkSamples (int64 (total d + v)) (int64 (count d + 1)).
Definition avg (d : durSamples) : Z := if count d =? 0 then 0 else go_div (total d) (count d).

Record stepAccumulator := mkSteps {
  lastStep : string;
  lastAt : Z;
  propose : durSamples;
  prevote : durSamples;
  precommit : durSamples }.

Definition newStepAccumulator : stepAccumulator :=
  mkSteps "" 0 (mkSamples 0 0) (mkSamples 0 0) (mkSamples 0 0).

Inductive phase := Propose | Prevote | Precommit.
#[export] Instance phase_eq_dec : EqDecision phase.
Proof. solve_decision. Defined.

(** The [switch] on the step being left. *)
Definition step_phase (s : string) : option phase :=
  if bool_decide (s = "RoundStepPropose") then Some Propose
  else if bool_decide (s = "RoundStepPrevote") || bool_decide (s = "RoundStepPrevoteWait") then Some Prevote
  else if bool_decide (s = "RoundStepPrecommit") || bool_decide (s = "RoundStepPrecommitWait") then Some Precommit
  else None.

Definition observeForStepTiming (now : Z) (st : stepAccumulator) (e : TMEventData) : stepAccumulator :=
  match e with
  | EventDataRoundState _ _ step =>
      let st :=
        if negb (bool_decide (lastStep st = "")) && negb (time_IsZero (lastAt st)) then
          let dur := time_Sub now (lastAt st) in
          match step_phase (lastStep st) with
          | Some Propose => mkSteps (lastStep st) (lastAt st) (add (propose st) dur) (prevote st) (precommit st)
          | Some Prevote => mkSteps (lastStep st) (lastAt st) (propose st) (add (prevote st) dur) (precommit st)
          | Some Precommit => mkSteps (lastStep st) (lastAt st) (propose st) (prevote st) (add (precommit st) dur)
          | None => st
          end
        else st in
      mkSteps step now (propose st) (prevote st) (precommit st)
  | _ => st
  end.

Definition enrichStepTiming (nh : NetworkHealth) (st : stepAccumulator) : NetworkHealth :=
  with_steps nh (mkStepTiming (avg (propose st)) (avg (prevote st)) (avg (precommit st)) (count (precommit st))).

(** ** Rings *)

Definition lastn {A} (n : Z) (l : list A) : list A := drop (length l - Z.to_nat n) l.

Lemma append_cap_lastn {A} n (l : list A) v :
  0 < n -> append_cap n (lastn n l) v = lastn n (l ++ [v]).
Proof.
  intros Hn. unfold append_cap, lastn. rewrite !length_app, !length_drop. cbn [length].
  destruct (Z.ltb_spec n (Z.of_nat (length l - (length l - Z.to_nat n) + 1))) as [H|H].
  - rewrite drop_app_le by (rewrite length_drop; lia). rewrite drop_drop, drop_app_le by lia.
    f_equal. f_equal. lia.
  - rewrite !(proj2 (Nat.sub_0_le _ _)) by lia. by rewrite !drop_0.
Qed.

Lemma lastn_length {A} n (l : list A) : 0 <= n -> Z.of_nat (length (lastn n l)) <= n.
Proof. intros. unfold lastn. rewrite length_drop. lia. Qed.

(** ** What the rings hold after any run of observations *)

(** The observations made while the state stays at one height. *)
Record stay := mkStay { s_height : Z; s_round : Z; s_since : Z; s_later : list (Z * Z) }.

Definition stay_observe (b : Timing) (g : stay) : Timing :=
  foldl (fun b p => observe b (s_height g) p.1 p.2) (observe b (s_height g) (s_round g) (s_since g)) (s_later g).

Definition stay_max (g : stay) : Z :=
  foldl (fun m p => Z.max m (int32 p.1)) (int32 (s_round g)) (s_later g).

(** The durations between the first observations of consecutive heights. *)
Fixpoint durations (gs : list stay) : list Z :=
  match gs with
  | g :: ((g' :: _) as gs') => time_Sub (s_since g') (s_since g) :: durations gs'
  | _ => []
  end.

Section TimingFacts.
Implicit Types b : Timing.

Lemma observe_same b r now :
  observe b (lastHeight b) r now =
  mkTiming (lastHeight b) (lastHeightChangeAt b) (blockIntervals b) (maxRoundPerHeight b)
    (Z.max (curHeightMaxRound b) (int32 r)).
Proof.
  unfold observe. rewrite Z.eqb_refl. destruct (Z.ltb_spec (curHeightMaxRound b) (int32 r)).
  - by rewrite Z.max_r by lia.
  - rewrite Z.max_l by lia. by destruct b.
Qed.

Lemma observe_stay b l :
  foldl (fun b p => observe b (lastHeight b) p.1 p.2) b l =
  mkTiming (lastHeight b) (lastHeightChangeAt b) (blockIntervals b) (maxRoundPerHeight b)
    (foldl (fun m p => Z.max m (int32 p.1)) (curHeightMaxRound b) l).
Proof.
  revert b. induction l as [|[r t] l IH]; intros b; cbn [foldl]; [by destruct b|].
  rewrite observe_same, IH. done.
Qed.

Lemma fold_height b h l :
  lastHeight b = h ->
  foldl (fun b p => observe b h p.1 p.2) b l =
  mkTiming h (lastHeightChangeAt b) (blockIntervals b) (maxRoundPerHeight b)
    (foldl (fun m p => Z.max m (int32 p.1)) (curHeightMaxRound b) l).
Proof.
  intros <-. rewrite <-observe_stay. cut (forall b', lastHeight b' = lastHeight b ->
    foldl (fun b0 p => observe b0 (lastHeight b) p.1 p.2) b' l =
    foldl (fun b0 p => observe b0 (lastHeight b0) p.1 p.2) b' l); [by intros H; apply H|].
  induction l as [|p l IH]; intros b' Hb; cbn [foldl]; [done|].
  rewrite Hb. apply IH. rewrite <-Hb, observe_same. done.
Qed.

(** Entering a new, higher height. *)
Lemma stay_observe_higher b g :
  lastHeight b <> 0 -> lastHeight b < s_height g -> lastHeightChangeAt b <> 0 ->
  stay_observe b g =
  mkTiming (s_height g) (s_since g)
    (appendRing (blockIntervals b) (time_Sub (s_since g) (lastHeightChangeAt b)))
    (appendRing32 (maxRoundPerHeight b) (curHeightMaxRound b)) (stay_max g).
Proof.
  intros H0 Hlt Ht. unfold stay_observe, observe at 2.
  rewrite (proj2 (Z.eqb_neq (s_height g) (lastHeight b))) by lia.
  rewrite (proj2 (Z.eqb_neq (lastHeight b) 0)), (proj2 (Z.ltb_lt _ _) Hlt) by done.
  unfold time_IsZero. rewrite (proj2 (Z.eqb_neq _ _) Ht). cbn [negb andb].
  by rewrite fold_height.
Qed.

Lemma stay_observe_first g :
  s_height g <> 0 ->
  stay_observe zero_Timing g = mkTiming (s_height g) (s_since g) [] [] (stay_max g).
Proof.
  intros H0. unfold stay_observe, observe at 2; cbn [lastHeight zero_Timing].
  rewrite (proj2 (Z.eqb_neq _ _) H0). cbn. by rewrite fold_height.
Qed.

Lemma durations_snoc gs g g' :
  durations (gs ++ [g; g']) = durations (gs ++ [g]) ++ [time_Sub (s_since g') (s_since g)].
Proof.
  induction gs as [|x gs IH]; [done|]. destruct gs as [|y gs]; [done|].
  cbn in IH |- *. by rewrite IH.
Qed.

(** Heights grow and are positive, and the clock never reads the zero time. *)
Definition climbing (gs : list stay) : Prop :=
  StronglySorted Z.lt (s_height <$> gs) /\ Forall (fun g => 0 < s_height g /\ s_since g <> 0) gs.

Lemma climbing_init gs g : climbing (gs ++ [g]) -> climbing gs.
Proof.
  intros [Hs Hf]. rewrite fmap_app in Hs. apply StronglySorted_app_1_l in Hs.
  by apply Forall_app in Hf as [Hf _].
Qed.

Lemma climbing_last gs g g' : climbing (gs ++ [g; g']) -> s_height g < s_height g'.
Proof.
  intros [Hs _]. rewrite fmap_app in Hs. apply StronglySorted_app_1_r in Hs.
  cbn in Hs. inversion Hs as [|? ? _ Hf]; subst. by inversion Hf.
Qed.

End TimingFacts.

Definition w_stays : list stay := [mkStay 5 0 100 [(2, 110); (1, 120)]].
Lemma w_climbing : climbing (w_stays ++ [mkStay 6 0 130 []]).
Proof. split; cbn; repeat constructor; cbn; lia. Qed.


(** ** The averages *)

Section AverageFacts.
Lemma foldl_int64_exact (l : list Z) acc bound :
  Forall (fun x => - bound <= x <= bound) l ->
  Z.abs acc + bound * Z.of_nat (length l) <= MaxInt64 ->
  foldl (fun a x => int64 (a + x)) acc l = acc + sumz l.
Proof.
  revert acc. induction l as [|x l IH]; intros acc Hl Hb; cbn [foldl sumz]; [lia|].
  inversion Hl as [|? ? Hx Hl']; subst. cbn [length] in Hb.
  rewrite Nat2Z.inj_succ, Z.mul_succ_r in Hb.
  assert (0 <= bound * Z.of_nat (length l)) by (apply Z.mul_nonneg_nonneg; lia).
  rewrite int64_id by go_lia. rewrite IH; [lia|done|lia].
Qed.

Lemma sumz_between lo hi l :
  Forall (fun x => lo <= x <= hi) l ->
  lo * Z.of_nat (length l) <= sumz l <= hi * Z.of_nat (length l).
Proof. induction 1; cbn [sumz length]; lia. Qed.

Lemma quot_between lo hi n s : 0 < n -> lo * n <= s <= hi * n -> lo <= Z.quot s n <= hi.
Proof.
  intros Hn [H1 H2]. pose proof (Z.quot_rem' s n). split.
  - rewrite <-(Z.quot_mul lo n) by lia. by apply Z.quot_le_mono.
  - rewrite <-(Z.quot_mul hi n) by lia. by apply Z.quot_le_mono.
Qed.

Lemma interval_mean_between lo hi iv :
  iv <> [] -> Z.of_nat (length iv) <= ringCapacity ->
  - 2 ^ 55 <= lo -> hi <= 2 ^ 55 -> Forall (fun d => lo <= d <= hi) iv ->
  lo <= interval_mean iv <= hi.
Proof.
  intros Hne Hlen Hlo Hhi Hall. unfold interval_mean, go_div, ringCapacity in *.
  rewrite (foldl_int64_exact iv 0 (2 ^ 55)); [| |cbn [Z.abs]; go_lia].
  - apply quot_between; [destruct iv; cbn [length] in *; [done|lia]|]. by apply sumz_between.
  - eapply Forall_impl; [exact Hall|]. cbn. lia.
Qed.

Lemma count_zero_le mr : 0 <= count_zero mr <= Z.of_nat (length mr).
Proof. unfold count_zero. pose proof (length_filter (fun r => r = 0) mr). lia. Qed.
End AverageFacts.

Lemma foldl_quality nh b :
  nh_quality (enrichBlockTime nh b) =
  mkQuality
    (match maxRoundPerHeight b with
     | [] => RoundsPerBlockAvg (nh_quality nh)
     | mr => f64_div (f64_of_Z (foldl (fun a r => int64 (a + r)) 0 mr)) (f64_of_Z (Z.of_nat (length mr)))
     end)
    (match maxRoundPerHeight b with
     | [] => RoundZeroCommitPct (nh_quality nh)
     | mr => f64_div (f64_mul (Fin 100) (f64_of_Z (count_zero mr))) (f64_of_Z (Z.of_nat (length mr)))
     end)
    (match blockIntervals b with [] => AvgBlockTime (nh_quality nh) | iv => interval_mean iv end)
    (match blockIntervals b with
     | [] => BlockTimeStdDev (nh_quality nh)
     | iv => f_to_int64 (f64_sqrt (f64_div (interval_variance (interval_mean iv) iv) (f64_of_Z (Z.of_nat (length iv)))))
     end)
    (match blockIntervals b with [] => BlockIntervals (nh_quality nh) | iv => iv end).
Proof.
  unfold enrichBlockTime. cbn [nh_quality with_quality].
  destruct (nh_quality nh), (blockIntervals b), (maxRoundPerHeight b); reflexivity.
Qed.

(** With the rings within their capacity and every interval between [lo] and
    [hi] (both at most about a year), the average block time is between [lo] and
    [hi] and the round-zero rate is the correctly rounded percentage of
    heights that ended in round 0, between 0 and 100: no overflow and no division
    by zero. *)
Theorem block_quality_bounds nh b lo hi
  (Hiv : blockIntervals b <> []) (Hmr : maxRoundPerHeight b <> [])
  (Hlen : Z.of_nat (length (blockIntervals b)) <= ringCapacity)
  (Hlen' : Z.of_nat (length (maxRoundPerHeight b)) <= ringCapacity)
  (Hlo : - 2 ^ 55 <= lo) (Hhi : hi <= 2 ^ 55)
  (Hall : Forall (fun d => lo <= d <= hi) (blockIntervals b)) :
  let q := nh_quality (enrichBlockTime nh b) in
  let mr := maxRoundPerHeight b in
  lo <= AvgBlockTime q <= hi /\
  exists p, RoundZeroCommitPct q = Fin p /\
    (p == rnd (Some (-1074)%Z) (inject_Z (100 * count_zero mr)%Z / inject_Z (Z.of_nat (length mr))))%Q /\
    (0 <= p)%Q /\ (p <= 100)%Q.
Proof.
  cbn zeta. rewrite foldl_quality. cbn [AvgBlockTime RoundZeroCommitPct].
  pose proof (interval_mean_between lo hi _ Hiv Hlen Hlo Hhi Hall) as Hmean.
  destruct (blockIntervals b) as [|d iv]; [done|]. split; [exact Hmean|].
  pose proof (count_zero_le (maxRoundPerHeight b)) as Hz. unfold ringCapacity in *.
  destruct (maxRoundPerHeight b) as [|r mr]; [done|].
  assert (0 < Z.of_nat (length (r :: mr))) by (cbn [length]; lia).
  apply f64_percent; [apply f64_of_Z_exact; lia|apply f64_of_Z_exact; lia|lia|lia].
Qed.

Definition w_timing : Timing := mkTiming 9 1 [2000000000; 4000000000; 6000000000] [0; 0; 1; 0] 0.

Lemma block_quality_bounds_witness :
  2000000000 <= AvgBlockTime (nh_quality (enrichBlockTime zero_NetworkHealth w_timing)) <= 6000000000.
Proof.
  assert (H1 : blockIntervals w_timing <> []) by discriminate.
  assert (H2 : maxRoundPerHeight w_timing <> []) by discriminate.
  assert (H3 : Forall (fun d => 2000000000 <= d <= 6000000000) (blockIntervals w_timing))
    by (repeat constructor; lia).
  destruct (block_quality_bounds zero_NetworkHealth w_timing 2000000000 6000000000 H1 H2) as [H _];
    [vm_compute; discriminate|vm_compute; discriminate|vm_compute; discriminate|vm_compute; discriminate|exact H3|].
  exact H.
Defined.

Example block_quality_ex :
  let b := mkTiming 9 1 [2 * Second; 4 * Second; 6 * Second] [0; 0; 1; 0] 0 in
  let q := nh_quality (enrichBlockTime zero_NetworkHealth b) in
  AvgBlockTime q = 4 * Second /\ RoundZeroCommitPct q = Fin (75 # 1) /\ BlockTimeStdDev q = Some 1632993161.
Proof. vm_compute. done. Qed.

(** ** Step timing as a fold over completed steps *)

(** The timed step events of a batch, in order. *)
Definition step_events (tr : list (TMEventData * Z)) : list (string * Z) :=
  omap (fun p => match p.1 with EventDataRoundState _ _ s => Some (s, p.2) | _ => None end) tr.

(** The durations of the completed steps of one phase. *)
Fixpoint phase_samples (ph : phase) (l : list (string * Z)) : list Z :=
  match l with
  | (s, t) :: (((_, t') :: _) as l') =>
      if bool_decide (step_phase s = Some ph) then time_Sub t' t :: phase_samples ph l'
      else phase_samples ph l'
  | _ => []
  end.

Definition samples_of (l : list Z) : durSamples := foldl add (mkSamples 0 0) l.

Definition run_steps (st : stepAccumulator) (tr : list (TMEventData * Z)) : stepAccumulator :=
  foldl (fun st p => observeForStepTiming p.2 st p.1) st tr.

Section StepFacts.
Definition phase_acc (ph : phase) (st : stepAccumulator) : durSamples :=
  match ph with Propose => propose st | Prevote => prevote st | Precommit => precommit st end.

Lemma phase_samples_snoc ph l s t s' t' :
  phase_samples ph ((l ++ [(s, t)]) ++ [(s', t')]) =
  phase_samples ph (l ++ [(s, t)]) ++ (if bool_decide (step_phase s = Some ph) then [time_Sub t' t] else []).
Proof.
  induction l as [|[s0 t0] l IH].
  - cbn. by destruct (bool_decide _).
  - destruct l as [|[s1 t1] l]; [cbn; destruct (bool_decide (step_phase s0 = _)); cbn; by destruct (bool_decide _)|].
    cbn in IH |- *. rewrite IH. by destruct (bool_decide (step_phase s0 = _)).
Qed.

Lemma samples_snoc l d : samples_of (l ++ [d]) = add (samples_of l) d.
Proof. unfold samples_of. by rewrite foldl_app. Qed.

Lemma observe_step_acc st now h r s ph :
  lastStep st <> "" -> lastAt st <> 0 ->
  phase_acc ph (observeForStepTiming now st (EventDataRoundState h r s)) =
  if bool_decide (step_phase (lastStep st) = Some ph) then add (phase_acc ph st) (time_Sub now (lastAt st))
  else phase_acc ph st.
Proof.
  intros Hs Ht. unfold observeForStepTiming, time_IsZero.
  rewrite (bool_decide_eq_false_2 _ Hs), (proj2 (Z.eqb_neq _ _) Ht). cbn [negb andb].
  destruct (step_phase (lastStep st)) as [[]|], ph; cbn; done.
Qed.

(** What the accumulator holds after the step events [l]. *)
Definition steps_hold (l : list (string * Z)) (st : stepAccumulator) : Prop :=
  (forall ph, phase_acc ph st = samples_of (phase_samples ph l)) /\
  match last l with Some (s, t) => lastStep st = s /\ lastAt st = t | None => lastStep st = "" end.

Lemma steps_hold_step l st e now :
  Forall (fun p => p.1 <> "" /\ p.2 <> 0) l -> steps_hold l st ->
  steps_hold (l ++ step_events [(e, now)]) (observeForStepTiming now st e).
Proof.
  intros Hl [Hacc Hlast]. destruct e as [| |h r s|]; cbn -[observeForStepTiming];
    rewrite ?app_nil_r; try by split.
  split; [|by rewrite last_snoc].
  induction l as [|[s0 t0] l _] using rev_ind.
  - intros ph. cbn in Hlast. specialize (Hacc ph). transitivity (phase_acc ph st); [|exact Hacc].
    unfold observeForStepTiming. rewrite Hlast. by destruct ph.
  - intros ph. rewrite last_snoc in Hlast. destruct Hlast as [Hs Ht].
    apply Forall_app in Hl as [_ Hl]. inversion Hl as [|? ? [Hne Hnz] _]; subst. cbn in Hne, Hnz.
    rewrite observe_step_acc, phase_samples_snoc, Hacc by done.
    destruct (bool_decide _); [by rewrite samples_snoc|by rewrite app_nil_r].
Qed.

(** Over any batch of events whose step events carry a step name and a
    non-zero time, each phase's accumulator holds the durations of the
    completed steps of that phase (a wait step counts with its phase), every
    other event is ignored, and the step in progress is not counted. *)
Theorem step_timing_spec tr ph (Htr : Forall (fun p => p.1 <> "" /\ p.2 <> 0) (step_events tr)) :
  phase_acc ph (run_steps newStepAccumulator tr) = samples_of (phase_samples ph (step_events tr)).
Proof.
  enough (H : steps_hold (step_events tr) (run_steps newStepAccumulator tr)) by apply H.
  unfold run_steps. induction tr as [|[e now] tr IH] using rev_ind.
  { split; [by intros []|done]. }
  unfold step_events in *. rewrite omap_app in Htr |- *. apply Forall_app in Htr as [Htr _].
  rewrite foldl_app. apply steps_hold_step; [done|]. by apply IH.
Qed.

Definition w_step_trace : list (TMEventData * Z) :=
  [(EventDataRoundState 1 0 "RoundStepPropose", 10); (EventOther, 11);
   (EventDataRoundState 1 0 "RoundStepPrevote", 14)].

Lemma step_timing_spec_witness :
  phase_acc Propose (run_steps newStepAccumulator w_step_trace) = mkSamples 4 1.
Proof.
  etransitivity; [apply (step_timing_spec w_step_trace Propose)|vm_compute; reflexivity].
  repeat constructor; done.
Defined.
End StepFacts.
