(* ===== verification/Analytics.v ===== *)
(** * Validator analytics ([pkg/analytics/analytics.go])

    The queries answer rows whose untyped columns are converted here; the class
    [AnalyticsQueries] is the part of the generated [sqlc.Querier] the service
    calls.  The live queries the metrics builder needs are functions of the rows. *)

From S2P Require Import Prelude GoNum GoText GoTime.
From Stdlib Require Import Ascii Lqa.
Local Open Scope Z_scope.

(** ** Untyped columns *)

Inductive sqlval :=
  | VNil
  | VInt (z : Z)
  | VFloat (f : gofloat)
  | VText (s : string)
  | VBytes (b : bytes)
  | VTime (t : Z).

Definition convertToInt64 (val : sqlval) : Z :=
  match val with
  | VInt v => v
  | VFloat v => f_int64 v
  | VText v => match ParseInt v 64 with Ok i => i | _ => 0 end
  | _ => 0
  end.

Definition convertToFloat64 (val : sqlval) : gofloat :=
  match val with
  | VFloat v => v
  | VInt v => f64_of_Z v
  | VText v => match ParseFloat v with Some f => f | None => f64_zero end
  | _ => f64_zero
  end.

Definition convertToTime (val : sqlval) : Z :=
  match val with
  | VTime v => v
  | VBytes v | VText v => match time_Parse v with Some t => t | None => 0 end
  | _ => 0
  end.

(** ** Results *)

Record TimeWindow := mkTimeWindow { tw_Start : Z; tw_End : Z }.

Record PerformanceMetrics := mkPerformance {
  pm_ValidatorHexAddress : string; pm_ValidatorMoniker : string; pm_TimeWindow : TimeWindow;
  pm_TotalBlocks : Z; pm_BlocksSigned : Z; pm_BlocksMissed : Z; pm_SigningEfficiency : gofloat;
  pm_TotalRounds : Z; pm_PrevoteRate : gofloat; pm_PrecommitRate : gofloat; pm_VotingPower : Z;
  pm_LongestMissStreak : Z; pm_CalculatedAt : Z }.

Record ConsensusMetrics := mkConsensusMetrics {
  cm_ValidatorHexAddress : string; cm_TotalRounds : Z; cm_RoundsWithPrevote : Z;
  cm_RoundsWithPrecommit : Z; cm_PrevoteRate : gofloat; cm_PrecommitRate : gofloat }.

Record MissedBlockStreak := mkStreak {
  ms_ConsecutiveMisses : Z; ms_StreakStartHeight : Z; ms_StreakEndHeight : Z;
  ms_StreakStartTime : Z; ms_StreakEndTime : Z }.

Record UptimeMetrics := mkUptime {
  um_ValidatorHexAddress : string; um_TotalBlocksInWindow : Z; um_BlocksParticipated : Z;
  um_BlocksMissed : Z; um_UptimePercentage : gofloat; um_WindowStart : Z; um_WindowEnd : Z }.

Record ValidatorRanking := mkRanking {
  vr_HexAddress : string; vr_Moniker : string; vr_TotalBlocks : Z; vr_BlocksSigned : Z;
  vr_BlocksMissed : Z; vr_SigningEfficiency : gofloat; vr_PrevotesCast : Z; vr_PrecommitsCast : Z;
  vr_VotingPower : Z; vr_EfficiencyRank : Z }.

Record TimeSeriesPoint := mkPoint {
  ts_TimeBucket : Z; ts_BlocksInBucket : Z; ts_BlocksSigned : Z; ts_BlocksMissed : Z;
  ts_SigningEfficiency : gofloat }.

Record ArrivalStats := mkArrival { AvgPrevote : Z; MaxPrevote : Z; AvgPrecommit : Z; MaxPrecommit : Z }.

(** ** Query rows ([pkg/db/sqlc]) *)

Record EfficiencyRow := mkEfficiencyRow {
  er_TotalBlocks : sqlval; er_BlocksSigned : sqlval; er_BlocksMissed : sqlval; er_SigningEfficiency : sqlval }.
Record ParticipationRow := mkParticipationRow {
  pr_TotalRounds : sqlval; pr_RoundsWithPrevote : sqlval; pr_RoundsWithPrecommit : sqlval;
  pr_PrevoteRate : sqlval; pr_PrecommitRate : sqlval }.
Record StreakRow := mkStreakRow {
  sr_ConsecutiveMisses : Z; sr_StartHeight : sqlval; sr_EndHeight : sqlval;
  sr_StartTime : sqlval; sr_EndTime : sqlval }.
Record UptimeRow := mkUptimeRow {
  ur_TotalBlocksInWindow : Z; ur_BlocksParticipated : Z; ur_BlocksMissed : sqlval;
  ur_UptimePercentage : sqlval; ur_WindowStart : sqlval; ur_WindowEnd : sqlval }.
Record RankingRow := mkRankingRow {
  rr_HexAddress : string; rr_Moniker : option string; rr_TotalBlocks : Z; rr_BlocksSigned : Z;
  rr_BlocksMissed : Z; rr_SigningEfficiency : sqlval; rr_PrevotesCast : Z; rr_PrecommitsCast : Z;
  rr_VotingPower : sqlval; rr_EfficiencyRank : sqlval }.
Record SeriesRow := mkSeriesRow {
  se_TimeBucket : sqlval; se_BlocksInBucket : Z; se_BlocksSigned : gofloat; se_BlocksMissed : sqlval;
  se_SigningEfficiency : sqlval }.
Record ArrivalRow := mkArrivalRow {
  ar_HexAddress : string; ar_VoteType : Z; ar_Samples : Z; ar_AvgSecs : sqlval; ar_MaxSecs : sqlval }.
Record ProposerRow := mkProposerRow { pp_HexAddress : option string; pp_BlocksProposed : Z }.

Class AnalyticsQueries := {
  q_SigningEfficiency : string -> Z -> Z -> res EfficiencyRow;
  q_ConsensusParticipation : string -> Z -> Z -> res ParticipationRow;
  q_MissedBlockStreaks : string -> Z -> Z -> res (list StreakRow);
  q_Uptime : string -> Z -> Z -> res UptimeRow;
  q_Ranking : Z -> Z -> res (list RankingRow);
  q_TimeSeries : string -> Z -> Z -> res (list SeriesRow);
  q_MaxStoredHeight : res sqlval;
  q_RankingByHeight : Z -> Z -> res (list RankingRow);
  q_VoteArrivalByHeight : Z -> Z -> res (list ArrivalRow);
  q_ProposerPerformanceByHeight : Z -> Z -> res (list ProposerRow);
}.

(** ** The service *)

Section Service.
Context `{Q : AnalyticsQueries}.

Definition GetSigningEfficiency (now : Z) (validatorAddr : string) (window : TimeWindow) : res PerformanceMetrics :=
  efficiency ← q_SigningEfficiency validatorAddr (tw_Start window) (tw_End window);
  participation ← q_ConsensusParticipation validatorAddr (tw_Start window) (tw_End window);
  missStreaks ← q_MissedBlockStreaks validatorAddr (tw_Start window) (tw_End window);
  let longest := match missStreaks with s :: _ => sr_ConsecutiveMisses s | [] => 0 end in
  Ok (mkPerformance validatorAddr "" window
        (convertToInt64 (er_TotalBlocks efficiency)) (convertToInt64 (er_BlocksSigned efficiency))
        (convertToInt64 (er_BlocksMissed efficiency)) (convertToFloat64 (er_SigningEfficiency efficiency))
        (convertToInt64 (pr_TotalRounds participation)) (convertToFloat64 (pr_PrevoteRate participation))
        (convertToFloat64 (pr_PrecommitRate participation)) 0 longest now).

Definition streak_of_row (s : StreakRow) : MissedBlockStreak :=
  mkStreak (sr_ConsecutiveMisses s) (convertToInt64 (sr_StartHeight s)) (convertToInt64 (sr_EndHeight s))
    (convertToTime (sr_StartTime s)) (convertToTime (sr_EndTime s)).

Definition GetMissedBlockStreaks (validatorAddr : string) (window : TimeWindow) : res (list MissedBlockStreak) :=
  streaks ← q_MissedBlockStreaks validatorAddr (tw_Start window) (tw_End window);
  Ok (map streak_of_row streaks).

Definition GetConsensusParticipation (validatorAddr : string) (window : TimeWindow) : res ConsensusMetrics :=
  p ← q_ConsensusParticipation validatorAddr (tw_Start window) (tw_End window);
  Ok (mkConsensusMetrics validatorAddr (convertToInt64 (pr_TotalRounds p))
        (convertToInt64 (pr_RoundsWithPrevote p)) (convertToInt64 (pr_RoundsWithPrecommit p))
        (convertToFloat64 (pr_PrevoteRate p)) (convertToFloat64 (pr_PrecommitRate p))).

Definition GetValidatorUptime (validatorAddr : string) (window : TimeWindow) : res UptimeMetrics :=
  uptime ← q_Uptime validatorAddr (tw_Start window) (tw_End window);
  let windowStart := convertToTime (ur_WindowStart uptime) in
  let windowEnd := convertToTime (ur_WindowEnd uptime) in
  Ok (mkUptime validatorAddr (ur_TotalBlocksInWindow uptime) (ur_BlocksParticipated uptime)
        (convertToInt64 (ur_BlocksMissed uptime)) (convertToFloat64 (ur_UptimePercentage uptime))
        (if time_IsZero windowStart then tw_Start window else windowStart)
        (if time_IsZero windowEnd then tw_End window else windowEnd)).

Definition ranking_of_row (with_rank : bool) (r : RankingRow) : ValidatorRanking :=
  mkRanking (rr_HexAddress r) (default "" (rr_Moniker r)) (rr_TotalBlocks r) (rr_BlocksSigned r)
    (rr_BlocksMissed r) (convertToFloat64 (rr_SigningEfficiency r)) (rr_PrevotesCast r)
    (rr_PrecommitsCast r) (convertToInt64 (rr_VotingPower r))
    (if with_rank then convertToInt64 (rr_EfficiencyRank r) else 0).

Definition GetAllValidatorMetrics (window : TimeWindow) : res (list ValidatorRanking) :=
  rankings ← q_Ranking (tw_Start window) (tw_End window);
  Ok (map (ranking_of_row true) rankings).

Definition GetMaxStoredHeight : res Z :=
  raw ← q_MaxStoredHeight;
  Ok (match raw with VInt v => v | VFloat v => f_int64 v | _ => 0 end).

Definition GetRankingByHeight (minH maxH : Z) : res (list ValidatorRanking) :=
  rows ← q_RankingByHeight minH maxH;
  Ok (map (ranking_of_row false) rows).

Definition secs_to_duration (v : sqlval) : Z := f_int64 (f64_mul (convertToFloat64 v) (f64_of_Z Second)).

Definition zero_Arrival : ArrivalStats := mkArrival 0 0 0 0.

Definition arrival_step (out : gmap string ArrivalStats) (r : ArrivalRow) : gmap string ArrivalStats :=
  if bool_decide (ar_HexAddress r = "") then out
  else
    let avg := secs_to_duration (ar_AvgSecs r) in
    let max := secs_to_duration (ar_MaxSecs r) in
    let s := default zero_Arrival (out !! ar_HexAddress r) in
    let s :=
      if ar_VoteType r =? 1 then mkArrival avg max (AvgPrecommit s) (MaxPrecommit s)
      else if ar_VoteType r =? 2 then mkArrival (AvgPrevote s) (MaxPrevote s) avg max
      else s in
    <[ar_HexAddress r := s]> out.

Definition GetVoteArrivalByHeight (minH maxH : Z) : res (gmap string ArrivalStats) :=
  rows ← q_VoteArrivalByHeight minH maxH;
  Ok (foldl arrival_step ∅ rows).

Definition share_step (total : Z) (out : gmap string gofloat) (r : ProposerRow) : gmap string gofloat :=
  if 0 <? total
  then <[default "" (pp_HexAddress r) :=
          f64_div (f64_mul (Fin 100) (f64_of_Z (pp_BlocksProposed r))) (f64_of_Z total)]> out
  else out.

Definition GetProposerShareByHeight (minH maxH : Z) : res (gmap string gofloat) :=
  rows ← q_ProposerPerformanceByHeight minH maxH;
  let total := foldl (fun a r => int64 (a + pp_BlocksProposed r)) 0 rows in
  Ok (foldl (share_step total) ∅ rows).

Definition point_of_row (p : SeriesRow) : TimeSeriesPoint :=
  mkPoint (convertToTime (se_TimeBucket p)) (se_BlocksInBucket p) (f_int64 (se_BlocksSigned p))
    (convertToInt64 (se_BlocksMissed p)) (convertToFloat64 (se_SigningEfficiency p)).

Definition GetPerformanceTimeSeries (validatorAddr : string) (window : TimeWindow) : res (list TimeSeriesPoint) :=
  rows ← q_TimeSeries validatorAddr (tw_Start window) (tw_End window);
  Ok (map point_of_row rows).
End Service.

Definition ParseTimeWindow (now : Z) (durationStr : string) : res TimeWindow :=
  match ParseDuration durationStr with
  | Ok duration =>
      if duration <=? 0 then Err ("duration must be positive, got: " +:+ durationStr)
      else Ok (mkTimeWindow (time_Add now (- duration)) now)
  | Err e => Err ("invalid duration format '" +:+ durationStr +:+ "': " +:+ e +:+
                  ". Examples: 1h, 30m, 24h, 168h (7 days)")
  | Panic => Panic
  end.

Definition GetCommonTimeWindows (now : Z) : list (string * TimeWindow) :=
  (fun p => (p.1, mkTimeWindow (time_Add now (- (p.2 * Hour))) now)) <$>
  [("1h", 1); ("6h", 6); ("24h", 24); ("168h", 7 * 24); ("720h", 30 * 24)].

(** ** Facts *)

Section AnalyticsFacts.
Lemma share_fold_lookup total rows out a :
  0 < total -> NoDup ((fun r => default "" (pp_HexAddress r)) <$> rows) ->
  foldl (share_step total) out rows !! a =
  match list_find (fun r => default "" (pp_HexAddress r) = a) rows with
  | Some (_, r) => Some (f64_div (f64_mul (Fin 100) (f64_of_Z (pp_BlocksProposed r))) (f64_of_Z total))
  | None => out !! a
  end.
Proof.
  intros Ht. revert out. induction rows as [|r rows IH]; intros out Hnd; cbn [foldl list_find]; [done|].
  cbn in Hnd. apply NoDup_cons in Hnd as [Hnin Hnd]. rewrite IH by done.
  destruct (list_find (fun r => default "" (pp_HexAddress r) = a) rows) as [[i r']|] eqn:Ef.
  - destruct (decide (default "" (pp_HexAddress r) = a)) as [E|E]; [|done].
    exfalso. apply list_find_Some in Ef as (Hi & Hr & _). apply Hnin. rewrite E, <-Hr.
    apply list_elem_of_fmap. exists r'. split; [done|]. by eapply list_elem_of_lookup_2.
  - unfold share_step. rewrite (proj2 (Z.ltb_lt _ _) Ht).
    destruct (decide (default "" (pp_HexAddress r) = a)) as [E|E]; cbn.
    + by rewrite E, lookup_insert_eq.
    + by rewrite lookup_insert_ne.
Qed.

Lemma proposer_shares `{Q : AnalyticsQueries} minH maxH rows
  (Hq : q_ProposerPerformanceByHeight minH maxH = Ok rows)
  (Hnd : NoDup ((fun r => default "" (pp_HexAddress r)) <$> rows))
  (Hnn : Forall (fun r => 0 <= pp_BlocksProposed r) rows)
  (Hmax : sumz (pp_BlocksProposed <$> rows) <= 2 ^ 46) :
  let total := sumz (pp_BlocksProposed <$> rows) in
  exists shares, GetProposerShareByHeight minH maxH = Ok shares /\
    (total = 0 -> shares = ∅) /\
    (forall a, a ∉ (fun r => default "" (pp_HexAddress r)) <$> rows -> shares !! a = None) /\
    (0 < total -> forall r, r ∈ rows -> exists p, shares !! default "" (pp_HexAddress r) = Some (Fin p) /\
      (p == rnd (Some (-1074)%Z) (inject_Z (100 * pp_BlocksProposed r)%Z / inject_Z total))%Q /\
      (0 <= p)%Q /\ (p <= 100)%Q).
Proof.
  intros total. unfold GetProposerShareByHeight. rewrite Hq. cbn [mbind res_bind].
  assert (Hnn' : Forall (fun x => 0 <= x) (pp_BlocksProposed <$> rows)) by by rewrite Forall_fmap.
  assert (Hsum : foldl (fun a r => int64 (a + pp_BlocksProposed r)) 0 rows = total).
  { transitivity (foldl (fun a x => int64 (a + x)) 0 (pp_BlocksProposed <$> rows)).
    - generalize 0. clear. induction rows as [|r rows IH]; intros z; cbn; auto.
    - rewrite foldl_int64_sum by (done || go_lia). lia. }
  rewrite Hsum. eexists. split; [reflexivity|].
  assert (H0 : total = 0 -> foldl (share_step total) ∅ rows = ∅)
    by (intros ->; clear; induction rows using rev_ind; [done|by rewrite foldl_app]).
  split; [exact H0|]. split.
  - intros a Ha. pose proof (sumz_nonneg _ Hnn'). destruct (decide (total = 0)) as [E|E]; [by rewrite H0, lookup_empty|].
    rewrite share_fold_lookup by (done || (unfold total in *; lia)).
    destruct (list_find _ rows) as [[i r]|] eqn:Ef; [|apply lookup_empty].
    apply list_find_Some in Ef as (Hi & Hr & _). exfalso. apply Ha, list_elem_of_fmap. exists r.
    split; [done|]. by eapply list_elem_of_lookup_2.
  - intros Hpos r Hr. rewrite share_fold_lookup by done.
    destruct (list_find _ rows) as [[i r']|] eqn:Ef.
    2:{ apply list_find_None in Ef. rewrite Forall_forall in Ef. by destruct (Ef r Hr). }
    apply list_find_Some in Ef as (Hi & Ha & _).
    assert (r' = r) as ->.
    { apply list_elem_of_lookup in Hr as [j Hj].
      assert (i = j) as ->; [|congruence].
      eapply NoDup_lookup; [exact Hnd| |]; rewrite list_lookup_fmap, ?Hi, ?Hj; cbn; [done|]. by rewrite Ha. }
    pose proof (sumz_elem_le (pp_BlocksProposed r) _ Hnn' ltac:(apply list_elem_of_fmap; eauto)) as Hle.
    rewrite Forall_forall in Hnn. pose proof (Hnn r Hr).
    destruct (f64_percent (f64_of_Z (pp_BlocksProposed r)) (f64_of_Z total) (pp_BlocksProposed r) total)
      as (p & Hp & Hrest); [apply f64_of_Z_exact; unfold total in *; lia|apply f64_of_Z_exact; unfold total in *; lia|unfold total in *; lia..|].
    exists p. by rewrite Hp.
Qed.

(** With one row per proposer and non-negative counts, the proposer share
    of every listed validator is the correctly rounded percentage of its
    blocks in the total, between 0 and 100; without any block the map is
    empty, so no share is a division by zero. *)
Theorem proposer_share_percent `{Q : AnalyticsQueries} minH maxH rows
  (Hq : q_ProposerPerformanceByHeight minH maxH = Ok rows)
  (Hnd : NoDup ((fun r => default "" (pp_HexAddress r)) <$> rows))
  (Hnn : Forall (fun r => 0 <= pp_BlocksProposed r) rows)
  (Hmax : sumz (pp_BlocksProposed <$> rows) <= 2 ^ 46) :
  let total := sumz (pp_BlocksProposed <$> rows) in
  exists shares, GetProposerShareByHeight minH maxH = Ok shares /\
    (total = 0 -> shares = ∅) /\
    (0 < total -> forall r, r ∈ rows -> exists p, shares !! default "" (pp_HexAddress r) = Some (Fin p) /\
      (p == rnd (Some (-1074)%Z) (inject_Z (100 * pp_BlocksProposed r)%Z / inject_Z total))%Q /\
      (0 <= p)%Q /\ (p <= 100)%Q).
Proof.
  intros total. destruct (proposer_shares minH maxH rows Hq Hnd Hnn Hmax) as (shares & E & H0 & _ & H1). by exists shares.
Qed.

(** The last row of a validator and vote type. *)
Definition last_arrival (rows : list ArrivalRow) (a : string) (t : Z) : option ArrivalRow :=
  last (filter (fun r => ar_HexAddress r = a /\ ar_VoteType r = t) rows).

Lemma last_arrival_snoc rows r a t :
  last_arrival (rows ++ [r]) a t =
  if bool_decide (ar_HexAddress r = a /\ ar_VoteType r = t) then Some r else last_arrival rows a t.
Proof.
  unfold last_arrival. rewrite filter_app. cbn. case_bool_decide as E.
  - rewrite decide_True by done. by rewrite last_snoc.
  - rewrite decide_False by done. by rewrite app_nil_r.
Qed.

Definition arrival_avg (o : option ArrivalRow) : Z := match o with Some r => secs_to_duration (ar_AvgSecs r) | None => 0 end.
Definition arrival_max (o : option ArrivalRow) : Z := match o with Some r => secs_to_duration (ar_MaxSecs r) | None => 0 end.

Definition arrival_of (rows : list ArrivalRow) (a : string) : option ArrivalStats :=
  if bool_decide (a <> "" /\ a ∈ ar_HexAddress <$> rows) then
    Some (mkArrival (arrival_avg (last_arrival rows a 1)) (arrival_max (last_arrival rows a 1))
            (arrival_avg (last_arrival rows a 2)) (arrival_max (last_arrival rows a 2)))
  else None.

Lemma arrival_of_skip rows r a :
  ar_HexAddress r <> a \/ ar_HexAddress r = "" -> arrival_of (rows ++ [r]) a = arrival_of rows a.
Proof.
  intros Hr. unfold arrival_of. rewrite fmap_app. cbn [fmap list_fmap].
  destruct (decide (a = "")) as [->|Ha]; [by rewrite !bool_decide_eq_false_2 by naive_solver|].
  assert (Hne : ar_HexAddress r <> a) by naive_solver.
  rewrite !last_arrival_snoc, !(bool_decide_eq_false_2 (ar_HexAddress r = a /\ _)) by naive_solver.
  assert (Hiff : a <> "" /\ a ∈ (ar_HexAddress <$> rows) ++ [ar_HexAddress r] <->
    a <> "" /\ a ∈ ar_HexAddress <$> rows) by set_solver.
  by rewrite (bool_decide_ext _ _ Hiff).
Qed.

(** A validator without a row has no last row of any type. *)
Lemma arrival_of_default rows a :
  a <> "" -> default zero_Arrival (arrival_of rows a) =
  mkArrival (arrival_avg (last_arrival rows a 1)) (arrival_max (last_arrival rows a 1))
    (arrival_avg (last_arrival rows a 2)) (arrival_max (last_arrival rows a 2)).
Proof.
  intros Ha. unfold arrival_of. case_bool_decide as Hin; [done|]. cbn.
  assert (Hn : forall t, last_arrival rows a t = None).
  { intros t. unfold last_arrival. destruct (last _) as [x|] eqn:El; [|done].
    apply last_Some_elem_of, list_elem_of_filter in El as [[Hx _] Hin'].
    exfalso. apply Hin. split; [done|]. apply list_elem_of_fmap. by exists x. }
  by rewrite !Hn.
Qed.

Lemma arrival_step_of rows r a :
  arrival_of (rows ++ [r]) a =
  if bool_decide (ar_HexAddress r <> "" /\ ar_HexAddress r = a) then
    let s := default zero_Arrival (arrival_of rows a) in
    let avg := secs_to_duration (ar_AvgSecs r) in let max := secs_to_duration (ar_MaxSecs r) in
    Some (if ar_VoteType r =? 1 then mkArrival avg max (AvgPrecommit s) (MaxPrecommit s)
          else if ar_VoteType r =? 2 then mkArrival (AvgPrevote s) (MaxPrevote s) avg max else s)
  else arrival_of rows a.
Proof.
  case_bool_decide as Hc; [destruct Hc as [H0 <-]|apply arrival_of_skip; destruct (decide (ar_HexAddress r = "")); naive_solver].
  cbn zeta. rewrite arrival_of_default by done. cbn [AvgPrevote MaxPrevote AvgPrecommit MaxPrecommit].
  unfold arrival_of. rewrite fmap_app, (bool_decide_eq_true_2 (ar_HexAddress r <> "" /\ _)) by (cbn; set_solver).
  rewrite !last_arrival_snoc. f_equal.
  destruct (Z.eqb_spec (ar_VoteType r) 1) as [E1|E1]; [|destruct (Z.eqb_spec (ar_VoteType r) 2) as [E2|E2]];
    repeat match goal with
    | |- context [bool_decide (_ /\ ar_VoteType r = ?t)] =>
        first [rewrite (bool_decide_eq_true_2 (_ /\ ar_VoteType r = t)) by (split; [done|lia])
              |rewrite (bool_decide_eq_false_2 (_ /\ ar_VoteType r = t)) by (intros [_ ?]; lia)]
    end; done.
Qed.

(** The arrival statistics of a validator are those of its last prevote row
    and of its last precommit row, zero where it has none; a validator is in the
    map exactly when it has a row, and an empty address never is. *)
Theorem vote_arrival_spec `{Q : AnalyticsQueries} minH maxH rows (Hq : q_VoteArrivalByHeight minH maxH = Ok rows) :
  exists m, GetVoteArrivalByHeight minH maxH = Ok m /\ forall a, m !! a = arrival_of rows a.
Proof.
  unfold GetVoteArrivalByHeight. rewrite Hq. eexists. split; [reflexivity|]. clear Hq.
  induction rows as [|r rows IH] using rev_ind; intros a.
  { cbn. unfold arrival_of. rewrite bool_decide_eq_false_2; [by rewrite lookup_empty|set_solver]. }
  rewrite foldl_app, arrival_step_of. cbn [foldl]. unfold arrival_step at 1.
  destruct (decide (ar_HexAddress r = "")) as [E0|E0].
  - by rewrite bool_decide_eq_true_2, IH, bool_decide_eq_false_2 by naive_solver.
  - rewrite (bool_decide_eq_false_2 (ar_HexAddress r = "")) by done.
    destruct (decide (ar_HexAddress r = a)) as [<-|Ha].
    + rewrite lookup_insert_eq, IH, bool_decide_eq_true_2 by done. done.
    + by rewrite lookup_insert_ne, IH, bool_decide_eq_false_2 by naive_solver.
Qed.
End AnalyticsFacts.

(** ** Witnesses *)

Section AnalyticsWitnesses.
Definition w_proposers : list ProposerRow := [mkProposerRow (Some "A") 3; mkProposerRow (Some "B") 1].
Definition w_arrivals : list ArrivalRow := [mkArrivalRow "A" 1 4 (VFloat (Fin (1 # 2))) (VInt 2)].

Definition w_queries : AnalyticsQueries := {|
  q_SigningEfficiency _ _ _ := Err "none"; q_ConsensusParticipation _ _ _ := Err "none";
  q_MissedBlockStreaks _ _ _ := Ok []; q_Uptime _ _ _ := Err "none"; q_Ranking _ _ := Ok [];
  q_TimeSeries _ _ _ := Ok []; q_MaxStoredHeight := Ok (VInt 9);
  q_RankingByHeight _ _ := Ok []; q_VoteArrivalByHeight _ _ := Ok w_arrivals;
  q_ProposerPerformanceByHeight _ _ := Ok w_proposers |}.

Lemma proposer_share_percent_witness :
  exists shares, GetProposerShareByHeight (Q := w_queries) 1 9 = Ok shares.
Proof.
  destruct (proposer_share_percent (Q := w_queries) 1 9 w_proposers eq_refl) as (shares & H & _);
    [|repeat constructor; cbn; lia|cbn; lia|by exists shares].
  cbn. repeat constructor; set_solver.
Defined.

Example proposer_share_ex :
  (fun m => m !! "A") <$> GetProposerShareByHeight (Q := w_queries) 1 9 = Ok (Some (Fin (75 # 1))).
Proof. vm_compute. reflexivity. Qed.

Lemma vote_arrival_spec_witness :
  exists m, GetVoteArrivalByHeight (Q := w_queries) 1 9 = Ok m /\ m !! "A" = arrival_of w_arrivals "A".
Proof.
  destruct (vote_arrival_spec (Q := w_queries) 1 9 w_arrivals eq_refl) as (m & H & Ha).
  exact (ex_intro _ m (conj H (Ha "A"))).
Defined.

Example vote_arrival_ex : arrival_of w_arrivals "A" = Some (mkArrival 500000000 2000000000 0 0).
Proof. vm_compute. reflexivity. Qed.
End AnalyticsWitnesses.
