(* ===== verification/Health.v ===== *)
(** * Health enrichment ([pkg/metrics/enrich_*.go], [buildBaseRows])

    Each enricher fills its group of fields of the network record or its columns
    of the validator rows, from the shared state, the builder's buffers, the
    ASN dataset and the analytics service. *)

From S2P Require Import Prelude GoNum GoText GoTime Deps Rounds Types MetricTypes State Asn Timing Analytics.
From Stdlib Require Import Lqa.
Local Open Scope Z_scope.

Definition haltThresholdSecs : gofloat := Fin 15.
Definition topASNCount : nat := 5.

Section Health.
Context `{B : Butils} `{C : Comet}.

(** ** Liveness *)

Definition votedThisHeight (s : State) (height round : Z) (addr : string) : bool :=
  let pre := GetVote (VotesByRound s) height round addr PrevoteType in
  let pc := GetVote (VotesByRound s) height round addr PrecommitType in
  bool_decide (pre = VoteStateForBlock) || bool_decide (pre = VoteStateNil) ||
  bool_decide (pc = VoteStateForBlock) || bool_decide (pc = VoteStateNil).

Definition setHaltFields (l : Liveness) (b : Timing) (now : Z) : Liveness :=
  if time_IsZero (lastHeightChangeAt b) then l
  else
    let secs := Seconds (time_Sub now (lastHeightChangeAt b)) in
    mkLiveness (f_lt haltThresholdSecs secs) secs (CurrentMaxRound l) (OfflineCount l) (OfflinePowerPct l).

Definition offline_step (s : State) (height round : Z) (acc : Z * gofloat * gofloat) (v : TMValidator) :
    Z * gofloat * gofloat :=
  let '(offline, offlinePower, totalPower) := acc in
  match tv_Comet v with
  | None => acc
  | Some cv =>
      let power := f64_of_Z (cv_VotingPower cv) in
      let totalPower := f64_add totalPower power in
      if negb (votedThisHeight s height round (GetDisplayAddress v))
      then (offline + 1, f64_add offlinePower power, totalPower)
      else (offline, offlinePower, totalPower)
  end.

Definition enrichLiveness (nh : NetworkHealth) (b : Timing) (now : Z) (s : State) : NetworkHealth :=
  let l := setHaltFields (nh_liveness nh) b now in
  let '(height, round, _, _) := GetConsensusHeight s in
  let '(offline, offlinePower, totalPower) :=
    foldl (offline_step s height (int32 round)) (0, f64_zero, f64_zero) (GetTMValidators s) in
  with_liveness nh
    (mkLiveness (ChainHalted l) (SecondsSinceHeight l) (int32 round) offline
      (if f_lt f64_zero totalPower then f64_div (f64_mul (Fin 100) offlinePower) totalPower
       else OfflinePowerPct l)).

Definition enrichLivenessRows (rows : list ValidatorHealthRow) (s : State) : list ValidatorHealthRow :=
  let '(height, round, _, _) := GetConsensusHeight s in
  (fun r => with_online r (votedThisHeight s height (int32 round) (row_Address r))) <$> rows.

(** ** Mempool and base rows *)

Definition enrichMempool (nh : NetworkHealth) (s : State) : NetworkHealth :=
  let '(txs, bytes, known) := GetMempool s in with_mempool nh (mkMempool txs bytes known).

Definition power_pct (v : TMValidator) : gofloat :=
  match VotingPowerPercent v with Some p => big_Float64 p | None => f64_zero end.

Definition buildBaseRows (validators : list TMValidator) : list ValidatorHealthRow :=
  (fun v => mkRow (GetDisplayAddress v) (GetDisplayName v) (power_pct v) zero_RowHistory zero_RowLatency
              false 0 "" false) <$> validators.

(** ** Hosting *)

Definition buildAddrToIPMap (s : State) : gmap string string :=
  foldl (fun m p =>
    let rpc := p.2 in
    if negb (bool_decide (rpc_ValidatorAddress rpc = "")) && negb (bool_decide (rpc_IP rpc = ""))
    then <[rpc_ValidatorAddress rpc := rpc_IP rpc]> m else m) ∅ (om_entries (KnownRPCs s)).

(** The provider of an address, when its IP is known and in the dataset. *)
Definition asn_of (addrToIP : gmap string string) (lookup : Lookup) (addr : string) : option (Z * string) :=
  ip ← addrToIP !! addr;
  if bool_decide (ip = "") then None else Lookup_Lookup (Some lookup) ip.

Record asnAccum := mkAccum { acc_org : string; acc_validators : Z; acc_powerPct : gofloat }.

Definition asn_step (addrToIP : gmap string string) (lookup : Lookup) (m : gmap Z asnAccum) (v : TMValidator) :
    gmap Z asnAccum :=
  match asn_of addrToIP lookup (GetDisplayAddress v) with
  | None => m
  | Some (asnNum, org) =>
      let acc := default (mkAccum org 0 f64_zero) (m !! asnNum) in
      <[asnNum := mkAccum (acc_org acc) (acc_validators acc + 1) (f64_add (acc_powerPct acc) (power_pct v))]> m
  end.

(** The comparison given to [sort.Slice]. *)
Definition share_less (a b : ASNShare) : bool :=
  if negb (f_eq (as_PowerPct a) (as_PowerPct b)) then f_lt (as_PowerPct b) (as_PowerPct a)
  else as_ASN a <? as_ASN b.

Definition share_of (p : Z * asnAccum) : ASNShare :=
  mkASNShare p.1 (acc_org p.2) (acc_validators p.2) (acc_powerPct p.2).

(** [range_map] is the order of a [range] over a Go map, [sort_slice] what
    [sort.Slice] does: both are arguments, as neither is determined. *)
Definition enrichASN (range_map : gmap Z asnAccum -> list (Z * asnAccum))
    (sort_slice : (ASNShare -> ASNShare -> bool) -> list ASNShare -> list ASNShare)
    (nh : NetworkHealth) (s : State) (lookup : option Lookup) : NetworkHealth :=
  match lookup with
  | None => nh
  | Some lookup =>
      let asnMap := foldl (asn_step (buildAddrToIPMap s) lookup) ∅ (GetTMValidators s) in
      let shares := sort_slice share_less (share_of <$> range_map asnMap) in
      with_asns nh (take topASNCount shares)
  end.

Definition enrichASNRows (rows : list ValidatorHealthRow) (s : State) (lookup : option Lookup) :
    list ValidatorHealthRow :=
  match lookup with
  | None => rows
  | Some lookup =>
      (fun r => match asn_of (buildAddrToIPMap s) lookup (row_Address r) with
                | Some (asnNum, org) => with_asn r asnNum org
                | None => r
                end) <$> rows
  end.

(** ** Database-backed columns *)

(** [byAddr]: the last row of an address. *)
Definition byAddr (rows : list ValidatorHealthRow) : gmap string nat :=
  foldl (fun m p => <[row_Address p.2 := p.1]> m) ∅ (imap (fun i r => (i, r)) rows).

Definition window_min (maxH windowBlocks : Z) : Z :=
  let minH := int64 (maxH - windowBlocks) in if minH <? 1 then 1 else minH.

Definition perf_history (share : gmap string gofloat) (old : RowHistory) (r : ValidatorRanking) : RowHistory :=
  let pct (n : Z) := f64_div (f64_mul (Fin 100) (f64_of_Z n)) (f64_of_Z (vr_TotalBlocks r)) in
  mkRowHistory true (vr_SigningEfficiency r) (vr_BlocksMissed r)
    (if 0 <? vr_TotalBlocks r then pct (vr_PrevotesCast r) else PrevoteRatePct old)
    (if 0 <? vr_TotalBlocks r then pct (vr_PrecommitsCast r) else PrecommitRatePct old)
    (default f64_zero (share !! vr_HexAddress r)).

Definition perf_step (idx : gmap string nat) (share : gmap string gofloat)
    (rows : list ValidatorHealthRow) (r : ValidatorRanking) : list ValidatorHealthRow :=
  match idx !! vr_HexAddress r with
  | None => rows
  | Some i => alter (fun row => with_history row (perf_history share (row_history row) r)) i rows
  end.

Definition enrichPerformance (an : option AnalyticsQueries) (windowBlocks : Z)
    (rows : list ValidatorHealthRow) : res (list ValidatorHealthRow) :=
  match an with
  | None => Ok rows
  | Some q =>
      match GetMaxStoredHeight (Q := q) with
      | Panic => Panic
      | Err _ => Ok rows
      | Ok maxH =>
          if maxH =? 0 then Ok rows
          else
            let minH := window_min maxH windowBlocks in
            match GetRankingByHeight (Q := q) minH maxH with
            | Panic => Panic
            | Err _ => Ok rows
            | Ok ranking =>
                match GetProposerShareByHeight (Q := q) minH maxH with
                | Panic => Panic
                | Ok share => Ok (foldl (perf_step (byAddr rows) share) rows ranking)
                | Err _ => Ok (foldl (perf_step (byAddr rows) ∅) rows ranking)
                end
            end
      end
  end.

Definition latency_step (idx : gmap string nat) (rows : list ValidatorHealthRow) (p : string * ArrivalStats) :
    list ValidatorHealthRow :=
  match idx !! p.1 with
  | None => rows
  | Some i => alter (fun row => with_latency row
                (mkRowLatency true (AvgPrevote p.2) (AvgPrecommit p.2) (MaxPrecommit p.2))) i rows
  end.

(** Distinct addresses index distinct rows, so the order of the map is irrelevant. *)
Definition enrichLatency (an : option AnalyticsQueries) (windowBlocks : Z)
    (rows : list ValidatorHealthRow) : res (list ValidatorHealthRow) :=
  match an with
  | None => Ok rows
  | Some q =>
      match GetMaxStoredHeight (Q := q) with
      | Panic => Panic
      | Err _ => Ok rows
      | Ok maxH =>
          if maxH =? 0 then Ok rows
          else
            match GetVoteArrivalByHeight (Q := q) (window_min maxH windowBlocks) maxH with
            | Panic => Panic
            | Err _ => Ok rows
            | Ok stats => Ok (foldl (latency_step (byAddr rows)) rows (map_to_list stats))
            end
      end
  end.
End Health.

(** ** Facts: the halt flag is exact *)

Section HaltFacts.
Local Open Scope Q_scope.

(** [Seconds] is the rounded sum of the whole seconds and the rounded fraction. *)
Lemma Seconds_split d :
  (0 <= d <= MaxInt64)%Z ->
  exists q r, Seconds d = Fin r /\ 0 <= q /\ q <= 1 /\
    q == rnd (Some (-1074)%Z) (inject_Z (d mod Second) / inject_Z 1000000000) /\
    r == rnd (Some (-1074)%Z) (inject_Z (d / Second) + q).
Proof.
  intros Hd. unfold Seconds, go_div, go_rem.
  rewrite Z.quot_div_nonneg, Z.rem_mod_nonneg by (unfold Second; lia).
  assert (Hsec : (0 <= d / Second <= 2 ^ 40)%Z).
  { split; [apply Z.div_pos; unfold Second; lia|]. apply Z.div_le_upper_bound; unfold Second, MaxInt64 in *; lia. }
  pose proof (Z.mod_pos_bound d Second ltac:(unfold Second; lia)) as Hns.
  set (s := (d / Second)%Z) in *. set (n := (d mod Second)%Z) in *.
  destruct (f64_of_Z_exact s ltac:(lia)) as (a & -> & Ha).
  assert (Hb : f_is (f64_of_Z 1000000000) 1000000000) by (apply f64_of_Z_exact; lia).
  destruct (f_is_div _ _ n 1000000000 (f64_of_Z_exact n ltac:(unfold Second in *; lia)) Hb) as (q & -> & Hq);
    [unfold Second in *; lia|lia|].
  assert (Hn0 : 0 <= inject_Z n) by (apply inject_nonneg; lia).
  assert (Hn1 : inject_Z n <= inject_Z 1000000000) by (rewrite <-Zle_Qle; unfold Second in *; lia).
  destruct (rnd_ratio_le_1 (Some (-1074)%Z) (inject_Z n) (inject_Z 1000000000) ltac:(cbn; discriminate) Hn0 Hn1 ltac:(reflexivity)) as [Hq0 Hq1].
  rewrite <-Hq in Hq0, Hq1. cbn [f_add]. exists q.
  pose proof (inject_nonneg s ltac:(lia)) as Ha0.
  assert (Hamax : inject_Z s <= inject_Z (2 ^ 40)) by (rewrite <-Zle_Qle; lia).
  rewrite f64_round_small; [|lra|].
  - eexists. split_and!; [done|done|done|done|]. apply rnd_eq; [lra|]. by rewrite Ha.
  - apply (Qle_lt_trans _ (inject_Z (2 ^ 40) + inject_Z 1)); [change (inject_Z 1) with 1; lra|].
    rewrite <-inject_Z_plus. apply Qnot_le_lt. rewrite <-Qle_bool_iff. vm_compute. discriminate.
Qed.

Lemma Seconds_above_15 d :
  (0 <= d <= MaxInt64)%Z -> f_lt (Fin 15) (Seconds d) = (15 * Second <? d)%Z.
Proof.
  intros Hd. destruct (Seconds_split d Hd) as (q & r & -> & Hq0 & Hq1 & Hq & Hr). cbn [f_lt].
  pose proof (Z.mod_pos_bound d Second ltac:(unfold Second; lia)) as Hns.
  pose proof (Z.div_mod d Second ltac:(unfold Second; lia)) as Hdm.
  set (s := (d / Second)%Z) in *. set (n := (d mod Second)%Z) in *.
  assert (Hs0 : 0 <= inject_Z s) by (apply inject_nonneg, Z.div_pos; unfold Second in *; lia).
  destruct (Z.ltb_spec (15 * Second) d) as [Hlt|Hge].
  - apply negb_true_iff, not_true_iff_false. rewrite Qle_bool_iff, Hr. apply Qlt_not_le.
    destruct (Z.le_gt_cases 16 s) as [Hs|Hs].
    + apply (Qlt_le_trans _ (rnd (Some (-1074)%Z) (inject_Z 16))); [apply Qnot_le_lt; rewrite <-Qle_bool_iff; vm_compute; discriminate|].
      apply rnd_le; [discriminate|]. assert (inject_Z 16 <= inject_Z s) by (rewrite <-Zle_Qle; lia). lra.
    + assert (s = 15)%Z as Es by (unfold Second in *; lia). assert (1 <= n)%Z by (unfold Second in *; lia).
      assert (Hstep : 15 < rnd (Some (-1074)%Z) (15 + rnd (Some (-1074)%Z) (1 # 1000000000)))
        by (apply Qnot_le_lt; rewrite <-Qle_bool_iff; vm_compute; discriminate).
      eapply Qlt_le_trans; [exact Hstep|]. apply rnd_le.
      { assert (0 <= rnd (Some (-1074)%Z) (1 # 1000000000)) by by apply rnd_nonneg. lra. }
      rewrite Es, Hq. change (inject_Z 15) with 15. apply Qplus_le_r. apply rnd_le; [discriminate|].
      apply Qle_shift_div_l; [reflexivity|].
      apply (Qle_trans _ (inject_Z 1)); [apply Qle_bool_iff; vm_compute; reflexivity|].
      rewrite <-Zle_Qle. lia.
  - apply negb_false_iff, Qle_bool_iff. rewrite Hr.
    apply (Qle_trans _ (rnd (Some (-1074)%Z) (inject_Z 15))); [|rewrite rnd_Z by lia; apply Qle_refl].
    apply rnd_le; [lra|]. destruct (Z.le_gt_cases s 14) as [Hs|Hs].
    + assert (inject_Z s <= inject_Z 14) by (rewrite <-Zle_Qle; lia).
      change (inject_Z 14) with 14 in *. change (inject_Z 15) with 15. lra.
    + assert (s = 15 /\ n = 0)%Z as [Es En] by (unfold Second in *; lia).
      rewrite Hq, Es, En. apply Qle_bool_iff. vm_compute. reflexivity.
Qed.

(** Once a height change has been seen, the halt flag is raised exactly when
    more than fifteen seconds, to the nanosecond, have passed since: the
    conversion to floating-point seconds never blurs the threshold. *)
Theorem halt_flag_exact l b now
  (Hb : lastHeightChangeAt b <> 0%Z)
  (Hd : (0 <= now - lastHeightChangeAt b <= MaxInt64)%Z) :
  ChainHalted (setHaltFields l b now) = (15 * Second <? now - lastHeightChangeAt b)%Z.
Proof.
  unfold setHaltFields, time_IsZero. rewrite (proj2 (Z.eqb_neq _ _) Hb). cbn [ChainHalted].
  assert (Hsub : time_Sub now (lastHeightChangeAt b) = (now - lastHeightChangeAt b)%Z)
    by (unfold time_Sub; go_lia).
  rewrite Hsub. by apply Seconds_above_15.
Qed.

Lemma halt_flag_exact_witness :
  ChainHalted (setHaltFields (nh_liveness zero_NetworkHealth) (mkTiming 7 1000 [] [] 0) 15000001001) = true.
Proof.
  exact (halt_flag_exact (nh_liveness zero_NetworkHealth) (mkTiming 7 1000 [] [] 0) 15000001001
    ltac:(discriminate) ltac:(cbn; go_lia)).
Defined.
End HaltFacts.

(** ** Facts: offline power *)

Section OfflineFacts.
Context `{B : Butils} `{C : Comet}.
Implicit Types (s : State) (v : TMValidator).

(** The validators that carry a CometBFT record and have not voted in the current round. *)
Definition offline s (v : TMValidator) : Prop :=
  is_Some (tv_Comet v) /\
  votedThisHeight s (c_Height (s_consensus s)) (int32 (c_Round (s_consensus s))) (GetDisplayAddress v) = false.
#[export] Instance offline_dec s v : Decision (offline s v).
Proof. unfold offline. apply _. Defined.

Lemma offline_fold s vs n x y a b :
  Forall (fun v => 0 <= power v) vs -> f_is x a -> f_is y b -> 0 <= a <= b ->
  b + sumz (power <$> vs) <= 2 ^ 53 ->
  exists x' y',
    foldl (offline_step s (c_Height (s_consensus s)) (int32 (c_Round (s_consensus s)))) (n, x, y) vs =
      (n + Z.of_nat (length (filter (offline s) vs)), x', y') /\
    f_is x' (a + sumz (power <$> filter (offline s) vs)) /\ f_is y' (b + sumz (power <$> vs)) /\
    0 <= a + sumz (power <$> filter (offline s) vs) <= b + sumz (power <$> vs).
Proof.
  intros Hp. revert n x y a b. induction Hp as [|v vs Hv Hp IH]; intros n x y a b Hx Hy Hab Hmax.
  { cbn. rewrite !Z.add_0_r. by exists x, y. }
  pose proof (sumz_nonneg (power <$> vs) ltac:(by rewrite Forall_fmap)) as Hnn.
  rewrite fmap_cons, sumz_cons in Hmax. cbn [foldl offline_step].
  destruct (tv_Comet v) as [cv|] eqn:Ec.
  - assert (Hpv : power v = cv_VotingPower cv) by (unfold power; by rewrite Ec).
    assert (Hpow : f_is (f64_of_Z (cv_VotingPower cv)) (power v)) by (rewrite <-Hpv; apply f64_of_Z_exact; lia).
    destruct (votedThisHeight _ _ _ _) eqn:Ev; cbn [negb].
    + destruct (IH n x (f64_add y (f64_of_Z (cv_VotingPower cv))) a (b + power v)) as (x' & y' & H1 & H2 & H3 & H4);
        [done|by apply f_is_add; [..|lia]|lia|lia|].
      exists x', y'. rewrite filter_cons_False by (intros [_ ?]; congruence).
      rewrite fmap_cons, sumz_cons, Z.add_assoc. split_and!; first [done|lia].
    + destruct (IH (n + 1) (f64_add x (f64_of_Z (cv_VotingPower cv))) (f64_add y (f64_of_Z (cv_VotingPower cv)))
        (a + power v) (b + power v)) as (x' & y' & H1 & H2 & H3 & H4);
        [by apply f_is_add; [..|lia]|by apply f_is_add; [..|lia]|lia|lia|].
      exists x', y'. rewrite filter_cons_True by (split; [rewrite Ec; eauto|exact Ev]).
      rewrite !fmap_cons, !sumz_cons, !Z.add_assoc. split_and!; [|done|done|lia|lia].
      rewrite H1. f_equal. f_equal. cbn [length]. lia.
  - assert (power v = 0) as E0 by (unfold power; by rewrite Ec).
    destruct (IH n x y a b Hx Hy Hab ltac:(lia)) as (x' & y' & H1 & H2 & H3 & H4).
    exists x', y'. rewrite filter_cons_False by (intros [[? ?] _]; congruence).
    rewrite fmap_cons, sumz_cons, E0, Z.add_0_l. split_and!; first [done|lia].
Qed.

(** On validator powers whose total fits the exact range, the offline count
    is the number of validators with a CometBFT record from which no prevote or
    precommit, nil included, is known in the current round, and the offline
    power is the correctly rounded percentage of their power, between 0 and
    100; without any power it is left unset. *)
Theorem offline_power_exact nh b now s
  (Hp : Forall (fun v => 0 <= power v) (s_TMValidators s))
  (Hmax : sumz (power <$> s_TMValidators s) <= 2 ^ 46) :
  let l := nh_liveness (enrichLiveness nh b now s) in
  let off := filter (offline s) (s_TMValidators s) in
  let total := sumz (power <$> s_TMValidators s) in
  OfflineCount l = Z.of_nat (length off) /\
  (0 < total -> exists p, OfflinePowerPct l = Fin p /\
     (p == rnd (Some (-1074)%Z) (inject_Z (100 * sumz (power <$> off))%Z / inject_Z total))%Q /\
     (0 <= p)%Q /\ (p <= 100)%Q) /\
  (total = 0 -> OfflinePowerPct l = OfflinePowerPct (nh_liveness nh)).
Proof.
  cbn zeta. destruct (offline_fold s (s_TMValidators s) 0 f64_zero f64_zero 0 0 Hp f64_zero_exact f64_zero_exact)
    as (x & y & Hfold & Hx & Hy & Hle); [lia|lia|].
  unfold enrichLiveness, GetConsensusHeight, GetTMValidators. rewrite Hfold.
  cbn [nh_liveness with_liveness OfflineCount OfflinePowerPct].
  rewrite (f_is_lt f64_zero y 0 _ f64_zero_exact Hy). rewrite !Z.add_0_l in *.
  split; [done|]. split.
  - intros Hpos. rewrite (proj2 (Z.ltb_lt _ _) Hpos). by apply f64_percent.
  - intros ->. rewrite Z.ltb_irrefl. unfold setHaltFields. by destruct (time_IsZero _).
Qed.
End OfflineFacts.

(** ** Facts: the provider ranking does not depend on map order or on the sort *)

Section AsnFacts.
Context `{B : Butils} `{C : Comet}.

Definition not_nan (x : gofloat) : Prop := x <> NaN.
Definition plain (x : gofloat) : Prop :=
  match x with Fin q => (0 <= q)%Q | Inf s => s = false | NaN => False end.

Lemma plain_round q : (0 <= q)%Q -> plain (f64_round q).
Proof.
  intros Hq. unfold f64_round. pose proof (rnd_nonneg (Some (-1074)%Z) q Hq) as Hr.
  destruct (Qle_bool _ _); [|exact Hr]. cbn. unfold Qneg. by rewrite (proj2 (Qle_bool_iff _ _)) by exact Hr.
Qed.

Lemma plain_add x y : plain x -> plain y -> plain (f64_add x y).
Proof.
  destruct x as [p|[]|], y as [q|[]|]; cbn; try done. intros ??. apply plain_round. lra.
Qed.

Lemma plain_not_nan x : plain x -> not_nan x.
Proof. by intros H ->. Qed.

Lemma asn_fold_plain ips lookup vs m :
  (forall k a, m !! k = Some a -> plain (acc_powerPct a)) ->
  Forall (fun v => plain (power_pct v)) vs ->
  forall k a, foldl (asn_step ips lookup) m vs !! k = Some a -> plain (acc_powerPct a).
Proof.
  intros Hm Hvs. revert m Hm. induction Hvs as [|v vs Hv Hvs IH]; intros m Hm; [done|].
  apply IH. intros k a. unfold asn_step. destruct (asn_of _ _ _) as [[n org]|]; [|apply Hm].
  destruct (decide (n = k)) as [<-|Hne]; [|rewrite lookup_insert_ne by done; apply Hm].
  rewrite lookup_insert_eq. intros [= <-]. cbn [acc_powerPct]. apply plain_add; [|done].
  destruct (m !! n) as [a|] eqn:E; cbn; [by eapply Hm|apply Qle_refl].
Qed.

(** Two shares neither of which sorts before the other have the same number. *)
Lemma share_less_antisym a b :
  not_nan (as_PowerPct a) -> not_nan (as_PowerPct b) ->
  share_less a b = false -> share_less b a = false -> as_ASN a = as_ASN b.
Proof.
  unfold share_less, not_nan. intros Ha Hb.
  assert (Htri : f_eq (as_PowerPct a) (as_PowerPct b) = f_eq (as_PowerPct b) (as_PowerPct a) /\
    (f_eq (as_PowerPct a) (as_PowerPct b) = false ->
     f_lt (as_PowerPct a) (as_PowerPct b) = true \/ f_lt (as_PowerPct b) (as_PowerPct a) = true)).
  { destruct (as_PowerPct a) as [p|s|], (as_PowerPct b) as [q|t|]; try done; cbn.
    - split; [apply Qeq_bool_comm|]. intros Hne.
      destruct (Qle_bool q p) eqn:E1; [|by left]. destruct (Qle_bool p q) eqn:E2; [|by right].
      exfalso. apply Qle_bool_iff in E1, E2. apply not_true_iff_false in Hne. apply Hne, Qeq_bool_iff. lra.
    - split; [done|]. intros _. destruct t; eauto.
    - split; [done|]. intros _. destruct s; eauto.
    - split; [by destruct s, t|]. destruct s, t; cbn; eauto; done. }
  destruct Htri as [Hsym Htri]. rewrite <-Hsym.
  destruct (f_eq (as_PowerPct a) (as_PowerPct b)); cbn [negb].
  - intros ?%Z.ltb_ge ?%Z.ltb_ge. lia.
  - intros Hba Hab. destruct (Htri eq_refl); congruence.
Qed.

(** What [sort.Slice] promises: a permutation in which no later element sorts before an earlier one. *)
Definition sorted_by {A} (less : A -> A -> bool) (l l' : list A) : Prop :=
  l' ≡ₚ l /\ StronglySorted (fun a b => less b a = false) l'.

(** The provider ranking is determined: when no voting power is negative or
    NaN, any two iteration orders of the accumulator map and any two sorts,
    stable or not, give the same [TopASNs]. *)
Theorem top_asns_deterministic range1 range2 sort1 sort2 nh s lookup
  (m := foldl (asn_step (buildAddrToIPMap s) lookup) ∅ (s_TMValidators s))
  (Hr1 : range1 m ≡ₚ map_to_list m) (Hr2 : range2 m ≡ₚ map_to_list m)
  (Hs1 : sorted_by share_less (share_of <$> range1 m) (sort1 share_less (share_of <$> range1 m)))
  (Hs2 : sorted_by share_less (share_of <$> range2 m) (sort2 share_less (share_of <$> range2 m)))
  (Hv : Forall (fun v => plain (power_pct v)) (s_TMValidators s)) :
  TopASNs (enrichASN range1 sort1 nh s (Some lookup)) = TopASNs (enrichASN range2 sort2 nh s (Some lookup)).
Proof.
  unfold enrichASN, GetTMValidators. cbn [TopASNs with_asns]. fold m. f_equal.
  destruct Hs1 as [Hp1 Hs1], Hs2 as [Hp2 Hs2]. 
  apply (fmap_Permutation share_of) in Hr1, Hr2. rewrite Hr1 in Hp1 at 2. rewrite Hr2 in Hp2 at 2.
  assert (Hin : forall x, x ∈ share_of <$> map_to_list m -> exists a, m !! as_ASN x = Some a /\ x = share_of (as_ASN x, a) /\ plain (as_PowerPct x)).
  { intros x ([k a] & -> & Hk)%list_elem_of_fmap. apply elem_of_map_to_list in Hk. exists a. split_and!; [done..|].
    cbn. eapply (asn_fold_plain _ _ (s_TMValidators s) ∅); [intros ??; by rewrite lookup_empty|done|exact Hk]. }
  eapply StronglySorted_unique_strong; [|exact Hs1|exact Hs2|by rewrite Hp1, Hp2].
  intros x y Hx Hy Hxy Hyx. rewrite Hp1 in Hx. rewrite Hp2 in Hy.
  destruct (Hin x Hx) as (a & Hma & Ex & Hpx), (Hin y Hy) as (b & Hmb & Ey & Hpy).
  pose proof (share_less_antisym x y (plain_not_nan _ Hpx) (plain_not_nan _ Hpy) Hyx Hxy) as E.
  rewrite Ex, Ey, <-E. rewrite <-E in Hmb. congruence.
Qed.
End AsnFacts.

(** ** Witnesses *)

Section HealthWitnesses.
Fixpoint insert_by {A} (less : A -> A -> bool) (x : A) (l : list A) : list A :=
  match l with [] => [x] | y :: l' => if less x y then x :: y :: l' else y :: insert_by less x l' end.
Definition insertion_sort {A} (less : A -> A -> bool) (l : list A) : list A := foldr (insert_by less) [] l.

Definition w_power (a : bytes) (p : Z) : TMValidator :=
  mkTMValidator (Some (mkCometValidator a (Some a) p)) None 0 (Some (f64_of_Z p)) "".
Definition w_lookup : Lookup := mkLookup [mkRange 0 99 64496 "A"; mkRange 100 4294967295 64500 "B"].
Definition w_state : State (B := ref_butils) :=
  SetTMValidators [w_power "x" 3; w_power "y" 1]
    (SetConsensusHeight 5 0 0 0
      (AddKnownRPC (mkRPC "" "1.2.3.4" "u1" "" "78" "")
        (AddKnownRPC (mkRPC "" "0.0.0.9" "u2" "" "79" "") (NewState "s" 0)))).

Lemma offline_power_exact_witness :
  OfflineCount (nh_liveness (enrichLiveness zero_NetworkHealth zero_Timing 0 w_state)) = 2.
Proof.
  exact (proj1 (offline_power_exact zero_NetworkHealth zero_Timing 0 w_state
    ltac:(repeat constructor; vm_compute; discriminate) ltac:(vm_compute; discriminate))).
Defined.

Example w_asn_map :
  map_to_list (foldl (asn_step (buildAddrToIPMap w_state) w_lookup) ∅ (s_TMValidators w_state)) =
  [(64500, mkAccum "B" 1 (Fin 3)); (64496, mkAccum "A" 1 (Fin 1))].
Proof. vm_compute. reflexivity. Qed.

Example w_powers : power_pct <$> s_TMValidators w_state = [Fin 3; Fin 1].
Proof. vm_compute. reflexivity. Qed.

Lemma w_plain : Forall (fun v => plain (power_pct v)) (s_TMValidators w_state).
Proof.
  pose proof (Forall_fmap power_pct plain (s_TMValidators w_state)) as H. apply H. rewrite w_powers.
  apply Forall_cons_2; [|apply Forall_cons_2; [|apply Forall_nil_2]]; cbn; discriminate.
Qed.

Lemma top_asns_deterministic_witness :
  TopASNs (enrichASN map_to_list insertion_sort zero_NetworkHealth w_state (Some w_lookup)) =
  TopASNs (enrichASN (fun m => reverse (map_to_list m)) insertion_sort zero_NetworkHealth w_state (Some w_lookup)).
Proof.
  apply top_asns_deterministic.
  - reflexivity.
  - apply reverse_Permutation.
  - rewrite w_asn_map. split; [reflexivity|repeat constructor].
  - rewrite w_asn_map. split; [apply Permutation_swap|repeat constructor].
  - exact w_plain.
Defined.
End HealthWitnesses.
