(* ===== verification/Builder.v ===== *)
(** * The metrics builder ([pkg/metrics/builder.go])

    [Build] observes the state, then runs every enricher on a fresh network record
    and on fresh rows; [ObserveEvents] feeds each event to the equivocation and
    step-timing accumulators.  Both run under the builder's mutex. *)

From S2P Require Import Prelude GoNum GoText Deps Rounds Types MetricTypes State Decentralization Equivocation Asn Timing Analytics Health.
Local Open Scope Z_scope.

Section Builder.
Context `{B : Butils} `{C : Comet}.

Record Builder := mkBuilder {
  b_analytics : option AnalyticsQueries;
  b_asn : option Lookup;
  b_windowBlocks : Z;
  b_timing : Timing;
  b_step : stepAccumulator;
  b_equiv : equivState }.

Definition NewBuilder (an : option AnalyticsQueries) (asnLookup : option Lookup) (windowBlocks : Z) : Builder :=
  mkBuilder an asnLookup windowBlocks zero_Timing newStepAccumulator newEquivState.

(** The clock is read when a height change is observed and when the halt timer is
    computed; [range_map] and [sort_slice] are those of [enrichASN]. *)
Definition Build (now_observe now_halt : Z)
    (range_map : gmap Z asnAccum -> list (Z * asnAccum))
    (sort_slice : (ASNShare -> ASNShare -> bool) -> list ASNShare -> list ASNShare)
    (b : Builder) (s : State) : res (Builder * (NetworkHealth * list ValidatorHealthRow)) :=
  let '(height, round, _, _) := GetConsensusHeight s in
  let timing := observe (b_timing b) height round now_observe in
  let b := mkBuilder (b_analytics b) (b_asn b) (b_windowBlocks b) timing (b_step b) (b_equiv b) in
  let validators := GetTMValidators s in
  let nh := enrichDecentralization zero_NetworkHealth validators in
  let nh := enrichLiveness nh timing now_halt s in
  let nh := enrichBlockTime nh timing in
  let nh := enrichStepTiming nh (b_step b) in
  let nh := enrichMempool nh s in
  let nh := enrichASN range_map sort_slice nh s (b_asn b) in
  let nh := enrichEquivocations nh (b_equiv b) in
  let rows := buildBaseRows validators in
  let rows := enrichLivenessRows rows s in
  rows ← enrichPerformance (b_analytics b) (b_windowBlocks b) rows;
  rows ← enrichLatency (b_analytics b) (b_windowBlocks b) rows;
  let rows := enrichASNRows rows s (b_asn b) in
  let rows := enrichEquivocationFlags rows (b_equiv b) in
  Ok (b, (nh, rows)).

(** Each event with the clock readings of its two observers. *)
Definition observe_event (b : Builder) (e : TMEventData * (Z * Z)) : Builder :=
  let '(ev, (now_equiv, now_step)) := e in
  mkBuilder (b_analytics b) (b_asn b) (b_windowBlocks b) (b_timing b)
    (observeForStepTiming now_step (b_step b) ev)
    (observeForEquivocation (b_windowBlocks b) now_equiv (b_equiv b) ev).

Definition ObserveEvents (b : Builder) (evs : list (TMEventData * (Z * Z))) : Builder :=
  foldl observe_event b evs.
End Builder.

(** ** Facts *)

Section BuilderFacts.
Context `{B : Butils} `{C : Comet}.

(** The columns the database enrichers never touch. *)
Definition row_id (r : ValidatorHealthRow) : string * string * gofloat * bool * bool :=
  (row_Address r, row_Moniker r, row_VotingPowerPct r, row_Online r, row_Equivocated r).

Lemma alter_row_id (f : ValidatorHealthRow -> ValidatorHealthRow) (i : nat) (rows : list ValidatorHealthRow) :
  (forall r, row_id (f r) = row_id r) -> row_id <$> alter f i rows = row_id <$> rows.
Proof.
  intros Hf. apply list_eq. intros j. rewrite !list_lookup_fmap. destruct (decide (i = j)) as [->|Hne].
  - rewrite list_lookup_alter_eq. destruct (rows !! j); cbn; [|done]. by rewrite Hf.
  - by rewrite list_lookup_alter_ne.
Qed.

Lemma foldl_row_id {A} (step : list ValidatorHealthRow -> A -> list ValidatorHealthRow) l rows :
  (forall rows x, row_id <$> step rows x = row_id <$> rows) ->
  row_id <$> foldl step rows l = row_id <$> rows.
Proof. intros Hs. revert rows. induction l as [|x l IH]; intros rows; cbn; [done|]. by rewrite IH. Qed.

Lemma perf_row_id an w rows rows' :
  enrichPerformance an w rows = Ok rows' -> row_id <$> rows' = row_id <$> rows.
Proof.
  unfold enrichPerformance. repeat case_match; intros [= <-]; try done; apply foldl_row_id;
    intros rs x; unfold perf_step; destruct (_ !! _); try done; by apply alter_row_id.
Qed.

Lemma latency_row_id an w rows rows' :
  enrichLatency an w rows = Ok rows' -> row_id <$> rows' = row_id <$> rows.
Proof.
  unfold enrichLatency. repeat case_match; intros [= <-]; try done; apply foldl_row_id;
    intros rs x; unfold latency_step; destruct (_ !! _); try done; by apply alter_row_id.
Qed.

Lemma asn_row_id rows s lookup : row_id <$> enrichASNRows rows s lookup = row_id <$> rows.
Proof.
  unfold enrichASNRows. destruct lookup; [|done]. rewrite <-list_fmap_compose.
  apply list_fmap_ext. intros i r _. cbn. by destruct (asn_of _ _ _) as [[]|].
Qed.

Definition mark (evs : list EquivocationEvent) (p : string * string * gofloat * bool * bool) :
    string * string * gofloat * bool * bool :=
  let '(a, m, q, o, e) := p in (a, m, q, o, e || bool_decide (a ∈ eq_ValidatorAddress <$> evs)).

Lemma flags_row_id rows b :
  row_id <$> enrichEquivocationFlags rows b = mark (events b) <$> (row_id <$> rows).
Proof.
  unfold enrichEquivocationFlags. rewrite <-list_fmap_compose. destruct (events b) as [|e evs].
  { apply list_fmap_ext. intros i r _. cbn. by rewrite bool_decide_eq_false_2, orb_false_r by set_solver. }
  rewrite <-list_fmap_compose. apply list_fmap_ext. intros i r _.
  cbn [compose mark row_id]. unfold compose, row_id, mark.
  assert (Hiff : row_Address r ∈ (list_to_set (eq_ValidatorAddress <$> e :: evs) : gset string) <->
    row_Address r ∈ eq_ValidatorAddress <$> e :: evs) by apply elem_of_list_to_set.
  rewrite (bool_decide_ext _ _ Hiff). destruct (bool_decide _); cbn; [by rewrite orb_true_r|by rewrite orb_false_r].
Qed.

Lemma rows_built now1 now2 range sort b s b' nh rows
  (Hb : Build now1 now2 range sort b s = Ok (b', (nh, rows))) :
  row_id <$> rows =
  (fun v => (GetDisplayAddress v, GetDisplayName v, power_pct v,
             votedThisHeight s (c_Height (s_consensus s)) (int32 (c_Round (s_consensus s))) (GetDisplayAddress v),
             bool_decide (GetDisplayAddress v ∈ eq_ValidatorAddress <$> events (b_equiv b)))) <$> s_TMValidators s /\
  Equivocations nh = events (b_equiv b).
Proof.
  unfold Build in Hb. cbn -[enrichPerformance enrichLatency enrichASN enrichLivenessRows] in Hb.
  destruct (enrichPerformance _ _ _) as [rows1| |] eqn:E1; [|done..]. cbn -[enrichLatency enrichASN] in Hb.
  destruct (enrichLatency _ _ _) as [rows2| |] eqn:E2; [|done..]. injection Hb as _ <- <-.
  split; [|done]. apply perf_row_id in E1. apply latency_row_id in E2.
  rewrite flags_row_id, asn_row_id, E2, E1. unfold enrichLivenessRows, GetConsensusHeight, buildBaseRows, GetTMValidators.
  rewrite <-!list_fmap_compose. done.
Qed.


(** The accumulators see every event of a batch once, in order. *)
Lemma ObserveEvents_parts b evs :
  b_step (ObserveEvents b evs) = run_steps (b_step b) ((fun p => (p.1, p.2.2)) <$> evs) /\
  b_equiv (ObserveEvents b evs) =
    foldl (fun e p => observeForEquivocation (b_windowBlocks b) p.2.1 e p.1) (b_equiv b) evs.
Proof.
  unfold run_steps. revert b. induction evs as [|[e [n1 n2]] evs IH]; intros b; cbn; [done|].
  destruct (IH (observe_event b (e, (n1, n2)))) as [H1 H2]. split; [exact H1|exact H2].
Qed.
End BuilderFacts.

Section BuilderWitnesses.
Definition w_builder : Builder := NewBuilder None None 100.

End BuilderWitnesses.
