(* ===== verification/Schema.v ===== *)
(** * The database: tables, constraints and statements ([pkg/db/sqlc], [pkg/db/migrations])

    Each table is a map from its unique key to the other columns, so UNIQUE
    constraints hold by construction and an upsert is an insertion; foreign keys
    are checked when a statement ends, as SQLite does with [foreign_keys=ON].
    Every generated method is the SQL statement it runs.  The driver's own
    failures (I/O, locking) are not modelled here. *)

From S2P Require Import Prelude GoNum GoText.
From Stdlib Require Import Ascii.
Local Open Scope Z_scope.

(** ** Rows ([models.go]); row ids are not read by the program *)

Record ValidatorRow := mkValidatorRow {
  val_OperatorAddress : string; val_PublicKey : string; val_VotingPower : Z; val_Moniker : option string }.
Record HeightRow := mkHeightRow {
  h_BlockHash : option string; h_BlockTime : option Z; h_ProposerAddress : option string;
  h_TotalValidators : option Z; h_CreatedAt : Z }.
Record RoundRow := mkRoundRow { rd_Step : option Z; rd_StartTime : option Z; rd_ProposerAddress : option string }.
Record VoteRow := mkVoteRow { vt_BlockHash : option string; vt_Signature : option string; vt_Timestamp : option Z }.
Record EventRow := mkEventRow {
  ev_Height : Z; ev_Round : Z; ev_Type : string; ev_Data : option string; ev_Timestamp : Z }.
Record SnapshotRow := mkSnapshotRow {
  sn_VotingPower : Z; sn_VotingPowerPercent : option gofloat; sn_IsProposer : option bool }.

Abbreviation VoteKey := (Z * Z * string * Z)%type (only parsing).

(** [operator_unique] tells the schema of migration 001 from the one of 002. *)
Record Tables := mkTables {
  operator_unique : bool;
  t_validators : gmap string ValidatorRow;
  t_heights : gmap Z HeightRow;
  t_rounds : gmap (Z * Z) RoundRow;
  t_votes : gmap VoteKey VoteRow;
  t_events : list EventRow;
  t_snapshots : gmap (Z * string) SnapshotRow }.

Definition empty_tables (operator_unique : bool) : Tables := mkTables operator_unique ∅ ∅ ∅ ∅ [] ∅.

Definition fk_error : string := "constraint failed: FOREIGN KEY constraint failed (787)".
Definition unique_error : string := "constraint failed: UNIQUE constraint failed: validators.operator_address (2067)".
Definition ErrNoRows : string := "sql: no rows in result set".

(** ** Foreign keys *)

Definition has_height (d : Tables) (h : Z) : bool := bool_decide (is_Some (t_heights d !! h)).
Definition has_validator (d : Tables) (a : string) : bool := bool_decide (is_Some (t_validators d !! a)).
Definition has_validator_opt (d : Tables) (a : option string) : bool :=
  match a with Some a => has_validator d a | None => true end.

(** A statement whose result is [d'] fails as a whole when a row it wrote has a
    dangling reference. *)
Definition checked (ok : bool) (d' : Tables) : res Tables := if ok then Ok d' else Err fk_error.

(** Field writes. *)
Definition set_validators d x := mkTables (operator_unique d) x (t_heights d) (t_rounds d) (t_votes d) (t_events d) (t_snapshots d).
Definition set_heights d x := mkTables (operator_unique d) (t_validators d) x (t_rounds d) (t_votes d) (t_events d) (t_snapshots d).
Definition set_rounds d x := mkTables (operator_unique d) (t_validators d) (t_heights d) x (t_votes d) (t_events d) (t_snapshots d).
Definition set_votes d x := mkTables (operator_unique d) (t_validators d) (t_heights d) (t_rounds d) x (t_events d) (t_snapshots d).
Definition set_events d x := mkTables (operator_unique d) (t_validators d) (t_heights d) (t_rounds d) (t_votes d) x (t_snapshots d).
Definition set_snapshots d x := mkTables (operator_unique d) (t_validators d) (t_heights d) (t_rounds d) (t_votes d) (t_events d) x.

(** ** Writing statements *)

(** [ON CONFLICT(hex_address) DO UPDATE]; a clash on another UNIQUE column fails. *)
Definition operator_taken (d : Tables) (hex operator : string) : bool :=
  operator_unique d &&
  existsb (fun p => negb (bool_decide (p.1 = hex)) && bool_decide (val_OperatorAddress p.2 = operator))
    (map_to_list (t_validators d)).

Definition UpsertValidator (d : Tables) (hex : string) (row : ValidatorRow) : res Tables :=
  if operator_taken d hex (val_OperatorAddress row) then Err unique_error
  else Ok (set_validators d (<[hex := row]> (t_validators d))).

(** The row's [created_at] is the statement's clock on insertion and survives an update. *)
Definition UpsertHeight (d : Tables) (now height : Z) (hash : option string) (time : option Z)
    (proposer : option string) (total : option Z) : res Tables :=
  let created := match t_heights d !! height with Some r => h_CreatedAt r | None => now end in
  checked (has_validator_opt d proposer)
    (set_heights d (<[height := mkHeightRow hash time proposer total created]> (t_heights d))).

Definition UpsertRound (d : Tables) (height round : Z) (row : RoundRow) : res Tables :=
  checked (has_height d height && has_validator_opt d (rd_ProposerAddress row))
    (set_rounds d (<[(height, round) := row]> (t_rounds d))).

Definition UpsertVote (d : Tables) (height round : Z) (validator : string) (voteType : Z)
    (row : VoteRow) : res Tables :=
  checked (has_height d height && has_validator d validator)
    (set_votes d (<[(height, round, validator, voteType) := row]> (t_votes d))).

Definition UpsertValidatorSnapshot (d : Tables) (height : Z) (validator : string)
    (row : SnapshotRow) : res Tables :=
  checked (has_height d height && has_validator d validator)
    (set_snapshots d (<[(height, validator) := row]> (t_snapshots d))).

Definition CreateConsensusEvent (d : Tables) (row : EventRow) : res Tables :=
  checked (has_height d (ev_Height row)) (set_events d (t_events d ++ [row])).

(** ** Deleting statements *)

Definition DeleteConsensusEventsOlderThan (d : Tables) (height : Z) : res Tables :=
  Ok (set_events d (filter (fun e => height <= ev_Height e) (t_events d))).
Definition DeleteVotesOlderThan (d : Tables) (height : Z) : res Tables :=
  Ok (set_votes d (filter (fun p => height <= p.1.1.1.1) (t_votes d))).
Definition DeleteValidatorSnapshotsOlderThan (d : Tables) (height : Z) : res Tables :=
  Ok (set_snapshots d (filter (fun p => height <= p.1.1) (t_snapshots d))).
Definition DeleteRoundsOlderThan (d : Tables) (height : Z) : res Tables :=
  Ok (set_rounds d (filter (fun p => height <= p.1.1) (t_rounds d))).

(** Some row of a referencing table points at a height below the bound. *)
Definition references_below (d : Tables) (height : Z) : bool :=
  let below h := (h <? height) && has_height d h in
  existsb (fun p => below p.1.1) (map_to_list (t_rounds d)) ||
  existsb (fun p => below p.1.1.1.1) (map_to_list (t_votes d)) ||
  existsb (fun e => below (ev_Height e)) (t_events d) ||
  existsb (fun p => below p.1.1) (map_to_list (t_snapshots d)).

Definition DeleteHeightsOlderThan (d : Tables) (height : Z) : res Tables :=
  checked (negb (references_below d height))
    (set_heights d (filter (fun p => height <= p.1) (t_heights d))).

(** ** Queries *)

Definition max_key (l : list Z) : option Z :=
  match l with [] => None | x :: l => Some (foldl Z.max x l) end.
Definition min_key (l : list Z) : option Z :=
  match l with [] => None | x :: l => Some (foldl Z.min x l) end.

(** [ORDER BY height DESC LIMIT 1]: the row's height. *)
Definition GetLatestHeight (d : Tables) : res Z :=
  match max_key (map_to_list (t_heights d)).*1 with Some h => Ok h | None => Err ErrNoRows end.

(** [created_at >= ?], [MIN(height)] being NULL on no row.  SQLite compares two texts:
    CURRENT_TIMESTAMP is the date and time in UTC to the second, the driver writes
    a time as the same of its zone with more behind.  So the row is taken when its
    second is later, [time] being the local wall clock of the bound; in the same
    second the row's text is a proper prefix, which is smaller. *)
Definition GetMinHeightAfterTime (d : Tables) (time : Z) : option Z :=
  min_key (filter (fun p => time / Second < h_CreatedAt p.2 / Second) (map_to_list (t_heights d))).*1.

(** [COALESCE(MAX(height), 0)] *)
Definition GetMaxStoredHeight (d : Tables) : Z :=
  default 0 (max_key (map_to_list (t_heights d)).*1).

Definition round_desc (p q : (Z * Z) * RoundRow) : Prop :=
  q.1.1 < p.1.1 \/ (p.1.1 = q.1.1 /\ q.1.2 <= p.1.2).
#[export] Instance round_desc_dec : RelDecision round_desc.
Proof. intros p q. unfold round_desc. apply _. Defined.

Definition GetRoundsInRange (d : Tables) (from to : Z) : list ((Z * Z) * RoundRow) :=
  merge_sort round_desc (filter (fun p => from <= p.1.1 <= to) (map_to_list (t_rounds d))).

Definition GetRecentRounds (d : Tables) (limit : Z) : list ((Z * Z) * RoundRow) :=
  let rows := merge_sort round_desc (map_to_list (t_rounds d)) in
  if limit <? 0 then rows else take (Z.to_nat limit) rows.

Definition vote_order (p q : (string * Z) * VoteRow) : Prop :=
  p.1.2 < q.1.2 \/ (p.1.2 = q.1.2 /\ String.leb p.1.1 q.1.1 = true).
#[export] Instance vote_order_dec : RelDecision vote_order.
Proof. intros p q. unfold vote_order. apply _. Defined.

Definition GetVotesForRound (d : Tables) (height round : Z) : list ((string * Z) * VoteRow) :=
  merge_sort vote_order
    (omap (fun p : VoteKey * VoteRow =>
             if bool_decide (p.1.1.1.1 = height /\ p.1.1.1.2 = round)
             then Some ((p.1.1.2, p.1.2), p.2) else None)
       (map_to_list (t_votes d))).

Definition power_desc (p q : string * (ValidatorRow * SnapshotRow)) : Prop :=
  sn_VotingPower q.2.2 <= sn_VotingPower p.2.2.
#[export] Instance power_desc_dec : RelDecision power_desc.
Proof. intros p q. unfold power_desc. apply _. Defined.

Definition GetValidatorsByHeight (d : Tables) (height : Z) : list (string * (ValidatorRow * SnapshotRow)) :=
  merge_sort power_desc
    (omap (fun p : (Z * string) * SnapshotRow =>
             if p.1.1 =? height
             then v ← t_validators d !! p.1.2; Some (p.1.2, (v, p.2)) else None)
       (map_to_list (t_snapshots d))).

(** ** Referential integrity *)

Definition opt_known (d : Tables) (a : option string) : Prop :=
  match a with Some a => is_Some (t_validators d !! a) | None => True end.

Record integrity (d : Tables) : Prop := mkIntegrity {
  int_heights : forall h r, t_heights d !! h = Some r -> opt_known d (h_ProposerAddress r);
  int_rounds : forall k r, t_rounds d !! k = Some r ->
    is_Some (t_heights d !! k.1) /\ opt_known d (rd_ProposerAddress r);
  int_votes : forall k r, t_votes d !! k = Some r ->
    is_Some (t_heights d !! k.1.1.1) /\ is_Some (t_validators d !! k.1.2);
  int_events : forall e, e ∈ t_events d -> is_Some (t_heights d !! ev_Height e);
  int_snapshots : forall k r, t_snapshots d !! k = Some r ->
    is_Some (t_heights d !! k.1) /\ is_Some (t_validators d !! k.2) }.

Section SchemaFacts.
Implicit Types d : Tables.

Lemma has_height_true d h : has_height d h = true <-> is_Some (t_heights d !! h).
Proof. apply bool_decide_eq_true. Qed.
Lemma has_validator_true d a : has_validator d a = true <-> is_Some (t_validators d !! a).
Proof. apply bool_decide_eq_true. Qed.
Lemma has_validator_opt_true d a : has_validator_opt d a = true <-> opt_known d a.
Proof. destruct a; cbn; [apply has_validator_true|done]. Qed.

Lemma opt_known_mono d d' a :
  (forall x, is_Some (t_validators d !! x) -> is_Some (t_validators d' !! x)) ->
  opt_known d a -> opt_known d' a.
Proof. intros Hm. destruct a; cbn; auto. Qed.

Lemma is_Some_insert {K} `{Countable K} {V} (m : gmap K V) k v x :
  is_Some (m !! x) -> is_Some (<[k := v]> m !! x).
Proof. intros Hs. destruct (decide (k = x)) as [->|]; by rewrite ?lookup_insert_eq, ?lookup_insert_ne. Qed.

Lemma empty_integrity u : integrity (empty_tables u).
Proof. split; cbn; intros *; rewrite ?lookup_empty; try done. set_solver. Qed.

Lemma UpsertValidator_integrity d d' hex row :
  integrity d -> UpsertValidator d hex row = Ok d' -> integrity d'.
Proof.
  unfold UpsertValidator. intros [H1 H2 H3 H4 H5]. destruct (operator_taken _ _ _); [done|]. intros [= <-].
  pose proof (is_Some_insert (t_validators d) hex row) as Hm.
  split; cbn; [|intros k r [Ha Hb]%H2|intros k r [Ha Hb]%H3| |intros k r [Ha Hb]%H5];
    eauto using opt_known_mono.
Qed.

Lemma UpsertHeight_integrity d d' now h a b c e :
  integrity d -> UpsertHeight d now h a b c e = Ok d' -> integrity d'.
Proof.
  unfold UpsertHeight, checked. intros [H1 H2 H3 H4 H5].
  destruct (has_validator_opt d c) eqn:E; [|done]. apply has_validator_opt_true in E. intros [= <-].
  match goal with |- context [<[h := ?r]> _] => pose proof (is_Some_insert (t_heights d) h r) as Hm end.
  split; cbn; [|intros k r [Ha Hb]%H2|intros k r [Ha Hb]%H3|intros ev Ha%H4|intros k r [Ha Hb]%H5]; eauto.
  intros h' r. destruct (decide (h = h')) as [->|]; rewrite ?lookup_insert_eq, ?lookup_insert_ne by done;
    [by intros [= <-]|apply H1].
Qed.

(** Insertion of one row whose references are known. *)
Ltac insert_row :=
  match goal with
  | |- forall k r, <[?k0 := ?r0]> _ !! k = Some r -> _ =>
      let k := fresh "k" in let r := fresh "r" in
      intros k r; destruct (decide (k0 = k)) as [<-|];
      rewrite ?lookup_insert_eq, ?lookup_insert_ne by done; [intros [= <-]|]; eauto
  end.

Lemma UpsertRound_integrity d d' h r row :
  integrity d -> UpsertRound d h r row = Ok d' -> integrity d'.
Proof.
  unfold UpsertRound, checked. intros [H1 H2 H3 H4 H5]. destruct (_ && _) eqn:E; [|done]. intros [= <-].
  apply andb_true_iff in E as [Eh%has_height_true Ev%has_validator_opt_true].
  split; cbn; eauto. insert_row.
Qed.

Lemma UpsertVote_integrity d d' h r a t row :
  integrity d -> UpsertVote d h r a t row = Ok d' -> integrity d'.
Proof.
  unfold UpsertVote, checked. intros [H1 H2 H3 H4 H5]. destruct (_ && _) eqn:E; [|done]. intros [= <-].
  apply andb_true_iff in E as [Eh%has_height_true Ev%has_validator_true].
  split; cbn; eauto. insert_row.
Qed.

Lemma UpsertValidatorSnapshot_integrity d d' h a row :
  integrity d -> UpsertValidatorSnapshot d h a row = Ok d' -> integrity d'.
Proof.
  unfold UpsertValidatorSnapshot, checked. intros [H1 H2 H3 H4 H5].
  destruct (_ && _) eqn:E; [|done]. intros [= <-].
  apply andb_true_iff in E as [Eh%has_height_true Ev%has_validator_true].
  split; cbn; eauto. insert_row.
Qed.

Lemma CreateConsensusEvent_integrity d d' row :
  integrity d -> CreateConsensusEvent d row = Ok d' -> integrity d'.
Proof.
  unfold CreateConsensusEvent, checked. intros [H1 H2 H3 H4 H5].
  destruct (has_height _ _) eqn:E; [|done]. intros [= <-]. apply has_height_true in E.
  split; cbn; eauto. intros e [He| ->%list_elem_of_singleton]%elem_of_app; eauto.
Qed.
End SchemaFacts.

Create HintDb schema.
#[export] Hint Resolve UpsertValidator_integrity UpsertHeight_integrity UpsertRound_integrity
  UpsertVote_integrity UpsertValidatorSnapshot_integrity CreateConsensusEvent_integrity
  empty_integrity : schema.
