(* ===== verification/Store.v ===== *)
(** * Persistence ([pkg/db/db.go], [pkg/db/consensus_store.go], [pkg/db/store.go])

    The store writes rounds, votes, validators and events through the
    statements of [Schema], prunes them by height, and loads rounds back. *)

From S2P Require Import Prelude GoNum GoText Deps Rounds Types Schema.
From Stdlib Require Import Ascii.
Local Open Scope Z_scope.

(** ** Database operations: a result and the tables left behind *)

(** A computation over a state [St] that can fail; the state survives an error. *)
Definition Op (St A : Type) : Type := St -> res A * St.
Definition DbOp : Type -> Type := Op Tables.

Section Op.
Context {St : Type}.

Definition db_bind {A B} (m : Op St A) (f : A -> Op St B) : Op St B := fun d =>
  match m d with
  | (Ok a, d') => f a d'
  | (Err e, d') => (Err e, d')
  | (Panic, d') => (Panic, d')
  end.
Definition db_ret {A} (a : A) : Op St A := fun d => (Ok a, d).
Definition db_lift {A} (r : res A) : Op St A := fun d => (r, d).

(** [if err != nil { return fmt.Errorf("ctx: %w", err) }] *)
Definition db_wrap {A} (ctx : string) (m : Op St A) : Op St A := fun d =>
  let '(r, d') := m d in (wrap_err ctx r, d').

(** [if err != nil { log }]: the error is dropped, a panic is not. *)
Definition db_log (m : Op St unit) : Op St unit := fun d =>
  match m d with (Err _, d') => (Ok tt, d') | r => r end.

Definition db_seq (m : Op St unit) (k : Op St unit) : Op St unit := db_bind m (fun _ => k).

Fixpoint db_for {A} (f : A -> Op St unit) (l : list A) : Op St unit :=
  match l with [] => db_ret tt | x :: l' => db_seq (f x) (db_for f l') end.
End Op.

(** One statement: on failure the tables are as before. *)
Definition exec (f : Tables -> res Tables) : DbOp unit := fun d =>
  match f d with Ok d' => (Ok tt, d') | Err e => (Err e, d) | Panic => (Panic, d) end.

(** [WithTx]: rolled back when the body fails or panics. *)
Definition WithTx (fn : DbOp unit) : DbOp unit := fun d =>
  match fn d with
  | (Ok tt, d') => (Ok tt, d')
  | (Err e, _) => (Err ("running tx body: " +:+ e), d)
  | (Panic, _) => (Panic, d)
  end.

(** ** Retention ([db.go]) *)

Record Config := mkConfig { DatabasePath : string; MaxRetainDays : Z; MaxRetainBlocks : Z }.

Definition Day : Z := 24 * Hour.

Definition computeCutoffHeight (config : Config) (now : Z) (d : Tables) : res Z :=
  let by_days :=
    if 0 <? MaxRetainDays config then
      match GetMinHeightAfterTime d (time_Add now (- (MaxRetainDays config * Day))) with
      | Some h => if 0 <? h then [h - 1] else []
      | None => []
      end
    else [] in
  let finish (cutoffs : list Z) : res Z :=
    match cutoffs with [] => Ok 0 | c :: cs => Ok (foldl (fun m c => if m <? c then c else m) c cs) end in
  if 0 <? MaxRetainBlocks config then
    match GetLatestHeight d with
    | Ok latest => finish (int64 (latest - MaxRetainBlocks config) :: by_days)
    | Err e => if bool_decide (e = ErrNoRows) then Ok 0 else Err ("failed to get latest height: " +:+ e)
    | Panic => Panic
    end
  else finish by_days.

Definition CleanupOldData (config : Config) (now : Z) : DbOp unit := fun d =>
  db_bind (db_lift (computeCutoffHeight config now d)) (fun cutoff =>
    if cutoff <=? 0 then db_ret tt
    else
      db_seq (db_wrap "failed to delete old consensus events" (exec (fun d => DeleteConsensusEventsOlderThan d cutoff)))
     (db_seq (db_wrap "failed to delete old votes" (exec (fun d => DeleteVotesOlderThan d cutoff)))
     (db_seq (db_wrap "failed to delete old validator snapshots" (exec (fun d => DeleteValidatorSnapshotsOlderThan d cutoff)))
     (db_seq (db_wrap "failed to delete old rounds" (exec (fun d => DeleteRoundsOlderThan d cutoff)))
             (db_wrap "failed to delete old heights" (exec (fun d => DeleteHeightsOlderThan d cutoff))))))) d.

(** ** [ConsensusStore] *)

Section ConsensusStore.
Context `{B : Butils} `{C : Comet}.

(** The votes of a round as the two nested map loops visit them. *)
Definition round_votes (rd : RoundData) : list (string * Z * BlockID) :=
  p ← map_to_list (Votes rd); (fun q => (p.1, q.1, q.2)) <$> map_to_list p.2.

Definition vote_row (now : Z) (blockID : BlockID) : VoteRow :=
  mkVoteRow (if BlockID_IsZero blockID then None else Some (HexBytes_String (bid_Hash blockID))) None (Some now).

(** [clock] is the reading of [time.Now()] for each vote. *)
Definition store_vote (clock : string -> Z -> Z) (height round : Z) (v : string * Z * BlockID) : DbOp unit :=
  let '(validatorAddr, voteType, blockID) := v in
  db_log (exec (fun d => UpsertVote d height round validatorAddr voteType (vote_row (clock validatorAddr voteType) blockID))).

Definition StoreRoundData (now : Z) (clock : string -> Z -> Z) (height round : Z)
    (roundData : RoundData) : DbOp unit :=
  WithTx
    (db_seq
      (db_wrap "failed to store round"
        (exec (fun d => UpsertRound d height round
           (mkRoundRow None (Some now) (head (set_range (Proposers roundData)))))))
      (db_for (store_vote clock height round) (round_votes roundData))).

Definition snapshot_percent (v : TMValidator) : gofloat :=
  match VotingPowerPercent v with
  | Some p => let pct := big_Float64 p in if negb (f_lt pct f64_zero) then pct else f64_zero
  | None => f64_zero
  end.

Definition operator_or_hex (v : TMValidator) : string :=
  match tv_Cosmos v with
  | Some c => if bool_decide (OperatorAddress c = "") then GetDisplayAddress v else OperatorAddress c
  | None => GetDisplayAddress v
  end.

Definition moniker_param (v : TMValidator) : option string :=
  match tv_Cosmos v with
  | Some c => if bool_decide (Moniker c = "") then None else Some (Moniker c)
  | None => None
  end.

Definition store_validator (height : Z) (v : TMValidator) : DbOp unit :=
  db_bind (db_lift (cv ← deref (tv_Comet v); key ← deref (cv_PubKey cv); Ok (cv, key))) (fun '(cv, key) => fun d =>
    let addr := GetDisplayAddress v in
    match UpsertValidator d addr
            (mkValidatorRow (operator_or_hex v) (hex_encode false key) (cv_VotingPower cv) (moniker_param v)) with
    | Err _ => (Ok tt, d)  (* logged, continue *)
    | Panic => (Panic, d)
    | Ok d' =>
        db_log (exec (fun d => UpsertValidatorSnapshot d height addr
          (mkSnapshotRow (cv_VotingPower cv) (Some (snapshot_percent v)) None))) d'
    end).

Definition StoreValidators (now height : Z) (validators : list TMValidator) : DbOp unit :=
  WithTx
    (db_seq
      (db_wrap "failed to store height"
        (exec (fun d => UpsertHeight d now height None None None (Some (Z.of_nat (length validators))))))
      (db_for (store_validator height) validators)).

(** [json.Marshal] of a map of strings that need no escaping, its keys sorted. *)
Definition json_object (fields : list (string * string)) : string :=
  "{" +:+ join "," ((fun p => dquote +:+ p.1 +:+ dquote +:+ ":" +:+ dquote +:+ p.2 +:+ dquote) <$> fields) +:+ "}".

Definition StoreConsensusEvent (now height round : Z) (eventType : string)
    (eventData : option (list (string * string))) : DbOp unit :=
  db_wrap "failed to store consensus event"
    (exec (fun d => CreateConsensusEvent d (mkEventRow height round eventType (json_object <$> eventData) now))).

Definition flag (b : bool) (r : SnapshotRow) : SnapshotRow :=
  mkSnapshotRow (sn_VotingPower r) (sn_VotingPowerPercent r) (Some b).

(** The two UPDATE statements: clear every flag of the height, set the proposer's. *)
Definition updateProposerInSnapshots (height : Z) (proposerAddr : string) : DbOp unit :=
  db_seq
    (exec (fun d => Ok (set_snapshots d
      (map_imap (fun k r => Some (if k.1 =? height then flag false r else r)) (t_snapshots d)))))
    (exec (fun d => Ok (set_snapshots d
      (alter (flag true) (height, proposerAddr) (t_snapshots d))))).

Definition store_event (now : Z) (e : TMEventData) : DbOp unit :=
  match e with
  | EventDataNewRound height round proposer =>
      db_seq
        (db_log (StoreConsensusEvent now height round "new_round" (Some [("proposer", HexBytes_String proposer)])))
        (db_log (updateProposerInSnapshots height (HexBytes_String proposer)))
  | EventDataVote None => fun d => (Panic, d)
  | EventDataVote (Some x) =>
      let voteType := if v_Type x =? PrecommitType then "precommit" else "prevote" in
      db_log (StoreConsensusEvent now (v_Height x) (v_Round x) voteType
        (Some [("block_id", HexBytes_String (bid_Hash (v_BlockID x)));
               ("validator", HexBytes_String (v_ValidatorAddress x))]))
  | _ => db_ret tt
  end.

Definition StoreCometBFTEvents (clock : TMEventData -> Z) (evs : list TMEventData) : DbOp unit :=
  db_for (fun e => store_event (clock e) e) evs.

(** [LoadRoundDataMap]: an undecodable hash is logged and leaves the zero block. *)
Definition loaded_block (row : VoteRow) : BlockID :=
  match vt_BlockHash row with
  | Some h => match hex_decode h with Some hash => mkBlockID hash (mkPSH 0 "") | None => zero_BlockID end
  | None => zero_BlockID
  end.

Definition load_round (d : Tables) (m : RoundDataMap) (p : (Z * Z) * RoundRow) : RoundDataMap :=
  let height := p.1.1 in
  let roundNum := int32 p.1.2 in
  let m := match rd_ProposerAddress p.2 with Some a => AddProposer m height roundNum a | None => m end in
  foldl (fun m v => AddVote m height roundNum v.1.1 (int32 v.1.2) (loaded_block v.2)) m
    (GetVotesForRound d height p.1.2).

Definition LoadRoundDataMap (d : Tables) (fromHeight toHeight : Z) : RoundDataMap :=
  foldl (load_round d) NewRoundDataMap (GetRoundsInRange d fromHeight toHeight).

Definition GetValidatorsForHeight (d : Tables) (height : Z) := GetValidatorsByHeight d height.
End ConsensusStore.

(** ** The store as an interface ([ConsensusStorer]) *)

Section Storer.
Context `{B : Butils} `{C : Comet}.

(** What the program asks of a store whose contents are an [S]. *)
Class ConsensusStorer (S : Type) := {
  storer_StoreRoundData : Z -> (string -> Z -> Z) -> Z -> Z -> RoundData -> S -> res unit * S;
  storer_StoreValidators : Z -> Z -> list TMValidator -> S -> res unit * S;
  storer_StoreCometBFTEvents : (TMEventData -> Z) -> list TMEventData -> S -> res unit * S;
  storer_CleanupOldData : Z -> S -> res unit * S }.

Definition db_storer (config : Config) : ConsensusStorer Tables := {|
  storer_StoreRoundData := StoreRoundData;
  storer_StoreValidators := StoreValidators;
  storer_StoreCometBFTEvents := StoreCometBFTEvents;
  storer_CleanupOldData := CleanupOldData config |}.

(** [NopConsensusStore] *)
#[export] Instance NopConsensusStore : ConsensusStorer unit := {
  storer_StoreRoundData _ _ _ _ _ s := (Ok tt, s);
  storer_StoreValidators _ _ _ s := (Ok tt, s);
  storer_StoreCometBFTEvents _ _ s := (Ok tt, s);
  storer_CleanupOldData _ s := (Ok tt, s) }.
End Storer.

(** ** What every operation preserves *)

Definition preserves {St A} (P : St -> Prop) (m : Op St A) : Prop := forall d, P d -> P (m d).2.

Section Preserves.
Context {St : Type} (P : St -> Prop).

Lemma preserves_ret {A} (a : A) : preserves P (db_ret a).
Proof. by intros d Hd. Qed.
Lemma preserves_lift {A} (r : res A) : preserves P (db_lift r).
Proof. by intros d Hd. Qed.
Lemma preserves_bind {A B} (m : Op St A) (f : A -> Op St B) :
  preserves P m -> (forall a, preserves P (f a)) -> preserves P (db_bind m f).
Proof.
  intros Hm Hf d Hd. unfold db_bind. specialize (Hm d Hd). destruct (m d) as [[]]; cbn in *; [|done..].
  by apply Hf.
Qed.
Lemma preserves_seq m k : preserves P m -> preserves P k -> preserves P (db_seq m k).
Proof. intros. by apply preserves_bind. Qed.
Lemma preserves_wrap {A} ctx (m : Op St A) : preserves P m -> preserves P (db_wrap ctx m).
Proof. intros Hm d Hd. unfold db_wrap. specialize (Hm d Hd). by destruct (m d). Qed.
Lemma preserves_log m : preserves P m -> preserves P (db_log m).
Proof. intros Hm d Hd. unfold db_log. specialize (Hm d Hd). by destruct (m d) as [[]]. Qed.
Lemma preserves_for {A} (f : A -> Op St unit) l :
  (forall x, x ∈ l -> preserves P (f x)) -> preserves P (db_for f l).
Proof.
  induction l as [|x l IH]; intros Hf; cbn; [apply preserves_ret|].
  apply preserves_seq; [apply Hf|apply IH; intros]; set_solver.
Qed.
End Preserves.

Lemma preserves_tx (P : Tables -> Prop) m : preserves P m -> preserves P (WithTx m).
Proof. intros Hm d Hd. unfold WithTx. specialize (Hm d Hd). by destruct (m d) as [[[]| |]]. Qed.
Lemma preserves_exec (P : Tables -> Prop) f : (forall d d', P d -> f d = Ok d' -> P d') -> preserves P (exec f).
Proof. intros H d Hd. unfold exec. destruct (f d) eqn:E; cbn; eauto. Qed.

Create HintDb dbop.
#[export] Hint Resolve preserves_ret preserves_lift preserves_exec preserves_bind preserves_seq
  preserves_wrap preserves_log preserves_for preserves_tx : dbop.

(** Every reference resolves, and rounds and vote types fit the [int32] they came from. *)
Record store_wf (d : Tables) : Prop := mkStoreWf {
  wf_integrity : integrity d;
  wf_rounds : forall k r, t_rounds d !! k = Some r -> is_int32 k.2;
  wf_votes : forall k r, t_votes d !! k = Some r -> is_int32 k.1.1.2 /\ is_int32 k.2 }.

(** Everything older than a height removed. *)
Definition prune (cutoff : Z) (d : Tables) : Tables :=
  mkTables (operator_unique d) (t_validators d)
    (filter (fun p => cutoff <= p.1) (t_heights d))
    (filter (fun p => cutoff <= p.1.1) (t_rounds d))
    (filter (fun p => cutoff <= p.1.1.1.1) (t_votes d))
    (filter (fun e => cutoff <= ev_Height e) (t_events d))
    (filter (fun p => cutoff <= p.1.1) (t_snapshots d)).

Lemma existsb_false_forall {A} (f : A -> bool) l : (forall x, x ∈ l -> f x = false) -> existsb f l = false.
Proof.
  intros H. apply not_true_iff_false. rewrite existsb_exists. intros (x & Hx & Hf).
  rewrite H in Hf; [done|]. by apply list_elem_of_In.
Qed.

(** Once the referencing tables are pruned, the heights can go. *)
Lemma references_below_pruned cutoff d :
  references_below (set_rounds (set_snapshots (set_votes (set_events d
    (filter (fun e => cutoff <= ev_Height e) (t_events d)))
    (filter (fun p => cutoff <= p.1.1.1.1) (t_votes d)))
    (filter (fun p => cutoff <= p.1.1) (t_snapshots d)))
    (filter (fun p => cutoff <= p.1.1) (t_rounds d))) cutoff = false.
Proof.
  unfold references_below; cbn.
  assert (Hlt : forall h b, cutoff <= h -> (h <? cutoff) && b = false).
  { intros h b Hh. by rewrite (proj2 (Z.ltb_ge _ _) Hh). }
  rewrite !orb_false_iff. repeat split; apply existsb_false_forall; intros x Hx; apply Hlt.
  - destruct x as [k r]. apply elem_of_map_to_list, map_lookup_filter_Some in Hx as [_ Hx]. exact Hx.
  - destruct x as [k r]. apply elem_of_map_to_list, map_lookup_filter_Some in Hx as [_ Hx]. exact Hx.
  - by apply list_elem_of_filter in Hx as [Hx _].
  - destruct x as [k r]. apply elem_of_map_to_list, map_lookup_filter_Some in Hx as [_ Hx]. exact Hx.
Qed.

Lemma CleanupOldData_prunes config now d cutoff :
  computeCutoffHeight config now d = Ok cutoff ->
  CleanupOldData config now d = (Ok tt, if cutoff <=? 0 then d else prune cutoff d).
Proof.
  intros Hc. unfold CleanupOldData, db_bind, db_lift. rewrite Hc. destruct (cutoff <=? 0); [done|].
  unfold db_seq, db_bind, db_wrap, exec, DeleteConsensusEventsOlderThan, DeleteVotesOlderThan,
    DeleteValidatorSnapshotsOlderThan, DeleteRoundsOlderThan. cbn [wrap_err].
  cbv beta iota zeta. unfold DeleteHeightsOlderThan at 1.
  pose proof (references_below_pruned cutoff d) as Hr. cbn in Hr |- *. rewrite Hr. done.
Qed.

Lemma prune_wf cutoff d : store_wf d -> store_wf (prune cutoff d).
Proof.
  intros [[H1 H2 H3 H4 H5] H6 H7].
  assert (Hh : forall h, cutoff <= h -> is_Some (t_heights d !! h) ->
    is_Some (t_heights (prune cutoff d) !! h)).
  { intros h Hle [r Hr]. exists r. by apply map_lookup_filter_Some. }
  split; [split|..]; cbn [prune t_heights t_rounds t_votes t_events t_snapshots t_validators] in *;
    try (intros k r [Hk Hle]%map_lookup_filter_Some; cbn in Hle).
  - by eapply H1.
  - destruct (H2 k r Hk). eauto.
  - destruct (H3 k r Hk). eauto.
  - intros e [Hle He]%list_elem_of_filter. eauto.
  - destruct (H5 k r Hk). eauto.
  - by eapply H6.
  - by eapply H7.
Qed.

Section StoreInvariant.
Context `{B : Butils} `{C : Comet}.

Lemma CleanupOldData_wf config now : preserves store_wf (CleanupOldData config now).
Proof.
  intros d Hd. destruct (computeCutoffHeight config now d) as [cutoff|e|] eqn:E.
  - rewrite (CleanupOldData_prunes _ _ _ cutoff) by done. cbn.
    destruct (cutoff <=? 0); [done|by apply prune_wf].
  - unfold CleanupOldData, db_bind, db_lift. by rewrite E.
  - unfold CleanupOldData, db_bind, db_lift. by rewrite E.
Qed.

Lemma integrity_wf d d' :
  store_wf d -> integrity d' -> t_rounds d' = t_rounds d -> t_votes d' = t_votes d -> store_wf d'.
Proof. intros [? H1 H2] Hi Hr Hv. split; [done|by rewrite Hr|by rewrite Hv]. Qed.

Lemma UpsertVote_wf d d' h r a t row :
  is_int32 r -> is_int32 t -> store_wf d -> UpsertVote d h r a t row = Ok d' -> store_wf d'.
Proof.
  intros Hr Ht [Hi H1 H2] He. pose proof (UpsertVote_integrity _ _ _ _ _ _ _ Hi He) as Hi'.
  unfold UpsertVote, checked in He. destruct (_ && _); [|done]. injection He as <-.
  split; [done|done|]. cbn. intros k r'.
  destruct (decide ((h, r, a, t) = k)) as [<-|]; rewrite ?lookup_insert_eq, ?lookup_insert_ne by done; eauto.
Qed.

Lemma UpsertRound_wf d d' h r row :
  is_int32 r -> store_wf d -> UpsertRound d h r row = Ok d' -> store_wf d'.
Proof.
  intros Hr [Hi H1 H2] He. pose proof (UpsertRound_integrity _ _ _ _ _ Hi He) as Hi'.
  unfold UpsertRound, checked in He. destruct (_ && _); [|done]. injection He as <-.
  split; [done| |done]. cbn. intros k r'.
  destruct (decide ((h, r) = k)) as [<-|]; rewrite ?lookup_insert_eq, ?lookup_insert_ne by done; eauto.
Qed.

(** Statements that write neither rounds nor votes. *)
Ltac other_statement lem :=
  let Hi := fresh in let H1 := fresh in let H2 := fresh in let He := fresh in
  intros [Hi H1 H2] He;
  eapply integrity_wf; [split; [exact Hi|exact H1|exact H2]|eapply lem; [exact Hi|exact He]|..];
  repeat (unfold UpsertValidator, UpsertHeight, UpsertValidatorSnapshot, CreateConsensusEvent, checked in He;
          case_match; try done; injection He as <-; try done).

Lemma UpsertValidator_wf d d' a row : store_wf d -> UpsertValidator d a row = Ok d' -> store_wf d'.
Proof. other_statement UpsertValidator_integrity. Qed.
Lemma UpsertHeight_wf d d' now h a b c e :
  store_wf d -> UpsertHeight d now h a b c e = Ok d' -> store_wf d'.
Proof. other_statement UpsertHeight_integrity. Qed.
Lemma UpsertValidatorSnapshot_wf d d' h a row :
  store_wf d -> UpsertValidatorSnapshot d h a row = Ok d' -> store_wf d'.
Proof. other_statement UpsertValidatorSnapshot_integrity. Qed.
Lemma CreateConsensusEvent_wf d d' row : store_wf d -> CreateConsensusEvent d row = Ok d' -> store_wf d'.
Proof. other_statement CreateConsensusEvent_integrity. Qed.

(** Rewriting snapshot rows in place keeps the references. *)
Lemma snapshots_wf d m :
  store_wf d -> (forall k r, m !! k = Some r -> is_Some (t_snapshots d !! k)) ->
  store_wf (set_snapshots d m).
Proof.
  intros [[H1 H2 H3 H4 H5] H6 H7] Hm. split; [split|..]; cbn; eauto.
  intros k r [r' Hr]%Hm. by eapply H5.
Qed.
End StoreInvariant.

#[export] Hint Resolve UpsertVote_wf UpsertRound_wf UpsertValidator_wf UpsertHeight_wf
  UpsertValidatorSnapshot_wf CreateConsensusEvent_wf CleanupOldData_wf : schema.

(** ** What [StoreRoundData] and [LoadRoundDataMap] do *)

Section StoreLoad.
Context `{BL : ButilsLaws} `{CL : CometLaws}.
Implicit Types (d : Tables) (rd : RoundData).

Definition put_vote (clock : string -> Z -> Z) (h r : Z) (d : Tables) (v : string * Z * BlockID) : Tables :=
  match UpsertVote d h r v.1.1 v.1.2 (vote_row (clock v.1.1 v.1.2) v.2) with Ok d' => d' | _ => d end.

Lemma store_votes clock h r l d :
  db_for (store_vote clock h r) l d = (Ok tt, foldl (put_vote clock h r) d l).
Proof.
  revert d. induction l as [|[[a t] b] l IH]; intros d; cbn [db_for foldl]; [done|].
  unfold db_seq, db_bind, store_vote, db_log, exec. unfold put_vote at 2. cbn [fst snd].
  destruct (UpsertVote d h r a t _) eqn:E; cbn; rewrite ?IH; try done.
  unfold UpsertVote, checked in E. by destruct (_ && _).
Qed.

(** The rounds, heights and validators are left alone, and so are the events and snapshots. *)
Definition same_but_votes d d' : Prop := d' = set_votes d (t_votes d').

Lemma put_vote_same clock h r d v : same_but_votes d (put_vote clock h r d v).
Proof.
  unfold same_but_votes, put_vote, UpsertVote, checked. destruct (_ && _); [done|]. by destruct d.
Qed.

Lemma put_votes_same clock h r l d : same_but_votes d (foldl (put_vote clock h r) d l).
Proof.
  revert d. induction l as [|v l IH]; intros d; cbn; [by destruct d|].
  pose proof (put_vote_same clock h r d v) as Hs. specialize (IH (put_vote clock h r d v)).
  unfold same_but_votes in *. revert IH. generalize (foldl (put_vote clock h r) (put_vote clock h r d v) l).
  intros X ->. rewrite Hs. done.
Qed.

Lemma put_votes_lookup clock h r l d h' r' a t :
  has_height d h = true -> NoDup l.*1 ->
  t_votes (foldl (put_vote clock h r) d l) !! (h', r', a, t) =
  if bool_decide (h = h' /\ r = r') && has_validator d a then
    match list_find (fun v => v.1 = (a, t)) l with
    | Some (_, v) => Some (vote_row (clock a t) v.2)
    | None => t_votes d !! (h', r', a, t)
    end
  else t_votes d !! (h', r', a, t).
Proof.
  intros Hh Hnd. revert d Hh. induction l as [|[[a0 t0] b0] l IH]; intros d Hh.
  { cbn. by destruct (_ && _). }
  cbn [fmap list_fmap fst] in Hnd. apply NoDup_cons in Hnd as [Hnin Hnd]. cbn [foldl].
  pose proof (put_vote_same clock h r d (a0, t0, b0)) as Hs.
  assert (Hhas : forall x, has_validator (put_vote clock h r d (a0, t0, b0)) x = has_validator d x)
    by (intros x; rewrite Hs; done).
  rewrite IH by (done || (rewrite Hs; done)). rewrite Hhas.
  assert (Hput : t_votes (put_vote clock h r d (a0, t0, b0)) !! (h', r', a, t) =
    if bool_decide ((h, r, a0, t0) = (h', r', a, t)) && has_validator d a0
    then Some (vote_row (clock a0 t0) b0) else t_votes d !! (h', r', a, t)).
  { unfold put_vote, UpsertVote, checked. cbn [fst snd]. rewrite Hh. cbn [andb].
    destruct (has_validator d a0); [|by rewrite andb_false_r].
    rewrite andb_true_r. unfold set_votes; cbn [t_votes].
    destruct (decide ((h, r, a0, t0) = (h', r', a, t))) as [E|E].
    - rewrite bool_decide_eq_true_2 by done. rewrite E. injection E as _ _ <- <-. by rewrite lookup_insert_eq.
    - by rewrite bool_decide_eq_false_2, lookup_insert_ne by done. }
  rewrite !Hput. cbn [list_find]. destruct (decide ((a0, t0, b0).1 = (a, t))) as [E|E].
  - cbn in E. injection E as -> ->.
    destruct (list_find (fun v => v.1 = (a, t)) l) as [[i v]|] eqn:Ef.
    { apply list_find_Some in Ef as (Hi & Hv & _). exfalso. apply Hnin.
      apply list_elem_of_fmap. exists v. split; [done|]. by eapply list_elem_of_lookup_2. }
    destruct (has_validator d a); rewrite ?andb_false_r, ?andb_true_r; [|done].
    do 2 case_bool_decide; simplify_eq; naive_solver.
  - cbn in E. rewrite (bool_decide_eq_false_2 ((h, r, a0, t0) = (h', r', a, t))) by congruence. cbn [andb].
    destruct (list_find (fun v => v.1 = (a, t)) l) as [[i v]|] eqn:Ef; cbn; done.
Qed.

Lemma round_votes_elem rd a t b : (a, t, b) ∈ round_votes rd <-> rd_vote rd a t = Some b.
Proof.
  unfold round_votes, rd_vote. rewrite list_elem_of_bind. split.
  - intros ([a' m] & Hin & Hm). cbn in Hin. apply list_elem_of_fmap in Hin as ([t' b'] & E & Hin).
    cbn in E. injection E as -> -> ->. apply elem_of_map_to_list in Hm, Hin. by rewrite Hm.
  - destruct (Votes rd !! a) as [m|] eqn:Em; cbn; [|done]. intros Ht. exists (a, m).
    split; [|by apply elem_of_map_to_list]. apply list_elem_of_fmap. exists (t, b).
    split; [done|]. by apply elem_of_map_to_list.
Qed.

Lemma round_votes_nodup rd : NoDup (round_votes rd).*1.
Proof.
  unfold round_votes. pose proof (NoDup_fst_map_to_list (Votes rd)) as Hnd.
  induction (map_to_list (Votes rd)) as [|[a m] l IH]; cbn; [constructor|].
  cbn in Hnd. apply NoDup_cons in Hnd as [Hnin Hnd]. rewrite fmap_app. apply NoDup_app. split_and!.
  - rewrite <-list_fmap_compose.
    rewrite (list_fmap_ext _ ((fun t => (a, t)) ∘ fst)) by done. rewrite list_fmap_compose.
    apply (NoDup_fmap_2 _), NoDup_fst_map_to_list.
  - intros k (p & -> & Hp)%list_elem_of_fmap (q & Eq & Hq)%list_elem_of_fmap.
    apply list_elem_of_fmap in Hp as (x & -> & _). apply list_elem_of_bind in Hq as ([a' m'] & Hq & Hin).
    apply list_elem_of_fmap in Hq as (y & -> & _). cbn in Eq. apply Hnin.
    apply list_elem_of_fmap. exists (a', m'). split; [|done]. cbn. congruence.
  - by apply IH.
Qed.
End StoreLoad.

(** ** Loading *)

Section LoadFacts.
Context `{BL : ButilsLaws} `{CL : CometLaws}.
Implicit Types (d : Tables) (rd : RoundData).

(** [LoadRoundDataMap] as a sequence of recorded votes and proposers. *)
Definition load_ops d (p : (Z * Z) * RoundRow) : list round_op :=
  (match rd_ProposerAddress p.2 with Some a => [OpProposer p.1.1 (int32 p.1.2) a] | None => [] end) ++
  ((fun v => OpVote p.1.1 (int32 p.1.2) v.1.1 (int32 v.1.2) (loaded_block v.2)) <$> GetVotesForRound d p.1.1 p.1.2).

Lemma load_round_ops d m p : load_round d m p = apply_ops m (load_ops d p).
Proof.
  unfold load_round, load_ops, apply_ops. rewrite foldl_app. destruct (rd_ProposerAddress p.2); cbn -[AddProposer];
    generalize (GetVotesForRound d p.1.1 p.1.2) as l; intros l; [generalize (AddProposer m p.1.1 (int32 p.1.2) s)|generalize m];
    induction l as [|v l IH]; intros m'; cbn; auto.
Qed.

Lemma load_all_ops d from to :
  LoadRoundDataMap d from to = apply_ops NewRoundDataMap (p ← GetRoundsInRange d from to; load_ops d p).
Proof.
  unfold LoadRoundDataMap. generalize (NewRoundDataMap) as m. generalize (GetRoundsInRange d from to) as l.
  induction l as [|p l IH]; intros m; cbn; [done|].
  rewrite load_round_ops, IH. unfold apply_ops. by rewrite foldl_app.
Qed.

Lemma GetRoundsInRange_elem d from to k row :
  (k, row) ∈ GetRoundsInRange d from to <-> t_rounds d !! k = Some row /\ from <= k.1 <= to.
Proof.
  unfold GetRoundsInRange. rewrite merge_sort_Permutation, list_elem_of_filter, elem_of_map_to_list. naive_solver.
Qed.

Lemma GetVotesForRound_elem d h r a t row :
  ((a, t), row) ∈ GetVotesForRound d h r <-> t_votes d !! (h, r, a, t) = Some row.
Proof.
  unfold GetVotesForRound. rewrite merge_sort_Permutation, list_elem_of_omap. split.
  - intros ([[[[h' r'] a'] t'] row'] & Hin & Hc). apply elem_of_map_to_list in Hin. cbn in Hc.
    case_bool_decide as E; [|done]. destruct E as [-> ->]. by injection Hc as -> -> ->.
  - intros Hin. exists ((h, r, a, t), row). rewrite elem_of_map_to_list. split; [done|]. cbn.
    by rewrite bool_decide_eq_true_2.
Qed.

Lemma last_const {A} (l : list A) b : b ∈ l -> (forall x, x ∈ l -> x = b) -> last l = Some b.
Proof.
  intros Hb Hall. destruct (last l) as [x|] eqn:E.
  - rewrite (Hall x); [done|]. by apply last_Some_elem_of in E.
  - apply last_None in E as ->. by apply not_elem_of_nil in Hb.
Qed.

(** In a well-formed database a slot loads exactly the vote stored for it. *)
Lemma load_vote_at d from to h r a t :
  store_wf d -> is_int32 r -> is_int32 t ->
  vote_at (LoadRoundDataMap d from to) h r a t =
  if bool_decide (from <= h <= to /\ is_Some (t_rounds d !! (h, r)))
  then loaded_block <$> t_votes d !! (h, r, a, t) else None.
Proof.
  intros Hwf Hr Ht. rewrite load_all_ops, vote_at_apply_ops.
  set (ops := (p ← GetRoundsInRange d from to; load_ops d p)).
  assert (Hmem : forall b, b ∈ omap (op_vote h r a t) ops <->
    (from <= h <= to /\ is_Some (t_rounds d !! (h, r))) /\
    exists row, t_votes d !! (h, r, a, t) = Some row /\ b = loaded_block row).
  { intros b. rewrite list_elem_of_omap. unfold ops. split.
    - intros (o & Ho & Hb). apply list_elem_of_bind in Ho as ([[h' r'] rrow] & Ho & Hp).
      apply GetRoundsInRange_elem in Hp as [Hp Hrange]. unfold load_ops in Ho. cbn [fst snd] in *.
      apply elem_of_app in Ho as [Ho|Ho].
      { destruct (rd_ProposerAddress rrow); [|set_solver]. apply list_elem_of_singleton in Ho as ->. done. }
      apply list_elem_of_fmap in Ho as ([[a' t'] vrow] & -> & Hv). cbn [op_vote fst snd] in Hb.
      apply GetVotesForRound_elem in Hv.
      pose proof (wf_rounds _ Hwf _ _ Hp) as Hr'. destruct (wf_votes _ Hwf _ _ Hv) as [_ Ht'].
      cbn [fst snd] in Hr', Ht'. rewrite !int32_id in Hb by done.
      destruct (same_vote _ _ _ _ _ _ _ _) eqn:Es; [|done]. injection Hb as <-.
      unfold same_vote in Es. case_bool. apply key_eq_true in H as [-> ->]. subst. eauto 6.
    - intros [[Hrange [rrow Hrow]] (row & Hv & ->)].
      exists (OpVote h (int32 r) a (int32 t) (loaded_block row)). split.
      + apply list_elem_of_bind. exists ((h, r), rrow). split; [|by apply GetRoundsInRange_elem].
        unfold load_ops. apply elem_of_app. right. apply list_elem_of_fmap.
        exists ((a, t), row). split; [done|]. by apply GetVotesForRound_elem.
      + cbn. rewrite !int32_id by done. unfold same_vote.
        by rewrite (proj2 (key_eq_true h r h r)), bool_decide_eq_true_2, Z.eqb_refl by done. }
  assert (Hnone : vote_at NewRoundDataMap h r a t = None) by (unfold vote_at; by rewrite lookup_new).
  rewrite Hnone. unfold last_vote. case_bool_decide as Hcond.
  - destruct (t_votes d !! (h, r, a, t)) as [row|] eqn:Ev; cbn.
    + rewrite (last_const _ (loaded_block row)); [done|apply Hmem; eauto|].
      intros x Hx. apply Hmem in Hx as [_ (row' & Hrow & ->)]. congruence.
    + destruct (last _) as [b|] eqn:El; [|done]. apply last_Some_elem_of, Hmem in El as [_ (? & ? & _)]. congruence.
  - destruct (last _) as [b|] eqn:El; [|done]. apply last_Some_elem_of, Hmem in El as [? _]. done.
Qed.

(** The outcome of [StoreRoundData] on every branch. *)
Lemma StoreRoundData_effect now clock h r rd d :
  if has_height d h && has_validator_opt d (head (set_range (Proposers rd)))
  then exists d', StoreRoundData now clock h r rd d = (Ok tt, d') /\
    d' = set_votes (set_rounds d (<[(h, r) := mkRoundRow None (Some now) (head (set_range (Proposers rd)))]> (t_rounds d))) (t_votes d') /\
    forall h' r' a t, t_votes d' !! (h', r', a, t) =
      if bool_decide (h = h' /\ r = r') && has_validator d a then
        match rd_vote rd a t with
        | Some b => Some (vote_row (clock a t) b)
        | None => t_votes d !! (h', r', a, t)
        end
      else t_votes d !! (h', r', a, t)
  else StoreRoundData now clock h r rd d = (Err ("running tx body: failed to store round: " +:+ fk_error), d).
Proof.
  unfold StoreRoundData, WithTx, db_seq, db_bind, db_wrap, exec, UpsertRound, checked. cbn [rd_ProposerAddress].
  destruct (_ && _) eqn:E; [|done]. apply andb_true_iff in E as [Eh _]. cbn [wrap_err].
  rewrite store_votes. eexists. split; [done|]. split; [apply put_votes_same|].
  intros h' r' a t. rewrite put_votes_lookup; [|exact Eh|apply round_votes_nodup].
  cbn [t_votes set_rounds]. change (has_validator (set_rounds d _) a) with (has_validator d a).
  destruct (_ && _); [|done].
  destruct (list_find _ _) as [[i v]|] eqn:Ef.
  - apply list_find_Some in Ef as (Hi & Hv & _). destruct v as [[a0 t0] b0]. cbn in Hv. injection Hv as -> ->.
    apply list_elem_of_lookup_2, round_votes_elem in Hi. by rewrite Hi.
  - apply list_find_None in Ef. destruct (rd_vote rd a t) as [b|] eqn:Ev; [|done].
    apply round_votes_elem in Ev. rewrite Forall_forall in Ef. by destruct (Ef _ Ev).
Qed.

(** Votes whose message types fit the [int32] of [SignedMsgType]. *)
Definition types_int32 rd : Prop := forall a t b, rd_vote rd a t = Some b -> is_int32 t.

Lemma StoreRoundData_wf now clock h r rd :
  is_int32 r -> types_int32 rd -> preserves store_wf (StoreRoundData now clock h r rd).
Proof.
  intros Hr Ht. unfold StoreRoundData. apply preserves_tx, preserves_seq.
  - apply preserves_wrap, preserves_exec. intros d d' Hd He. eapply UpsertRound_wf; eauto.
  - apply preserves_for. intros [[a t] b] Hin%round_votes_elem.
    apply preserves_log, preserves_exec. intros d d' Hd He.
    eapply UpsertVote_wf; [exact Hr|by eapply Ht|exact Hd|exact He].
Qed.

Lemma StoreValidators_wf now h vs : preserves store_wf (StoreValidators now h vs).
Proof.
  unfold StoreValidators. apply preserves_tx, preserves_seq.
  - apply preserves_wrap, preserves_exec. eauto with schema.
  - apply preserves_for. intros v _. unfold store_validator. apply preserves_bind; [apply preserves_lift|].
    intros [cv key] d Hd. destruct (UpsertValidator d _ _) as [d'| |] eqn:E; cbn; [|done..].
    apply preserves_log; [|by eapply UpsertValidator_wf].
    apply preserves_exec. eauto with schema.
Qed.

(** The two UPDATE statements of [updateProposerInSnapshots]. *)
Lemma clear_flags_wf h d : store_wf d -> store_wf (set_snapshots d
  (map_imap (fun k r => Some (if k.1 =? h then flag false r else r)) (t_snapshots d))).
Proof. intros Hd. apply snapshots_wf; [done|]. intros k r. rewrite map_lookup_imap. by destruct (t_snapshots d !! k). Qed.

Lemma set_flag_wf h a d : store_wf d -> store_wf (set_snapshots d (alter (flag true) (h, a) (t_snapshots d))).
Proof.
  intros Hd. apply snapshots_wf; [done|]. intros k r. destruct (decide (k = (h, a))) as [->|].
  - rewrite lookup_alter_eq. by destruct (t_snapshots d !! (h, a)).
  - by rewrite lookup_alter_ne by done.
Qed.

Lemma updateProposer_wf h a : preserves store_wf (updateProposerInSnapshots h a).
Proof.
  apply preserves_seq; apply preserves_exec; intros d d' Hd [= <-]; [by apply clear_flags_wf|by apply set_flag_wf].
Qed.

Lemma StoreCometBFTEvents_wf clock evs : preserves store_wf (StoreCometBFTEvents clock evs).
Proof.
  assert (Hev : forall now h r ty data, preserves store_wf (StoreConsensusEvent now h r ty data)).
  { intros. apply preserves_wrap, preserves_exec. eauto with schema. }
  unfold StoreCometBFTEvents. apply preserves_for. intros [h r p|[x|]|h r s|] _; unfold store_event.
  - apply preserves_seq; apply preserves_log; [apply Hev|apply updateProposer_wf].
  - apply preserves_log, Hev.
  - by intros d Hd.
  - apply preserves_ret.
  - apply preserves_ret.
Qed.

(** *** Databases the store can produce *)

Inductive store_step (config : Config) : Tables -> Tables -> Prop :=
  | ss_round d now clock h r rd : is_int32 r -> types_int32 rd ->
      store_step config d (StoreRoundData now clock h r rd d).2
  | ss_validators d now h vs : store_step config d (StoreValidators now h vs d).2
  | ss_events d clock evs : store_step config d (StoreCometBFTEvents clock evs d).2
  | ss_cleanup d now : store_step config d (CleanupOldData config now d).2.

Definition store_reachable (config : Config) (u : bool) : Tables -> Prop :=
  rtc (store_step config) (empty_tables u).

Lemma empty_wf u : store_wf (empty_tables u).
Proof. split; [apply empty_integrity|..]; cbn; intros k r; by rewrite lookup_empty. Qed.

Lemma reachable_store_wf config u d : store_reachable config u d -> store_wf d.
Proof.
  apply rtc_invariant; [|apply empty_wf]. intros a b Ha Hst. destruct Hst.
  - by apply StoreRoundData_wf.
  - by apply StoreValidators_wf.
  - by apply StoreCometBFTEvents_wf.
  - by apply CleanupOldData_wf.
Qed.
End LoadFacts.

(** ** Properties *)

Section StoreProperties.
Context `{BL : ButilsLaws} `{CL : CometLaws}.
Implicit Types (d : Tables) (rd : RoundData).

(** C11: a round stored and loaded back gives every vote of a known validator its
    state: in any database the store can produce, after a [StoreRoundData] of a
    round whose height and proposer are known, [LoadRoundDataMap] over a range
    that contains the height reports, for each vote of a stored
    validator, the state it had, as long as a non-zero block carries a hash. *)
Theorem store_load_roundtrip config u d now clock h r rd from to a t b
  (Hd : store_reachable config u d) (Hr : is_int32 r) (Ht : types_int32 rd) (Hrange : from <= h <= to)
  (Hh : has_height d h = true) (Hp : has_validator_opt d (head (set_range (Proposers rd))) = true)
  (Ha : has_validator d a = true) (Hv : rd_vote rd a t = Some b)
  (Hhash : BlockID_IsZero b = false -> bid_Hash b <> "") :
  GetVote (LoadRoundDataMap (StoreRoundData now clock h r rd d).2 from to) h r a t = state_of_vote (Some b).
Proof.
  pose proof (StoreRoundData_wf now clock h r rd Hr Ht d (reachable_store_wf _ _ _ Hd)) as Hwf.
  pose proof (StoreRoundData_effect now clock h r rd d) as He. rewrite Hh, Hp in He. cbn [andb] in He.
  destruct He as (d' & He & Hd' & Hlook). rewrite He in Hwf |- *. cbn [snd] in *.
  rewrite GetVote_at, load_vote_at by eauto.
  rewrite bool_decide_eq_true_2.
  2:{ split; [done|]. rewrite Hd'. cbn. rewrite lookup_insert_eq. eauto. }
  rewrite Hlook, bool_decide_eq_true_2, Ha, Hv by done. cbn.
  unfold loaded_block, vote_row; cbn. destruct (BlockID_IsZero b) eqn:Eb.
  - by rewrite IsZero_zero.
  - rewrite HexBytes_String_decode, IsZero_hash; [done|]. cbn. by apply Hhash.
Qed.

(** [StoreRoundData] is all or nothing on the round and selective on the
    votes: with an unknown height or proposer it returns the foreign-key error
    and leaves the database as it was; otherwise it succeeds, writes the round,
    and writes exactly the votes of known validators, touching no other
    slot and no other table. *)
Theorem StoreRoundData_spec now clock h r rd d :
  let proposer := head (set_range (Proposers rd)) in
  if has_height d h && has_validator_opt d proposer
  then exists votes, StoreRoundData now clock h r rd d =
      (Ok tt, set_votes (set_rounds d (<[(h, r) := mkRoundRow None (Some now) proposer]> (t_rounds d))) votes) /\
    forall h' r' a t, votes !! (h', r', a, t) =
      if bool_decide (h = h' /\ r = r') && has_validator d a && bool_decide (is_Some (rd_vote rd a t))
      then vote_row (clock a t) <$> rd_vote rd a t
      else t_votes d !! (h', r', a, t)
  else StoreRoundData now clock h r rd d = (Err ("running tx body: failed to store round: " +:+ fk_error), d).
Proof.
  cbn zeta. pose proof (StoreRoundData_effect now clock h r rd d) as He. destruct (_ && _); [|done].
  destruct He as (d' & He & Hd' & Hlook). exists (t_votes d'). split; [by rewrite He, <-Hd'|].
  intros h' r' a t. rewrite Hlook. destruct (_ && _); [|done].
  by destruct (rd_vote rd a t).
Qed.

(** The two windows: the heights above [latest - MaxRetainBlocks], and those from the
    first one that was stored inside the days before [now]. *)
Definition block_bound (config : Config) (d : Tables) : option Z :=
  match GetLatestHeight d with
  | Ok latest => if 0 <? MaxRetainBlocks config then Some (latest - MaxRetainBlocks config) else None
  | _ => None
  end.
Definition day_bound (config : Config) (now : Z) (d : Tables) : option Z :=
  match GetMinHeightAfterTime d (now - MaxRetainDays config * Day) with
  | Some h => if (0 <? MaxRetainDays config) && (0 <? h) then Some (h - 1) else None
  | None => None
  end.

(** C12: Retention keeps the tighter window and never trips on a foreign key: in
    any database the store can produce, and whichever of the two limits are set,
    cleanup succeeds and removes exactly the rows below the cutoff, the larger of
    the bounds of the windows there are: [latest - MaxRetainBlocks], and one below
    the first height whose [created_at], a UTC time, is later than the local wall
    clock [now] less [MaxRetainDays] days; references stay intact. *)
Theorem cleanup_retention config u d now
  (Hd : store_reachable config u d)
  (Hfit : forall latest, GetLatestHeight d = Ok latest -> is_int64 (latest - MaxRetainBlocks config)) :
  let cutoff := default 0 (union_with (fun a b => Some (Z.max a b)) (block_bound config d) (day_bound config now d)) in
  CleanupOldData config now d = (Ok tt, if cutoff <=? 0 then d else prune cutoff d) /\
  integrity (CleanupOldData config now d).2.
Proof.
  intros cutoff. split.
  - apply CleanupOldData_prunes. unfold computeCutoffHeight, cutoff, block_bound, day_bound, time_Add.
    rewrite Z.add_opp_r. destruct (GetLatestHeight d) as [latest|e|] eqn:El.
    + rewrite int64_id by by apply Hfit. destruct (GetMinHeightAfterTime d _) as [h|]; destruct (0 <? MaxRetainBlocks config);
        destruct (0 <? MaxRetainDays config); try (destruct (0 <? h)); try done.
      cbn. f_equal. destruct (Z.ltb_spec (latest - MaxRetainBlocks config) (h - 1)); lia.
    + unfold GetLatestHeight in El. destruct (max_key (map_to_list (t_heights d)).*1) eqn:Em; [done|]. injection El as <-.
      assert (Hnone : GetMinHeightAfterTime d (now - MaxRetainDays config * Day) = None).
      { unfold GetMinHeightAfterTime. by destruct (map_to_list (t_heights d)). }
      rewrite Hnone. destruct (0 <? MaxRetainBlocks config), (0 <? MaxRetainDays config); try done.
    + unfold GetLatestHeight in El. by destruct (max_key _).
  - apply (wf_integrity _), (CleanupOldData_wf config now), (reachable_store_wf config u _ Hd).
Qed.

(** After [updateProposerInSnapshots] the flagged snapshots of that height are
    exactly the proposer's own, if it has one; other heights and columns are
    unchanged. *)
Theorem updateProposer_unique h proposer d :
  exists snaps, updateProposerInSnapshots h proposer d = (Ok tt, set_snapshots d snaps) /\
  forall h' a, snaps !! (h', a) =
    (fun r => if h' =? h then flag (bool_decide (a = proposer)) r else r) <$> t_snapshots d !! (h', a).
Proof.
  eexists. split; [reflexivity|]. intros h' a. cbn [t_snapshots set_snapshots].
  destruct (decide ((h', a) = (h, proposer))) as [[= -> ->]|Hne].
  - rewrite lookup_alter_eq, map_lookup_imap. cbn. rewrite Z.eqb_refl, bool_decide_eq_true_2 by done.
    by destruct (t_snapshots d !! (h, proposer)).
  - rewrite lookup_alter_ne, map_lookup_imap by done. cbn.
    destruct (t_snapshots d !! (h', a)); cbn; [|done]. destruct (Z.eqb_spec h' h) as [->|]; [|done].
    by rewrite bool_decide_eq_false_2 by congruence.
Qed.
End StoreProperties.

(** ** Witnesses, over the reference collections *)

Section StoreWitnesses.
Definition w_validator : TMValidator :=
  mkTMValidator (Some (mkCometValidator "x" (Some "k") 3)) None 0 None "".
Definition w_block : BlockID := mkBlockID "h" (mkPSH 1 "p").
Definition w_round : RoundData (B := ref_butils) :=
  mkRoundData (set_add (Butils := ref_butils) set_new "78") {["78" := {[2 := w_block]}]}.
Definition w_config : Config := mkConfig "db" 0 2.
Definition w_fill (hs : list Z) : Tables :=
  foldl (fun d h => (StoreValidators (C := ref_comet) 100 h [w_validator] d).2) (empty_tables false) hs.

Lemma w_fill_reachable hs : store_reachable (B := ref_butils) (C := ref_comet) w_config false (w_fill hs).
Proof.
  unfold store_reachable, w_fill. generalize (empty_tables false) as d.
  induction hs as [|h hs IH]; intros d; cbn; [apply rtc_refl|].
  eapply rtc_l; [apply (ss_validators w_config d 100 h [w_validator])|]. apply IH.
Qed.

Lemma w_types : types_int32 w_round.
Proof.
  intros a t b. unfold rd_vote, w_round; cbn [Votes]. intros (m & Hm & Ht)%bind_Some.
  apply lookup_singleton_Some in Hm as [_ <-]. apply lookup_singleton_Some in Ht as [<- _]. go_lia.
Qed.

Lemma store_load_roundtrip_witness :
  GetVote (LoadRoundDataMap (B := ref_butils)
    (StoreRoundData (C := ref_comet) 200 (fun _ _ => 201) 5 0 w_round (w_fill [5])).2 1 9) 5 0 "78" 2 = VoteStateForBlock.
Proof.
  exact (store_load_roundtrip (BL := ref_butils_laws) (CL := ref_comet_laws) w_config false (w_fill [5]) 200 (fun _ _ => 201) 5 0 w_round 1 9
    "78" 2 w_block (w_fill_reachable [5]) ltac:(go_lia) w_types ltac:(lia) eq_refl eq_refl eq_refl eq_refl
    ltac:(discriminate)).
Defined.

Lemma StoreRoundData_spec_witness :
  StoreRoundData (B := ref_butils) (C := ref_comet) 200 (fun _ _ => 201) 6 0 w_round (w_fill [5]) =
  (Err ("running tx body: failed to store round: " +:+ fk_error), w_fill [5]).
Proof. exact (StoreRoundData_spec (B := ref_butils) (C := ref_comet) 200 (fun _ _ => 201) 6 0 w_round (w_fill [5])). Defined.

Lemma cleanup_retention_witness :
  CleanupOldData w_config 300 (w_fill [1; 2; 3; 4; 5]) = (Ok tt, prune 3 (w_fill [1; 2; 3; 4; 5])).
Proof.
  assert (Hfit : forall latest, GetLatestHeight (w_fill [1; 2; 3; 4; 5]) = Ok latest -> is_int64 (latest - MaxRetainBlocks w_config)).
  { intros latest H. assert (E : GetLatestHeight (w_fill [1; 2; 3; 4; 5]) = Ok 5) by (vm_compute; reflexivity).
    rewrite E in H. injection H as <-. cbn. go_lia. }
  exact (proj1 (cleanup_retention (B := ref_butils) (C := ref_comet) w_config false (w_fill [1; 2; 3; 4; 5]) 300
    (w_fill_reachable _) Hfit)).
Defined.

(** A window of [MaxRetainBlocks] blocks keeps one block more: with a limit of
    two, five stored heights are cut to the last three. *)
Theorem retains_one_more :
  MaxRetainBlocks w_config = 2 /\
  (map_to_list (t_heights (CleanupOldData w_config 300 (w_fill [1; 2; 3; 4; 5])).2)).*1 ≡ₚ [3; 4; 5].
Proof.
  split; [done|].
  assert (E : (map_to_list (t_heights (CleanupOldData w_config 300 (w_fill [1; 2; 3; 4; 5])).2)).*1 = [5; 3; 4])
    by (vm_compute; reflexivity).
  rewrite E. change [5; 3; 4] with ([5] ++ [3; 4]). apply (Permutation_app_comm [5] [3; 4]).
Qed.

Definition w_days : Config := mkConfig "db" 1 0.
(** Heights stored at midnight, a minute later and at four in the afternoon, UTC. *)
Definition w_hours : Tables :=
  foldl (fun d p => (StoreValidators (C := ref_comet) p.2 p.1 [w_validator] d).2) (empty_tables false)
    [(1, 0); (2, 60 * Second); (3, 16 * 60 * 60 * Second)].

(** The day window is off by the time zone: at four in the afternoon UTC nothing is a day
    old and a cleanup in UTC keeps everything; in a zone nine hours ahead, where it is
    one at night, the height of midnight is deleted, sixteen hours old. *)
Theorem day_window_is_local :
  MaxRetainDays w_days = 1 /\ MaxRetainBlocks w_days = 0 /\
  is_Some (t_heights (CleanupOldData w_days (16 * 60 * 60 * Second) w_hours).2 !! 1) /\
  t_heights (CleanupOldData w_days ((16 + 9) * 60 * 60 * Second) w_hours).2 !! 1 = None.
Proof. split_and!; [done|done|vm_compute; by eexists|vm_compute; reflexivity]. Qed.
End StoreWitnesses.
