(* ===== verification/Migrations.v ===== *)
(** * Schema migrations ([pkg/db/db.go], [pkg/db/migrations])

    Each migration is a script of SQL statements run inside one transaction
    together with the record of its version.  The scripts are kept as
    statements; of the database only what the statements need is modelled: the
    tables, the indexes, the recorded versions and the open transaction. *)

From S2P Require Import Prelude GoNum GoText.
From Stdlib Require Import Ascii.
Local Open Scope Z_scope.

(** ** A connection and the statements the scripts use *)

Record Catalog := mkCatalog {
  cat_tables : gset string;
  cat_indexes : gmap string string;   (** index name, table *)
  cat_applied : list string }.        (** rows of the migrations table *)

Record Conn := mkConn { cat : Catalog; saved : option Catalog (** the state before the open transaction *) }.

Inductive stmt :=
  | PragmaForeignKeys (on : bool)
  | Begin | Commit
  | CreateTable (t : string)
  | CreateTableIfNotExists (t : string)
  | DropTable (t : string)
  | DropTableIfExists (t : string)
  | CopyRows (from to : string)
  | RenameTable (from to : string)
  | CreateIndex (i t : string)
  | InsertMigration (version : string).

Definition drop_table (t : string) (c : Catalog) : Catalog :=
  mkCatalog (cat_tables c ∖ {[t]}) (filter (fun p => p.2 <> t) (cat_indexes c)) (cat_applied c).
Definition add_table (t : string) (c : Catalog) : Catalog :=
  mkCatalog ({[t]} ∪ cat_tables c) (cat_indexes c) (cat_applied c).

Definition has_table (t : string) (c : Catalog) : bool := bool_decide (t ∈ cat_tables c).

Definition nested_tx_error : string := "SQL logic error: cannot start a transaction within a transaction (1)".

Definition exec_stmt (k : Conn) (s : stmt) : res Conn :=
  let c := cat k in
  let upd (c : Catalog) := Ok (mkConn c (saved k)) in
  match s with
  | PragmaForeignKeys _ => Ok k
  | Begin => match saved k with Some _ => Err nested_tx_error | None => Ok (mkConn c (Some c)) end
  | Commit =>
      match saved k with
      | Some _ => Ok (mkConn c None)
      | None => Err "SQL logic error: cannot commit - no transaction is active (1)"
      end
  | CreateTable t =>
      if has_table t c then Err ("SQL logic error: table " +:+ t +:+ " already exists (1)") else upd (add_table t c)
  | CreateTableIfNotExists t => if has_table t c then Ok k else upd (add_table t c)
  | DropTable t =>
      if has_table t c then upd (drop_table t c) else Err ("SQL logic error: no such table: " +:+ t +:+ " (1)")
  | DropTableIfExists t => if has_table t c then upd (drop_table t c) else Ok k
  | CopyRows a b =>
      if has_table a c && has_table b c then Ok k else Err "SQL logic error: no such table (1)"
  | RenameTable a b =>
      if has_table a c && negb (has_table b c) then
        upd (mkCatalog ({[b]} ∪ (cat_tables c ∖ {[a]})) ((fun t => if bool_decide (t = a) then b else t) <$> cat_indexes c)
               (cat_applied c))
      else Err "SQL logic error: cannot rename (1)"
  | CreateIndex i t =>
      if has_table t c then
        match cat_indexes c !! i with
        | Some _ => Err ("SQL logic error: index " +:+ i +:+ " already exists (1)")
        | None => upd (mkCatalog (cat_tables c) (<[i := t]> (cat_indexes c)) (cat_applied c))
        end
      else Err ("SQL logic error: no such table: main." +:+ t +:+ " (1)")
  | InsertMigration v =>
      if bool_decide (v ∈ cat_applied c) then Err "constraint failed: UNIQUE constraint failed: migrations.version (2067)"
      else upd (mkCatalog (cat_tables c) (cat_indexes c) (cat_applied c ++ [v]))
  end.

(** A script stops at its first failing statement; what ran before stays done. *)
Fixpoint exec_script (k : Conn) (s : list stmt) : res unit * Conn :=
  match s with
  | [] => (Ok tt, k)
  | x :: s' =>
      match exec_stmt k x with
      | Ok k' => exec_script k' s'
      | Err e => (Err e, k)
      | Panic => (Panic, k)
      end
  end.

Definition rollback (k : Conn) : Conn := match saved k with Some c => mkConn c None | None => k end.

(** ** The scripts *)

Definition migration001Initial : list stmt :=
  [ CreateTable "validators";
    CreateIndex "idx_validators_hex_address" "validators";
    CreateIndex "idx_validators_operator_address" "validators";
    CreateTable "heights";
    CreateTable "rounds";
    CreateIndex "idx_rounds_height_round" "rounds";
    CreateIndex "idx_rounds_height_desc" "rounds";
    CreateTable "votes";
    CreateIndex "idx_votes_height_round" "votes";
    CreateIndex "idx_votes_validator" "votes";
    CreateIndex "idx_votes_height_round_type" "votes";
    CreateTable "consensus_events";
    CreateIndex "idx_consensus_events_height_round" "consensus_events";
    CreateIndex "idx_consensus_events_type" "consensus_events";
    CreateIndex "idx_consensus_events_timestamp" "consensus_events";
    CreateTable "validator_snapshots";
    CreateIndex "idx_validator_snapshots_height" "validator_snapshots";
    CreateIndex "idx_validator_snapshots_validator" "validator_snapshots" ].

Definition migration002DropOperatorUnique : list stmt :=
  [ PragmaForeignKeys false;
    DropTableIfExists "validators_new";
    Begin;
    CreateTable "validators_new";
    CopyRows "validators" "validators_new";
    DropTable "validators";
    RenameTable "validators_new" "validators";
    CreateIndex "idx_validators_hex_address" "validators";
    CreateIndex "idx_validators_operator_address" "validators";
    Commit;
    PragmaForeignKeys true ].

Record migration := mkMigration { version : string; sql : list stmt }.

Definition migrations : list migration :=
  [ mkMigration "001_initial" migration001Initial;
    mkMigration "002_drop_operator_unique" migration002DropOperatorUnique ].

(** ** The code *)

(** [Begin]; the script; the version record; [Commit]; the deferred rollback on any error. *)
Definition applyMigration (k : Conn) (m : migration) : res unit * Conn :=
  match exec_stmt k Begin with
  | Ok tx =>
      match exec_script tx (sql m) with
      | (Ok tt, tx) =>
          match exec_stmt tx (InsertMigration (version m)) with
          | Ok tx =>
              match exec_stmt tx Commit with
              | Ok k' => (Ok tt, k')
              | Err e => (Err ("committing migration " +:+ version m +:+ ": " +:+ e), rollback tx)
              | Panic => (Panic, rollback tx)
              end
          | Err e => (Err ("recording migration " +:+ version m +:+ ": " +:+ e), rollback tx)
          | Panic => (Panic, rollback tx)
          end
      | (Err e, tx) => (Err ("applying migration " +:+ version m +:+ ": " +:+ e), rollback tx)
      | (Panic, tx) => (Panic, rollback tx)
      end
  | Err e => (Err ("starting migration " +:+ version m +:+ " tx: " +:+ e), k)
  | Panic => (Panic, k)
  end.

Fixpoint run_migrations (k : Conn) (ms : list migration) : res unit * Conn :=
  match ms with
  | [] => (Ok tt, k)
  | m :: ms' =>
      if bool_decide (version m ∈ cat_applied (cat k)) then run_migrations k ms'
      else
        match applyMigration k m with
        | (Ok tt, k') => run_migrations k' ms'
        | r => r
        end
  end.

Definition migrate (k : Conn) : res unit * Conn :=
  match exec_stmt k (CreateTableIfNotExists "migrations") with
  | Ok k' => run_migrations k' migrations
  | Err e => (Err ("failed to create migrations table: " +:+ e), k)
  | Panic => (Panic, k)
  end.

(** [New], from the outcomes of creating the directory, opening the file and the three pragmas. *)
Definition New (mkdir : res unit) (opened : res Conn) (wal synchronous foreign_keys : res unit) : res Conn :=
  wrap_err "failed to create database directory" mkdir ≫= fun _ =>
  wrap_err "failed to open database" opened ≫= fun k =>
  wrap_err "failed to set WAL mode" wal ≫= fun _ =>
  wrap_err "failed to set synchronous mode" synchronous ≫= fun _ =>
  wrap_err "failed to enable foreign keys" foreign_keys ≫= fun _ =>
  let '(r, k') := migrate k in
  wrap_err "failed to run migrations" r ≫= fun _ => Ok k'.

Definition empty_conn : Conn := mkConn (mkCatalog ∅ ∅ []) None.

(** ** Facts *)

(** A failed migration leaves the connection as it was. *)
Lemma exec_stmt_saved k s k' c :
  saved k = Some c -> s <> Commit -> exec_stmt k s = Ok k' -> saved k' = Some c.
Proof.
  intros Hs Hc. destruct s; cbn; rewrite ?Hs; try done; repeat case_match; try done; intros [= <-]; done.
Qed.

Lemma exec_script_saved k s r k' c :
  saved k = Some c -> Forall (fun x => x <> Commit) s -> exec_script k s = (r, k') -> saved k' = Some c.
Proof.
  intros Hs Hf. revert k Hs. induction Hf as [|x s Hx Hf IH]; intros k Hs; cbn; [by intros [= _ <-]|].
  destruct (exec_stmt k x) eqn:E; [|by intros [= _ <-]..]. apply IH. by eapply exec_stmt_saved.
Qed.

(** Statements of the scripts other than the version record keep the recorded versions. *)
Lemma exec_stmt_applied k s k' :
  (forall v, s <> InsertMigration v) -> exec_stmt k s = Ok k' -> cat_applied (cat k') = cat_applied (cat k).
Proof.
  intros Hs. destruct s; cbn; try (destruct (Hs version0); reflexivity);
    repeat case_match; try done; intros [= <-]; done.
Qed.

Lemma exec_script_applied k s r k' :
  Forall (fun x => forall v, x <> InsertMigration v) s ->
  exec_script k s = (r, k') -> cat_applied (cat k') = cat_applied (cat k).
Proof.
  intros Hf. revert k. induction Hf as [|x s Hx Hf IH]; intros k; cbn; [by intros [= _ <-]|].
  destruct (exec_stmt k x) eqn:E; [|by intros [= _ <-]..].
  intros Hr. rewrite (IH _ Hr). by eapply exec_stmt_applied.
Qed.

Lemma exec_script_no_panic k s : (exec_script k s).1 <> Panic.
Proof.
  revert k. induction s as [|x s IH]; intros k; cbn; [done|].
  destruct (exec_stmt k x) eqn:E; [apply IH|done|]. destruct x; cbn in E; repeat case_match; done.
Qed.

(** Outside a transaction the first migration either commits with its version
    recorded, or fails and leaves everything as it was. *)
Lemma apply_001_cases k (m := mkMigration "001_initial" migration001Initial) :
  saved k = None ->
  (exists k', applyMigration k m = (Ok tt, k') /\ saved k' = None /\
     cat_applied (cat k') = cat_applied (cat k) ++ ["001_initial"]) \/
  (exists e, applyMigration k m = (Err e, k)).
Proof.
  intros Hs. destruct k as [c sv]. cbn in Hs. subst sv. unfold applyMigration. cbn [exec_stmt saved cat].
  destruct (exec_script _ _) as [r tx] eqn:Ex.
  pose proof (exec_script_no_panic (mkConn c (Some c)) (sql m)) as Hnp. rewrite Ex in Hnp. cbn in Hnp.
  pose proof Ex as Ha. apply exec_script_applied in Ha; [|repeat constructor; discriminate].
  apply (exec_script_saved _ _ _ _ c) in Ex; [|done|repeat constructor; discriminate].
  assert (Hrb : rollback tx = mkConn c None) by (unfold rollback; by rewrite Ex).
  destruct r as [[]|e|]; [|right; rewrite Hrb; eauto|done].
  cbn [exec_stmt version m]. destruct (bool_decide _); [right; rewrite Hrb; eauto|].
  cbn [saved]. rewrite Ex. left. eexists. split; [reflexivity|]. cbn. rewrite Ha. done.
Qed.

(** The second script never gets past its own BEGIN. *)
Lemma apply_002_fails k :
  saved k = None ->
  applyMigration k (mkMigration "002_drop_operator_unique" migration002DropOperatorUnique) =
  (Err ("applying migration 002_drop_operator_unique: " +:+ nested_tx_error), k).
Proof.
  intros Hs. destruct k as [c sv]. cbn in Hs. subst sv.
  unfold applyMigration. cbn [exec_stmt version sql saved cat exec_script migration002DropOperatorUnique].
  destruct (has_table "validators_new" c); cbn; done.
Qed.

(** On a database without version 002. *)
Lemma migrate_unapplied k
  (Htx : saved k = None) (Hno : "002_drop_operator_unique" ∉ cat_applied (cat k)) :
  (exists e, (migrate k).1 = Err e) /\
  "002_drop_operator_unique" ∉ cat_applied (cat (migrate k).2) /\ saved (migrate k).2 = None /\
  ("001_initial" ∈ cat_applied (cat k) ->
   (migrate k).1 = Err ("applying migration 002_drop_operator_unique: " +:+ nested_tx_error) /\
   cat_applied (cat (migrate k).2) = cat_applied (cat k)).
Proof.
  unfold migrate.
  assert (exists k0, exec_stmt k (CreateTableIfNotExists "migrations") = Ok k0 /\ saved k0 = None /\
    cat_applied (cat k0) = cat_applied (cat k)) as (k0 & -> & Htx0 & Happ).
  { cbn. destruct (has_table "migrations" (cat k)); eauto. }
  rewrite <-Happ in *. unfold migrations, run_migrations; cbn [version]. case_bool_decide as H1.
  - rewrite bool_decide_eq_false_2, apply_002_fails by done. cbn. split_and!; eauto.
  - destruct (apply_001_cases k0 Htx0) as [(k1 & -> & Hs1 & Ha1)|(e & ->)]; [|cbn; split_and!; eauto; done].
    rewrite bool_decide_eq_false_2 by (rewrite Ha1; set_solver).
    rewrite apply_002_fails by done. cbn. rewrite Ha1. split_and!; [eauto|set_solver|done|done].
Qed.

(** ** Properties *)

(** On any database that does not already record version 002, whatever its
    tables, [migrate] fails: the script's own BEGIN runs inside the transaction
    [applyMigration] opened.  Version 002 is not recorded, and no transaction is
    left open; when 001 is recorded the failure is the nested-transaction error
    and no version has been added. *)
Theorem migration_002_never_applies k
  (Htx : saved k = None) (Hno : "002_drop_operator_unique" ∉ cat_applied (cat k)) :
  (exists e, (migrate k).1 = Err e) /\
  "002_drop_operator_unique" ∉ cat_applied (cat (migrate k).2) /\ saved (migrate k).2 = None /\
  ("001_initial" ∈ cat_applied (cat k) ->
   (migrate k).1 = Err ("applying migration 002_drop_operator_unique: " +:+ nested_tx_error) /\
   cat_applied (cat (migrate k).2) = cat_applied (cat k)).
Proof. by apply migrate_unapplied. Qed.

Lemma migration_002_never_applies_witness : exists e, (migrate empty_conn).1 = Err e.
Proof. exact (proj1 (migration_002_never_applies empty_conn eq_refl ltac:(set_solver))). Defined.

(** [migrate] changes nothing on a migrated database. *)
Lemma migrate_idempotent k
  (Ht : "migrations" ∈ cat_tables (cat k))
  (H1 : "001_initial" ∈ cat_applied (cat k)) (H2 : "002_drop_operator_unique" ∈ cat_applied (cat k)) :
  migrate k = (Ok tt, k).
Proof.
  unfold migrate. cbn [exec_stmt]. unfold has_table. rewrite bool_decide_eq_true_2 by done.
  unfold migrations, run_migrations; cbn [version]. by rewrite !bool_decide_eq_true_2 by done.
Qed.

(** Opening a database file for the first time fails. *)
Example New_fresh_fails :
  New (Ok tt) (Ok empty_conn) (Ok tt) (Ok tt) (Ok tt) =
  Err ("failed to run migrations: applying migration 002_drop_operator_unique: " +:+ nested_tx_error).
Proof. vm_compute. reflexivity. Qed.
