(* ===== verification/Topology.v ===== *)
(** * Topology ([pkg/topology])

    The graph of known nodes around the requested ones: a depth-limited crawl of the
    recorded peer lists with an explicit stack, the deduplicated nodes, the
    connections between included nodes, and the DOT rendering's graph. *)

From S2P Require Import Prelude GoNum GoText Deps Types Rounds State.
Local Open Scope Z_scope.

Record ComputeTopologyRequest := mkRequest {
  CurrentHomeNode : string;
  IncludeNodes : list string;
  CrawlDistance : Z;      (** [uint64] *)
  MinBytesSec : Z;        (** [uint64] *)
  HighlightNodes : list string;
  Format : string }.

Record Conn := mkConn { conn_From : string; conn_To : string; conn_Status : ConnectionStatus }.

Record Graph := mkGraph { g_Nodes : list RPC; g_Conns : list Conn; g_connsMap : gset string }.

Definition AddConn (g : Graph) (from to : string) (st : ConnectionStatus) : Graph :=
  if bool_decide (from +:+ to ∈ g_connsMap g) then g
  else mkGraph (g_Nodes g) (g_Conns g ++ [mkConn from to st]) ({[from +:+ to]} ∪ g_connsMap g).

Section Topology.
Context `{B : Butils} `{C : Comet}.

(** [AddAll] and [AddSet] *)
Definition set_add_all {T} `{EqDecision T} (s : GoSet T) (l : list T) : GoSet T := foldl set_add s l.

(** ** The crawl *)

Definition fast_enough (minBytesSec : Z) (peer : Peer) : bool :=
  negb (uint64 (uint64 (fs_AvgRate (cs_SendMonitor (peer_ConnectionStatus peer)))
                + uint64 (fs_AvgRate (cs_RecvMonitor (peer_ConnectionStatus peer)))) <? minBytesSec).

Definition crawl_peers (s : State) (minBytesSec : Z) (node : RPC) : list RPC :=
  NewRPCFromPeer <$> filter (fun p => fast_enough minBytesSec p = true) (RPCPeers s (rpc_URL node)).

(** The top of the stack is the head of the list. *)
Fixpoint crawl_loop (fuel : nat) (s : State) (crawlDistance minBytesSec : Z)
    (visited : GoSet RPC) (stack : list (RPC * Z)) : option (GoSet RPC) :=
  match stack with
  | [] => Some visited
  | (node, depth) :: rest =>
      match fuel with
      | O => None
      | S fuel' =>
          let visited := set_add visited node in
          if crawlDistance <=? depth then crawl_loop fuel' s crawlDistance minBytesSec visited rest
          else crawl_loop fuel' s crawlDistance minBytesSec visited
                 (reverse ((fun n => (n, depth + 1)) <$> crawl_peers s minBytesSec node) ++ rest)
      end
  end.

(** The number of stack items the crawl of a node pops, with some distance left. *)
Fixpoint crawl_cost (s : State) (minBytesSec : Z) (rem : nat) (node : RPC) : nat :=
  match rem with
  | O => 1%nat
  | S rem' => S (sum_list (crawl_cost s minBytesSec rem' <$> crawl_peers s minBytesSec node))
  end.

Definition stackBasedCrawl (s : State) (homeNode : RPC) (crawlDistance minBytesSec : Z) : option (GoSet RPC) :=
  crawl_loop (crawl_cost s minBytesSec (Z.to_nat crawlDistance) homeNode) s crawlDistance minBytesSec
    (set_add set_new homeNode) [(homeNode, 0)].

(** ** [ComputeTopology] *)

Definition include_step (s : State) (req : ComputeTopologyRequest) (acc : GoSet RPC) (url : string) : GoSet RPC :=
  match om_get (KnownRPCs s) url with
  | None => acc
  | Some rpc =>
      match stackBasedCrawl s rpc (CrawlDistance req) (MinBytesSec req) with
      | Some nodes => set_add_all acc (set_range nodes)
      | None => acc
      end
  end.

Definition node_step (acc : GoSet string * Graph) (rpc : RPC) : GoSet string * Graph :=
  let '(seenIDs, g) := acc in
  if set_has seenIDs (rpc_ID rpc) then acc
  else (set_add seenIDs (rpc_ID rpc), mkGraph (g_Nodes g ++ [rpc]) (g_Conns g) (g_connsMap g)).

Definition edge_step (includeIDs : GoSet string) (rpc : RPC) (g : Graph) (peer : Peer) : Graph :=
  let peerID := peer_ID peer in
  if negb (set_has includeIDs peerID) then g
  else if bool_decide (peerID = rpc_ID rpc) then g
  else if peer_IsOutbound peer then AddConn g (rpc_ID rpc) peerID (peer_ConnectionStatus peer)
  else AddConn g peerID (rpc_ID rpc) (peer_ConnectionStatus peer).

Definition included (s : State) (req : ComputeTopologyRequest) : list RPC :=
  set_range (foldl (include_step s req) set_new (IncludeNodes req)).

(** The two [for range] loops over the set; each sees it in an order of its own.
    [seenIDs] and [includeIDs] hold the same identifiers. *)
Definition build_graph (s : State) (nodes edges : list RPC) : Graph :=
  let '(includeIDs, g) := foldl node_step (set_new, mkGraph [] [] ∅) nodes in
  foldl (fun g rpc => foldl (edge_step includeIDs rpc) g (RPCPeers s (rpc_URL rpc))) g edges.

Definition ComputeTopology (s : State) (req : ComputeTopologyRequest) : Graph :=
  build_graph s (included s req) (included s req).

(** ** The DOT graph

    [gonum]'s undirected graph: [new_id] is the identifier its i-th new node gets,
    [path_between] its shortest path between two nodes, if any. *)

Record DOTPeerNode := mkDOTPeerNode { dn_Node : Z; dn_RPC : RPC; dn_Color : string }.
Record DOTEdge := mkDOTEdge { de_from : Z; de_to : Z; de_color : string; de_width : string }.
Record DOTGraph := mkDOT { dot_nodes : list DOTPeerNode; dot_edges : list DOTEdge }.

Definition NewDOTPeerNode (n : Z) (rpc : RPC) (color : string) : DOTPeerNode := mkDOTPeerNode n rpc color.
Definition DOTPeerNode_ID (n : DOTPeerNode) : Z := dn_Node n.
Definition NewDOTEdge (from to : Z) (color width : string) : DOTEdge := mkDOTEdge from to color width.
Definition DOTEdge_From (e : DOTEdge) : Z := de_from e.
Definition DOTEdge_To (e : DOTEdge) : Z := de_to e.
Definition ReversedEdge (e : DOTEdge) : DOTEdge := mkDOTEdge (de_to e) (de_from e) (de_color e) (de_width e).
Definition SetColor (color : string) (e : DOTEdge) : DOTEdge := mkDOTEdge (de_from e) (de_to e) color (de_width e).
Definition SetWidth (width : string) (e : DOTEdge) : DOTEdge := mkDOTEdge (de_from e) (de_to e) (de_color e) width.
(** Every edge weighs the same, so a shortest path has the fewest edges. *)
Definition Weight (e : DOTEdge) : gofloat := Fin 1.

(** The attributes the encoder writes for a node and for an edge. *)
Definition DOTPeerNode_Attributes (n : DOTPeerNode) : list (string * string) :=
  let rpc := dn_RPC n in
  [("label", rpc_Moniker rpc +:+ nl +:+ rpc_ID rpc +:+ nl +:+ "(" +:+ rpc_URL rpc +:+ ")"); ("style", "filled"); ("color", dn_Color n)].
Definition DOTEdge_Attributes (e : DOTEdge) : list (string * string) := [("color", de_color e); ("penwidth", de_width e)].

Definition joins (u v : Z) (e : DOTEdge) : bool :=
  (DOTEdge_From e =? u) && (DOTEdge_To e =? v) || (DOTEdge_From e =? v) && (DOTEdge_To e =? u).
Definition has_edge (g : DOTGraph) (u v : Z) : bool := existsb (joins u v) (dot_edges g).

Definition highlighted (req : ComputeTopologyRequest) (rpc : RPC) : bool :=
  existsb (fun h => bool_decide (h = rpc_ID rpc) || bool_decide (h = rpc_IP rpc) ||
                    bool_decide (h = rpc_URL rpc) || bool_decide (h = rpc_Moniker rpc)) (HighlightNodes req).

Definition dot_node_step (new_id : nat -> Z) (req : ComputeTopologyRequest)
    (acc : gmap string Z * DOTGraph) (p : nat * RPC) : gmap string Z * DOTGraph :=
  let '(nodeIDs, g) := acc in
  let color := if highlighted req p.2 then "crimson" else "cadetblue" in
  (<[rpc_URL p.2 := new_id p.1]> nodeIDs, mkDOT (dot_nodes g ++ [NewDOTPeerNode (new_id p.1) p.2 color]) (dot_edges g)).

Definition dot_conn_step (nodeIDs : gmap string Z) (g : DOTGraph) (conn : Conn) : DOTGraph :=
  match nodeIDs !! conn_From conn, nodeIDs !! conn_To conn with
  | Some u, Some v =>
      if has_edge g u v then g
      else mkDOT (dot_nodes g) (dot_edges g ++ [NewDOTEdge u v "azure4" "1.0"])
  | _, _ => g
  end.

Definition color_edge (u v : Z) (e : DOTEdge) : DOTEdge :=
  if joins u v e then SetWidth "3.0" (SetColor "crimson" e) else e.

(** A missing edge on the path is a failed type assertion. *)
Fixpoint color_path (g : DOTGraph) (path : list Z) : res DOTGraph :=
  match path with
  | u :: ((v :: _) as path') =>
      if has_edge g u v then color_path (mkDOT (dot_nodes g) (color_edge u v <$> dot_edges g)) path' else Panic
  | _ => Ok g
  end.

Fixpoint color_pairs (path_between : DOTGraph -> Z -> Z -> option (list Z)) (g : DOTGraph) (ns : list Z) : res DOTGraph :=
  match ns with
  | [] => Ok g
  | n :: ns' =>
      g ← foldM (fun g m => match path_between g n m with Some p => color_path g p | None => Ok g end) g ns';
      color_pairs path_between g ns'
  end.

Definition ComputeTopologyDOT (new_id : nat -> Z) (path_between : DOTGraph -> Z -> Z -> option (list Z))
    (topology : Graph) (req : ComputeTopologyRequest) : res DOTGraph :=
  let '(nodeIDs, g) := foldl (dot_node_step new_id req) (∅, mkDOT [] []) (imap pair (g_Nodes topology)) in
  let g := foldl (dot_conn_step nodeIDs) g (g_Conns topology) in
  color_pairs path_between g
    (DOTPeerNode_ID <$> filter (fun n => dn_Color n = "crimson") (dot_nodes g)).
End Topology.

(** ** The crawl is exactly bounded reachability *)

Section CrawlFacts.
Context `{BL : ButilsLaws} `{C : Comet}.
Implicit Types (s : State) (n : RPC).

(** Nodes at most [k] peer links away, through links that carry enough traffic. *)
Inductive within s (minBytesSec : Z) : nat -> RPC -> RPC -> Prop :=
  | within_refl k n : within s minBytesSec k n n
  | within_link k n m x : m ∈ crawl_peers s minBytesSec n -> within s minBytesSec k m x ->
      within s minBytesSec (S k) n x.

Lemma set_has_add_all {T} `{EqDecision T} (x : T) l (s : GoSet T) :
  set_has (set_add_all s l) x = true <-> set_has s x = true \/ x ∈ l.
Proof.
  unfold set_add_all. revert s. induction l as [|y l IH]; intros s; cbn; [set_solver|].
  rewrite IH, set_has_add, orb_true_iff, bool_decide_eq_true, elem_of_cons. naive_solver.
Qed.

Definition remaining (dist depth : Z) : nat := Z.to_nat (dist - depth).

Definition stack_cost s min dist (stack : list (RPC * Z)) : nat :=
  sum_list ((fun p => crawl_cost s min (remaining dist p.2) p.1) <$> stack).

Lemma stack_cost_cons s min dist n d l :
  stack_cost s min dist ((n, d) :: l) = (crawl_cost s min (remaining dist d) n + stack_cost s min dist l)%nat.
Proof. done. Qed.

Lemma stack_cost_app s min dist l1 l2 :
  stack_cost s min dist (l1 ++ l2) = (stack_cost s min dist l1 + stack_cost s min dist l2)%nat.
Proof. unfold stack_cost. rewrite fmap_app. apply sum_list_with_app. Qed.

Lemma stack_cost_reverse s min dist l : stack_cost s min dist (reverse l) = stack_cost s min dist l.
Proof. unfold stack_cost. by rewrite fmap_reverse, reverse_Permutation. Qed.

Lemma stack_cost_link s min dist d l :
  stack_cost s min dist ((fun m => (m, d)) <$> l) = sum_list (crawl_cost s min (remaining dist d) <$> l).
Proof. unfold stack_cost. by rewrite <-list_fmap_compose. Qed.

Lemma crawl_loop_spec s dist min fuel visited stack :
  0 <= dist -> Forall (fun p => 0 <= p.2) stack -> (stack_cost s min dist stack <= fuel)%nat ->
  exists v, crawl_loop fuel s dist min visited stack = Some v /\
    forall x, set_has v x = true <->
      set_has visited x = true \/ exists p, p ∈ stack /\ within s min (remaining dist p.2) p.1 x.
Proof.
  intros Hd. revert visited stack. induction fuel as [|fuel IH]; intros visited [|[n d] rest] Hst Hf; cbn [crawl_loop].
  - exists visited. split; [done|]. set_solver.
  - unfold stack_cost in Hf. cbn in Hf. destruct (remaining dist d); cbn in Hf; lia.
  - exists visited. split; [done|]. set_solver.
  - inversion Hst as [|? ? Hn Hst']; subst. cbn [snd] in Hn.
    rewrite stack_cost_cons in Hf.
    destruct (Z.leb_spec dist d) as [Hle|Hlt].
    + destruct (IH (set_add visited n) rest Hst') as (v & Hv & Hx).
      { assert (Hr : remaining dist d = O) by (unfold remaining; lia). rewrite Hr in Hf. cbn in Hf. lia. }
      exists v. split; [done|]. intros x. rewrite Hx, set_has_add, orb_true_iff, bool_decide_eq_true.
      assert (Hr : remaining dist d = O) by (unfold remaining; lia). split.
      * intros [[->|?]|(p & Hp & ?)]; [right; exists (x, d); cbn; split; [set_solver|constructor]|by left|].
        right. exists p. set_solver.
      * intros [?|(p & [->|Hp]%elem_of_cons & Hw)]; [by left; right| |right; by exists p].
        cbn in Hw. rewrite Hr in Hw. inversion Hw; subst. by left; left.
    + assert (Hr : remaining dist d = S (remaining dist (d + 1))) by (unfold remaining; lia).
      rewrite Hr in Hf. cbn [crawl_cost] in Hf.
      destruct (IH (set_add visited n) (reverse ((fun m => (m, d + 1)) <$> crawl_peers s min n) ++ rest)) as (v & Hv & Hx).
      { apply Forall_app. split; [|done]. apply Forall_reverse, Forall_fmap, Forall_true. cbn. lia. }
      { rewrite stack_cost_app, stack_cost_reverse, stack_cost_link. lia. }
      exists v. split; [done|]. intros x. rewrite Hx, set_has_add, orb_true_iff, bool_decide_eq_true. split.
      * intros [[->|?]|(p & [Hp|Hp]%elem_of_app & Hw)].
        -- right. exists (x, d). split; [set_solver|]. constructor.
        -- by left.
        -- apply elem_of_reverse, list_elem_of_fmap in Hp as (m & -> & Hm).
           right. exists (n, d). split; [set_solver|]. cbn [fst snd]. rewrite Hr. by eapply within_link.
        -- right. exists p. set_solver.
      * intros [?|(p & [->|Hp]%elem_of_cons & Hw)]; [by left; right| |].
        -- cbn [fst snd] in Hw. rewrite Hr in Hw. inversion Hw as [|? ? m ? Hm Hw']; subst; [by left; left|].
           right. exists (m, d + 1). split; [|done]. apply elem_of_app. left. apply elem_of_reverse, list_elem_of_fmap. by exists m.
        -- right. exists p. split; [|done]. set_solver.
Qed.

Lemma crawl_spec s home dist min (Hd : 0 <= dist) :
  exists v, stackBasedCrawl s home dist min = Some v /\
    forall x, set_has v x = true <-> within s min (Z.to_nat dist) home x.
Proof.
  destruct (crawl_loop_spec s dist min (crawl_cost s min (Z.to_nat dist) home)
    (set_add set_new home) [(home, 0)] Hd) as (v & Hv & Hx).
  - by repeat constructor.
  - unfold stack_cost, remaining. cbn. rewrite Z.sub_0_r. lia.
  - exists v. split; [done|]. intros x. unfold remaining in Hx. rewrite Hx, set_has_add, set_has_new, orb_false_r, bool_decide_eq_true. split.
    + intros [->|(p & ->%list_elem_of_singleton & Hw)]; [constructor|]. by rewrite Z.sub_0_r in Hw.
    + intros Hw. right. exists (home, 0). rewrite Z.sub_0_r. set_solver.
Qed.

(** C23: The crawl always ends, and visits exactly the nodes that the recorded peer
    lists link to the home node in at most [crawlDistance] steps over connections
    that carry at least [minBytesSec]. *)
Theorem crawl_exact s home dist min (Hd : 0 <= dist) :
  exists v, stackBasedCrawl s home dist min = Some v /\
    forall x, set_has v x = true <-> within s min (Z.to_nat dist) home x.
Proof. by apply crawl_spec. Qed.
End CrawlFacts.

(** ** The graph *)

Section GraphFacts.
Context `{BL : ButilsLaws} `{C : Comet}.
Implicit Types (s : State) (g : Graph).

Definition conn_key (c : Conn) : string := conn_From c +:+ conn_To c.
Definition node_ids g : list string := rpc_ID <$> g_Nodes g.

(** The direction a peer entry of [rpc] is drawn in. *)
Definition link_of (rpc : RPC) (peer : Peer) : string * string :=
  if peer_IsOutbound peer then (rpc_ID rpc, peer_ID peer) else (peer_ID peer, rpc_ID rpc).

Definition drawable (includeIDs : GoSet string) (rpc : RPC) (peer : Peer) : bool :=
  set_has includeIDs (peer_ID peer) && negb (bool_decide (peer_ID peer = rpc_ID rpc)).

Lemma edge_step_link includeIDs rpc g peer :
  edge_step includeIDs rpc g peer =
  if drawable includeIDs rpc peer
  then AddConn g (link_of rpc peer).1 (link_of rpc peer).2 (peer_ConnectionStatus peer) else g.
Proof.
  unfold edge_step, drawable, link_of. destruct (set_has _ _); cbn; [|done].
  case_bool_decide; cbn; [done|]. by destruct (peer_IsOutbound peer).
Qed.

(** The edge loops as one loop over every peer entry. *)
Definition edge_items s (edges : list RPC) : list (RPC * Peer) :=
  edges ≫= fun rpc => pair rpc <$> RPCPeers s (rpc_URL rpc).

Lemma foldl_edges includeIDs s edges g :
  foldl (fun g rpc => foldl (edge_step includeIDs rpc) g (RPCPeers s (rpc_URL rpc))) g edges =
  foldl (fun g p => edge_step includeIDs p.1 g p.2) g (edge_items s edges).
Proof.
  revert g. induction edges as [|rpc edges IH]; intros g; [done|].
  cbn [foldl edge_items]. change (edge_items s (rpc :: edges)) with
    ((pair rpc <$> RPCPeers s (rpc_URL rpc)) ++ edge_items s edges).
  rewrite foldl_app, IH. f_equal. generalize (RPCPeers s (rpc_URL rpc)). clear. intros l.
  revert g. induction l as [|p l IH]; intros g; [done|]. cbn. apply IH.
Qed.

Lemma elem_of_edge_items s edges rpc peer :
  (rpc, peer) ∈ edge_items s edges <-> rpc ∈ edges /\ peer ∈ RPCPeers s (rpc_URL rpc).
Proof.
  unfold edge_items. rewrite list_elem_of_bind. split.
  - intros (r & (p & [= -> ->] & ?)%list_elem_of_fmap & ?). done.
  - intros [??]. exists rpc. split; [|done]. apply list_elem_of_fmap. by exists peer.
Qed.

(** *** Nodes *)

Definition nodes_ok (nodes : list RPC) (acc : GoSet string * Graph) : Prop :=
  NoDup (node_ids acc.2) /\ (forall id, set_has acc.1 id = true <-> id ∈ node_ids acc.2) /\
  (forall id, id ∈ node_ids acc.2 <-> id ∈ rpc_ID <$> nodes) /\
  g_Conns acc.2 = [] /\ g_connsMap acc.2 = ∅ /\ (forall r, r ∈ g_Nodes acc.2 -> r ∈ nodes).

Lemma node_steps_ok nodes : nodes_ok nodes (foldl node_step (set_new, mkGraph [] [] ∅) nodes).
Proof.
  induction nodes as [|rpc nodes IH] using rev_ind.
  { unfold nodes_ok; cbn. split_and!; [constructor|intros id; rewrite set_has_new; set_solver|set_solver..]. }
  rewrite foldl_app. cbn. destruct (foldl _ _ _) as [seen g].
  destruct IH as (Hnd & Hseen & Hids & Hc & Hm & Hsub). cbn [fst snd] in *. unfold node_step.
  destruct (set_has seen (rpc_ID rpc)) eqn:E; unfold nodes_ok, node_ids in *; cbn [fst snd g_Nodes g_Conns g_connsMap].
  - split_and!; try done; [|set_solver]. intros id. rewrite fmap_app, elem_of_app, <-Hids.
    apply Hseen in E. split; [by left|]. by intros [?| ->%list_elem_of_singleton].
  - assert (Hn : rpc_ID rpc ∉ rpc_ID <$> g_Nodes g) by (intros Hin; apply Hseen in Hin; congruence).
    rewrite !fmap_app. split_and!; try done.
    + apply NoDup_app. split_and!; [done| |repeat constructor; set_solver]. set_solver.
    + intros id. rewrite set_has_add, orb_true_iff, bool_decide_eq_true, Hseen. set_solver.
    + intros id. rewrite !elem_of_app, Hids. set_solver.
    + set_solver.
Qed.

(** *** Connections *)

Definition conns_ok s (ids : list string) (items : list (RPC * Peer)) g : Prop :=
  (forall k, k ∈ g_connsMap g <-> k ∈ conn_key <$> g_Conns g) /\
  NoDup (conn_key <$> g_Conns g) /\
  (forall c, c ∈ g_Conns g -> exists rpc peer, (rpc, peer) ∈ items /\ peer_ID peer ∈ ids /\
     peer_ID peer <> rpc_ID rpc /\ (conn_From c, conn_To c) = link_of rpc peer) /\
  (forall rpc peer, (rpc, peer) ∈ items -> peer_ID peer ∈ ids -> peer_ID peer <> rpc_ID rpc ->
     exists c, c ∈ g_Conns g /\ conn_key c = (link_of rpc peer).1 +:+ (link_of rpc peer).2).

Lemma edge_step_nodes includeIDs rpc g peer : g_Nodes (edge_step includeIDs rpc g peer) = g_Nodes g.
Proof. rewrite edge_step_link. destruct (drawable _ _ _); [|done]. unfold AddConn. by case_bool_decide. Qed.

Lemma foldl_edge_nodes includeIDs items g :
  g_Nodes (foldl (fun g p => edge_step includeIDs p.1 g p.2) g items) = g_Nodes g.
Proof. revert g. induction items as [|p items IH]; intros g; [done|]. cbn. by rewrite IH, edge_step_nodes. Qed.

Lemma AddConn_ok s ids items g rpc peer :
  conns_ok s ids items g -> peer_ID peer ∈ ids -> peer_ID peer <> rpc_ID rpc ->
  conns_ok s ids (items ++ [(rpc, peer)])
    (AddConn g (link_of rpc peer).1 (link_of rpc peer).2 (peer_ConnectionStatus peer)).
Proof.
  intros (Hm & Hnd & Hs & Hc) Hin Hne. unfold AddConn. case_bool_decide as E.
  - split_and!; [done|done| |].
    + intros c (r & p & ? & ?)%Hs. exists r, p. set_solver.
    + intros r p [?|[= -> ->]%list_elem_of_singleton]%elem_of_app ??; [by apply Hc|].
      apply Hm, list_elem_of_fmap in E as (c & E & ?). by exists c.
  - unfold conns_ok; cbn [g_connsMap g_Conns]. rewrite fmap_app. split_and!.
    + intros k. rewrite elem_of_union, elem_of_app, Hm. set_solver.
    + apply NoDup_app. split_and!; [done| |repeat constructor; set_solver].
      intros k Hk ->%list_elem_of_singleton. apply E. by apply Hm.
    + intros c [(r & p & ? & ?)%Hs| ->%list_elem_of_singleton]%elem_of_app; [exists r, p; set_solver|].
      exists rpc, peer. split_and!; [set_solver|done|done|]. by destruct (link_of rpc peer).
    + intros r p [?|[= -> ->]%list_elem_of_singleton]%elem_of_app ??.
      * destruct (Hc r p) as (c & ? & ?); [done..|]. exists c. set_solver.
      * eexists. split; [apply elem_of_app; right; by apply list_elem_of_singleton|done].
Qed.

Lemma edge_steps_ok s includeIDs ids items g :
  (forall id, set_has includeIDs id = true <-> id ∈ ids) -> g_Conns g = [] -> g_connsMap g = ∅ ->
  conns_ok s ids items (foldl (fun g p => edge_step includeIDs p.1 g p.2) g items).
Proof.
  intros Hids Hg Hm. induction items as [|[rpc peer] items IH] using rev_ind.
  { unfold conns_ok; cbn. rewrite Hg, Hm. split_and!; [set_solver|constructor|set_solver..]. }
  rewrite foldl_app. cbn [foldl fst snd]. rewrite edge_step_link.
  destruct (drawable includeIDs rpc peer) eqn:E; unfold drawable in E.
  - apply andb_true_iff in E as [Hin Hne]. apply negb_true_iff, bool_decide_eq_false in Hne.
    apply Hids in Hin. by apply AddConn_ok.
  - destruct IH as (? & ? & Hs & Hc). split_and!; [done|done| |].
    + intros c (r & p & ? & ?)%Hs. exists r, p. set_solver.
    + intros r p [?|[= -> ->]%list_elem_of_singleton]%elem_of_app Hi Hn; [by apply Hc|].
      exfalso. apply Hids in Hi. rewrite Hi in E. cbn in E.
      apply negb_false_iff, bool_decide_eq_true in E. done.
Qed.

Lemma build_graph_ok s nodes edges :
  let g := build_graph s nodes edges in
  NoDup (node_ids g) /\ (forall id, id ∈ node_ids g <-> id ∈ rpc_ID <$> nodes) /\
  (forall r, r ∈ g_Nodes g -> r ∈ nodes) /\ conns_ok s (node_ids g) (edge_items s edges) g.
Proof.
  unfold build_graph. pose proof (node_steps_ok nodes) as Hn.
  destruct (foldl node_step _ nodes) as [ids g0]. destruct Hn as (Hnd & Hseen & Hids & Hc & Hm & Hsub).
  cbn [fst snd] in *. rewrite foldl_edges. unfold node_ids in *. rewrite foldl_edge_nodes.
  split_and!; try done. by apply edge_steps_ok.
Qed.

(** C37: Whatever the two orders in which the set of included nodes is ranged over,
    the graph has one node per identifier of an included node, at most one
    connection per pair of end points, no self loop and no dangling end point,
    and every connection is a recorded peer entry of an included node, drawn
    from the dialling side. *)
Theorem build_graph_sound s nodes edges (Hsame : forall r, r ∈ edges -> r ∈ nodes) :
  let g := build_graph s nodes edges in
  NoDup (node_ids g) /\ (forall id, id ∈ node_ids g <-> id ∈ rpc_ID <$> nodes) /\
  NoDup ((fun c => (conn_From c, conn_To c)) <$> g_Conns g) /\
  (forall c, c ∈ g_Conns g ->
     conn_From c ∈ node_ids g /\ conn_To c ∈ node_ids g /\ conn_From c <> conn_To c /\
     exists rpc peer, rpc ∈ edges /\ peer ∈ RPCPeers s (rpc_URL rpc) /\
       (conn_From c, conn_To c) = link_of rpc peer).
Proof.
  intros g. destruct (build_graph_ok s nodes edges) as (Hnd & Hids & _ & (_ & Hk & Hs & _)).
  fold g in Hnd, Hids, Hk, Hs. split_and!; [done|done| |].
  - apply (NoDup_fmap_1 (fun p => p.1 +:+ p.2)). by rewrite <-list_fmap_compose.
  - intros c Hc. destruct (Hs c Hc) as (rpc & peer & [He Hp]%elem_of_edge_items & Hin & Hne & Hl).
    assert (Hr : rpc_ID rpc ∈ node_ids g).
    { apply Hids, list_elem_of_fmap. exists rpc. split; [done|]. by apply Hsame. }
    unfold link_of in *. assert (Hl' := Hl). destruct (peer_IsOutbound peer) eqn:Eo; injection Hl' as -> ->;
      (split_and!; [done..|congruence|exists rpc, peer; by rewrite Eo]).
Qed.

Lemma append_inj_len a b c d : slen a = slen c -> a +:+ b = c +:+ d -> a = c /\ b = d.
Proof.
  unfold slen. revert c. induction a as [|x a IH]; intros [|y c] Hl; try done.
  rewrite !append_cons. intros [= -> H]. cbn in Hl. destruct (IH c) as [-> ->]; [lia|done|done].
Qed.

(** When all identifiers have one length, as CometBFT's do, no connection is
    lost: every peer entry between two distinct nodes of the graph is drawn. *)
Theorem build_graph_complete s nodes edges len
    (Hsame : forall r, r ∈ edges -> r ∈ nodes)
    (Hlen : forall id, id ∈ rpc_ID <$> nodes -> slen id = len) :
  let g := build_graph s nodes edges in
  forall rpc peer, rpc ∈ edges -> peer ∈ RPCPeers s (rpc_URL rpc) ->
    peer_ID peer ∈ rpc_ID <$> nodes -> peer_ID peer <> rpc_ID rpc ->
    link_of rpc peer ∈ (fun c => (conn_From c, conn_To c)) <$> g_Conns g.
Proof.
  intros g rpc peer Hr Hp Hid Hne.
  destruct (build_graph_ok s nodes edges) as (_ & Hids & _ & (_ & _ & Hs & Hc)).
  fold g in Hids, Hs, Hc.
  destruct (Hc rpc peer) as (c & Hcg & Hk); [by apply elem_of_edge_items|by apply Hids|done|].
  destruct (Hs c Hcg) as (r' & p' & [Hr' Hp']%elem_of_edge_items & Hin' & _ & Hl').
  apply list_elem_of_fmap. exists c. split; [|done].
  assert (Hlr : forall r p, r ∈ edges -> peer_ID p ∈ rpc_ID <$> nodes -> slen (link_of r p).1 = len).
  { intros r p Hre Hpe. unfold link_of. destruct (peer_IsOutbound p); cbn; apply Hlen; [|done].
    apply list_elem_of_fmap. exists r. split; [done|]. by apply Hsame. }
  unfold conn_key in Hk. apply append_inj_len in Hk as [Hf Ht].
  - destruct (link_of rpc peer). cbn in *. congruence.
  - rewrite Hlr by done. change (conn_From c) with ((conn_From c, conn_To c).1). rewrite Hl'.
    apply Hlr; [done|]. by apply Hids.
Qed.

(** *** [ComputeTopology] *)

Lemma included_spec s req x :
  0 <= CrawlDistance req ->
  x ∈ included s req <-> exists url home, url ∈ IncludeNodes req /\ om_get (KnownRPCs s) url = Some home /\
    within s (MinBytesSec req) (Z.to_nat (CrawlDistance req)) home x.
Proof.
  intros Hd. unfold included. rewrite set_range_elem.
  assert (Hgen : forall l acc, set_has (foldl (include_step s req) acc l) x = true <->
    set_has acc x = true \/ exists url home, url ∈ l /\ om_get (KnownRPCs s) url = Some home /\
      within s (MinBytesSec req) (Z.to_nat (CrawlDistance req)) home x).
  { induction l as [|u l IH]; intros acc; cbn [foldl]; [set_solver|]. rewrite IH.
    unfold include_step at 1. destruct (om_get (KnownRPCs s) u) as [home|] eqn:E.
    - destruct (crawl_spec s home (CrawlDistance req) (MinBytesSec req) Hd) as (v & Hv & Hx).
      rewrite Hv, set_has_add_all, set_range_elem, Hx. setoid_rewrite elem_of_cons. split.
      + intros [[?|Hw]|(url & h & ? & ?)]; [by left| |].
        * right. exists u, home. by split; [left|].
        * right. exists url, h. by split; [right|].
      + intros [?|(url & h & [->|Hu] & Hg & Hw)]; [by left; left| |right; by exists url, h].
        left. right. congruence.
    - setoid_rewrite elem_of_cons. split.
      + intros [?|(url & h & ? & ?)]; [by left|right; exists url, h; split; [by right|done]].
      + intros [?|(url & h & [->|?] & Hg & ?)]; [by left|congruence|right; by exists url, h]. }
  rewrite Hgen, set_has_new. split; [by intros [?|?]|by right].
Qed.

(** The response's nodes are, up to their identifier, the nodes within the
    crawl distance of a requested URL the program knows; an unknown URL is skipped. *)
Theorem ComputeTopology_nodes s req (Hd : 0 <= CrawlDistance req) id :
  id ∈ node_ids (ComputeTopology s req) <->
  exists url home x, url ∈ IncludeNodes req /\ om_get (KnownRPCs s) url = Some home /\
    within s (MinBytesSec req) (Z.to_nat (CrawlDistance req)) home x /\ rpc_ID x = id.
Proof.
  unfold ComputeTopology. destruct (build_graph_ok s (included s req) (included s req)) as (_ & Hids & _).
  rewrite Hids, list_elem_of_fmap. setoid_rewrite included_spec; [|done]. naive_solver.
Qed.
End GraphFacts.

(** ** The DOT graph loses the connections *)

Section DOTFacts.
Lemma dot_node_steps new_id req nodes n ids g :
  let r := foldl (dot_node_step new_id req) (ids, g) (imap (fun i x => (n + i, x)%nat) nodes) in
  dom r.1 ⊆ dom ids ∪ list_to_set (rpc_URL <$> nodes) /\ dot_edges r.2 = dot_edges g.
Proof.
  revert n ids g. induction nodes as [|rpc nodes IH]; intros n ids g; cbn [imap foldl]; [set_solver|].
  unfold dot_node_step at 2. cbn [fst snd].
  rewrite (imap_ext _ (fun i x => ((S n) + i, x)%nat)) by (intros; cbn; f_equal; lia).
  destruct (IH (S n) (<[rpc_URL rpc := new_id (n + 0)%nat]> ids)
    (mkDOT (dot_nodes g ++ [NewDOTPeerNode (new_id (n + 0)%nat) rpc
      (if highlighted req rpc then "crimson" else "cadetblue")]) (dot_edges g))) as [H1 H2].
  split; [|done]. set_solver.
Qed.

Lemma dot_conn_steps_none nodeIDs conns g :
  (forall c, c ∈ conns -> conn_From c ∉ dom nodeIDs) -> foldl (dot_conn_step nodeIDs) g conns = g.
Proof.
  revert g. induction conns as [|c conns IH]; intros g H; [done|]. cbn.
  unfold dot_conn_step at 2. rewrite (proj1 (not_elem_of_dom nodeIDs _)) by set_solver. apply IH. set_solver.
Qed.

Lemma color_path_no_edge g p g' : dot_edges g = [] -> color_path g p = Ok g' -> dot_edges g' = [].
Proof.
  revert g. induction p as [|u [|v p] IH]; intros g Hg; cbn [color_path]; [by intros [= <-]|by intros [= <-]|].
  unfold has_edge. by rewrite Hg.
Qed.

Lemma color_pairs_no_edge pb ns g g' : dot_edges g = [] -> color_pairs pb g ns = Ok g' -> dot_edges g' = [].
Proof.
  revert g. induction ns as [|n ns IH]; intros g Hg; cbn [color_pairs]; [by intros [= <-]|].
  destruct (foldM _ g ns) as [g1| |] eqn:E; cbn; [|done..]. apply IH.
  clear IH. revert g Hg E. induction ns as [|m ns IHns]; intros g Hg; cbn; [by intros [= <-]|].
  destruct (pb g n m) as [p|]; cbn; [|by apply IHns].
  destruct (color_path g p) as [g2| |] eqn:Ep; cbn; [|done..].
  apply IHns. by eapply color_path_no_edge.
Qed.

(** The DOT graph indexes its nodes by URL and looks connections up by
    identifier; when no node's identifier is a node's URL, which holds for every
    real deployment, it has no edge at all, whatever the topology's connections. *)
Theorem dot_has_no_edges new_id path_between topology req g
    (Hid : forall c, c ∈ g_Conns topology -> conn_From c ∉ rpc_URL <$> g_Nodes topology)
    (Hrun : ComputeTopologyDOT new_id path_between topology req = Ok g) :
  dot_edges g = [].
Proof.
  unfold ComputeTopologyDOT in Hrun.
  pose proof (dot_node_steps new_id req (g_Nodes topology) 0 ∅ (mkDOT [] [])) as Hn. cbv zeta in Hn.
  rewrite (imap_ext _ pair) in Hn by done. destruct (foldl (dot_node_step new_id req) _ _) as [ids g0].
  destruct Hn as [Hdom He]. cbn [fst snd dot_edges] in *.
  rewrite dot_conn_steps_none in Hrun.
  - by eapply color_pairs_no_edge.
  - intros c Hc Hin. apply (Hid c Hc). set_solver.
Qed.
End DOTFacts.

(** ** Concrete topologies *)

Section TopologyExamples.
Definition link_status (rate : Z) : ConnectionStatus := mkConnectionStatus 0 (flow_at 0 rate) (flow_at 0 0) [].
Definition example_peer (id ip : string) (out : bool) (rate : Z) : Peer :=
  mkPeer (mkNodeInfo (mkProtocolVersion 8 11 0) id "" "net" "0.38" "" "peer" (mkNodeInfoOther "on" "tcp://0.0.0.0:26657"))
    out (link_status rate) ip.
Definition home_rpc : RPC := mkRPC "aa" "10.0.0.1" "http://home:26657" "home" "" "".
Definition far_rpc : RPC := NewRPCFromPeer (example_peer "bb" "10.0.0.2" true 900).
Definition example_state : State :=
  AddRPCPeers (rpc_URL far_rpc) [example_peer "cc" "10.0.0.3" false 900; example_peer "aa" "10.0.0.1" false 900]
    (AddRPCPeers "http://home:26657" [example_peer "bb" "10.0.0.2" true 900; example_peer "dd" "10.0.0.4" true 3]
       (AddKnownRPC home_rpc (NewState "http://home:26657" 0))).
Definition example_req : ComputeTopologyRequest :=
  mkRequest "http://home:26657" ["http://home:26657"; "http://unknown"] 2 100 ["home"] "dot".

Example topology_ex :
  rpc_ID <$> g_Nodes (ComputeTopology example_state example_req) = ["aa"; "bb"; "cc"] /\
  (fun c => (conn_From c, conn_To c)) <$> g_Conns (ComputeTopology example_state example_req) = [("aa", "bb"); ("cc", "bb")].
Proof. vm_compute. done. Qed.

Lemma crawl_exact_witness :
  exists v, stackBasedCrawl example_state home_rpc 2 100 = Some v /\
    forall x, set_has v x = true <-> within example_state 100 2 home_rpc x.
Proof. apply (crawl_exact example_state home_rpc 2 100). lia. Defined.

Lemma build_graph_sound_witness :
  NoDup (node_ids (build_graph example_state [home_rpc; far_rpc] [far_rpc; home_rpc])).
Proof. apply (build_graph_sound example_state [home_rpc; far_rpc] [far_rpc; home_rpc]). set_solver. Defined.

Lemma build_graph_complete_witness :
  ("aa", "bb") ∈ (fun c => (conn_From c, conn_To c)) <$>
    g_Conns (build_graph example_state [home_rpc; far_rpc] [far_rpc; home_rpc]).
Proof.
  apply (build_graph_complete example_state [home_rpc; far_rpc] [far_rpc; home_rpc] 2) with
    (rpc := home_rpc) (peer := example_peer "bb" "10.0.0.2" true 900).
  - set_solver.
  - intros id [->|[->|[]%not_elem_of_nil]%elem_of_cons]%elem_of_cons; done.
  - set_solver.
  - vm_compute. by left.
  - vm_compute. right. by left.
  - done.
Defined.

Lemma ComputeTopology_nodes_witness :
  "aa" ∈ node_ids (ComputeTopology example_state example_req) <->
  exists url home x, url ∈ IncludeNodes example_req /\ om_get (KnownRPCs example_state) url = Some home /\
    within example_state 100 2 home x /\ rpc_ID x = "aa".
Proof. apply (ComputeTopology_nodes example_state example_req ltac:(cbn; lia) "aa"). Defined.

Lemma dot_has_no_edges_witness :
  exists g, ComputeTopologyDOT (fun i => Z.of_nat i) (fun _ _ _ => None)
    (ComputeTopology example_state example_req) example_req = Ok g /\
    g_Conns (ComputeTopology example_state example_req) <> [] /\ dot_edges g = [].
Proof.
  eexists. split; [reflexivity|]. split; [by vm_compute|].
  eapply (dot_has_no_edges (fun i => Z.of_nat i) (fun _ _ _ => None) (ComputeTopology example_state example_req) example_req);
    [|reflexivity].
  intros c Hc Hin. assert (E : Forall (fun c => conn_From c = "aa" \/ conn_From c = "cc")
    (g_Conns (ComputeTopology example_state example_req))) by (vm_compute; repeat constructor; auto).
  rewrite Forall_forall in E. specialize (E c Hc).
  assert (Hu : Forall (fun u => u <> "aa" /\ u <> "cc") (rpc_URL <$> g_Nodes (ComputeTopology example_state example_req)))
    by (vm_compute; repeat constructor; done).
  rewrite Forall_forall in Hu. destruct (Hu _ Hin), E; congruence.
Defined.

(** The key of a connection is the concatenation of its ends: with identifiers of
    different lengths a second connection can be taken for the first and dropped. *)
Lemma AddConn_ambiguous_key st :
  g_Conns (AddConn (AddConn (mkGraph [] [] ∅) "a" "bc" st) "ab" "c" st) = [mkConn "a" "bc" st].
Proof. done. Qed.
End TopologyExamples.
