(* ===== verification/Utils.v ===== *)
(** * Utilities ([pkg/utils])

    Padding, durations, block-time estimates, and the comparison of bech32
    addresses, over the program's own helper functions. *)

From S2P Require Import Prelude GoNum GoText GoTime Deps.
Local Open Scope Z_scope.

Definition ZeroOrPositiveDuration (duration : Z) : Z := if duration <? 0 then 0 else duration.

(** ** Padding *)

(** [for len(result) < desiredLength]; the fuel is the number of missing bytes. *)
Fixpoint pad_loop (missing : nat) (desiredLength : Z) (padLeft : bool) (result : string) : string :=
  match missing with
  | O => result
  | S m =>
      if Z.of_nat (slen result) <? desiredLength
      then pad_loop m desiredLength padLeft (if padLeft then result +:+ " " else " " +:+ result)
      else result
  end.

Definition PadAndTrim (source : string) (desiredLength : Z) (padLeft : bool) : res string :=
  let len := Z.of_nat (slen source) in
  if len <? desiredLength then Ok (pad_loop (Z.to_nat (desiredLength - len)) desiredLength padLeft source)
  else if desiredLength <? len then
    t ← slice 0 (desiredLength - 3) source; Ok (t +:+ "...")
  else Ok source.

Definition RightPadAndTrim (source : string) (desiredLength : Z) : res string := PadAndTrim source desiredLength false.
Definition LeftPadAndTrim (source : string) (desiredLength : Z) : res string := PadAndTrim source desiredLength true.

(** ** Durations *)

(** [time.Duration.Round] *)
Definition lessThanHalf (x y : Z) : bool := uint64 (uint64 x + uint64 x) <? uint64 y.
Definition Duration_Round (d m : Z) : Z :=
  if m <=? 0 then d
  else
    let r := Z.rem d m in
    if d <? 0 then
      let r := int64 (- r) in
      if lessThanHalf r m then int64 (d + r)
      else let d1 := int64 (int64 (d - m) + r) in if d1 <? d then d1 else MinInt64
    else
      if lessThanHalf r m then int64 (d - r)
      else let d1 := int64 (int64 (d + m) - r) in if d <? d1 then d1 else MaxInt64.

Definition SerializeDuration (duration : Z) : Z :=
  let denom := 10 ^ 3 in
  if Second <? duration then Duration_Round duration (Z.quot Second denom)
  else Duration_Round duration (Z.quot Millisecond denom).

(** [now] is the clock reading, in nanoseconds. *)
Definition CalculateTimeTillBlock (now currentHeight requiredHeight blockTime : Z) : Z :=
  let blocks := int64 (requiredHeight - currentHeight) in
  let seconds := f_int64 (f64_mul (f64_of_Z blocks) (Seconds blockTime)) in
  now + int64 (seconds * Second).

(** ** Searching and decoding *)

Fixpoint Find {T} (l : list T) (f : T -> bool) : option T :=
  match l with
  | [] => None
  | elt :: l' => if f elt then Some elt else Find l' f
  end.

(** [bech32.Decode] is the library's: the human-readable part and the data. *)
Class Bech32 := Bech32_Decode : string -> res (string * bytes).

Definition CompareTwoBech32 `{Bech32} (first second : string) : res bool :=
  a ← Bech32_Decode first;
  b ← Bech32_Decode second;
  Ok (bool_decide (a.2 = b.2)).

Definition HexToBytes (hexStr : string) : option bytes :=
  hex_decode (if has_prefix "0x" hexStr then sdrop 2 hexStr else hexStr).

(** ** Facts *)

Section UtilsFacts.

Lemma slen_spaces n : slen (spaces n) = n.
Proof. unfold slen. induction n as [|n IH]; cbn; [done|]. by rewrite IH. Qed.

Lemma spaces_snoc n : spaces n +:+ " " = spaces (S n).
Proof. induction n as [|n IH]; [done|]. cbn [spaces]. by rewrite append_cons, IH. Qed.

Lemma pad_loop_spec n s left :
  pad_loop n (Z.of_nat (slen s) + Z.of_nat n) left s = if left then s +:+ spaces n else spaces n +:+ s.
Proof.
  revert s. induction n as [|n IH]; intros s; cbn [pad_loop].
  - destruct left; [by rewrite append_nil_r|done].
  - destruct (Z.ltb_spec (Z.of_nat (slen s)) (Z.of_nat (slen s) + Z.of_nat (S n))); [|lia].
    specialize (IH (if left then s +:+ " " else " " +:+ s)).
    assert (El : slen (if left then s +:+ " " else " " +:+ s) = S (slen s)).
    { destruct left; rewrite slen_app; change (slen " ") with 1%nat; lia. }
    rewrite El in IH. replace (Z.of_nat (slen s) + Z.of_nat (S n)) with (Z.of_nat (S (slen s)) + Z.of_nat n) by lia.
    rewrite IH. destruct left; [by rewrite append_assoc|]. by rewrite <-append_assoc, spaces_snoc.
Qed.

Lemma stake_sdrop_0 n s : sdrop (Z.to_nat 0) s = s /\ stake n (sdrop (Z.to_nat 0) s) = stake n s.
Proof. by destruct s. Qed.

Lemma PadAndTrim_cases source desiredLength padLeft :
  let len := Z.of_nat (slen source) in
  PadAndTrim source desiredLength padLeft =
    if len <=? desiredLength then
      let pad := spaces (Z.to_nat (desiredLength - len)) in
      Ok (if padLeft then source +:+ pad else pad +:+ source)
    else if 3 <=? desiredLength then Ok (stake (Z.to_nat (desiredLength - 3)) source +:+ "...")
    else Panic.
Proof.
  cbv zeta. unfold PadAndTrim. set (len := Z.of_nat (slen source)).
  destruct (Z.ltb_spec len desiredLength), (Z.leb_spec len desiredLength); try lia.
  - f_equal. rewrite <-(pad_loop_spec (Z.to_nat (desiredLength - len)) source padLeft). f_equal. lia.
  - destruct (Z.ltb_spec desiredLength len); [lia|].
    replace (Z.to_nat (desiredLength - len)) with O by lia.
    destruct padLeft; [by rewrite append_nil_r|done].
  - destruct (Z.ltb_spec desiredLength len); [|lia]. unfold slice. rewrite Z.sub_0_r.
    destruct (stake_sdrop_0 (Z.to_nat (desiredLength - 3)) source) as [_ ->].
    destruct (Z.leb_spec 3 desiredLength), (Z.leb_spec 0 (desiredLength - 3)); try lia; cbn [andb]; [|done].
    fold len. by destruct (Z.leb_spec (desiredLength - 3) len); [|lia].
Qed.

(** Padding and trimming is total from width 3 on and then returns exactly the
    requested number of bytes, the source unchanged when it fits, and its
    beginning with an ellipsis otherwise; below width 3 a longer source panics. *)
Theorem PadAndTrim_spec source desiredLength padLeft :
  let len := Z.of_nat (slen source) in
  PadAndTrim source desiredLength padLeft =
    if len <=? desiredLength then
      let pad := spaces (Z.to_nat (desiredLength - len)) in
      Ok (if padLeft then source +:+ pad else pad +:+ source)
    else if 3 <=? desiredLength then Ok (stake (Z.to_nat (desiredLength - 3)) source +:+ "...")
    else Panic.
Proof. apply PadAndTrim_cases. Qed.

Lemma PadAndTrim_length source w left s :
  PadAndTrim source w left = Ok s -> Z.of_nat (slen s) = w.
Proof.
  rewrite PadAndTrim_cases. cbv zeta. case_match eqn:E1; [|case_match eqn:E2; [|done]].
  - intros [= <-]. destruct left; rewrite slen_app, slen_spaces; lia.
  - intros [= <-]. rewrite slen_app, slen_stake. change (slen "...") with 3%nat. lia.
Qed.

Lemma lessThanHalf_spec x y : 0 <= x < 2 ^ 62 -> 0 <= y < 2 ^ 62 -> lessThanHalf x y = (2 * x <? y).
Proof.
  intros Hx Hy. unfold lessThanHalf. rewrite (uint64_id x), (uint64_id y), uint64_id by lia. f_equal. lia.
Qed.

Lemma Duration_Round_near d m : 0 < m < 2 ^ 61 -> Z.abs d < 2 ^ 61 ->
  (m | Duration_Round d m) /\ 2 * Z.abs (Duration_Round d m - d) <= m.
Proof.
  intros Hm Hd. unfold Duration_Round. destruct (Z.leb_spec m 0); [lia|].
  pose proof (Z.quot_rem d m ltac:(lia)) as Hq. pose proof (Z.rem_bound_abs d m ltac:(lia)) as Hr.
  destruct (Z.ltb_spec d 0) as [Hn|Hp].
  - pose proof (Z.rem_nonpos d m ltac:(lia) ltac:(lia)). rewrite (int64_id (- Z.rem d m)) by go_lia.
    rewrite lessThanHalf_spec by lia. destruct (Z.ltb_spec (2 * - Z.rem d m) m).
    + rewrite int64_id by go_lia. split; [exists (Z.quot d m); lia|lia].
    + rewrite (int64_id (d - m)), int64_id by go_lia.
      destruct (Z.ltb_spec (d - m + - Z.rem d m) d); [|lia]. split; [exists (Z.quot d m - 1); lia|lia].
  - pose proof (Z.rem_nonneg d m ltac:(lia) ltac:(lia)). rewrite lessThanHalf_spec by lia.
    destruct (Z.ltb_spec (2 * Z.rem d m) m).
    + rewrite int64_id by go_lia. split; [exists (Z.quot d m); lia|lia].
    + rewrite (int64_id (d + m)), int64_id by go_lia.
      destruct (Z.ltb_spec d (d + m - Z.rem d m)); [|lia]. split; [exists (Z.quot d m + 1); lia|lia].
Qed.

Lemma SerializeDuration_near d : Z.abs d < 2 ^ 61 ->
  let unit := if Second <? d then 1000000 else 1000 in
  (unit | SerializeDuration d) /\ 2 * Z.abs (SerializeDuration d - d) <= unit.
Proof. intros Hd. unfold SerializeDuration. case_match; apply Duration_Round_near; vm_compute (_ / _) || idtac; try done. Qed.

Lemma PadAndTrim_total source w left : 3 <= w -> exists s, PadAndTrim source w left = Ok s.
Proof. intros Hw. rewrite PadAndTrim_cases. cbv zeta. destruct (_ <=? w); [by eexists|]. destruct (Z.leb_spec 3 w); [by eexists|lia]. Qed.

Lemma Find_Some {T} (l : list T) f x :
  Find l f = Some x <-> exists l1 l2, l = l1 ++ x :: l2 /\ f x = true /\ Forall (fun y => f y = false) l1.
Proof.
  induction l as [|y l IH]; cbn; [split; [done|intros ([|] & ? & ? & _); done]|].
  destruct (f y) eqn:E.
  - split; [intros [= ->]; exists [], l; by repeat split|].
    intros ([|z l1] & l2 & [= -> ->] & Hx & Hall); [done|]. inversion Hall; congruence.
  - rewrite IH. split.
    + intros (l1 & l2 & -> & Hx & Hall). exists (y :: l1), l2. split_and!; [done|done|by constructor].
    + intros ([|z l1] & l2 & [= -> ->] & Hx & Hall); [congruence|].
      inversion Hall; subst. by exists l1, l2.
Qed.

Lemma Find_None {T} (l : list T) f : Find l f = None <-> Forall (fun y => f y = false) l.
Proof.
  induction l as [|y l IH]; cbn; [by split|]. destruct (f y) eqn:E.
  - split; [done|]. intros H. inversion H; congruence.
  - rewrite IH. split; [by constructor|by inversion 1].
Qed.
(** With an average block time of whole seconds, the estimated time of a block
    lies exactly (required - current) block times after the clock reading. *)
Theorem CalculateTimeTillBlock_exact now current required secs
    (Hb : 0 <= required - current <= 2 ^ 53) (Hs : 0 <= secs <= 2 ^ 53)
    (Hfit : (required - current) * secs * Second <= MaxInt64) :
  CalculateTimeTillBlock now current required (secs * Second) =
  now + (required - current) * (secs * Second).
Proof.
  unfold CalculateTimeTillBlock. assert (Hp : 0 <= (required - current) * secs <= 2 ^ 53).
  { unfold Second, MaxInt64 in Hfit. nia. }
  rewrite (int64_id (required - current)) by go_lia.
  rewrite (f_is_int64 _ ((required - current) * secs)) by
    (try apply f_is_mul; first [by apply f64_of_Z_exact|by apply Seconds_whole|done|go_lia]).
  rewrite int64_id; [lia|]. unfold Second, is_int64, MinInt64, MaxInt64 in *. nia.
Qed.

Lemma CalculateTimeTillBlock_exact_witness :
  CalculateTimeTillBlock 1000 50 100 (6 * Second) = 1000 + (100 - 50) * (6 * Second).
Proof. apply (CalculateTimeTillBlock_exact 1000 50 100 6); [lia|lia|unfold Second, MaxInt64; lia]. Defined.
End UtilsFacts.
