(* ===== verification/Calendar.v ===== *)
(** * Instants as text ([pkg/types/net_info.go], [pkg/utils/utils.go])

    The Gregorian calendar both ways, the time stamps a node sends in its peer
    list ([CustomTime]), the remaining units of the peer records, and the texts of
    [SerializeTime].  An instant is a number of nanoseconds since January 1 of year
    1, UTC, as in [GoTime]. *)

From S2P Require Import Prelude GoNum GoText GoTime Deps Types Utils.
From Stdlib Require Import Ascii.
Local Open Scope Z_scope.

(** ** From an instant to a date *)

Definition Day_ns : Z := 24 * Hour.

(** The year of a day counted from January 1 of year 1, and the day in the year. *)
Definition year_of (d : Z) : Z * Z :=
  let n400 := d / 146097 in
  let r := d mod 146097 in
  let n100 := Z.min 3 (r / 36524) in
  let r := r - n100 * 36524 in
  let n4 := r / 1461 in
  let r := r mod 1461 in
  let n1 := Z.min 3 (r / 365) in
  (400 * n400 + 100 * n100 + 4 * n4 + n1 + 1, r - n1 * 365).

Definition month_len (leap : bool) (m : Z) : Z :=
  if m =? 2 then (if leap then 29 else 28)
  else if (m =? 4) || (m =? 6) || (m =? 9) || (m =? 11) then 30 else 31.

(** The month and the day in it, from zero. *)
Fixpoint month_of (fuel : nat) (leap : bool) (m yday : Z) : Z * Z :=
  match fuel with
  | O => (m, yday)
  | S fuel' => if yday <? month_len leap m then (m, yday) else month_of fuel' leap (m + 1) (yday - month_len leap m)
  end.

Record Civil := mkCivil { c_year : Z; c_month : Z; c_day : Z; c_hour : Z; c_min : Z; c_sec : Z; c_ns : Z }.

Definition civil_of (t : Z) : Civil :=
  let days := t / Day_ns in
  let r := t mod Day_ns in
  let '(y, yday) := year_of days in
  let '(m, d) := month_of 11 (is_leap y) 1 yday in
  mkCivil y m (d + 1) (r / Hour) (r / (60 * Second) mod 60) (r / Second mod 60) (r mod Second).

Definition instant (c : Civil) : Z :=
  civil (c_year c) (c_month c) (c_day c) (c_hour c) (c_min c) (c_sec c) (c_ns c).

(** January 1 of year 1 was a Monday. *)
Definition weekday (t : Z) : string :=
  nth (Z.to_nat ((t / Day_ns) mod 7)) ["Monday"; "Tuesday"; "Wednesday"; "Thursday"; "Friday"; "Saturday"; "Sunday"] "".

Definition month_abbrev (m : Z) : string :=
  nth (Z.to_nat (m - 1)) ["Jan"; "Feb"; "Mar"; "Apr"; "May"; "Jun"; "Jul"; "Aug"; "Sep"; "Oct"; "Nov"; "Dec"] "".

(** [appendInt]: padded with zeros to the width. *)
Definition append_int (width : nat) (x : Z) : string :=
  let sign := if x <? 0 then "-" else "" in
  let t := itoa (Z.abs x) in
  sign +:+ zeros (width - slen t) +:+ t.

(** ** [SerializeTime]: the layout RFC850, in the zone of the date

    [zone] is the time-zone database's abbreviation and offset in seconds; without
    an abbreviation the offset is printed. *)
Definition zone_text (abbreviation : string) (offset : Z) : string :=
  if bool_decide (abbreviation = "") then
    let minutes := Z.quot offset 60 in
    (if minutes <? 0 then "-" else "+") +:+ append_int 2 (Z.abs minutes / 60) +:+ append_int 2 (Z.abs minutes mod 60)
  else abbreviation.

Definition SerializeTime (zone : Z -> string * Z) (date : Z) : string :=
  let '(abbreviation, offset) := zone date in
  let local := date + offset * Second in
  let c := civil_of local in
  weekday local +:+ ", " +:+ append_int 2 (c_day c) +:+ "-" +:+ month_abbrev (c_month c) +:+ "-"
    +:+ append_int 2 (Z.max 0 (c_year c) mod 100) +:+ " " +:+ append_int 2 (c_hour c) +:+ ":"
    +:+ append_int 2 (c_min c) +:+ ":" +:+ append_int 2 (c_sec c) +:+ " " +:+ zone_text abbreviation offset.

(** ** [CustomTime]: the layout ["2006-01-02T15:04:05.99Z"] *)

(** [.99] when formatting: at most two decimals, no trailing zero, nothing for zero. *)
Definition centis_text (c : Z) : string :=
  if c =? 0 then "" else
  let t := append_int 2 c in
  "." +:+ (if c mod 10 =? 0 then stake 1 t else t).

Definition CustomTime_String (t : Z) : string :=
  let c := civil_of t in
  append_int 4 (c_year c) +:+ "-" +:+ append_int 2 (c_month c) +:+ "-" +:+ append_int 2 (c_day c) +:+ "T"
    +:+ append_int 2 (c_hour c) +:+ ":" +:+ append_int 2 (c_min c) +:+ ":" +:+ append_int 2 (c_sec c)
    +:+ centis_text (c_ns c / (10 * Millisecond)) +:+ "Z".

(** [.99] when parsing: any number of decimals, or none; beyond nine they are dropped. *)
Definition frac_chunk (s : string) : Z * string :=
  match s with
  | String c t =>
      let '(_, n, rest) := digit_run 0 0 t in
      if (Ascii.eqb c "." || Ascii.eqb c ",") && negb (n =? 0)%nat then
        let kept := Nat.min n 9 in
        ((digit_run 0 0 (stake kept t)).1.1 * 10 ^ (9 - Z.of_nat kept), rest)
      else (0, s)
  | EmptyString => (0, s)
  end.

Definition CustomTime_Parse (s : string) : option Z :=
  let '(y, n, _) := digit_run 0 0 (stake 4 s) in
  if negb (n =? 4)%nat then None else
  t ← is_char "-" (sdrop 4 s); p ← getnum true t; let '(mo, t) := p in
  t ← is_char "-" t; p ← getnum true t; let '(d, t) := p in
  t ← is_char "T" t; p ← getnum false t; let '(h, t) := p in
  t ← is_char ":" t; p ← getnum true t; let '(mi, t) := p in
  t ← is_char ":" t; p ← getnum true t; let '(sec, t) := p in
  let '(ns, t) := frac_chunk t in
  t ← is_char "Z" t;
  if bool_decide (t = "") && (1 <=? mo) && (mo <=? 12) && (1 <=? d) && (d <=? days_in mo y) && (h <? 24) && (mi <? 60) && (sec <? 60)
  then Some (civil y mo d h mi sec ns) else None.

(** [None] is the error of [time.Parse]; the slice [s[1:len(s)-1]] can panic. *)
Definition CustomTime_UnmarshalJSON (b : bytes) : res (option Z) :=
  s ← CustomTime_text b; Ok (CustomTime_Parse s).

(** ** The other units of the peer records *)

Definition NanoDuration_String (nd : Z) : string := Duration_String nd.

(** [float64(p) * 1e-3], [p] an unsigned 32-bit number of thousandths. *)
Definition Percent_Float (p : Z) : gofloat := f64_mul (f64_of_Z p) (f64_round (1 # 1000)).

Example time_ex :
  CustomTime_String (civil 2024 2 29 23 59 59 120000000) = "2024-02-29T23:59:59.12Z" /\
  CustomTime_Parse "2024-02-29T23:59:59.1234567891Z" = Some (civil 2024 2 29 23 59 59 123456789) /\
  CustomTime_Parse "2023-02-29T23:59:59Z" = None /\
  SerializeTime (fun _ => ("UTC", 0)) (civil 2024 2 29 23 59 59 0) = "Thursday, 29-Feb-24 23:59:59 UTC".
Proof. vm_compute. done. Qed.

(** ** Facts *)

(** *** The calendar *)

Lemma days_in_len m y : days_in m y = month_len (is_leap y) m.
Proof. reflexivity. Qed.

Definition before_month (leap : bool) (m : Z) : Z :=
  sumz ((fun k => month_len leap (Z.of_nat k + 1)) <$> seq 0 (Z.to_nat (m - 1))).

Lemma days_before_month_len m y : days_before_month m y = before_month (is_leap y) m.
Proof. reflexivity. Qed.

Definition year_len (leap : bool) : Z := if leap then 366 else 365.

(** A property of the small numbers below a bound, by evaluation. *)
Lemma below (P : Z -> bool) (n : nat) : forallb P (Z.of_nat <$> seq 0 n) = true -> forall x, 0 <= x < Z.of_nat n -> P x = true.
Proof.
  rewrite forallb_forall. intros H x Hx. apply H, list_elem_of_In, list_elem_of_fmap.
  exists (Z.to_nat x). split; [lia|]. apply elem_of_seq. lia.
Qed.

Lemma month_of_spec leap yday : 0 <= yday < year_len leap ->
  let '(m, d) := month_of 11 leap 1 yday in
  1 <= m <= 12 /\ 0 <= d < month_len leap m /\ before_month leap m + d = yday.
Proof.
  set (P := fun yday => let '(m, d) := month_of 11 leap 1 yday in
    (1 <=? m) && (m <=? 12) && (0 <=? d) && (d <? month_len leap m) && (before_month leap m + d =? yday)).
  assert (HP : forall x, 0 <= x < Z.of_nat (Z.to_nat (year_len leap)) -> P x = true).
  { apply below. destruct leap; vm_compute; reflexivity. }
  intros Hy. specialize (HP yday ltac:(destruct leap; cbn in *; lia)). unfold P in HP.
  destruct (month_of 11 leap 1 yday) as [m d]. lia.
Qed.

Lemma month_of_before leap m d : 1 <= m <= 12 -> 0 <= d < month_len leap m ->
  month_of 11 leap 1 (before_month leap m + d) = (m, d) /\ 0 <= before_month leap m + d < year_len leap.
Proof.
  set (P := fun x => let m := x / 31 + 1 in let d := x mod 31 in
    negb (d <? month_len leap m) ||
    (bool_decide (month_of 11 leap 1 (before_month leap m + d) = (m, d)) &&
     (0 <=? before_month leap m + d) && (before_month leap m + d <? year_len leap))).
  assert (HP : forall x, 0 <= x < Z.of_nat 372 -> P x = true) by (apply below; destruct leap; vm_compute; reflexivity).
  intros Hm Hd. assert (Hlen : month_len leap m <= 31) by (unfold month_len; destruct leap; repeat case_match; lia).
  assert (Em : (31 * (m - 1) + d) / 31 + 1 = m) by (clear P HP; Z.to_euclidean_division_equations; lia).
  assert (Ed : (31 * (m - 1) + d) mod 31 = d) by (clear P HP; rewrite Z.mod_eq by done; lia).
  specialize (HP (31 * (m - 1) + d) ltac:(lia)). unfold P in HP.
  rewrite Em, Ed in HP. rewrite (proj2 (Z.ltb_lt d (month_len leap m)) (proj2 Hd)) in HP. cbn [negb orb] in HP. clear P. case_bool. done.
Qed.

(** The number of days of a year, and the years in order. *)
Lemma year_step y : days_before_year (y + 1) = days_before_year y + year_len (is_leap y).
Proof.
  unfold days_before_year, year_len, is_leap. replace (y + 1 - 1) with y by lia.
  destruct (Z.eqb_spec (y mod 4) 0), (Z.eqb_spec (y mod 100) 0), (Z.eqb_spec (y mod 400) 0); cbn [andb orb negb];
    Z.to_euclidean_division_equations; lia.
Qed.

Lemma year_mono y y' : y <= y' -> days_before_year y <= days_before_year y'.
Proof. unfold days_before_year. intros Hy. Z.to_euclidean_division_equations. lia. Qed.

Lemma year_unique d y y' :
  days_before_year y <= d < days_before_year (y + 1) -> days_before_year y' <= d < days_before_year (y' + 1) -> y = y'.
Proof.
  intros H H'. destruct (Z.lt_trichotomy y y') as [Hl|[->|Hl]]; [|done|].
  - pose proof (year_mono (y + 1) y' ltac:(lia)). lia.
  - pose proof (year_mono (y' + 1) y ltac:(lia)). lia.
Qed.

Lemma year_of_spec d : let '(y, yday) := year_of d in
  days_before_year y + yday = d /\ 0 <= yday < year_len (is_leap y).
Proof.
  unfold year_of. cbv zeta.
  set (a := d / 146097). set (r := d mod 146097). set (b := Z.min 3 (r / 36524)). set (r1 := r - b * 36524).
  set (c := r1 / 1461). set (r2 := r1 mod 1461). set (e := Z.min 3 (r2 / 365)).
  assert (Hd : d = 146097 * a + r /\ 0 <= r < 146097) by (unfold a, r; Z.to_euclidean_division_equations; lia).
  assert (Hb : 0 <= b <= 3 /\ 0 <= r1 /\ (b < 3 -> r1 < 36524) /\ r1 <= 36524) by (unfold b, r1; Z.to_euclidean_division_equations; lia).
  assert (Hc : r1 = 1461 * c + r2 /\ 0 <= r2 < 1461) by (unfold c, r2; Z.to_euclidean_division_equations; lia).
  assert (He : 0 <= e <= 3 /\ 0 <= r2 - e * 365 <= 365 /\ (e < 3 -> r2 - e * 365 < 365)) by (unfold e; Z.to_euclidean_division_equations; lia).
  assert (Hc' : 0 <= c <= 24) by lia.
  assert (Hy : days_before_year (400 * a + 100 * b + 4 * c + e + 1) = 146097 * a + 36524 * b + 1461 * c + 365 * e).
  { unfold days_before_year. replace (400 * a + 100 * b + 4 * c + e + 1 - 1) with (400 * a + 100 * b + 4 * c + e) by lia.
    assert ((400 * a + 100 * b + 4 * c + e) / 4 = 100 * a + 25 * b + c) as -> by (Z.to_euclidean_division_equations; lia).
    assert ((400 * a + 100 * b + 4 * c + e) / 100 = 4 * a + b) as -> by (Z.to_euclidean_division_equations; lia).
    assert ((400 * a + 100 * b + 4 * c + e) / 400 = a) as -> by (Z.to_euclidean_division_equations; lia). lia. }
  split; [rewrite Hy; unfold r1 in *; lia|]. split; [lia|].
  assert (Hl : e = 3 -> r2 - e * 365 = 365 -> is_leap (400 * a + 100 * b + 4 * c + e + 1) = true).
  { intros E3 E365. unfold is_leap. rewrite E3 in *.
    destruct (Z.eq_dec c 24) as [E24|N24].
    - assert (b = 3) as -> by lia. rewrite E24.
      assert (Hm : forall k, k = 4 \/ k = 400 -> (400 * a + 100 * 3 + 4 * 24 + 3 + 1) mod k = 0).
      { intros k [->| ->]; Z.to_euclidean_division_equations; lia. }
      rewrite (Hm 4), (Hm 400) by auto. by rewrite orb_true_r.
    - assert ((400 * a + 100 * b + 4 * c + 3 + 1) mod 4 = 0) as -> by (Z.to_euclidean_division_equations; lia).
      destruct (Z.eqb_spec ((400 * a + 100 * b + 4 * c + 3 + 1) mod 100) 0) as [E|]; [|done].
      exfalso. revert E. Z.to_euclidean_division_equations. lia. }
  unfold year_len. destruct (is_leap _) eqn:El; [lia|].
  destruct (Z.eq_dec e 3) as [E3|]; [|lia]. destruct (Z.eq_dec (r2 - e * 365) 365) as [E|]; [|lia].
  exfalso. specialize (Hl E3 E). congruence.
Qed.

(** A date that exists. *)
Definition date_ok (c : Civil) : Prop :=
  1 <= c_month c <= 12 /\ 1 <= c_day c <= days_in (c_month c) (c_year c) /\
  0 <= c_hour c < 24 /\ 0 <= c_min c < 60 /\ 0 <= c_sec c < 60 /\ 0 <= c_ns c < Second.

(** The time of day, as [civil] adds it up. *)
Definition time_of_day (h mi s ns : Z) : Z := (h * 60 + mi) * 60 * Second + s * Second + ns.

Lemma civil_split y mo d h mi s ns :
  civil y mo d h mi s ns = (days_before_year y + days_before_month mo y + (d - 1)) * Day_ns + time_of_day h mi s ns.
Proof. unfold civil, time_of_day, Day_ns. change Hour with (3600 * Second). lia. Qed.

Lemma time_of_day_parts h mi s ns :
  0 <= h < 24 -> 0 <= mi < 60 -> 0 <= s < 60 -> 0 <= ns < Second ->
  let r := time_of_day h mi s ns in
  0 <= r < Day_ns /\ r / Hour = h /\ r / (60 * Second) mod 60 = mi /\ r / Second mod 60 = s /\ r mod Second = ns.
Proof.
  intros Hh Hmi Hs Hns r. unfold r, time_of_day, Day_ns. change Hour with (3600 * 1000000000). change Second with 1000000000 in *.
  change (60 * 1000000000) with 60000000000. change (24 * (3600 * 1000000000)) with 86400000000000.
  change (3600 * 1000000000) with 3600000000000.
  assert (E1 : ((h * 60 + mi) * 60 * 1000000000 + s * 1000000000 + ns) / 3600000000000 = h) by (Z.to_euclidean_division_equations; lia).
  assert (E2 : ((h * 60 + mi) * 60 * 1000000000 + s * 1000000000 + ns) / 60000000000 = h * 60 + mi) by (Z.to_euclidean_division_equations; lia).
  assert (E3 : ((h * 60 + mi) * 60 * 1000000000 + s * 1000000000 + ns) / 1000000000 = (h * 60 + mi) * 60 + s) by (Z.to_euclidean_division_equations; lia).
  rewrite E1, E2, E3. rewrite (Z.mod_eq _ 1000000000), E3 by done.
  rewrite (Z.add_comm (h * 60)), Z_mod_plus_full, (Z.add_comm _ s), Z_mod_plus_full, !Z.mod_small by lia. lia.
Qed.

(** Every instant is the instant of its date, which exists. *)
Lemma civil_of_instant t : instant (civil_of t) = t /\ date_ok (civil_of t).
Proof.
  unfold civil_of. cbv zeta. pose proof (year_of_spec (t / Day_ns)) as Hy. destruct (year_of (t / Day_ns)) as [y yday].
  destruct Hy as [Hy Hyday]. pose proof (month_of_spec (is_leap y) yday Hyday) as Hm.
  destruct (month_of 11 (is_leap y) 1 yday) as [m d]. destruct Hm as (Hm & Hd & Hb).
  unfold instant, date_ok; cbn [c_year c_month c_day c_hour c_min c_sec c_ns]. rewrite days_in_len.
  rewrite civil_split, days_before_month_len. unfold time_of_day.
  assert (Hr : 0 <= t mod Day_ns < Day_ns /\ t = (t / Day_ns) * Day_ns + t mod Day_ns).
  { change Day_ns with 86400000000000. Z.to_euclidean_division_equations. lia. }
  destruct Hr as [Hr Et]. remember (t mod Day_ns) as r eqn:Er. clear Er.
  assert (Hparts : (r / Hour * 60 + r / (60 * Second) mod 60) * 60 * Second + r / Second mod 60 * Second + r mod Second = r /\
    0 <= r / Hour < 24 /\ 0 <= r / (60 * Second) mod 60 < 60 /\ 0 <= r / Second mod 60 < 60 /\ 0 <= r mod Second < Second).
  { revert Hr. change Day_ns with 86400000000000. change Hour with 3600000000000. change Second with 1000000000.
    change (60 * 1000000000) with 60000000000. intros Hr. clear -Hr. Z.to_euclidean_division_equations. lia. }
  destruct Hparts as [-> Hp]. split; [|lia]. change Day_ns with 86400000000000 in *. lia.
Qed.

(** And a date that exists is the date of its instant. *)
Lemma instant_civil_of c : date_ok c -> civil_of (instant c) = c.
Proof.
  destruct c as [y m d h mi s ns]. unfold date_ok; cbn [c_year c_month c_day c_hour c_min c_sec c_ns].
  rewrite days_in_len. intros (Hm & Hd & Hh & Hmi & Hs & Hns). unfold instant; cbn [c_year c_month c_day c_hour c_min c_sec c_ns]. rewrite civil_split, days_before_month_len.
  destruct (time_of_day_parts h mi s ns Hh Hmi Hs Hns) as (Hr & E1 & E2 & E3 & E4). cbv zeta in *.
  destruct (month_of_before (is_leap y) m (d - 1) Hm ltac:(lia)) as [Hmo Hyd].
  set (D := days_before_year y + before_month (is_leap y) m + (d - 1)).
  assert (Ed : (D * Day_ns + time_of_day h mi s ns) / Day_ns = D)
    by (rewrite Z.div_add_l by done; rewrite Z.div_small by done; lia).
  assert (Em : (D * Day_ns + time_of_day h mi s ns) mod Day_ns = time_of_day h mi s ns)
    by (rewrite Z.add_comm, Z_mod_plus_full; by apply Z.mod_small).
  unfold civil_of. cbv zeta. rewrite Ed, Em, E1, E2, E3, E4.
  pose proof (year_of_spec D) as Hy. destruct (year_of D) as [y' yday]. destruct Hy as [Hy Hyday].
  assert (y' = y) as ->.
  { apply (year_unique D); rewrite year_step; unfold D in *; lia. }
  assert (yday = before_month (is_leap y) m + (d - 1)) as -> by (unfold D in *; lia).
  rewrite Hmo. f_equal. lia.
Qed.

(** *** The digits of a time stamp *)

Lemma append_int_2 n : 0 <= n < 100 ->
  exists a b, append_int 2 n = String a (String b "") /\ digit_val a = Some (n / 10) /\ digit_val b = Some (n mod 10).
Proof.
  set (P := fun n => match append_int 2 n with
    | String a (String b "") => bool_decide (digit_val a = Some (n / 10)) && bool_decide (digit_val b = Some (n mod 10))
    | _ => false end).
  assert (HP : forall x, 0 <= x < Z.of_nat 100 -> P x = true) by (apply below; vm_compute; reflexivity).
  intros Hn. specialize (HP n Hn). unfold P in HP.
  destruct (append_int 2 n) as [|a [|b [|]]]; try done. case_bool. eauto.
Qed.

Lemma getnum_2 fixed n s : 0 <= n < 100 -> getnum fixed (append_int 2 n +:+ s) = Some (n, s).
Proof.
  intros Hn. destruct (append_int_2 n Hn) as (a & b & -> & Ha & Hb). rewrite !append_cons, append_nil_l. cbn.
  rewrite Ha. cbn. rewrite Hb. do 2 f_equal. pose proof (Z.div_mod n 10). lia.
Qed.

Lemma year_4 y s : 0 <= y <= 9999 ->
  digit_run 0 0 (stake 4 (append_int 4 y +:+ s)) = (y, 4%nat, "") /\ sdrop 4 (append_int 4 y +:+ s) = s.
Proof.
  set (P := fun y => bool_decide (slen (append_int 4 y) = 4%nat) && bool_decide (digit_run 0 0 (append_int 4 y) = (y, 4%nat, ""))).
  assert (HP : forall x, 0 <= x < Z.of_nat (100 * 100) -> P x = true) by (apply below; vm_compute; reflexivity).
  intros Hy. specialize (HP y ltac:(lia)). unfold P in HP. clear P. case_bool.
  by rewrite stake_app, sdrop_app.
Qed.

Lemma frac_centis c : 0 <= c < 100 -> frac_chunk (centis_text c +:+ "Z") = (c * (10 * Millisecond), "Z").
Proof.
  set (P := fun c => bool_decide (frac_chunk (centis_text c +:+ "Z") = (c * (10 * Millisecond), "Z"))).
  assert (HP : forall x, 0 <= x < Z.of_nat 100 -> P x = true) by (apply below; vm_compute; reflexivity).
  intros Hc. specialize (HP c Hc). unfold P in HP. by apply bool_decide_eq_true in HP.
Qed.

Lemma is_char_cons c s : is_char c (String c s) = Some s.
Proof. cbn. by rewrite Ascii.eqb_refl. Qed.

(** The instant without what [.99] does not print. *)
Definition to_centis (t : Z) : Z := t - t mod (10 * Millisecond).

Lemma civil_ns y mo d h mi s ns : civil y mo d h mi s ns = civil y mo d h mi s 0 + ns.
Proof. unfold civil. lia. Qed.

Lemma civil_whole y mo d h mi s : exists k, civil y mo d h mi s 0 = k * (10 * Millisecond).
Proof.
  exists (100 * (((days_before_year y + days_before_month mo y + (d - 1)) * 24 + h) * 60 * 60 + mi * 60 + s)).
  unfold civil. change Second with (100 * (10 * Millisecond)). lia.
Qed.

Lemma to_centis_civil y mo d h mi s ns : 0 <= ns ->
  to_centis (civil y mo d h mi s ns) = civil y mo d h mi s (ns / (10 * Millisecond) * (10 * Millisecond)).
Proof.
  intros Hns. unfold to_centis. rewrite (civil_ns _ _ _ _ _ _ ns), (civil_ns _ _ _ _ _ _ (_ * _)).
  destruct (civil_whole y mo d h mi s) as [k ->]. rewrite (Z.add_comm (k * _)), Z_mod_plus_full.
  rewrite (Z.mod_eq ns) by done. lia.
Qed.

Lemma parse_printed t : 0 <= c_year (civil_of t) <= 9999 -> CustomTime_Parse (CustomTime_String t) = Some (to_centis t).
Proof.
  intros Hy. destruct (civil_of_instant t) as [Et Hok]. rewrite <-Et at 2. revert Hy Hok. unfold CustomTime_String, instant.
  destruct (civil_of t) as [y m d h mi s ns]. unfold date_ok; cbn [c_year c_month c_day c_hour c_min c_sec c_ns].
  intros Hy (Hm & Hd & Hh & Hmi & Hs & Hns). rewrite to_centis_civil by lia.
  assert (Hd99 : 1 <= d <= 31) by (rewrite days_in_len in Hd; unfold month_len in Hd; repeat case_match; lia).
  assert (Hc : 0 <= ns / (10 * Millisecond) < 100).
  { change (10 * Millisecond) with 10000000. change Second with 1000000000 in Hns. Z.to_euclidean_division_equations. lia. }
  unfold CustomTime_Parse.
  match goal with |- context [append_int 4 y +:+ ?r] => destruct (year_4 y r Hy) as [-> ->] end.
  cbn [negb Nat.eqb]. repeat first [rewrite append_cons, append_nil_l, is_char_cons; cbn [mbind option_bind]
                                  |rewrite getnum_2 by lia; cbn [mbind option_bind]].
  rewrite frac_centis by done. rewrite is_char_cons. cbn [mbind option_bind].
  rewrite bool_decide_eq_true_2 by done.
  rewrite (proj2 (Z.leb_le 1 m)), (proj2 (Z.leb_le m 12)), (proj2 (Z.leb_le 1 d)), (proj2 (Z.leb_le d _)),
    (proj2 (Z.ltb_lt h 24)), (proj2 (Z.ltb_lt mi 60)), (proj2 (Z.ltb_lt s 60)) by lia.
  reflexivity.
Qed.

Lemma quoted_text s : CustomTime_text (quoted s) = Ok s.
Proof.
  unfold CustomTime_text, slice. pose proof (quoted_inner s) as Hi.
  assert (Hl : slen (quoted s) = (slen s + 2)%nat).
  { unfold quoted. rewrite !slen_app. change (slen dquote) with 1%nat. lia. }
  rewrite Hl in *. replace ((0 <=? 1) && (1 <=? Z.of_nat (slen s + 2) - 1) && (Z.of_nat (slen s + 2) - 1 <=? Z.of_nat (slen s + 2)))
    with true by (symmetry; rewrite !andb_true_iff, !Z.leb_le; lia).
  change (Z.to_nat 1) with 1%nat. replace (Z.to_nat (Z.of_nat (slen s + 2) - 1 - 1)) with (slen s + 2 - 2)%nat by lia.
  by rewrite Hi.
Qed.

Lemma digit_val_range c x : digit_val c = Some x -> 0 <= x <= 9.
Proof. unfold digit_val. destruct (_ && _) eqn:E; [|done]. intros [= <-]. case_bool. lia. Qed.

(** A run of [k] digits adds less than [10 ^ k]. *)
Lemma digit_run_range s : forall acc n y m r, digit_run acc n s = (y, m, r) -> 0 <= acc ->
  exists k, m = (n + k)%nat /\ (k <= slen s)%nat /\ acc * 10 ^ Z.of_nat k <= y < (acc + 1) * 10 ^ Z.of_nat k.
Proof.
  induction s as [|c s IH]; intros acc n y m r; cbn [digit_run].
  { intros [= <- <- <-] Ha. exists 0%nat. cbn. lia. }
  destruct (digit_val c) as [x|] eqn:Ex.
  2:{ intros [= <- <- <-] Ha. exists 0%nat. cbn. lia. }
  apply digit_val_range in Ex. intros Hr Ha. destruct (IH _ _ _ _ _ Hr ltac:(lia)) as (k & -> & Hk & Hy).
  exists (S k). change (slen (String c s)) with (S (slen s)). rewrite Nat2Z.inj_succ, Z.pow_succ_r by lia.
  pose proof (Z.pow_pos_nonneg 10 (Z.of_nat k)). split; [lia|]. split; [lia|]. nia.
Qed.

Lemma getnum_range fixed s n r : getnum fixed s = Some (n, r) -> 0 <= n < 100.
Proof.
  unfold getnum. destruct s as [|a s]; [done|]. destruct (digit_val a) as [x|] eqn:Ea; [|done]. apply digit_val_range in Ea. cbn.
  destruct s as [|b s]; [destruct fixed; [done|]; intros [= <- _]; lia|].
  destruct (digit_val b) as [z|] eqn:Eb; [apply digit_val_range in Eb; intros [= <- _]; lia|].
  destruct fixed; [done|]. intros [= <- _]. lia.
Qed.

Lemma frac_range s n r : frac_chunk s = (n, r) -> 0 <= n < Second.
Proof.
  unfold frac_chunk. change Second with 1000000000. destruct s as [|c t]; [intros [= <- _]; lia|].
  destruct (digit_run 0 0 t) as [[v k] rest]. destruct (_ && _); [|intros [= <- _]; lia]. intros [= <- _].
  destruct (digit_run 0 0 (stake (k `min` 9) t)) as [[y m] r'] eqn:E. cbn [fst].
  apply digit_run_range in E as (j & _ & Hj & Hy); [|lia]. rewrite slen_stake in Hj.
  assert (Hle : 10 ^ Z.of_nat j <= 10 ^ Z.of_nat (k `min` 9)) by (apply Z.pow_le_mono_r; lia).
  assert (Hp : 10 ^ Z.of_nat (k `min` 9) * 10 ^ (9 - Z.of_nat (k `min` 9)) = 1000000000).
  { rewrite <-Z.pow_add_r by lia. by replace (Z.of_nat (k `min` 9) + (9 - Z.of_nat (k `min` 9))) with 9 by lia. }
  pose proof (Z.pow_pos_nonneg 10 (9 - Z.of_nat (k `min` 9))). nia.
Qed.

(** What [time.Parse] accepts is a date that exists, of a year of four digits. *)
Lemma parse_accepts s t : CustomTime_Parse s = Some t ->
  exists c, t = instant c /\ date_ok c /\ 0 <= c_year c <= 9999.
Proof.
  unfold CustomTime_Parse. destruct (digit_run 0 0 (stake 4 s)) as [[y n] r] eqn:Ey.
  apply digit_run_range in Ey as (k & Ek & _ & Hy); [|lia]. cbn in Ek. subst k.
  destruct (Nat.eqb_spec n 4) as [->|]; cbn [negb]; [|done]. change (10 ^ Z.of_nat 4) with 10000 in Hy.
  repeat match goal with
  | |- context [is_char ?c ?x] => destruct (is_char c x); cbn [mbind option_bind]; [|done]
  | |- context [getnum ?f ?x] =>
      let E := fresh "E" in destruct (getnum f x) as [[? ?]|] eqn:E; cbn [mbind option_bind]; [apply getnum_range in E|done]
  | |- context [frac_chunk ?x] => let E := fresh "E" in destruct (frac_chunk x) as [ns ?] eqn:E; apply frac_range in E
  end.
  match goal with |- (if ?b then _ else _) = _ -> _ => destruct b eqn:Eb; [|done] end.
  intros [= <-]. case_bool. eexists (mkCivil _ _ _ _ _ _ _). unfold instant, date_ok; cbn [c_year c_month c_day c_hour c_min c_sec c_ns].
  split; [reflexivity|]. lia.
Qed.

(** C36: Time stamps survive being printed and read again, up to the two decimals the
    layout has: for every instant of a four-digit year, and so for every instant
    [UnmarshalJSON] ever produced, the printed text decodes to the instant cut to
    hundredths of a second, whose own text is the same; and [UnmarshalJSON] panics
    exactly on inputs shorter than two bytes. *)
Theorem CustomTime_roundtrip t b :
  (0 <= c_year (civil_of t) <= 9999 \/ CustomTime_UnmarshalJSON b = Ok (Some t) ->
   CustomTime_UnmarshalJSON (quoted (CustomTime_String t)) = Ok (Some (to_centis t)) /\
   CustomTime_String (to_centis t) = CustomTime_String t) /\
  (CustomTime_UnmarshalJSON b = Panic <-> (slen b < 2)%nat).
Proof.
  split.
  - intros Hor. assert (Hy : 0 <= c_year (civil_of t) <= 9999).
    { destruct Hor as [|Hb]; [done|]. unfold CustomTime_UnmarshalJSON in Hb.
      destruct (CustomTime_text b) as [s| |]; [|done..]. cbn in Hb. injection Hb as Hs.
      destruct (parse_accepts s t Hs) as (c & -> & Hok & Hc). by rewrite instant_civil_of. }
    split.
    + unfold CustomTime_UnmarshalJSON. rewrite quoted_text. cbn. by rewrite parse_printed.
    + destruct (civil_of_instant t) as [Et Hok]. rewrite <-Et at 1.
      destruct (civil_of t) as [y m d h mi s ns] eqn:Ec. unfold instant. cbn [c_year c_month c_day c_hour c_min c_sec c_ns].
      unfold date_ok in Hok. cbn [c_year c_month c_day c_hour c_min c_sec c_ns] in Hok.
      assert (Hns : 0 <= ns / (10 * Millisecond) * (10 * Millisecond) <= ns).
      { change (10 * Millisecond) with 10000000. Z.to_euclidean_division_equations. lia. }
      rewrite to_centis_civil by lia. unfold CustomTime_String. rewrite Ec.
      pose proof (instant_civil_of (mkCivil y m d h mi s (ns / (10 * Millisecond) * (10 * Millisecond)))) as Hc.
      unfold instant, date_ok in Hc; cbn [c_year c_month c_day c_hour c_min c_sec c_ns] in *.
      rewrite Hc by lia. cbn [c_year c_month c_day c_hour c_min c_sec c_ns]. by rewrite Z.div_mul by done.
  - unfold CustomTime_UnmarshalJSON, CustomTime_text, slice.
    destruct ((0 <=? 1) && (1 <=? Z.of_nat (slen b) - 1) && (Z.of_nat (slen b) - 1 <=? Z.of_nat (slen b))) eqn:E; cbn [mbind res_bind].
    + split; [done|]. intros Hl. case_bool. lia.
    + split; [|done]. intros _. cbn [Z.leb andb] in E. apply andb_false_iff in E as [E|E]; case_bool; lia.
Qed.

Lemma CustomTime_roundtrip_witness :
  CustomTime_UnmarshalJSON (quoted "2024-02-29T23:59:59.127Z") = Ok (Some (civil 2024 2 29 23 59 59 127000000)) /\
  CustomTime_UnmarshalJSON (quoted (CustomTime_String (civil 2024 2 29 23 59 59 127000000))) =
    Ok (Some (to_centis (civil 2024 2 29 23 59 59 127000000))).
Proof.
  assert (E : CustomTime_UnmarshalJSON (quoted "2024-02-29T23:59:59.127Z") = Ok (Some (civil 2024 2 29 23 59 59 127000000)))
    by (vm_compute; reflexivity).
  split; [exact E|].
  exact (proj1 (proj1 (CustomTime_roundtrip (civil 2024 2 29 23 59 59 127000000) (quoted "2024-02-29T23:59:59.127Z")) (or_intror E))).
Defined.
