(* ===== verification/Keys.v ===== *)
(** * Keys, addresses and encodings ([pkg/utils/utils.go])

    The helpers that turn keys into texts and texts into bytes. *)

From S2P Require Import Prelude GoNum GoText Deps.
From Stdlib Require Import Ascii.
Local Open Scope Z_scope.

(** ** Keys and addresses *)

Fixpoint zero_bytes (n : nat) : bytes :=
  match n with O => EmptyString | S n' => String zero (zero_bytes n') end.

(** [copy] into an array of 32 zero bytes. *)
Definition key_bytes (pubKeyBytes : bytes) : bytes := stake 32 pubKeyBytes +:+ zero_bytes (32 - slen pubKeyBytes).

(** [crypto.Address] is a type of bytes: the conversion does not hash the key. *)
Definition PubKeyToPeerID `{Comet} (pubKeyBytes : bytes) : string := HexBytes_String (key_bytes pubKeyBytes).

(** [address] is CometBFT's hash of a secp256k1 key, which panics on another length,
    and [bech32] the SDK's text of a validator address. *)
Definition ValidatorAddr (address : bytes -> res bytes) (bech32 : bytes -> string) (pubkeyBytes : bytes) : res string :=
  a ← address pubkeyBytes; Ok (bech32 a).

(** ** [base64.StdEncoding] *)

Definition alphabet : string := "ABCDEFGHIJKLMNOPQRSTUVWXYZabcdefghijklmnopqrstuvwxyz0123456789+/".

Definition sextet_char (v : Z) : ascii := default zero (String.get (Z.to_nat v) alphabet).

(** [decodeMap] *)
Definition sextet_val (c : ascii) : option Z :=
  let n := Z.of_nat (nat_of_ascii c) in
  if (65 <=? n) && (n <=? 90) then Some (n - 65)
  else if (97 <=? n) && (n <=? 122) then Some (n - 71)
  else if (48 <=? n) && (n <=? 57) then Some (n + 4)
  else if n =? 43 then Some 62
  else if n =? 47 then Some 63
  else None.

Definition is_newline (c : ascii) : bool := (nat_of_ascii c =? 10)%nat || (nat_of_ascii c =? 13)%nat.

(** Line breaks are skipped wherever they stand. *)
Fixpoint skip_newlines (s : string) : string :=
  match s with
  | EmptyString => EmptyString
  | String c s' => if is_newline c then skip_newlines s' else String c (skip_newlines s')
  end.

Definition byte_of (z : Z) : ascii := ascii_of_nat (Z.to_nat z).
Definition of_byte (c : ascii) : Z := Z.of_nat (nat_of_ascii c).

(** [decodeQuantum]: four characters at a time; padding ends the text, and the
    bits it leaves over are ignored. *)
Fixpoint decode_quanta (s : string) : option bytes :=
  match s with
  | EmptyString => Some EmptyString
  | String a (String b (String c (String d rest))) =>
      x ← sextet_val a; y ← sextet_val b;
      if Ascii.eqb c "=" then
        if Ascii.eqb d "=" && bool_decide (rest = "") then Some (String (byte_of ((x * 64 + y) / 16)) "") else None
      else
        z ← sextet_val c;
        let val := (x * 64 + y) * 64 + z in
        if Ascii.eqb d "=" then
          if bool_decide (rest = "") then Some (String (byte_of (val / 1024)) (String (byte_of (val / 4 mod 256)) "")) else None
        else
          w ← sextet_val d;
          let val := val * 64 + w in
          tl ← decode_quanta rest;
          Some (String (byte_of (val / 65536)) (String (byte_of (val / 256 mod 256)) (String (byte_of (val mod 256)) tl)))
  | _ => None
  end.

(** [None] is a [CorruptInputError]. *)
Definition Base64ToBytes (base64Str : string) : option bytes := decode_quanta (skip_newlines base64Str).

(** ** Facts *)

(** *** Peer identifiers *)

Lemma slen_zero_bytes n : slen (zero_bytes n) = n.
Proof. induction n as [|n IH]; [done|]. cbn [zero_bytes]. change (slen (String zero (zero_bytes n))) with (S (slen (zero_bytes n))). by rewrite IH. Qed.

Lemma key_bytes_length k : slen (key_bytes k) = 32%nat.
Proof. unfold key_bytes. rewrite slen_app, slen_stake, slen_zero_bytes. lia. Qed.

(** [PubKeyToPeerID] spells the key, not the peer: its text decodes to the 32 bytes
    of the key, where a node's identifier is the 20 bytes of the key's address. *)
Theorem peer_id_is_the_key `{CometLaws} k :
  hex_decode (PubKeyToPeerID k) = Some (key_bytes k) /\
  forall address : bytes, slen address = 20%nat -> PubKeyToPeerID k <> HexBytes_String address.
Proof.
  split; [apply HexBytes_String_decode|]. intros a Ha E. apply HexBytes_String_inj in E.
  pose proof (key_bytes_length k) as Hk. rewrite E in Hk. congruence.
Qed.

Lemma peer_id_is_the_key_witness : PubKeyToPeerID "k" <> HexBytes_String (zero_bytes 20).
Proof. apply (peer_id_is_the_key "k"). reflexivity. Defined.

(** *** Base64 *)

(** RFC 4648, as the reference. *)
Fixpoint base64_encode (s : bytes) : string :=
  match s with
  | EmptyString => EmptyString
  | String a EmptyString =>
      let v := of_byte a * 16 in
      String (sextet_char (v / 64)) (String (sextet_char (v mod 64)) "==")
  | String a (String b EmptyString) =>
      let v := (of_byte a * 256 + of_byte b) * 4 in
      String (sextet_char (v / 4096)) (String (sextet_char (v / 64 mod 64)) (String (sextet_char (v mod 64)) "="))
  | String a (String b (String c rest)) =>
      let v := (of_byte a * 256 + of_byte b) * 256 + of_byte c in
      String (sextet_char (v / 262144)) (String (sextet_char (v / 4096 mod 64))
        (String (sextet_char (v / 64 mod 64)) (String (sextet_char (v mod 64)) (base64_encode rest))))
  end.

Definition sextet_ok (v : Z) : bool :=
  bool_decide (sextet_val (sextet_char v) = Some v) && negb (Ascii.eqb (sextet_char v) "=") && negb (is_newline (sextet_char v)).

Lemma sextet_inverse v : 0 <= v < 64 ->
  sextet_val (sextet_char v) = Some v /\ Ascii.eqb (sextet_char v) "=" = false /\ is_newline (sextet_char v) = false.
Proof.
  intros Hv. assert (Hall : forallb sextet_ok (Z.of_nat <$> seq 0 64) = true) by (vm_compute; reflexivity).
  rewrite forallb_forall in Hall. specialize (Hall v). unfold sextet_ok in Hall.
  assert (Hin : List.In v (Z.of_nat <$> seq 0 64)).
  { apply list_elem_of_In, list_elem_of_fmap. exists (Z.to_nat v). split; [lia|]. apply elem_of_seq. lia. }
  specialize (Hall Hin). case_bool. done.
Qed.

Lemma of_byte_range c : 0 <= of_byte c < 256.
Proof. unfold of_byte. pose proof (nat_ascii_bounded c). lia. Qed.
Lemma byte_of_byte c : byte_of (of_byte c) = c.
Proof. unfold byte_of, of_byte. by rewrite Nat2Z.id, ascii_nat_embedding. Qed.

(** Three bytes at a time. *)
Lemma bytes_ind (P : bytes -> Prop) :
  P "" -> (forall a, P (String a "")) -> (forall a b, P (String a (String b ""))) ->
  (forall a b c s, P s -> P (String a (String b (String c s)))) -> forall s, P s.
Proof.
  intros H0 H1 H2 H3. fix IH 1. intros [|a [|b [|c s]]]; [done|by apply H1|by apply H2|]. apply H3, IH.
Qed.

Lemma sextets_join v : 0 <= v < 16777216 ->
  ((v / 262144 * 64 + v / 4096 mod 64) * 64 + v / 64 mod 64) * 64 + v mod 64 = v /\ 0 <= v / 262144 < 64.
Proof. intros Hv. Z.to_euclidean_division_equations. lia. Qed.

Lemma skip_sextet v s : 0 <= v < 64 -> skip_newlines (String (sextet_char v) s) = String (sextet_char v) (skip_newlines s).
Proof. intros Hv. cbn [skip_newlines]. by destruct (sextet_inverse v Hv) as (_ & _ & ->). Qed.

Ltac sextet_bounds := Z.to_euclidean_division_equations; lia.

Lemma skip_encoded s : skip_newlines (base64_encode s) = base64_encode s.
Proof.
  induction s as [|a|a b|a b c s IH] using bytes_ind; cbn [base64_encode]; [done|..];
    pose proof (of_byte_range a); try pose proof (of_byte_range b); try pose proof (of_byte_range c);
    rewrite !skip_sextet by sextet_bounds; [done..|by rewrite IH].
Qed.

Lemma decode_encoded s : decode_quanta (base64_encode s) = Some s.
Proof.
  induction s as [|a|a b|a b c s IH] using bytes_ind; cbn [base64_encode]; [done|..];
    pose proof (of_byte_range a) as Ha; try pose proof (of_byte_range b) as Hb; try pose proof (of_byte_range c) as Hc; cbn [decode_quanta].
  - set (v := of_byte a * 16).
    rewrite (proj1 (sextet_inverse (v / 64) ltac:(unfold v; sextet_bounds))), (proj1 (sextet_inverse (v mod 64) ltac:(unfold v; sextet_bounds))).
    cbn [mbind option_bind]. cbn [Ascii.eqb Bool.eqb andb]. rewrite bool_decide_eq_true_2 by done.
    assert ((v / 64 * 64 + v mod 64) / 16 = of_byte a) as -> by (unfold v; sextet_bounds). by rewrite byte_of_byte.
  - set (v := (of_byte a * 256 + of_byte b) * 4).
    destruct (sextet_inverse (v mod 64) ltac:(unfold v; sextet_bounds)) as (Hz & Ez & _).
    rewrite (proj1 (sextet_inverse (v / 4096) ltac:(unfold v; sextet_bounds))), (proj1 (sextet_inverse (v / 64 mod 64) ltac:(unfold v; sextet_bounds))).
    cbn [mbind option_bind]. rewrite Ez, Hz. cbn [mbind option_bind]. rewrite Ascii.eqb_refl, bool_decide_eq_true_2 by done.
    assert (((v / 4096 * 64 + v / 64 mod 64) * 64 + v mod 64) = v) as -> by (unfold v; sextet_bounds).
    assert (v / 1024 = of_byte a) as -> by (unfold v; sextet_bounds).
    assert (v / 4 mod 256 = of_byte b) as -> by (unfold v; sextet_bounds). by rewrite !byte_of_byte.
  - set (v := (of_byte a * 256 + of_byte b) * 256 + of_byte c).
    destruct (sextet_inverse (v / 64 mod 64) ltac:(sextet_bounds)) as (Hz & Ez & _).
    destruct (sextet_inverse (v mod 64) ltac:(sextet_bounds)) as (Hw & Ew & _).
    destruct (sextets_join v ltac:(unfold v; lia)) as [Hv Hv1].
    rewrite (proj1 (sextet_inverse (v / 262144) Hv1)), (proj1 (sextet_inverse (v / 4096 mod 64) ltac:(sextet_bounds))).
    cbn [mbind option_bind]. rewrite Ez, Hz. cbn [mbind option_bind]. rewrite Ew, Hw. cbn [mbind option_bind]. rewrite IH. cbn [mbind option_bind].
    rewrite Hv.
    assert (v / 65536 = of_byte a) as -> by (unfold v; sextet_bounds).
    assert (v / 256 mod 256 = of_byte b) as -> by (unfold v; sextet_bounds).
    assert (v mod 256 = of_byte c) as -> by (unfold v; rewrite Z.add_comm, Z_mod_plus_full, Z.mod_small by lia; done).
    by rewrite !byte_of_byte.
Qed.

(** [Base64ToBytes] reads back every RFC 4648 text, whatever line breaks it is
    written with. *)
Theorem Base64ToBytes_roundtrip s t (Ht : skip_newlines t = skip_newlines (base64_encode s)) :
  Base64ToBytes t = Some s.
Proof. unfold Base64ToBytes. rewrite Ht, skip_encoded. apply decode_encoded. Qed.

Lemma Base64ToBytes_roundtrip_witness : Base64ToBytes ("dG10" +:+ nl +:+ "b3A=") = Some "tmtop".
Proof. apply (Base64ToBytes_roundtrip "tmtop"). vm_compute. reflexivity. Defined.

Example base64_errors : Base64ToBytes "dG10b3A" = None /\ Base64ToBytes "dG1!" = None /\ Base64ToBytes "" = Some "".
Proof. vm_compute. done. Qed.
