(* ===== verification/Config.v ===== *)
(** * Configuration ([pkg/config]) *)

From S2P Require Import Prelude GoNum GoText.
Local Open Scope Z_scope.

Inductive ChainType := ChainTypeCosmosRPC | ChainTypeCosmosLCD | ChainTypeTendermint.

#[export] Instance chain_type_eq_dec : EqDecision ChainType.
Proof. solve_decision. Defined.

(** [ChainType.String] *)
Definition ChainType_String (t : ChainType) : string :=
  match t with
  | ChainTypeCosmosRPC => "cosmos-rpc"
  | ChainTypeCosmosLCD => "cosmos-lcd"
  | ChainTypeTendermint => "tendermint"
  end.

Definition ParseChainType (v : string) : res ChainType :=
  if bool_decide (v = "cosmos-rpc") || bool_decide (v = "") then Ok ChainTypeCosmosRPC
  else if bool_decide (v = "cosmos-lcd") then Ok ChainTypeCosmosLCD
  else if bool_decide (v = "tendermint") then Ok ChainTypeTendermint
  else Err ("expected chain-type to be one of 'cosmos-rpc', 'cosmos-lcd', 'tendermint', but got '" +:+ v +:+ "'").

(** The options shared by the command line and the validated configuration. *)
Record Options := mkOptions {
  RPCHost : string;
  ProviderRPCHost : string;
  ConsumerID : string;
  RefreshRate : Z;
  ValidatorsRefreshRate : Z;
  ChainInfoRefreshRate : Z;
  UpgradeRefreshRate : Z;
  BlockTimeRefreshRate : Z;
  Verbose : bool;
  DisableEmojis : bool;
  DebugFile : string;
  HaltHeight : Z;
  BlocksBehind : Z;        (** [uint64] *)
  LCDHost : string;
  WithTopologyAPI : bool;
  TopologyListenAddr : string;
  DatabasePath : string;
  MaxRetainBlocks : Z;
  MaxRetainDays : Z;
  AnalyticsMode : bool;
  AnalyticsValidator : string;
  AnalyticsTimeWindow : string;
  AnalyticsCommand : string;
  HealthRefreshRate : Z;
  HealthWindowBlocks : Z;
  ASNDatabasePath : string }.

Record InputConfig := mkInputConfig {
  in_Options : Options;
  in_ChainType : string;
  in_Timezone : string }.

Section Config.
(** [*time.Location], and [time.LoadLocation], which reads the time-zone database. *)
Context {Location : Type} (Local_tz : Location) (LoadLocation : string -> res Location).

Record Config := mkConfig {
  cfg_Options : Options;
  cfg_ChainType : ChainType;
  cfg_Timezone : Location }.

Definition ParseAndValidateConfig (input : InputConfig) : res Config :=
  let o := in_Options input in
  chainType ← ParseChainType (in_ChainType input);
  if negb (bool_decide (ProviderRPCHost o = "")) && bool_decide (ConsumerID o = "")
  then Err "chain is consumer, but consumer-id is not set"
  else if bool_decide (chainType = ChainTypeCosmosLCD) && bool_decide (LCDHost o = "")
  then Err "chain-type is 'cosmos-lcd', but lcd-host is not set"
  else if BlocksBehind o <=? 0 then Err "cannot run with a negative blocks-behind"
  else
    timezone ← (if negb (bool_decide (in_Timezone input = "")) then LoadLocation (in_Timezone input) else Ok Local_tz);
    Ok (mkConfig o chainType timezone).

Definition GetProviderOrConsumerHost (c : Config) : string :=
  if negb (bool_decide (ProviderRPCHost (cfg_Options c) = "")) then ProviderRPCHost (cfg_Options c)
  else RPCHost (cfg_Options c).

Definition IsConsumer (c : Config) : bool := negb (bool_decide (ProviderRPCHost (cfg_Options c) = "")).

(** ** Facts *)

Lemma ParseChainType_String t : ParseChainType (ChainType_String t) = Ok t.
Proof. by destruct t. Qed.

(** A configuration is accepted exactly when the chain type is one of the three
    names (or empty), a consumer chain names its consumer, an LCD chain its host,
    the block distance is not zero and the time zone loads; every option is then
    the input's. *)
Theorem ParseAndValidateConfig_accepts input c :
  ParseAndValidateConfig input = Ok c <->
  (in_ChainType input = ChainType_String (cfg_ChainType c) \/
     (in_ChainType input = "" /\ cfg_ChainType c = ChainTypeCosmosRPC)) /\
  cfg_Options c = in_Options input /\
  (IsConsumer c = true -> ConsumerID (cfg_Options c) <> "") /\
  (cfg_ChainType c = ChainTypeCosmosLCD -> LCDHost (cfg_Options c) <> "") /\
  0 < BlocksBehind (cfg_Options c) /\
  (if decide (in_Timezone input = "") then cfg_Timezone c = Local_tz
   else LoadLocation (in_Timezone input) = Ok (cfg_Timezone c)).
Proof.
  destruct input as [o ct tz], c as [o' ct' tz']. unfold ParseAndValidateConfig, IsConsumer. cbn.
  assert (Hct : ParseChainType ct = Ok ct' <-> ct = ChainType_String ct' \/ (ct = "" /\ ct' = ChainTypeCosmosRPC)).
  { unfold ParseChainType. repeat case_bool_decide; subst; destruct ct'; cbn; naive_solver. }
  destruct (ParseChainType ct) as [t|e|] eqn:Et; cbn.
  2-3: split; [done|]; intros (Hc & _); apply Hct in Hc; congruence.
  assert (Htz : (if negb (bool_decide (tz = "")) then LoadLocation tz else Ok Local_tz) = Ok tz' <->
    if decide (tz = "") then tz' = Local_tz else LoadLocation tz = Ok tz').
  { case_bool_decide; case_decide; try done. cbn. split; [by intros [= ->]|by intros ->]. }
  rewrite <-Htz. clear Htz. rewrite <-Hct. clear Hct Et.
  generalize (if negb (bool_decide (tz = "")) then LoadLocation tz else Ok Local_tz). intros r.
  destruct (bool_decide_reflect (ProviderRPCHost o = "")) as [|Hp], (bool_decide_reflect (ConsumerID o = "")) as [|Hc],
    (bool_decide_reflect (t = ChainTypeCosmosLCD)) as [|Ht], (bool_decide_reflect (LCDHost o = "")) as [|Hl],
    (Z.leb_spec (BlocksBehind o) 0); cbn.
  all: split; [destruct r as [loc|err|]; cbn; try done; intros [= -> -> ->]|intros ([= <-] & -> & Hi & Hl' & Hb & ->); cbn].
  all: try done; try lia.
  all: try (case_bool_decide as Ep; [done|]).
  all: try (exfalso; by apply Hi).
  all: try (exfalso; by apply Hl').
  all: split_and!; try done.
Qed.
End Config.

Arguments Config : clear implicits.
Arguments mkConfig {Location} _ _ _.
Arguments cfg_Options {Location} _.
Arguments cfg_ChainType {Location} _.
Arguments cfg_Timezone {Location} _.
Arguments IsConsumer {Location} _.
Arguments GetProviderOrConsumerHost {Location} _.
