(* ===== verification/CometRPC.v ===== *)
(** * The CometBFT RPC client ([pkg/fetcher/comet_rpc.go])

    Requests over an HTTP client and the JSON decoders of CometBFT, which are not
    part of the repository: they are the operations of the class [Endpoint].
    What the client does with the decoded responses is written out: the envelope
    and its errors, the height/round/step text, validator paging with its
    genesis fallback, the average block time, the mempool counters. *)

From S2P Require Import Prelude GoNum GoText GoTime Deps Types State.
From Stdlib Require Import Ascii Lqa.
Local Open Scope Z_scope.

(** [RoundStateSimple], [ResultValidators], a block header: the fields read. *)
Record RoundStateSimple := mkRSS { rss_HeightRoundStep : string; rss_StartTime : Z; rss_ProposerAddress : bytes }.
Record ResultValidators := mkRV { rv_Validators : list CometValidator; rv_Total : Z }.
Record Header := mkHeader { h_Height : Z; h_Time : Z }.

(** The projection of [cnstypes.RoundState] that [GetConsensusState] fills. *)
Record RoundState := mkRoundState {
  rs_Height : Z; rs_Round : Z; rs_Step : Z; rs_StartTime : Z; rs_Proposer : option bytes }.

(** The HTTP client and [cmtjson.Unmarshal], at each type the client decodes into. *)
Class Endpoint := {
  GetPlain : string -> string -> res bytes;
  (** the [Error] and the [Result] of an [RPCResponse] *)
  dec_envelope : bytes -> res (option string * bytes);
  dec_consensus_state : bytes -> res bytes;
  dec_round_state_simple : bytes -> res RoundStateSimple;
  dec_validators : bytes -> res ResultValidators;
  (** the raw round state, [nil] when absent *)
  dec_dump_state : bytes -> res (option bytes);
  (** the validator set of a full round state, [nil] when absent *)
  dec_round_state_vals : bytes -> res (option (list CometValidator));
  dec_status : bytes -> res ResultStatus;
  dec_block : bytes -> res (option Header);
  dec_net_info : bytes -> res NetInfo;
  dec_unconfirmed : bytes -> res (string * string);
}.

Section CometRPC.
Context `{E : Endpoint}.

(** A [CometRPC]: the endpoint its [getURL] answers, and [blocksBehind]. *)
Record CometRPC := mkCometRPC { rpc_getURL : string; blocksBehind : Z }.

Definition WithEndpoint (rpc : CometRPC) (url : string) : CometRPC := mkCometRPC url (blocksBehind rpc).

Definition with_context {A} (what url path : string) (r : res A) : res A :=
  match r with Err e => Err (what +:+ url +:+ path +:+ ": " +:+ e) | r => r end.

Definition request {A} (rpc : CometRPC) (path : string) (decode : bytes -> res A) : res A :=
  let url := rpc_getURL rpc in
  bs ← with_context "GET " url path (GetPlain url path);
  response ← with_context "decoding JSON-RPC envelope from " url path (dec_envelope bs);
  match response.1 with
  | Some e => Err ("JSON-RPC error from " +:+ url +:+ path +:+ ": " +:+ e)
  | None => with_context "decoding JSON-RPC result from " url path (decode response.2)
  end.

(** ** Consensus state *)

(** [int32(r)] and [RoundStepType(st)] do not truncate: the parser has checked the width. *)
Definition parseHeightRoundStep (s : string) : res (Z * Z * Z) :=
  match split_on "/" s with
  | [p0; p1; p2] =>
      h ← wrap_err "height" (ParseInt p0 64);
      r ← wrap_err "round" (ParseInt p1 32);
      st ← wrap_err "step" (ParseUint p2 8);
      Ok (h, int32 r, uint8 st)
  | parts => Err ("expected 3 parts, got " +:+ itoa (Z.of_nat (length parts)))
  end.

Definition GetConsensusState (rpc : CometRPC) : res RoundState :=
  raw ← request rpc "/consensus_state" dec_consensus_state;
  simple ← wrap_err "failed to unmarshal round state" (dec_round_state_simple raw);
  '(h, r, st) ← wrap_err ("parsing height/round/step " +:+ dquote +:+ rss_HeightRoundStep simple +:+ dquote)
                  (parseHeightRoundStep (rss_HeightRoundStep simple));
  Ok (mkRoundState h r st (rss_StartTime simple) (Some (rss_ProposerAddress simple))).

(** ** Validators *)

Definition getValidatorsAtPage (rpc : CometRPC) (page : Z) : res ResultValidators :=
  request rpc ("/validators?page=" +:+ itoa page +:+ "&per_page=100") dec_validators.

Definition getValidatorsViaDumpConsensusState (rpc : CometRPC) : res (list CometValidator) :=
  raw ← request rpc "/dump_consensus_state" dec_dump_state;
  match raw with
  | None => Err "malformed response from /dump_consensus_state"
  | Some raw =>
      vals ← wrap_err "failed to unmarshal round state" (dec_round_state_vals raw);
      match vals with
      | None => Err "malformed response from /dump_consensus_state: missing validator set"
      | Some vals => Ok vals
      end
  end.

Definition no_validator_set : string := "could not find validator set for height".

(** The paging loop; [None]: still running when the fuel is used up. The nil
    response of the source cannot occur beside a nil error. *)
Fixpoint validator_pages (fuel : nat) (rpc : CometRPC) (page : Z) (validators : list CometValidator)
    : option (res (list CometValidator)) :=
  match fuel with
  | O => None
  | S fuel' =>
      match getValidatorsAtPage rpc page with
      | Panic => Some Panic
      | Err e => Some (if contains e no_validator_set then getValidatorsViaDumpConsensusState rpc else Err e)
      | Ok response =>
          let validators := validators ++ rv_Validators response in
          if rv_Total response <=? Z.of_nat (length validators) then Some (Ok validators)
          else validator_pages fuel' rpc (int64 (page + 1)) validators
      end
  end.

Definition comet_GetValidators (fuel : nat) (rpc : CometRPC) : option (res (list CometValidator)) :=
  validator_pages fuel rpc 1 [].

(** ** Status, blocks, mempool *)

Definition comet_GetCometNodeStatus (rpc : CometRPC) : res ResultStatus := request rpc "/status" dec_status.
Definition comet_GetNetInfo (rpc : CometRPC) : res NetInfo := request rpc "/net_info" dec_net_info.

Definition Block (rpc : CometRPC) (height : Z) : res (option Header) :=
  let blockURL := if negb (height =? 0) then "/block?height=" +:+ itoa height else "/block" in
  request rpc blockURL dec_block.

(** [older_height], [block_time]: the arithmetic of [GetBlockTime]. *)
Definition older_height (rpc : CometRPC) (latest : Z) : Z :=
  let older := int64 (latest - int64 (blocksBehind rpc)) in if older <=? 0 then 1 else older.

Definition block_time (latest older : Header) (blocksDiff : Z) : Z :=
  let blockTime := f64_div (Seconds (time_Sub (h_Time latest) (h_Time older))) (f64_of_Z blocksDiff) in
  f_int64 (f64_mul blockTime (f64_of_Z Second)).

Definition comet_GetBlockTime (rpc : CometRPC) : res Z :=
  latest ← Block rpc 0;
  match latest with
  | None => Err "no current block present"
  | Some latest =>
      let olderBlockHeight := older_height rpc (h_Height latest) in
      let blocksDiff := int64 (h_Height latest - olderBlockHeight) in
      if blocksDiff <=? 0 then Err "cannot calculate block time with the negative blocks counter"
      else
        older ← Block rpc olderBlockHeight;
        match older with
        | None => Err "no older block present"
        | Some older => Ok (block_time latest older blocksDiff)
        end
  end.

(** Both parse errors are dropped: the text's value or zero. *)
Definition comet_GetNumUnconfirmedTxs (rpc : CometRPC) : res (Z * Z) :=
  result ← request rpc "/num_unconfirmed_txs" dec_unconfirmed;
  Ok (ParseInt_value result.1 64, ParseInt_value result.2 64).
End CometRPC.

(** ** Facts *)

Section CometRPCFacts.
Context `{E : Endpoint}.
Implicit Types (rpc : CometRPC).

(** The compressed text CometBFT writes is read back: every height, round and
    step of the right widths survives printing and parsing. *)
Theorem parseHeightRoundStep_roundtrip h r st
    (Hh : is_int64 h) (Hr : is_int32 r) (Hst : 0 <= st < 2 ^ 8) :
  parseHeightRoundStep (itoa h +:+ "/" +:+ itoa r +:+ "/" +:+ itoa st) = Ok (h, r, st).
Proof.
  unfold parseHeightRoundStep.
  assert (Hno : forall z, no_char "/" (itoa z) = true) by (intros z; by apply itoa_no_char).
  change ("/" +:+ itoa r +:+ "/" +:+ itoa st) with (String "/" (itoa r +:+ String "/" (itoa st))).
  rewrite !split_on_app, split_on_none by apply Hno.
  rewrite ParseInt_itoa by go_lia. cbn. rewrite ParseInt_itoa by go_lia. cbn.
  rewrite ParseUint_itoa by done. cbn. rewrite int32_id by done. unfold uwrap. by rewrite Z.mod_small.
Qed.

Lemma parseHeightRoundStep_roundtrip_witness : parseHeightRoundStep "8990959/0/1" = Ok (8990959, 0, 1).
Proof. apply (parseHeightRoundStep_roundtrip 8990959 0 1); go_lia. Defined.

(** *** Paging *)

(** A node that answers page [p] with the p-th hundred of its validators. *)
Definition serves_pages rpc (vs : list CometValidator) : Prop :=
  forall p, 1 <= p -> (p - 1) * 100 < Z.of_nat (length vs) ->
    getValidatorsAtPage rpc p =
    Ok (mkRV (take 100 (drop (Z.to_nat ((p - 1) * 100)) vs)) (Z.of_nat (length vs))).

Lemma validator_pages_spec rpc vs fuel p :
  serves_pages rpc vs -> 1 <= p -> (p - 1) * 100 < Z.of_nat (length vs) -> Z.of_nat (length vs) < 2 ^ 62 ->
  Z.of_nat (length vs) <= (p - 1) * 100 + Z.of_nat fuel * 100 ->
  validator_pages fuel rpc p (take (Z.to_nat ((p - 1) * 100)) vs) = Some (Ok vs).
Proof.
  intros Hs. revert p. induction fuel as [|fuel IH]; intros p Hp Hlt Hmax Hf; [lia|].
  cbn [validator_pages]. rewrite Hs by done. cbn [rv_Validators rv_Total].
  rewrite take_take_drop. replace (Z.to_nat ((p - 1) * 100) + 100)%nat with (Z.to_nat ((p + 1 - 1) * 100)) by lia.
  destruct (Z.leb_spec (Z.of_nat (length vs)) (Z.of_nat (length (take (Z.to_nat ((p + 1 - 1) * 100)) vs)))) as [Hle|Hle].
  - rewrite length_take in Hle. rewrite take_ge by lia. done.
  - rewrite length_take in Hle. rewrite int64_id by go_lia. apply IH; lia.
Qed.

(** C39: Against a node that serves its validators a hundred at a time, the loop stops
    after one request per page and returns all of them, in order. *)
Theorem GetValidators_all_pages rpc vs fuel
    (Hs : serves_pages rpc vs) (Hne : vs <> []) (Hmax : Z.of_nat (length vs) < 2 ^ 62)
    (Hf : Z.of_nat (length vs) <= Z.of_nat fuel * 100) :
  comet_GetValidators fuel rpc = Some (Ok vs).
Proof.
  apply (validator_pages_spec rpc vs fuel 1 Hs); [done| |done|lia]. destruct vs; [done|cbn; lia].
Qed.

(** A page without progress is asked for again under the next number, for ever: a
    node that reports more validators than it returns keeps the loop running. *)
Lemma GetValidators_no_progress rpc total fuel
    (Hempty : forall p, getValidatorsAtPage rpc p = Ok (mkRV [] total)) (Ht : 0 < total) :
  comet_GetValidators fuel rpc = None.
Proof.
  unfold comet_GetValidators. generalize 1. induction fuel as [|fuel IH]; intros p; [done|].
  cbn [validator_pages]. rewrite Hempty. cbn. destruct (Z.leb_spec total (Z.of_nat 0)); [lia|]. apply IH.
Qed.

(** A node that has no validator set yet: the fallback's answer. *)
Lemma GetValidators_fallback rpc e fuel :
  getValidatorsAtPage rpc 1 = Err e -> contains e no_validator_set = true ->
  comet_GetValidators (S fuel) rpc = Some (getValidatorsViaDumpConsensusState rpc).
Proof. intros He Hc. unfold comet_GetValidators. cbn. by rewrite He, Hc. Qed.

(** *** Block time *)

Lemma older_height_spec rpc latest :
  1 <= blocksBehind rpc < 2 ^ 63 -> 1 <= latest <= 2 ^ 53 ->
  older_height rpc latest = Z.max 1 (latest - blocksBehind rpc).
Proof.
  intros Hb Hl. unfold older_height. rewrite (int64_id (blocksBehind rpc)), int64_id by go_lia.
  cbv zeta. destruct (Z.leb_spec (latest - blocksBehind rpc) 0); lia.
Qed.

Lemma block_time_whole latest older n secs :
  0 < n <= 2 ^ 53 -> 0 <= secs -> n * secs * Second <= 2 ^ 53 ->
  h_Time latest - h_Time older = n * (secs * Second) ->
  block_time latest older n = secs * Second.
Proof.
  intros Hn Hs Hfit Ht. unfold block_time, time_Sub. rewrite Ht.
  assert (Hss : secs * Second <= 2 ^ 53) by (unfold Second in *; nia).
  assert (Hns : n * secs <= 2 ^ 53) by (unfold Second in *; nia).
  rewrite Z.min_r, Z.max_r by (unfold Second, MaxInt64, MinInt64 in *; nia).
  replace (n * (secs * Second)) with (n * secs * Second) by lia.
  destruct (f_is_div (Seconds (n * secs * Second)) (f64_of_Z n) (n * secs) n) as (q & Hq & Hr);
    [apply Seconds_whole; nia|by apply f64_of_Z_exact; lia|nia|lia|].
  assert (H1 : (1 <= inject_Z n)%Q) by (change 1%Q with (inject_Z 1); rewrite <-Zle_Qle; lia).
  assert (Hsecs : f_is (Fin q) secs).
  { exists q. split; [done|]. rewrite Hr. rewrite <-(rnd_Z (Some (-1074)) secs) by (done || nia).
    apply rnd_eq; [|rewrite inject_Z_mult; field; lra].
    apply Qle_shift_div_l; [lra|]. pose proof (inject_nonneg (n * secs) ltac:(nia)). lra. }
  rewrite Hq. apply f_is_int64; [|unfold Second, is_int64, MinInt64, MaxInt64 in *; nia].
  apply f_is_mul; [done|by apply f64_of_Z_exact|unfold Second in *; nia].
Qed.

(** On a chain whose recent blocks are a whole number of seconds apart, the
    reported block time is exactly that number: the block asked for is
    [blocksBehind] back, or the first one on a younger chain, and the number of
    blocks divided by is the real one. *)
Theorem GetBlockTime_exact rpc latest older secs
    (Hb : 1 <= blocksBehind rpc < 2 ^ 63) (Hh : 2 <= h_Height latest <= 2 ^ 53) (Hs : 0 <= secs)
    (Hl : Block rpc 0 = Ok (Some latest))
    (Ho : Block rpc (Z.max 1 (h_Height latest - blocksBehind rpc)) = Ok (Some older))
    (Ht : h_Time latest - h_Time older =
          Z.min (blocksBehind rpc) (h_Height latest - 1) * (secs * Second))
    (Hfit : Z.min (blocksBehind rpc) (h_Height latest - 1) * secs * Second <= 2 ^ 53) :
  comet_GetBlockTime rpc = Ok (secs * Second).
Proof.
  unfold comet_GetBlockTime. rewrite Hl. cbn. rewrite older_height_spec by lia. rewrite int64_id by go_lia.
  destruct (Z.leb_spec (h_Height latest - Z.max 1 (h_Height latest - blocksBehind rpc)) 0); [lia|].
  rewrite Ho. cbn. f_equal.
  replace (h_Height latest - Z.max 1 (h_Height latest - blocksBehind rpc))
    with (Z.min (blocksBehind rpc) (h_Height latest - 1)) by lia.
  apply block_time_whole; [lia|done|done|done].
Qed.

(** A chain at its first block has no block time. *)
Lemma GetBlockTime_first_block rpc latest :
  1 <= blocksBehind rpc < 2 ^ 63 -> h_Height latest = 1 -> Block rpc 0 = Ok (Some latest) ->
  comet_GetBlockTime rpc = Err "cannot calculate block time with the negative blocks counter".
Proof.
  intros Hb Hh Hl. unfold comet_GetBlockTime. rewrite Hl. cbn. rewrite Hh, older_height_spec by lia.
  by replace (Z.max 1 (1 - blocksBehind rpc)) with 1 by lia.
Qed.
End CometRPCFacts.

(** ** A concrete node *)

Section CometRPCExamples.
(** The decoders read the path itself: the node at [tcp://node] has 150 validators
    and blocks six seconds apart. *)
Definition demo_validators : list CometValidator :=
  (fun i => mkCometValidator (itoa (Z.of_nat i)) None 10) <$> seq 0 150.
Definition demo_pages (path : bytes) : res ResultValidators :=
  if bool_decide (path = "/validators?page=1&per_page=100") then Ok (mkRV (take 100 demo_validators) 150)
  else if bool_decide (path = "/validators?page=2&per_page=100") then Ok (mkRV (drop 100 demo_validators) 150)
  else Err "page should be within [1, 2] range".
Definition demo_block (path : bytes) : res (option Header) :=
  Ok (Some (if bool_decide (path = "/block") then mkHeader 5000 (30000 * Second) else mkHeader 4000 (24000 * Second))).
Definition demo_endpoint : Endpoint := {|
  GetPlain _ path := Ok path; dec_envelope b := Ok (None, b);
  dec_consensus_state b := Ok b; dec_round_state_simple _ := Ok (mkRSS "5000/0/1" 0 "");
  dec_validators := demo_pages; dec_dump_state _ := Ok None; dec_round_state_vals _ := Ok None;
  dec_status _ := Ok (mkResultStatus "aa" "net" "0.38" "home" ""); dec_block := demo_block;
  dec_net_info _ := Ok (mkNetInfo true [] "0" []); dec_unconfirmed _ := Ok ("3", "x") |}.
Definition demo_rpc : CometRPC := mkCometRPC "tcp://node" 1000.

Lemma GetValidators_all_pages_witness :
  comet_GetValidators (E := demo_endpoint) 2 demo_rpc = Some (Ok demo_validators).
Proof.
  apply (GetValidators_all_pages (E := demo_endpoint) demo_rpc demo_validators 2); [|done|done|done].
  intros p Hp Hlt. assert (Hp2 : p = 1 \/ p = 2) by (change (Z.of_nat (length demo_validators)) with 150 in Hlt; lia).
  destruct Hp2 as [-> | ->]; vm_compute; reflexivity.
Defined.

Lemma GetBlockTime_exact_witness : comet_GetBlockTime (E := demo_endpoint) demo_rpc = Ok (6 * Second).
Proof.
  apply (GetBlockTime_exact (E := demo_endpoint) demo_rpc (mkHeader 5000 (30000 * Second)) (mkHeader 4000 (24000 * Second)) 6);
    [done|done|done|vm_compute; reflexivity..|done].
Defined.

(** A counter that does not parse is reported as zero, without an error. *)
Example unconfirmed_unparsable : comet_GetNumUnconfirmedTxs (E := demo_endpoint) demo_rpc = Ok (3, 0).
Proof. vm_compute. reflexivity. Qed.
End CometRPCExamples.
