(* ===== verification/Cosmos.v ===== *)
(** * The Cosmos SDK sources ([pkg/fetcher/cosmos_rpc.go], [cosmos_lcd.go], [cosmos_noop.go])

    ABCI queries over the RPC endpoint, the LCD's REST endpoint, and the genesis
    fallback.  The SDK's codecs and accessors and the HTTP client are operations
    of the class [Sdk]; the two fetchers implement one interface, the record
    [CosmosFetcher]. *)

From S2P Require Import Prelude GoNum GoText Deps Types Utils Config.
Local Open Scope Z_scope.

(** [stakingTypes.Validator], with what its accessors return. *)
Record StakingValidator := mkSV {
  sv_Moniker : string; sv_Operator : string;
  sv_UnpackInterfaces : res unit; sv_ConsAddr : res bytes;
  sv_ConsPubKey : res bytes; sv_CmtPubKey : res bytes }.

(** The messages of a gentx: [pubkey] is what [UnpackAny] gives. *)
Inductive GenTxMsg :=
  | MsgCreateValidator (moniker operator : string) (pubkey : res bytes)
  | OtherMsg.

Class Sdk := {
  QueryEscape : string -> string;
  (** [Client.Get] into an [AbciQueryResponse] *)
  http_Get_abci : string -> string -> res AbciResponse;
  marshal_QueryValidators : Z -> res bytes;
  unmarshal_QueryValidators : bytes -> res (list StakingValidator);
  marshal_AllPairs : string -> res bytes;
  unmarshal_AllPairs : bytes -> res (list (string * string));
  marshal_CurrentPlan : res bytes;
  unmarshal_CurrentPlan : bytes -> res (option Upgrade);
  (** [ConsAddress.String], [ConsAddressFromBech32] *)
  ConsAddress_String : bytes -> string;
  ConsAddressFromBech32 : string -> res bytes;
  (** [Client.Get] into a genesis chunk: its data and the total, [nil] without a result *)
  http_Get_chunk : string -> string -> res (option (bytes * string));
  (** the [staking] and [genutil] states of a genesis *)
  json_genesis : bytes -> res (bytes * bytes);
  json_staking : bytes -> res (list StakingValidator);
  json_genutil : bytes -> res (list bytes);
  tx_decode : bytes -> res (list GenTxMsg);
  (** the LCD's two endpoints *)
  http_GetPlain_lcd : string -> string -> res bytes;
  json_QueryValidators : bytes -> res (list StakingValidator);
  http_Get_plan : string -> string -> res (option Upgrade);
}.

(** [cosmosRPCFetcher]; [None]: still running when the fuel is used up. *)
Record CosmosFetcher := mkCosmosFetcher {
  cf_GetValidators : nat -> option (res (list CosmosValidator));
  cf_GetUpgradePlan : res (option Upgrade) }.

Section Cosmos.
Context `{C : Comet} `{SK : Sdk} `{BE : Bech32} {Location : Type}.
Implicit Types (config : Config Location).

Definition abciQuery {A} (method : string) (message : res bytes) (output : bytes -> res A) (host : string) : res A :=
  dataBytes ← wrap_err ("marshalling abci query " +:+ method) message;
  let methodName := dquote +:+ method +:+ dquote in
  let queryURL := "/abci_query?path=" +:+ QueryEscape methodName +:+ "&data=0x" +:+ hex_encode false dataBytes in
  response ← wrap_err ("abci query " +:+ method) (http_Get_abci host queryURL);
  if negb (abci_Code response =? 0)
  then Err ("abci query " +:+ method +:+ ": code " +:+ itoa (abci_Code response) +:+ ": " +:+ abci_Log response)
  else wrap_err ("unmarshalling abci response for " +:+ method) (output (abci_Value response)).

Definition parseValidator (v : StakingValidator) : res CosmosValidator :=
  sv_UnpackInterfaces v ≫= fun _ =>
  consAddr ← sv_ConsAddr v;
  consPubKey ← wrap_err "getting consensus pubkey" (sv_ConsPubKey v);
  cometConsPubKey ← wrap_err "getting comet consensus pubkey" (sv_CmtPubKey v);
  Ok (mkCosmosValidator (sv_Moniker v) (Some consPubKey) cometConsPubKey (sv_Operator v)
        (ConsAddress_String consAddr) "" "").

(** ** Genesis *)

Definition getGenesisChunk (url : string) (chunk : Z) : res (bytes * Z) :=
  response ← http_Get_chunk url ("/genesis_chunked?chunk=" +:+ itoa chunk);
  match response with
  | None => Err "malformed response from node"
  | Some (data, total) => total ← ParseInt total 64; Ok (data, total)
  end.

Fixpoint genesis_chunks (fuel : nat) (url : string) (chunk : Z) (chunks : list bytes) : option (res (list bytes)) :=
  match fuel with
  | O => None
  | S fuel' =>
      match getGenesisChunk url chunk with
      | Err e => Some (Err e)
      | Panic => Some Panic
      | Ok (data, total) =>
          let chunks := chunks ++ [data] in
          if int64 (total - 1) <=? chunk then Some (Ok chunks)
          else genesis_chunks fuel' url (int64 (chunk + 1)) chunks
      end
  end.

(** A gentx without exactly one create-validator message ends the whole function
    with [return nil, err] while [err] is nil: no validators and no error. *)
Fixpoint gentx_validators (gentxs : list bytes) (validators : list CosmosValidator) : res (list CosmosValidator) :=
  match gentxs with
  | [] => Ok validators
  | gentx :: rest =>
      msgs ← tx_decode gentx;
      match msgs with
      | [MsgCreateValidator moniker operator pubkey] =>
          pubkey ← pubkey;
          gentx_validators rest (validators ++
            [mkCosmosValidator moniker (Some pubkey) "" operator (ConsAddress_String (PubKey_Address pubkey)) "" ""])
      | _ => Ok []
      end
  end.

(** [genesis_validators]: [getGenesisValidators] once the chunks are joined. *)
Definition genesis_validators (genesis : bytes) : res (list CosmosValidator) :=
  states ← json_genesis genesis;
  staking ← json_staking states.1;
  match staking with
  | _ :: _ => mapM parseValidator staking
  | [] => gentxs ← json_genutil states.2; gentx_validators gentxs []
  end.

Definition getGenesisValidators (url : string) (fuel : nat) : option (res (list CosmosValidator)) :=
  match genesis_chunks fuel url 0 [] with
  | None => None
  | Some chunks => Some (chunks ≫= fun chunks => genesis_validators (join "" chunks))
  end.

(** ** The RPC fetcher *)

Definition matches_pair (v : CosmosValidator) (kp : string * string) : bool :=
  match CompareTwoBech32 kp.1 (ConsensusAddress v) with Ok equal => equal | _ => false end.

(** An unreadable consumer address is the empty one: the error is dropped. *)
Definition assign_key (pairs : list (string * string)) (v : CosmosValidator) : CosmosValidator :=
  match Find pairs (matches_pair v) with
  | None => v
  | Some kp =>
      let addr := match ConsAddressFromBech32 kp.2 with Ok a => a | _ => "" end in
      mkCosmosValidator (Moniker v) (ConsensusPubkey v) (CometConsensusPubkey v) (OperatorAddress v)
        (ConsensusAddress v) (ConsAddress_String addr) (hex_encode true addr)
  end.

(** [getProviderOrConsumerClient]: the host its client is bound to. *)
Definition getProviderOrConsumerClient (config : Config Location) (url : string) : string :=
  if negb (bool_decide (ProviderRPCHost (cfg_Options config) = "")) then ProviderRPCHost (cfg_Options config) else url.

Definition cosmos_GetValidators (config : Config Location) (url : string) (fuel : nat) : option (res (list CosmosValidator)) :=
  match abciQuery "/cosmos.staking.v1beta1.Query/Validators" (marshal_QueryValidators 1000)
          unmarshal_QueryValidators (getProviderOrConsumerClient config url) with
  | Panic => Some Panic
  | Err e => if contains e " please wait for first block" then getGenesisValidators url fuel else Some (Err e)
  | Ok response => Some
      (validators ← mapM parseValidator response;
       if negb (IsConsumer config) then Ok validators
       else
         pairs ← abciQuery "/interchain_security.ccv.provider.v1.Query/QueryAllPairsValConsAddrByConsumer"
                   (marshal_AllPairs (ConsumerID (cfg_Options config))) unmarshal_AllPairs
                   (ProviderRPCHost (cfg_Options config));
         Ok (map (assign_key pairs) validators))
  end.

Definition cosmos_GetUpgradePlan (url : string) : res (option Upgrade) :=
  abciQuery "/cosmos.upgrade.v1beta1.Query/CurrentPlan" marshal_CurrentPlan unmarshal_CurrentPlan url.

(** ** The LCD fetcher and the no-op fetcher *)

(** The loop body is [parseValidator]'s, written out a second time in the source. *)
Definition lcd_GetValidators (host : string) : res (list CosmosValidator) :=
  bytes ← http_GetPlain_lcd host "/cosmos/staking/v1beta1/validators?status=BOND_STATUS_BONDED&pagination.limit=1000";
  response ← json_QueryValidators bytes;
  mapM parseValidator response.

Definition lcd_GetUpgradePlan (host : string) : res (option Upgrade) :=
  http_Get_plan host "/cosmos/upgrade/v1beta1/current_plan".

Definition noopDataFetcher : CosmosFetcher := mkCosmosFetcher (fun _ => Some (Ok [])) (Ok None).
Definition CosmosLCDDataFetcher (config : Config Location) : CosmosFetcher :=
  mkCosmosFetcher (fun _ => Some (lcd_GetValidators (LCDHost (cfg_Options config))))
    (lcd_GetUpgradePlan (LCDHost (cfg_Options config))).
Definition CosmosRPCDataFetcher (config : Config Location) (url : string) : CosmosFetcher :=
  mkCosmosFetcher (cosmos_GetValidators config url) (cosmos_GetUpgradePlan url).

(** ** Facts *)

(** A node that serves the genesis in [chunks]. *)
Definition serves_genesis (url : string) (chunks : list bytes) : Prop :=
  forall i data, chunks !! i = Some data ->
    http_Get_chunk url ("/genesis_chunked?chunk=" +:+ itoa (Z.of_nat i)) =
    Ok (Some (data, itoa (Z.of_nat (length chunks)))).

Lemma genesis_chunks_spec url chunks fuel i :
  serves_genesis url chunks -> Z.of_nat (length chunks) < 2 ^ 62 ->
  (i < length chunks)%nat -> (length chunks <= i + fuel)%nat ->
  genesis_chunks fuel url (Z.of_nat i) (take i chunks) = Some (Ok chunks).
Proof.
  intros Hs Hmax. revert i. induction fuel as [|fuel IH]; intros i Hi Hf; [lia|].
  destruct (lookup_lt_is_Some_2 chunks i Hi) as [data Hd].
  cbn [genesis_chunks]. unfold getGenesisChunk. rewrite (Hs i data Hd). cbn.
  rewrite ParseInt_itoa by go_lia. cbn. rewrite <-take_S_r with (x := data) by done.
  rewrite (int64_id (_ - 1)) by go_lia.
  destruct (Z.leb_spec (Z.of_nat (length chunks) - 1) (Z.of_nat i)).
  - by rewrite take_ge by lia.
  - rewrite int64_id by go_lia. replace (Z.of_nat i + 1) with (Z.of_nat (S i)) by lia. apply IH; lia.
Qed.

(** The genesis is fetched chunk by chunk until the reported total, joined in
    order, and then parsed; one request per chunk is enough. *)
Theorem getGenesisValidators_joins url chunks fuel
    (Hs : serves_genesis url chunks) (Hmax : Z.of_nat (length chunks) < 2 ^ 62)
    (Hne : chunks <> []) (Hf : (length chunks <= fuel)%nat) :
  getGenesisValidators url fuel = Some (genesis_validators (join "" chunks)).
Proof.
  unfold getGenesisValidators. change 0 with (Z.of_nat 0). rewrite <-(take_0 chunks) at 1.
  rewrite genesis_chunks_spec; [done..| |lia]. destruct chunks; [done|cbn; lia].
Qed.

(** One gentx that does not hold exactly one create-validator message makes the
    fallback report an empty validator set, and no error. *)
Theorem gentx_malformed_is_silent before bad after acc msgs
    (Hok : Forall (fun g => exists m o p, tx_decode g = Ok [MsgCreateValidator m o (Ok p)]) before)
    (Hbad : tx_decode bad = Ok msgs) (Hmsgs : forall m o p, msgs <> [MsgCreateValidator m o p]) :
  gentx_validators (before ++ bad :: after) acc = Ok [].
Proof.
  revert acc. induction Hok as [|g before (m & o & p & Hg) _ IH]; intros acc; cbn [app gentx_validators].
  - rewrite Hbad. cbn. destruct msgs as [|[m o p|] [|]]; try done. by destruct (Hmsgs m o p).
  - rewrite Hg. cbn. apply IH.
Qed.

(** Key assignment changes the two assigned-address fields only, to the consumer
    address of the first pair whose provider address is the validator's. *)
Lemma assign_key_spec pairs v :
  let v' := assign_key pairs v in
  (Moniker v', ConsensusPubkey v', OperatorAddress v', ConsensusAddress v') =
    (Moniker v, ConsensusPubkey v, OperatorAddress v, ConsensusAddress v) /\
  (forall l1 kp l2 addr, pairs = l1 ++ kp :: l2 -> matches_pair v kp = true ->
     Forall (fun q => matches_pair v q = false) l1 -> ConsAddressFromBech32 kp.2 = Ok addr ->
     AssignedAddress v' = ConsAddress_String addr /\ RawAssignedAddress v' = hex_encode true addr) /\
  (Forall (fun q => matches_pair v q = false) pairs -> v' = v).
Proof.
  cbv zeta. unfold assign_key. split_and!.
  - by destruct (Find pairs (matches_pair v)).
  - intros l1 kp l2 addr Hp Hm Hall Ha.
    rewrite (proj2 (Find_Some pairs (matches_pair v) kp)) by (by exists l1, l2). by rewrite Ha.
  - intros Hall. by rewrite (proj2 (Find_None _ _) Hall).
Qed.
End Cosmos.

(** ** A concrete SDK *)

Section CosmosExamples.
Definition demo_sdk : Sdk := {|
  QueryEscape s := s; http_Get_abci _ _ := Ok (mkAbciResponse 0 "" "");
  marshal_QueryValidators _ := Ok ""; unmarshal_QueryValidators _ := Ok [];
  marshal_AllPairs _ := Ok ""; unmarshal_AllPairs _ := Ok [];
  marshal_CurrentPlan := Ok ""; unmarshal_CurrentPlan _ := Ok None;
  ConsAddress_String b := "cosmosvalcons" +:+ b; ConsAddressFromBech32 _ := Err "decoding bech32 failed";
  http_Get_chunk _ path :=
    if bool_decide (path = "/genesis_chunked?chunk=0") then Ok (Some ("{", "2")) else Ok (Some ("}", "2"));
  json_genesis b := Ok (b, b); json_staking _ := Ok []; json_genutil _ := Ok ["good"; "bad"];
  tx_decode b := if bool_decide (b = "good") then Ok [MsgCreateValidator "val" "op" (Ok "key")] else Ok [];
  http_GetPlain_lcd _ _ := Ok ""; json_QueryValidators _ := Ok []; http_Get_plan _ _ := Ok None |}.

Lemma getGenesisValidators_joins_witness :
  getGenesisValidators (SK := demo_sdk) "tcp://node" 2 = Some (genesis_validators (SK := demo_sdk) "{}").
Proof.
  apply (getGenesisValidators_joins (SK := demo_sdk) "tcp://node" ["{"; "}"] 2); [|done|done|done].
  intros [|[|i]] data Hd; [injection Hd as <-..|by destruct i]; vm_compute; reflexivity.
Defined.

Lemma gentx_malformed_is_silent_witness :
  gentx_validators (SK := demo_sdk) (["good"] ++ "bad" :: ["good"]) [] = Ok [].
Proof.
  apply (gentx_malformed_is_silent (SK := demo_sdk) ["good"] "bad" ["good"] [] []); [|done|done].
  constructor; [|constructor]. by exists "val", "op", "key".
Defined.
End CosmosExamples.
