(* ===== verification/Fetcher.v ===== *)
(** * The data fetcher ([pkg/fetcher/data_fetcher.go])

    The façade over the CometBFT client and the Cosmos sources, and the merge of
    their validator lists by consensus address. *)

From S2P Require Import Prelude GoNum GoText Deps Types State Utils Config CometRPC Cosmos.
From Stdlib Require Import Lqa.
Local Open Scope Z_scope.

Section Fetcher.
Context `{C : Comet} `{E : Endpoint} `{SK : Sdk} `{BE : Bech32} {Location : Type}.

Record DataFetcher := mkDataFetcher { cosmosFetcher : CosmosFetcher; cometFetcher : CometRPC }.

(** [currentURL] is what [state.CurrentRPC().URL] answers when a request is made. *)
Definition NewDataFetcher (config : Config Location) (currentURL : string) : DataFetcher :=
  mkDataFetcher
    (match cfg_ChainType config with
     | ChainTypeTendermint => noopDataFetcher
     | ChainTypeCosmosLCD => CosmosLCDDataFetcher config
     | ChainTypeCosmosRPC => CosmosRPCDataFetcher config currentURL
     end)
    (mkCometRPC currentURL (BlocksBehind (cfg_Options config))).

Definition df_GetConsensusState (f : DataFetcher) : res RoundState := GetConsensusState (cometFetcher f).
Definition df_GetCometNodeStatus (f : DataFetcher) (rpcURL : string) : res ResultStatus :=
  comet_GetCometNodeStatus (WithEndpoint (cometFetcher f) rpcURL).
Definition df_Block (f : DataFetcher) (height : Z) : res (option Header) := Block (cometFetcher f) height.
Definition df_GetBlockTime (f : DataFetcher) : res Z := comet_GetBlockTime (cometFetcher f).
Definition df_GetNetInfo (f : DataFetcher) (rpcURL : string) : res NetInfo :=
  comet_GetNetInfo (WithEndpoint (cometFetcher f) rpcURL).
Definition df_GetNumUnconfirmedTxs (f : DataFetcher) : res (Z * Z) := comet_GetNumUnconfirmedTxs (cometFetcher f).
Definition df_GetUpgradePlan (f : DataFetcher) : res (option Upgrade) := cf_GetUpgradePlan (cosmosFetcher f).

(** ** The merge *)

Definition total_power (vals : list CometValidator) : Z :=
  foldl (fun a v => int64 (a + cv_VotingPower v)) 0 vals.

Definition index_cosmos (m : gmap string CosmosValidator) (v : CosmosValidator) : gmap string CosmosValidator :=
  match ConsensusPubkey v with
  | None => m
  | Some key => <[HexBytes_String (PubKey_Address key) := v]> m
  end.

(** [big.NewFloat] panics on NaN only, which [totalVotingPower > 0] excludes. *)
Definition power_percent (total power : Z) : gofloat :=
  if 0 <? total then f64_mul (f64_div (f64_of_Z power) (f64_of_Z total)) (Fin 100) else Fin 0.

Definition merge_row (cosmos : gmap string CosmosValidator) (total : Z) (i : nat) (v : CometValidator) : res TMValidator :=
  key ← deref (cv_PubKey v);
  Ok (mkTMValidator (Some v) (cosmos !! HexBytes_String (PubKey_Address key)) (Z.of_nat i)
    (Some (power_percent total (cv_VotingPower v))) "").

(** The first validator without a key is a nil dereference. *)
Definition merge_validators (cometVals : list CometValidator) (cosmosVals : list CosmosValidator) : res (list TMValidator) :=
  mapM (fun p => merge_row (foldl index_cosmos ∅ cosmosVals) (total_power cometVals) p.1 p.2) (imap pair cometVals).

Definition df_GetValidators (fuel : nat) (f : DataFetcher) : option (res (list TMValidator)) :=
  match comet_GetValidators fuel (cometFetcher f) with
  | None => None
  | Some (Err e) => Some (Err e)
  | Some Panic => Some Panic
  | Some (Ok cometVals) =>
      match cf_GetValidators (cosmosFetcher f) fuel with
      | None => None
      | Some r => Some (cosmosVals ← r; merge_validators cometVals cosmosVals)
      end
  end.

(** ** The interface ([fetcher.go])

    What the application asks of its data source, one answer per call. *)
Record Fetcher := mkFetcher {
  fetch_ConsensusState : res (option RoundState);
  fetch_CometNodeStatus : string -> res ResultStatus;
  fetch_BlockTime : res Z;
  fetch_NetInfo : string -> res NetInfo;
  fetch_NumUnconfirmedTxs : res (Z * Z);
  fetch_UpgradePlan : res (option Upgrade);
  fetch_Validators : res (list TMValidator) }.

(** [None]: a request is still running when the fuel is used up. *)
Definition DataFetcher_Fetcher (fuel : nat) (f : DataFetcher) : option Fetcher :=
  vals ← df_GetValidators fuel f;
  Some (mkFetcher (Some <$> df_GetConsensusState f) (df_GetCometNodeStatus f) (df_GetBlockTime f)
          (df_GetNetInfo f) (df_GetNumUnconfirmedTxs f) (df_GetUpgradePlan f) vals).

(** ** Facts *)

(** The consensus address a Cosmos validator is indexed by. *)
Definition cosmos_key (v : CosmosValidator) : option string :=
  (fun key => HexBytes_String (PubKey_Address key)) <$> ConsensusPubkey v.

(** The last one wins. *)
Definition last_with_key (l : list CosmosValidator) (k : string) : option CosmosValidator :=
  last (filter (fun v => cosmos_key v = Some k) l).

Lemma index_cosmos_lookup l k : foldl index_cosmos ∅ l !! k = last_with_key l k.
Proof.
  unfold last_with_key. induction l as [|v l IH] using rev_ind; [done|].
  rewrite foldl_app, filter_app. cbn [foldl]. unfold index_cosmos at 1.
  destruct (ConsensusPubkey v) as [key|] eqn:Ek.
  - assert (Hk : cosmos_key v = Some (HexBytes_String (PubKey_Address key))) by (unfold cosmos_key; by rewrite Ek).
    rewrite lookup_insert. case_decide as Hd.
    + rewrite (filter_cons_True _ v []), filter_nil, last_snoc by congruence. done.
    + rewrite (filter_cons_False _ v []), filter_nil, app_nil_r by congruence. done.
  - rewrite (filter_cons_False _ v []), filter_nil, app_nil_r; [done|]. unfold cosmos_key. by rewrite Ek.
Qed.

Lemma last_with_key_elem l k v : last_with_key l k = Some v -> v ∈ l /\ cosmos_key v = Some k.
Proof.
  unfold last_with_key. intros H. apply last_Some_elem_of in H. apply list_elem_of_filter in H. tauto.
Qed.

Lemma total_power_sum vals :
  Forall (fun v => 0 <= cv_VotingPower v) vals -> sumz (cv_VotingPower <$> vals) <= MaxInt64 ->
  total_power vals = sumz (cv_VotingPower <$> vals).
Proof.
  intros Hp Hm. unfold total_power.
  assert (Hf : forall acc, foldl (fun a v => int64 (a + cv_VotingPower v)) acc vals =
    foldl (fun a x => int64 (a + x)) acc (cv_VotingPower <$> vals)).
  { clear. induction vals as [|v vals IH]; intros acc; [done|]. cbn. apply IH. }
  rewrite Hf, foldl_int64_sum; [done|by apply Forall_fmap|done|done].
Qed.

Lemma f64_of_Z_mono a b : 0 <= a <= b -> b <= MaxInt64 -> 0 < b ->
  exists p q, f64_of_Z a = Fin p /\ f64_of_Z b = Fin q /\ (0 <= p /\ p <= q /\ 1 <= q)%Q.
Proof.
  intros Ha Hb Hp. assert (Hsmall : forall z, 0 <= z <= MaxInt64 -> (inject_Z z < two_pow 1023)%Q).
  { intros z Hz. eapply (Qle_lt_trans _ (two_pow 63)); [|by apply two_pow_lt_check; vm_compute].
    rewrite two_pow_nonneg by done. rewrite <-Zle_Qle. unfold MaxInt64 in Hz. lia. }
  exists (rnd (Some (-1074)) (inject_Z a)), (rnd (Some (-1074)) (inject_Z b)).
  split; [apply f64_round_small; [by apply inject_nonneg; lia|apply Hsmall; lia]|].
  split; [apply f64_round_small; [by apply inject_nonneg; lia|apply Hsmall; lia]|].
  split; [apply rnd_nonneg, inject_nonneg; lia|].
  split; [apply rnd_le; [apply inject_nonneg; lia|rewrite <-Zle_Qle; lia]|].
  change 1%Q with (inject_Z 1). rewrite <-(rnd_Z (Some (-1074)) 1) by done.
  apply rnd_le; [done|]. rewrite <-Zle_Qle. lia.
Qed.

Lemma power_percent_range total power :
  0 <= power <= total -> total <= MaxInt64 ->
  exists q, power_percent total power = Fin q /\ (0 <= q /\ q <= 100)%Q.
Proof.
  intros Hp Ht. unfold power_percent. destruct (Z.ltb_spec 0 total); [|by exists 0%Q].
  destruct (f64_of_Z_mono power total) as (p & q & -> & -> & Hp0 & Hpq & Hq); [lia..|].
  cbn [f_div f_mul]. destruct (Qeq_bool q 0) eqn:Eq; [apply Qeq_bool_iff in Eq; lra|].
  destruct (rnd_ratio_le_1 (Some (-1074)) p q ltac:(done) Hp0 Hpq ltac:(lra)) as [H0 H1].
  assert (Hlt : forall x, (0 <= x -> x <= 100 -> x < two_pow 1023)%Q).
  { intros x _ Hx. eapply Qle_lt_trans; [exact Hx|]. change 100%Q with (inject_Z 100).
    eapply (Qle_lt_trans _ (two_pow 7)); [by rewrite two_pow_nonneg by done; rewrite <-Zle_Qle|].
    by apply two_pow_lt_check; vm_compute. }
  assert (Hd0 : (0 <= p / q)%Q) by (apply Qle_shift_div_l; lra).
  assert (Hd1 : (p / q <= 1)%Q) by (apply Qle_shift_div_r; lra).
  assert (f64_round (p / q) = Fin (rnd (Some (-1074)) (p / q))) as -> by (apply f64_round_small; [done|apply Hlt; lra]).
  cbn [f_mul].
  destruct (rnd_percent (Some (-1074)) _ ltac:(done) H0 H1) as [Hr0 Hr1].
  eexists. split; [apply f64_round_small; [lra|apply Hlt; lra]|done].
Qed.

(** C27: The merged list has one row per CometBFT validator, in order and numbered; a
    row carries a Cosmos validator exactly when one has that consensus address,
    the last such one, and never one without a consensus key; every percentage is
    a number between 0 and 100.  One CometBFT validator without a key is a panic. *)
Theorem merge_validators_spec cometVals cosmosVals
    (Hpow : Forall (fun v => 0 <= cv_VotingPower v) cometVals)
    (Hmax : sumz (cv_VotingPower <$> cometVals) <= MaxTotalVotingPower) :
  (Forall (fun v => is_Some (cv_PubKey v)) cometVals ->
   exists rows, merge_validators cometVals cosmosVals = Ok rows /\ length rows = length cometVals /\
   forall i v key, cometVals !! i = Some v -> cv_PubKey v = Some key -> exists row q, rows !! i = Some row /\
     tv_Comet row = Some v /\ Index row = Z.of_nat i /\
     tv_Cosmos row = last_with_key cosmosVals (HexBytes_String (PubKey_Address key)) /\
     (forall c, tv_Cosmos row = Some c -> c ∈ cosmosVals /\ ConsensusPubkey c <> None) /\
     VotingPowerPercent row = Some (Fin q) /\ (0 <= q /\ q <= 100)%Q) /\
  ((exists v, v ∈ cometVals /\ cv_PubKey v = None) -> merge_validators cometVals cosmosVals = Panic).
Proof.
  unfold merge_validators. set (row_of := fun p : nat * CometValidator => merge_row _ _ p.1 p.2). split.
  - intros Hkeys. destruct (mapM_res_total row_of (imap pair cometVals)) as [rows Hrows].
    { intros [i v] Hin. apply elem_of_lookup_imap in Hin as (j & x & [= -> ->] & Hx).
      destruct (Forall_lookup_1 _ _ _ _ Hkeys Hx) as [key Hk]. unfold row_of, merge_row. cbn. rewrite Hk. by eexists. }
    exists rows. destruct (mapM_res_lookup _ _ _ Hrows) as [Hlen Hat]. rewrite length_imap in Hlen. split_and!; [done..|].
    intros i v key Hv Hk. destruct (Hat i (i, v)) as (row & Hrow & Er); [by rewrite list_lookup_imap, Hv|].
    unfold row_of, merge_row in Er. cbn [fst snd] in Er. rewrite Hk in Er. injection Er as <-.
    assert (Hvp : cv_VotingPower v ∈ cv_VotingPower <$> cometVals)
      by (apply list_elem_of_fmap; exists v; split; [done|by eapply list_elem_of_lookup_2]).
    assert (Hnn : Forall (fun x => 0 <= x) (cv_VotingPower <$> cometVals)) by by apply Forall_fmap.
    destruct (power_percent_range (total_power cometVals) (cv_VotingPower v)) as (q & Hq & Hr1 & Hr2).
    + rewrite total_power_sum by (done || go_lia). split; [by eapply Forall_forall in Hnn; [|exact Hvp]|].
      by apply sumz_elem_le.
    + rewrite total_power_sum by (done || go_lia). go_lia.
    + eexists _, q. split; [exact Hrow|]. cbn [tv_Comet Index tv_Cosmos VotingPowerPercent].
      rewrite index_cosmos_lookup, Hq. split_and!; try done.
      intros c Hc. apply last_with_key_elem in Hc as [? Hck]. split; [done|].
      unfold cosmos_key in Hck. by destruct (ConsensusPubkey c).
  - intros (v & Hv & Hk). apply mapM_res_panic.
    + intros [i x] e. unfold row_of, merge_row. cbn. by destruct (cv_PubKey x).
    + apply list_elem_of_lookup in Hv as [i Hi]. exists (i, v). split; [|unfold row_of, merge_row; cbn; by rewrite Hk].
      apply elem_of_lookup_imap. by exists i, v.
Qed.
End Fetcher.

Section FetcherExamples.
Definition demo_comet : list CometValidator := [mkCometValidator "A" (Some "ka") 30; mkCometValidator "B" (Some "kb") 10].
Definition demo_cosmos : list CosmosValidator :=
  [mkCosmosValidator "val-b" (Some "kb") "" "opb" "cb" "" ""; mkCosmosValidator "ghost" None "" "opg" "cg" "" ""].

Example merge_ex :
  match merge_validators demo_comet demo_cosmos with
  | Ok rows => (fun r => (Moniker <$> tv_Cosmos r, Index r)) <$> rows
  | _ => []
  end = [(None, 0); (Some "val-b", 1)].
Proof. vm_compute. reflexivity. Qed.

Lemma merge_validators_spec_witness :
  exists rows, merge_validators demo_comet demo_cosmos = Ok rows /\ length rows = 2%nat.
Proof.
  destruct (merge_validators_spec demo_comet demo_cosmos) as [H _]; [repeat constructor; done|done|].
  destruct H as (rows & H1 & H2 & _); [repeat constructor; by eexists|by exists rows].
Defined.
End FetcherExamples.
