(* ===== verification/Websocket.v ===== *)
(** * The websocket client ([pkg/fetcher/comet_rpc_websocket.go])

    One goroutine reads the connection and replaces it when a read fails; other
    goroutines subscribe.  [muWrite] serialises the writers and is held for the
    whole of a reconnect, registrations are not under it.  The client is a
    transition system whose steps are what one goroutine does between two points
    at which another can interfere; the dialler, the socket, which may refuse a
    write or keep it waiting, and the JSON decoder are the environment. *)

From S2P Require Import Prelude GoNum GoText Deps.
Local Open Scope Z_scope.

(** [sub]: [sub_mb] names the mailbox its events go to. *)
Record sub := mkSub { sub_id : Z; sub_events : list string; sub_mb : nat }.

#[export] Instance sub_eq_dec : EqDecision sub.
Proof. solve_decision. Defined.

(** [writeSubscribeLocked]: the query of the subscribe message. *)
Definition subscribe_query (s : sub) : string :=
  "tm.event='" +:+ join "' OR tm.event='" (sub_events s) +:+ "'".

(** The scheme of the websocket URL. *)
Definition ws_scheme (scheme : string) : string :=
  if bool_decide (scheme = "https") then "wss" else if bool_decide (scheme = "http") then "ws" else scheme.

(** A decoded frame: the envelope's error, its raw result, the event decoded from
    it and the identifier when it is an integer. *)
Record frame := mkFrame {
  f_error : option string; f_result : string; f_event : res TMEventData; f_id : option Z }.

(** Who holds [muWrite]: a [Subscribe] about to write or inside [WriteJSON], a
    reconnect that is dialling, or one that is replaying, with the subscriptions it
    has still to write. *)
Inductive mutex := Free | BySubscribe (s : sub) | ByReset | ByReplay (rest : list sub).

(** [ws_conn] numbers the connection in use, [ws_dials] the connections made so
    far, [ws_sent] lists the subscribe messages written on each and [ws_failed]
    those whose [WriteJSON] failed, [ws_waiting] the registered subscriptions whose
    [Subscribe] has not returned yet. *)
Record CometRPCWebsocket := mkWS {
  ws_conn : option nat;
  ws_dials : nat;
  ws_lock : mutex;
  ws_subIDNonce : Z;
  ws_subs : list (Z * sub);
  ws_waiting : list sub;
  ws_sent : list (nat * sub);
  ws_failed : list (nat * sub);
  ws_delivered : list (nat * TMEventData);
  ws_stopped : bool }.

Definition init_ws : CometRPCWebsocket := mkWS None 0 Free 0 [] [] [] [] [] false.

Definition with_lock (m : mutex) (w : CometRPCWebsocket) : CometRPCWebsocket :=
  mkWS (ws_conn w) (ws_dials w) m (ws_subIDNonce w) (ws_subs w) (ws_waiting w) (ws_sent w) (ws_failed w)
    (ws_delivered w) (ws_stopped w).
Definition with_conn (c : option nat) (w : CometRPCWebsocket) : CometRPCWebsocket :=
  mkWS c (ws_dials w) (ws_lock w) (ws_subIDNonce w) (ws_subs w) (ws_waiting w) (ws_sent w) (ws_failed w)
    (ws_delivered w) (ws_stopped w).

(** [writeSubscribeLocked]: nothing is written while there is no connection.  [written]
    is whether [WriteJSON] succeeds; its error is logged and the connection kept. *)
Definition writeSubscribeLocked (s : sub) (written : bool) (w : CometRPCWebsocket) : CometRPCWebsocket :=
  match ws_conn w with
  | None => w
  | Some c =>
      if written
      then mkWS (ws_conn w) (ws_dials w) (ws_lock w) (ws_subIDNonce w) (ws_subs w) (ws_waiting w)
             (ws_sent w ++ [(c, s)]) (ws_failed w) (ws_delivered w) (ws_stopped w)
      else mkWS (ws_conn w) (ws_dials w) (ws_lock w) (ws_subIDNonce w) (ws_subs w) (ws_waiting w)
             (ws_sent w) (ws_failed w ++ [(c, s)]) (ws_delivered w) (ws_stopped w)
  end.

(** [Subscribe]: the registration, the lock, and the write with the unlock.  Between
    the last two the goroutine is in [WriteJSON], for as long as the node pleases. *)
Definition subscribe_register (events : list string) (mb : nat) (w : CometRPCWebsocket) : CometRPCWebsocket :=
  let id := ws_subIDNonce w + 1 in
  let s := mkSub id events mb in
  mkWS (ws_conn w) (ws_dials w) (ws_lock w) id (ws_subs w ++ [(id, s)]) (ws_waiting w ++ [s])
    (ws_sent w) (ws_failed w) (ws_delivered w) (ws_stopped w).

Definition subscribe_lock (s : sub) (w : CometRPCWebsocket) : CometRPCWebsocket := with_lock (BySubscribe s) w.

Definition subscribe_write (s : sub) (written : bool) (w : CometRPCWebsocket) : CometRPCWebsocket :=
  writeSubscribeLocked s written
    (mkWS (ws_conn w) (ws_dials w) Free (ws_subIDNonce w) (ws_subs w)
       (filter (fun x => x <> s) (ws_waiting w)) (ws_sent w) (ws_failed w) (ws_delivered w) (ws_stopped w)).

(** [resetConnection]: the lock is taken and the old connection dropped; then either
    a dial succeeds and every subscription is written again, one after the other, or
    the stop signal ends it. *)
Definition reset_begin (w : CometRPCWebsocket) : CometRPCWebsocket := with_conn None (with_lock ByReset w).

Definition reset_connected (w : CometRPCWebsocket) : CometRPCWebsocket :=
  mkWS (Some (ws_dials w)) (S (ws_dials w)) (ByReplay (snd <$> ws_subs w)) (ws_subIDNonce w) (ws_subs w) (ws_waiting w)
    (ws_sent w) (ws_failed w) (ws_delivered w) (ws_stopped w).

Definition replay_write (s : sub) (rest : list sub) (written : bool) (w : CometRPCWebsocket) : CometRPCWebsocket :=
  writeSubscribeLocked s written (with_lock (ByReplay rest) w).

Definition reset_unlock (w : CometRPCWebsocket) : CometRPCWebsocket := with_lock Free w.

Fixpoint get_sub (subs : list (Z * sub)) (id : Z) : option sub :=
  match subs with
  | [] => None
  | (k, s) :: subs' => if k =? id then Some s else get_sub subs' id
  end.

(** One frame read by [readConnection]. A panic in here is recovered. *)
Definition on_frame (f : frame) (w : CometRPCWebsocket) : CometRPCWebsocket :=
  match f_error f with
  | Some _ => w
  | None =>
      if bool_decide (f_result f = "{}") then w
      else match f_event f with
           | Ok event =>
               match f_id f with
               | None => w
               | Some id =>
                   match get_sub (ws_subs w) id with
                   | None => w
                   | Some s => mkWS (ws_conn w) (ws_dials w) (ws_lock w) (ws_subIDNonce w) (ws_subs w) (ws_waiting w)
                                 (ws_sent w) (ws_failed w) (ws_delivered w ++ [(sub_mb s, event)]) (ws_stopped w)
                   end
               end
           | _ => w
           end
  end.

(** [Close] and [terminateConnection] *)
Definition close_stop (w : CometRPCWebsocket) : CometRPCWebsocket :=
  mkWS (ws_conn w) (ws_dials w) (ws_lock w) (ws_subIDNonce w) (ws_subs w) (ws_waiting w) (ws_sent w) (ws_failed w)
    (ws_delivered w) true.
Definition terminateConnection (w : CometRPCWebsocket) : CometRPCWebsocket := with_conn None w.

Inductive ws_step : CometRPCWebsocket -> CometRPCWebsocket -> Prop :=
  | st_register w events mb : ws_step w (subscribe_register events mb w)
  | st_lock w s : ws_lock w = Free -> s ∈ ws_waiting w -> ws_step w (subscribe_lock s w)
  | st_write w s written : ws_lock w = BySubscribe s -> ws_step w (subscribe_write s written w)
  | st_reset w : ws_lock w = Free -> ws_step w (reset_begin w)
  | st_connected w : ws_lock w = ByReset -> ws_step w (reset_connected w)
  | st_replay w s rest written : ws_lock w = ByReplay (s :: rest) -> ws_step w (replay_write s rest written w)
  | st_replayed w : ws_lock w = ByReplay [] -> ws_step w (reset_unlock w)
  | st_aborted w : ws_lock w = ByReset -> ws_stopped w = true -> ws_step w (reset_unlock w)
  | st_frame w f c : ws_conn w = Some c -> ws_step w (on_frame f w)
  | st_close w : ws_step w (close_stop w)
  | st_terminate w : ws_lock w = Free -> ws_stopped w = true -> ws_step w (terminateConnection w).

Definition ws_reachable : CometRPCWebsocket -> Prop := rtc ws_step init_ws.

(** ** Facts *)

Section WebsocketFacts.
Implicit Types (w : CometRPCWebsocket) (s : sub).

Definition registered w s : Prop := (sub_id s, s) ∈ ws_subs w.

(** A write was attempted on the connection: it went through, or its error was logged. *)
Definition tried w c s : Prop := (c, s) ∈ ws_sent w \/ (c, s) ∈ ws_failed w.

Definition lock_ok w : Prop :=
  match ws_lock w with
  | Free => True
  | BySubscribe s => s ∈ ws_waiting w
  | ByReset => ws_conn w = None
  | ByReplay _ => is_Some (ws_conn w)
  end.
Definition to_replay w : list sub := match ws_lock w with ByReplay l => l | _ => [] end.

(** What holds between any two steps. *)
Record ws_ok w : Prop := {
  ok_keys : forall id s, (id, s) ∈ ws_subs w -> sub_id s = id;
  ok_fresh : forall id s, (id, s) ∈ ws_subs w -> 1 <= id <= ws_subIDNonce w;
  ok_nonce : 0 <= ws_subIDNonce w;
  ok_unique : NoDup (ws_subs w).*1;
  ok_waiting : forall s, s ∈ ws_waiting w -> registered w s;
  ok_lock : lock_ok w;
  ok_sent : forall c s, ws_conn w = Some c -> registered w s -> s ∉ ws_waiting w -> tried w c s \/ s ∈ to_replay w;
  ok_left : (length (to_replay w) <= length (ws_subs w))%nat;
}.

Lemma init_ok : ws_ok init_ws.
Proof. split; cbn; try done; try set_solver. constructor. Qed.

(** One write, by whoever holds the lock, changes the record of writes only. *)
Lemma write_fields s written w :
  let w' := writeSubscribeLocked s written w in
  ws_conn w' = ws_conn w /\ ws_dials w' = ws_dials w /\ ws_lock w' = ws_lock w /\ ws_subs w' = ws_subs w /\
  ws_subIDNonce w' = ws_subIDNonce w /\ ws_waiting w' = ws_waiting w /\ ws_delivered w' = ws_delivered w /\
  ws_stopped w' = ws_stopped w /\
  (ws_conn w = None -> w' = w) /\ (forall c x, tried w c x -> tried w' c x) /\ (forall c, ws_conn w = Some c -> tried w' c s).
Proof.
  unfold writeSubscribeLocked, tried. destruct (ws_conn w) as [c|] eqn:E; [|by split_and!].
  destruct written; cbn; rewrite ?E; split_and!; try done; intros;
    rewrite ?elem_of_app, ?list_elem_of_singleton; naive_solver.
Qed.

Lemma register_ok w events mb : ws_ok w -> ws_ok (subscribe_register events mb w).
Proof.
  intros [Hk Hf Hn Hu Hw Hl Hs Hle]. unfold subscribe_register. remember (ws_subIDNonce w + 1) as id eqn:Eid.
  assert (Hnew : id ∉ (ws_subs w).*1).
  { intros Hin. apply list_elem_of_fmap in Hin as ([i s] & -> & Hin). apply Hf in Hin. cbn in *. lia. }
  split; cbn.
  - intros i s [Hin|[= -> ->]%list_elem_of_singleton]%elem_of_app; [by apply Hk|done].
  - intros i s [Hin|[= -> ->]%list_elem_of_singleton]%elem_of_app; [apply Hf in Hin; lia|lia].
  - lia.
  - rewrite fmap_app. apply NoDup_app. split_and!; [done| |repeat constructor; set_solver].
    intros i Hi ->%list_elem_of_singleton. done.
  - unfold registered; cbn. intros s [Hin| ->%list_elem_of_singleton]%elem_of_app; [|set_solver].
    apply Hw in Hin. unfold registered in Hin. set_solver.
  - unfold lock_ok in *. cbn. destruct (ws_lock w); [done|set_solver|done..].
  - unfold registered; cbn. intros c s Hc [Hin|[= Hid ->]%list_elem_of_singleton]%elem_of_app Hnw; [|set_solver].
    apply Hs; [done|exact Hin|set_solver].
  - unfold to_replay in *. cbn. rewrite length_app. lia.
Qed.

Lemma write_ok w s written : ws_ok w -> ws_lock w = BySubscribe s -> ws_ok (subscribe_write s written w).
Proof.
  intros [Hk Hf Hn Hu Hw Hl Hs Hle] Hlock. unfold subscribe_write.
  set (w0 := mkWS _ _ _ _ _ _ _ _ _ _).
  destruct (write_fields s written w0) as (E1 & _ & E2 & E3 & E4 & E5 & _ & _ & _ & Ht & Hnew).
  split; unfold registered, lock_ok, to_replay; rewrite ?E1, ?E2, ?E3, ?E4, ?E5; cbn; try done.
  - intros x [_ Hx]%list_elem_of_filter. by apply Hw.
  - intros c x Hc Hr Hnw. left. destruct (decide (x = s)) as [->|Hne]; [by apply Hnew|]. apply Ht.
    assert (Hnx : x ∉ ws_waiting w) by (intros Hx; apply Hnw; by apply list_elem_of_filter).
    destruct (Hs c x Hc Hr Hnx) as [H|H]; [exact H|]. unfold to_replay in H. rewrite Hlock in H. by apply not_elem_of_nil in H.
  - lia.
Qed.

Lemma connected_ok w : ws_ok w -> ws_ok (reset_connected w).
Proof.
  intros [Hk Hf Hn Hu Hw Hl Hs Hle]. split; cbn; try done; try by eexists.
  - intros c s _ Hr _. right. unfold to_replay; cbn. apply list_elem_of_fmap. by exists (sub_id s, s).
  - unfold to_replay; cbn. by rewrite length_fmap.
Qed.

Lemma replay_ok w s rest written : ws_ok w -> ws_lock w = ByReplay (s :: rest) -> ws_ok (replay_write s rest written w).
Proof.
  intros [Hk Hf Hn Hu Hw Hl Hs Hle] Hlock. unfold replay_write. set (w0 := with_lock _ w).
  destruct (write_fields s written w0) as (E1 & _ & E2 & E3 & E4 & E5 & _ & _ & _ & Ht & Hnew).
  split; unfold registered, lock_ok, to_replay; rewrite ?E1, ?E2, ?E3, ?E4, ?E5; cbn; try done.
  - unfold lock_ok in Hl. by rewrite Hlock in Hl.
  - intros c x Hc Hr Hnw. destruct (Hs c x Hc Hr Hnw) as [H|H]; [left; by apply Ht|].
    unfold to_replay in H. rewrite Hlock in H. apply elem_of_cons in H as [->|H]; [left; by apply Hnew|by right].
  - unfold to_replay in Hle. rewrite Hlock in Hle. cbn in Hle. lia.
Qed.

Lemma unlock_ok w : ws_ok w -> ws_lock w = ByReplay [] \/ ws_lock w = ByReset -> ws_ok (reset_unlock w).
Proof.
  intros [Hk Hf Hn Hu Hw Hl Hs Hle] Hlock. split; try done; [|unfold to_replay; cbn; lia]. intros c x Hc Hr Hnw.
  destruct (Hs c x Hc Hr Hnw) as [H|H]; [by left|]. unfold to_replay in H.
  destruct Hlock as [E|E]; rewrite E in H; by apply not_elem_of_nil in H.
Qed.

Lemma ws_step_ok w w' : ws_ok w -> ws_step w w' -> ws_ok w'.
Proof.
  intros Hok Hst. destruct Hst as [w events mb|w s Hl Hin|w s written Hl|w Hl|w Hl|w s l written Hl|w Hl|w Hl Hst|w f c Hc|w|w Hl Hst].
  - by apply register_ok.
  - destruct Hok as [? ? ? ? ? ? Hs ?]. split; try done; [|unfold to_replay; cbn; lia]. intros c x Hc Hr Hnw.
    destruct (Hs c x Hc Hr Hnw) as [H|H]; [by left|]. unfold to_replay in H. rewrite Hl in H. by apply not_elem_of_nil in H.
  - by apply write_ok.
  - destruct Hok; split; try done. unfold to_replay; cbn; lia.
  - by apply connected_ok.
  - by apply replay_ok.
  - apply unlock_ok; auto.
  - apply unlock_ok; auto.
  - unfold on_frame. repeat case_match; try done. by destruct Hok; split.
  - by destruct Hok; split.
  - destruct Hok as [? ? ? ? ? Hlk ? ?]. split; try done. unfold lock_ok. cbn. by rewrite Hl.
Qed.

Lemma reachable_ws_ok w : ws_reachable w -> ws_ok w.
Proof. apply rtc_invariant; [apply ws_step_ok|apply init_ok]. Qed.

(** C29: no subscription is lost over reconnects: whenever a connection is in use,
    every subscription whose [Subscribe] has returned has been written on that very
    connection, or its [WriteJSON] failed on it, or the reconnect that still holds
    the lock has it left to write; so once the lock is free, and unless a write
    failed, it has been sent.  This holds however registrations, writes that take
    their time or fail, reconnects and frames interleave. *)
Theorem no_lost_subscription w c s
    (Hr : ws_reachable w) (Hc : ws_conn w = Some c)
    (Hs : registered w s) (Hret : s ∉ ws_waiting w) :
  (((c, s) ∈ ws_sent w \/ (c, s) ∈ ws_failed w) \/ exists rest, ws_lock w = ByReplay rest /\ s ∈ rest) /\
  (ws_lock w = Free -> (c, s) ∉ ws_failed w -> (c, s) ∈ ws_sent w).
Proof.
  pose proof (reachable_ws_ok w Hr) as Hok.
  destruct (ok_sent _ Hok c s Hc Hs Hret) as [H|H]; unfold tried, to_replay in H.
  - split; [by left|]. intros _ Hf. by destruct H.
  - destruct (ws_lock w) as [| | |l] eqn:El; try (by apply not_elem_of_nil in H). split; [right; by exists l|done].
Qed.

Lemma get_sub_spec subs id s : NoDup subs.*1 -> get_sub subs id = Some s <-> (id, s) ∈ subs.
Proof.
  induction subs as [|[k x] subs IH]; intros Hnd; cbn; [set_solver|].
  inversion Hnd as [|? ? Hn Hnd']; subst. destruct (Z.eqb_spec k id) as [->|Hne].
  - split; [intros [= ->]; by left|]. intros [[= ->]|Hin]%elem_of_cons; [done|].
    exfalso. apply Hn. apply list_elem_of_fmap. by exists (id, s).
  - rewrite IH by done. rewrite elem_of_cons. split; [by right|]. by intros [[= -> ->]|?].
Qed.

(** In every reachable state a frame reaches exactly one mailbox, the one of the
    subscription it is tagged with, and only if it is neither an error nor an
    acknowledgement and its event decodes; anything else is dropped. *)
Theorem frame_dispatch w f (Hr : ws_reachable w) :
  ws_delivered (on_frame f w) = ws_delivered w \/
  exists event id s,
    ws_delivered (on_frame f w) = ws_delivered w ++ [(sub_mb s, event)] /\
    f_error f = None /\ f_result f <> "{}" /\ f_event f = Ok event /\ f_id f = Some id /\
    registered w s /\ sub_id s = id /\ forall s', registered w s' -> sub_id s' = id -> s' = s.
Proof.
  pose proof (reachable_ws_ok w Hr) as Hok.
  destruct Hok as [Hk _ _ Hu _ _ _ _]. unfold on_frame.
  destruct (f_error f) eqn:Ee; [by left|]. case_bool_decide as Eb; [by left|].
  destruct (f_event f) as [event|e|] eqn:Ev; [|by left..].
  destruct (f_id f) as [id|] eqn:Ei; [|by left].
  destruct (get_sub (ws_subs w) id) as [s|] eqn:Es; [|by left]. right.
  assert (Hin : (id, s) ∈ ws_subs w) by (by apply get_sub_spec).
  exists event, id, s. split_and!; try done.
  - unfold registered. by rewrite (Hk id s Hin).
  - by apply Hk.
  - intros s' Hs' Hid. unfold registered in Hs'. rewrite Hid in Hs'.
    apply get_sub_spec in Hs'; [|done]. congruence.
Qed.
End WebsocketFacts.

Section WebsocketExamples.
Definition demo_sub (id : Z) (event : string) : sub := mkSub id [event] 0.
Definition demo_subscribe (id : Z) (event : string) (written : bool) (w : CometRPCWebsocket) : CometRPCWebsocket :=
  subscribe_write (demo_sub id event) written (subscribe_lock (demo_sub id event) w).

(** Two subscriptions, a lost connection, and a third one registered while the
    client redials; the second is not written again. *)
Definition demo_ws1 : CometRPCWebsocket :=
  let w := reset_unlock (reset_connected (reset_begin init_ws)) in
  let w := demo_subscribe 1 "Vote" true (subscribe_register ["Vote"] 0 w) in
  demo_subscribe 2 "NewRound" true (subscribe_register ["NewRound"] 0 w).
Definition demo_ws2 : CometRPCWebsocket :=
  let w := reset_connected (subscribe_register ["NewRoundStep"] 0 (reset_begin demo_ws1)) in
  let w := replay_write (demo_sub 1 "Vote") [demo_sub 2 "NewRound"; demo_sub 3 "NewRoundStep"] true w in
  let w := replay_write (demo_sub 2 "NewRound") [demo_sub 3 "NewRoundStep"] false w in
  reset_unlock (replay_write (demo_sub 3 "NewRoundStep") [] true w).
Definition demo_ws : CometRPCWebsocket := demo_subscribe 3 "NewRoundStep" true demo_ws2.

Ltac ws_step_back :=
  eapply rtc_r; [|first
    [apply st_write; vm_compute; reflexivity|apply st_lock; [vm_compute; reflexivity|vm_compute; by left]
    |apply st_replayed; vm_compute; reflexivity|apply st_replay; vm_compute; reflexivity
    |apply st_connected; vm_compute; reflexivity|apply st_register|apply st_reset; vm_compute; reflexivity]].

Lemma demo_ws_reachable : ws_reachable demo_ws.
Proof.
  unfold demo_ws, demo_ws2, demo_ws1, demo_subscribe. cbv zeta. unfold demo_sub.
  repeat ws_step_back. apply rtc_refl.
Qed.

Lemma no_lost_subscription_witness :
  ws_conn demo_ws = Some 1%nat /\ (1%nat, mkSub 1 ["Vote"] 0) ∈ ws_sent demo_ws.
Proof.
  split; [reflexivity|].
  apply (no_lost_subscription demo_ws 1 (mkSub 1 ["Vote"] 0) demo_ws_reachable); [reflexivity|vm_compute; by left| |reflexivity|].
  - vm_compute. intros H. inversion H.
  - vm_compute. intros [[=]|H]%elem_of_cons. by apply not_elem_of_nil in H.
Defined.

(** A write that fails is only logged: its subscription stays registered, the
    connection stays in use, and no event of it arrives before the next reconnect. *)
Lemma failed_write_unsent :
  ws_reachable demo_ws /\ ws_conn demo_ws = Some 1%nat /\ ws_lock demo_ws = Free /\ ws_waiting demo_ws = [] /\
  registered demo_ws (mkSub 2 ["NewRound"] 0) /\ filter (fun p => p.1 = 1%nat /\ sub_id p.2 = 2) (ws_sent demo_ws) = [].
Proof. split; [exact demo_ws_reachable|]. vm_compute. split_and!; try done. by right; left. Qed.

Lemma frame_dispatch_witness :
  ws_delivered (on_frame (mkFrame None "{..}" (Ok EventOther) (Some 7)) demo_ws) = ws_delivered demo_ws.
Proof.
  destruct (frame_dispatch demo_ws (mkFrame None "{..}" (Ok EventOther) (Some 7)) demo_ws_reachable)
    as [H|(event & id & s & H & _)]; [exact H|]. vm_compute in H. discriminate.
Defined.

(** A subscription registered while the client redials is sent twice on the new
    connection: by the replay and by its own [Subscribe]. *)
Lemma subscribed_twice :
  filter (fun p => p.1 = 1%nat /\ sub_id p.2 = 3) (ws_sent demo_ws) =
  [(1%nat, mkSub 3 ["NewRoundStep"] 0); (1%nat, mkSub 3 ["NewRoundStep"] 0)].
Proof. vm_compute. reflexivity. Qed.

Example query_ex : subscribe_query (mkSub 1 ["Vote"; "NewRound"] 0) = "tm.event='Vote' OR tm.event='NewRound'".
Proof. done. Qed.
End WebsocketExamples.
