(* ===== verification/WsLife.v ===== *)
(** * The life of the websocket client ([pkg/fetcher/comet_rpc_websocket.go],
      [pkg/fetcher/data_fetcher.go])

    [Websocket] says what one step does to the client's data.  This file adds the
    control: where the constructor and the manager goroutine are, who waits in
    [Close], and what [DataFetcher.Close] returns.  Every event is something one
    goroutine does, or something the node, the timer or a context does to it; an
    event that cannot happen in a state has no result.  A write is two events, the
    lock and the return of [WriteJSON], between which the node can keep it waiting. *)

From S2P Require Import Prelude GoNum GoText Deps Websocket.
Local Open Scope Z_scope.

(** ** Where the manager goroutine is

    The dial loop runs twice over the same code: in [NewCometRPCWebsocket], before
    the goroutine exists ([ctor]), and in [connectionManager]. *)

Inductive pc :=
  | PcNew                    (** before [resetConnection] of the constructor *)
  | PcDial (ctor : bool)     (** in [Dial], holding [muWrite] *)
  | PcBackoff (ctor fired : bool) (** in the [select] on [chStop] and the 5 s timer *)
  | PcReplay (ctor : bool)   (** writing the subscriptions again, holding [muWrite] *)
  | PcReadTop                (** at the top of [readConnection]'s loop *)
  | PcRead                   (** in [ReadJSON] *)
  | PcCheck                  (** at [connectionManager]'s [select] *)
  | PcReset                  (** entering [resetConnection] *)
  | PcTerm                   (** in the deferred [terminateConnection] *)
  | PcDone.                  (** after [wgDone.Done] *)

#[export] Instance pc_eq_dec : EqDecision pc.
Proof. solve_decision. Defined.

(** The goroutine [DataFetcher.Close] starts, and the call itself. *)
Inductive gpc := GStart | GWait | GDone.
Inductive fetch_close :=
  | FcIdle
  | FcWait (g : gpc)
  | FcReturned (err : option string) (g : gpc).

Record life := mkLife {
  lf_ws : CometRPCWebsocket;
  lf_pc : pc;
  lf_closing : nat;     (** callers inside [Close], after closing [chStop] *)
  lf_closed : nat;      (** callers [Close] has returned to *)
  lf_fetch : fetch_close }.

Definition life0 : life := mkLife init_ws PcNew 0 0 FcIdle.

(** The constructor has returned: the value exists for its callers. *)
Definition started (p : pc) : bool :=
  match p with PcNew | PcDial true | PcBackoff true _ | PcReplay true => false | _ => true end.

Definition set_ws (w : CometRPCWebsocket) (p : pc) (s : life) : life :=
  mkLife w p (lf_closing s) (lf_closed s) (lf_fetch s).
Definition goto (p : pc) (s : life) : life := set_ws (lf_ws s) p s.

(** ** Events *)

Inductive event :=
  (** the manager goroutine (or the constructor) runs on *)
  | EvMgr
  (** a dial attempt ends; the back-off timer fires; the back-off ends by it *)
  | EvDial (ok : bool) | EvTimer | EvTick
  (** a write of the replay ends *)
  | EvReplay (written : bool)
  (** [ReadJSON] returns a message, or an error *)
  | EvFrame (f : frame) | EvReadError
  (** [Subscribe] registers; it gets the lock; its write ends *)
  | EvRegister (events : list string) (mb : nat) | EvLock (s : sub) | EvWrite (written : bool)
  (** [Close]: a caller closes [chStop] and waits; the wait ends *)
  | EvClose | EvCloseReturn
  (** [DataFetcher.Close]: the call, its goroutine, the two arms of its [select] *)
  | EvFetchClose | EvGo | EvGoDone | EvFetchReturn | EvCtxDone (err : string).

(** What the manager does next by itself. *)
Definition mgr_step (s : life) : option life :=
  let w := lf_ws s in
  match lf_pc s with
  | PcNew => Some (set_ws (reset_begin w) (PcDial true) s)
  | PcBackoff c _ => if ws_stopped w then Some (set_ws (reset_unlock w) PcReadTop s) else None
  | PcReplay c => match ws_lock w with ByReplay [] => Some (set_ws (reset_unlock w) PcReadTop s) | _ => None end
  | PcReadTop => Some (goto (if ws_stopped w then PcCheck else PcRead) s)
  | PcCheck => Some (goto (if ws_stopped w then PcTerm else PcReset) s)
  | PcReset => match ws_lock w with Free => Some (set_ws (reset_begin w) (PcDial false) s) | _ => None end
  | PcTerm => match ws_lock w with Free => Some (set_ws (terminateConnection w) PcDone s) | _ => None end
  | _ => None
  end.

Definition fetch_step (e : event) (s : life) : option fetch_close :=
  match e, lf_fetch s with
  | EvFetchClose, FcIdle => Some (FcWait GStart)
  | EvGo, FcWait GStart => Some (FcWait GWait)
  | EvGo, FcReturned r GStart => Some (FcReturned r GWait)
  | EvGoDone, FcWait GWait => if decide (lf_pc s = PcDone) then Some (FcWait GDone) else None
  | EvGoDone, FcReturned r GWait => if decide (lf_pc s = PcDone) then Some (FcReturned r GDone) else None
  | EvFetchReturn, FcWait GDone => Some (FcReturned None GDone)
  | EvCtxDone err, FcWait g => Some (FcReturned (Some err) g)
  | _, _ => None
  end.

(** The dial loop of [resetConnection], and its resubscriptions. *)
Definition dial_step (e : event) (s : life) : option life :=
  match e, lf_pc s with
  | EvDial true, PcDial c => Some (set_ws (reset_connected (lf_ws s)) (PcReplay c) s)
  | EvDial false, PcDial c => Some (goto (PcBackoff c false) s)
  | EvTimer, PcBackoff c false => Some (goto (PcBackoff c true) s)
  | EvTick, PcBackoff c true => Some (goto (PcDial c) s)
  | EvReplay written, PcReplay c =>
      match ws_lock (lf_ws s) with
      | ByReplay (x :: rest) => Some (set_ws (replay_write x rest written (lf_ws s)) (PcReplay c) s)
      | _ => None
      end
  | _, _ => None
  end.

(** [ReadJSON] in [readConnection]: a message is handled, an error ends the loop. *)
Definition read_step (e : event) (s : life) : option life :=
  match e, lf_pc s with
  | EvFrame f, PcRead => Some (set_ws (on_frame f (lf_ws s)) PcReadTop s)
  | EvReadError, PcRead => Some (goto PcCheck s)
  | _, _ => None
  end.

Definition subscribe_step (e : event) (s : life) : option life :=
  let w := lf_ws s in
  match e with
  | EvRegister events mb => Some (set_ws (subscribe_register events mb w) (lf_pc s) s)
  | EvLock x =>
      match ws_lock w with
      | Free => if bool_decide (x ∈ ws_waiting w) then Some (set_ws (subscribe_lock x w) (lf_pc s) s) else None
      | _ => None
      end
  | EvWrite written =>
      match ws_lock w with BySubscribe x => Some (set_ws (subscribe_write x written w) (lf_pc s) s) | _ => None end
  | _ => None
  end.

(** [Close]: the signal, once, then the wait for the manager. *)
Definition close_step (e : event) (s : life) : option life :=
  match e, lf_closing s with
  | EvClose, n => Some (mkLife (close_stop (lf_ws s)) (lf_pc s) (S n) (lf_closed s) (lf_fetch s))
  | EvCloseReturn, S n =>
      if decide (lf_pc s = PcDone) then Some (mkLife (lf_ws s) (lf_pc s) n (S (lf_closed s)) (lf_fetch s)) else None
  | _, _ => None
  end.

Definition is_mgr (e : event) : bool :=
  match e with EvMgr | EvDial _ | EvTick | EvReplay _ | EvFrame _ | EvReadError => true | _ => false end.
Definition outside (e : event) : bool :=
  match e with EvTimer => false | _ => negb (is_mgr e) end.

(** The callers have the value only once the constructor has returned it. *)
Definition life_exec (e : event) (s : life) : option life :=
  if outside e && negb (started (lf_pc s)) then None
  else
    match e with
    | EvMgr => mgr_step s
    | EvDial _ | EvTimer | EvTick | EvReplay _ => dial_step e s
    | EvFrame _ | EvReadError => read_step e s
    | EvRegister _ _ | EvLock _ | EvWrite _ => subscribe_step e s
    | EvClose | EvCloseReturn => close_step e s
    | EvFetchClose | EvGoDone | EvFetchReturn | EvCtxDone _ | EvGo =>
        fc ← fetch_step e s;
        Some (mkLife (match e with EvGo => close_stop (lf_ws s) | _ => lf_ws s end) (lf_pc s)
                (lf_closing s) (lf_closed s) fc)
    end.

Fixpoint run_events (es : list event) (s : life) : option life :=
  match es with
  | [] => Some s
  | e :: es' => s' ← life_exec e s; run_events es' s'
  end.

Definition ws_life_reachable (s : life) : Prop := exists es, run_events es life0 = Some s.

(** ** What holds between any two events *)

#[local] Arguments subscribe_write : simpl never.
#[local] Arguments replay_write : simpl never.
#[local] Arguments on_frame : simpl never.

Section LifeFacts.
Implicit Types (s : life) (w : CometRPCWebsocket) (e : event).

(** What a write leaves alone, whether [Subscribe] or the replay makes it. *)
Lemma subscribe_write_fields x b w :
  ws_conn (subscribe_write x b w) = ws_conn w /\ ws_lock (subscribe_write x b w) = Free /\
  ws_stopped (subscribe_write x b w) = ws_stopped w /\ ws_delivered (subscribe_write x b w) = ws_delivered w /\
  ws_subs (subscribe_write x b w) = ws_subs w /\
  (ws_conn w = None -> ws_sent (subscribe_write x b w) = ws_sent w).
Proof. unfold subscribe_write, writeSubscribeLocked. cbn. destruct (ws_conn w), b; by split_and!. Qed.

Lemma replay_write_fields x l b w :
  ws_conn (replay_write x l b w) = ws_conn w /\ ws_lock (replay_write x l b w) = ByReplay l /\
  ws_stopped (replay_write x l b w) = ws_stopped w /\ ws_delivered (replay_write x l b w) = ws_delivered w /\
  ws_subs (replay_write x l b w) = ws_subs w.
Proof. unfold replay_write, writeSubscribeLocked. cbn. destruct (ws_conn w) eqn:E, b; cbn; rewrite ?E; by split_and!. Qed.

Lemma on_frame_fields f w :
  ws_conn (on_frame f w) = ws_conn w /\ ws_lock (on_frame f w) = ws_lock w /\
  ws_stopped (on_frame f w) = ws_stopped w /\ ws_subs (on_frame f w) = ws_subs w.
Proof. unfold on_frame. repeat case_match; done. Qed.

(** Who can hold [muWrite] where the manager is. *)
Definition lock_at (p : pc) (m : mutex) : Prop :=
  match p, m with
  | PcNew, Free | PcDial _, ByReset | PcBackoff _ _, ByReset | PcReplay _, ByReplay _ => True
  | PcNew, _ | PcDial _, _ | PcBackoff _ _, _ | PcReplay _, _ => False
  | _, Free | _, BySubscribe _ => True
  | _, _ => False
  end.

Definition pc_ok (w : CometRPCWebsocket) (p : pc) : Prop :=
  lock_at p (ws_lock w) /\
  match p with
  | PcNew | PcDial true | PcBackoff true _ => ws_stopped w = false /\ ws_subs w = []
  | PcReplay true => ws_stopped w = false /\ is_Some (ws_conn w) /\ ws_lock w = ByReplay []
  | PcReplay false => is_Some (ws_conn w)
  | PcReadTop => is_Some (ws_conn w) \/ ws_stopped w = true
  | PcRead => is_Some (ws_conn w)
  | PcTerm => ws_stopped w = true
  | PcDone => ws_stopped w = true /\ ws_conn w = None
  | _ => True
  end.

Record life_ok s : Prop := {
  lok_pc : pc_ok (lf_ws s) (lf_pc s);
  lok_closing : (0 < lf_closing s)%nat -> ws_stopped (lf_ws s) = true;
  lok_closed : (0 < lf_closed s)%nat -> lf_pc s = PcDone;
  lok_fetch : match lf_fetch s with
              | FcWait GDone | FcReturned None _ | FcReturned _ GDone => lf_pc s = PcDone
              | _ => True
              end }.

Lemma life0_ok : life_ok life0.
Proof. split; cbn; try done; lia. Qed.

Lemma set_ws_ok w' p' s : life_ok s -> pc_ok w' p' ->
  (ws_stopped (lf_ws s) = true -> ws_stopped w' = true) -> (lf_pc s = PcDone -> p' = PcDone) ->
  life_ok (set_ws w' p' s).
Proof.
  intros [Hp Hc1 Hc2 Hf] Hp' Hs Hd. split; cbn; [done|auto..|].
  destruct (lf_fetch s) as [|[]|[err|] []]; auto.
Qed.

(** The manager's own steps. *)
Lemma mgr_ok s s' : life_ok s -> mgr_step s = Some s' -> life_ok s' /\ rtc ws_step (lf_ws s) (lf_ws s').
Proof.
  intros Hok He. pose proof Hok as [[Hlock Hpc] _ _ _]. destruct s as [w p c1 c2 fc]. unfold mgr_step in He. cbn in *.
  destruct p as [|c|c f|c| | | | | |]; cbn in *; try done.
  - destruct (ws_lock w) eqn:El; try done. simplify_eq. split; [by apply set_ws_ok|]. by apply rtc_once, st_reset.
  - destruct (ws_stopped w) eqn:Es; [|done]. simplify_eq. destruct (ws_lock w) eqn:El; try done.
    split; [|by apply rtc_once, st_aborted]. apply set_ws_ok; cbn; try done. split; cbn; [done|by right].
  - destruct (ws_lock w) as [| | |[]] eqn:El; try done. simplify_eq. split; [|by apply rtc_once, st_replayed].
    apply set_ws_ok; cbn; try done. split; cbn; [done|left]. destruct c; [apply Hpc|done].
  - destruct (ws_stopped w) eqn:Es; simplify_eq; (split; [|done]); apply set_ws_ok; try done.
    split; cbn; [done|]. by destruct Hpc.
  - destruct (ws_stopped w) eqn:Es; simplify_eq; (split; [|done]); by apply set_ws_ok.
  - destruct (ws_lock w) eqn:El; try done. simplify_eq. split; [by apply set_ws_ok|]. by apply rtc_once, st_reset.
  - destruct (ws_lock w) eqn:El; try done. simplify_eq. split; [|by apply rtc_once, st_terminate].
    apply set_ws_ok; cbn; try done. split; cbn; [by rewrite El|done].
Qed.

(** The dial loop, the replay and the reader. *)
Lemma dial_ok e s s' : life_ok s -> dial_step e s = Some s' -> life_ok s' /\ rtc ws_step (lf_ws s) (lf_ws s').
Proof.
  intros Hok Hx. pose proof Hok as [[Hlock Hpc] _ _ _]. destruct s as [w p c1 c2 fc]. cbn in Hlock, Hpc.
  destruct e as [|[]| | |b| | | | | | | | | | | |]; try done;
    (destruct p as [|c|c []|c| | | | | |]; try done); cbn in Hx; simplify_eq.
  - destruct (ws_lock w) eqn:El; try done. split; [|by apply rtc_once, st_connected].
    apply set_ws_ok; cbn; try done. split; cbn; [done|]. destruct c; [|by eexists].
    destruct Hpc as [Hst Hsubs]. split_and!; [done|by eexists|by rewrite Hsubs].
  - split; [|done]. by apply set_ws_ok.
  - split; [|done]. by apply set_ws_ok.
  - split; [|done]. by apply set_ws_ok.
  - destruct (ws_lock w) as [| | |[|x rest]] eqn:El; try done. simplify_eq.
    destruct (replay_write_fields x rest b w) as (R1 & R2 & R3 & _). split; [|by apply rtc_once, st_replay].
    apply set_ws_ok; cbn; try done; [|by rewrite R3]. split; cbn; rewrite ?R1, ?R2; [done|].
    destruct c; [|done]. by destruct Hpc as (_ & _ & [=]).
Qed.

Lemma read_ok e s s' : life_ok s -> read_step e s = Some s' -> life_ok s' /\ rtc ws_step (lf_ws s) (lf_ws s').
Proof.
  intros Hok Hx. pose proof Hok as [[Hlock Hpc] _ _ _]. destruct s as [w p c1 c2 fc]. cbn in Hlock, Hpc.
  destruct e as [| | | | |f| | | | | | | | | | |]; try done; (destruct p; try done); cbn in Hx; simplify_eq.
  - destruct (on_frame_fields f w) as (R1 & R2 & R3 & _). destruct Hpc as [c Ec]. split; [|by eapply rtc_once, st_frame].
    apply set_ws_ok; cbn; [done| |by rewrite R3|done]. split; [by rewrite R2|]. rewrite R1, Ec. by left.
  - split; [|done]. by apply set_ws_ok.
Qed.

(** Everything the callers do: [muWrite] is theirs only where it may be. *)
Lemma pc_ok_lock w w' p : started p = true -> ws_conn w' = ws_conn w -> ws_stopped w' = ws_stopped w ->
  (lock_at p (ws_lock w) -> lock_at p (ws_lock w')) -> pc_ok w p -> pc_ok w' p.
Proof. intros Hs H1 H2 H3 [Hl Hp]. split; [by apply H3|]. destruct p as [|[]|[]|[]| | | | | |]; try done; by rewrite ?H1, ?H2. Qed.

Lemma pc_ok_stop w p : started p = true -> pc_ok w p -> pc_ok (close_stop w) p.
Proof.
  intros Hs [Hl Hp]. split; [done|]. destruct p as [|[]|[]|[]| | | | | |]; cbn in *; try done; [by right|].
  by destruct Hp.
Qed.

Lemma subscribe_ok e s s' : life_ok s -> started (lf_pc s) = true -> subscribe_step e s = Some s' ->
  life_ok s' /\ rtc ws_step (lf_ws s) (lf_ws s').
Proof.
  intros Hok Hst Hx. pose proof Hok as [Hp _ _ _]. destruct s as [w p c1 c2 fc]. cbn in Hst.
  destruct e as [| | | | | | |events mb|x|b| | | | | | |]; try done; cbn in Hx.
  - simplify_eq. split; [|by apply rtc_once, st_register]. apply set_ws_ok; try done. by apply (pc_ok_lock w).
  - destruct (ws_lock w) eqn:El; try done. case_bool_decide; [|done]. simplify_eq.
    split; [|by apply rtc_once, st_lock]. apply set_ws_ok; cbn; try done.
    apply (pc_ok_lock w); try done. cbn. rewrite El. by destruct p.
  - destruct (ws_lock w) as [|x| |] eqn:El; try done. simplify_eq.
    destruct (subscribe_write_fields x b w) as (R1 & R2 & R3 & _).
    split; [|by apply rtc_once, st_write]. apply set_ws_ok; cbn; try done; [|by rewrite R3].
    apply (pc_ok_lock w); try done. cbn. rewrite El, R2. by destruct p.
Qed.

Lemma close_ok e s s' : life_ok s -> started (lf_pc s) = true -> close_step e s = Some s' ->
  life_ok s' /\ rtc ws_step (lf_ws s) (lf_ws s').
Proof.
  intros [Hp Hc1 Hc2 Hf] Hs Hx. destruct s as [w p c1 c2 fc]. destruct e; try done; cbn in *.
  - simplify_eq. split; [|by apply rtc_once, st_close]. split; cbn; try done. by apply pc_ok_stop.
  - destruct c1 as [|n]; [done|]. destruct (decide (p = PcDone)) as [->|]; [|done]. simplify_eq. split; [|done].
    split; cbn; try done. intros _. apply Hc1. lia.
Qed.

Lemma fetch_ok e s s' fc : life_ok s -> started (lf_pc s) = true -> fetch_step e s = Some fc ->
  s' = mkLife (match e with EvGo => close_stop (lf_ws s) | _ => lf_ws s end) (lf_pc s) (lf_closing s) (lf_closed s) fc ->
  life_ok s' /\ rtc ws_step (lf_ws s) (lf_ws s').
Proof.
  intros [Hp Hc1 Hc2 Hf] Hst Hx ->. destruct s as [w p c1 c2 fc0].
  destruct e; try done; unfold fetch_step in Hx; cbn in Hp, Hc1, Hc2, Hf, Hst, Hx |- *;
    destruct fc0 as [|[]|r []]; cbn in Hx; try done; try (destruct (decide (p = PcDone)); [|done]);
    simplify_eq;
    (split; [|first [done|by apply rtc_once, st_close]]); split; cbn; try done;
    first [by apply pc_ok_stop|by intros; apply Hc1|by destruct r].
Qed.

(** One event keeps the invariant, and is a step of the data model or none. *)
Lemma exec_ok e s s' : life_ok s -> life_exec e s = Some s' ->
  life_ok s' /\ rtc ws_step (lf_ws s) (lf_ws s').
Proof.
  intros Hok He. unfold life_exec in He. destruct (outside e && negb (started (lf_pc s))) eqn:Eo; [done|].
  assert (Hst : outside e = true -> started (lf_pc s) = true) by (destruct (outside e), (started (lf_pc s)); done).
  destruct e as [| | | | | | | | | | | | | | | |];
    first [exact (mgr_ok _ _ Hok He)|exact (dial_ok _ _ _ Hok He)|exact (read_ok _ _ _ Hok He)
          |exact (subscribe_ok _ _ _ Hok (Hst eq_refl) He)|exact (close_ok _ _ _ Hok (Hst eq_refl) He)|idtac].
  all: apply bind_Some in He as (fc & Hfc & [= <-]); by eapply fetch_ok; [done|apply Hst|exact Hfc|].
Qed.

Lemma run_ok es : forall s s', life_ok s -> run_events es s = Some s' ->
  life_ok s' /\ rtc ws_step (lf_ws s) (lf_ws s').
Proof.
  induction es as [|e es IH]; intros s s' Hok Hr; cbn in Hr; [by simplify_eq|].
  destruct (life_exec e s) as [s1|] eqn:E; [|done]. cbn in Hr. destruct (exec_ok _ _ _ Hok E) as [Hok1 H1].
  destruct (IH _ _ Hok1 Hr) as [Hok' H2]. split; [done|]. by etransitivity.
Qed.

Lemma reachable_ok s : ws_life_reachable s -> life_ok s /\ ws_reachable (lf_ws s).
Proof. intros [es Hes]. by apply (run_ok es life0 s life0_ok). Qed.

(** *** Induction along a run *)
Lemma run_inv (P : life -> Prop) (Q : event -> Prop) :
  (forall e s s', life_ok s -> P s -> Q e -> life_exec e s = Some s' -> P s') ->
  forall es s s', life_ok s -> P s -> Forall Q es -> run_events es s = Some s' -> P s'.
Proof.
  intros Hstep. induction es as [|e es IH]; intros s s' Hok HP HQ Hr; cbn in Hr; [by simplify_eq|].
  inversion HQ as [|? ? Hq HQ']; subst. destruct (life_exec e s) as [s1|] eqn:E; [|done]. cbn in Hr.
  eapply (IH s1); [by eapply exec_ok|by eapply Hstep|done..].
Qed.

(** The control flow only makes the data steps [Websocket] allows, so what
    holds of its reachable states holds here; the reader never touches a nil
    connection, the manager has the write lock exactly from the dial to the end of the
    replay, and nobody can close the client before its constructor has returned. *)
Theorem life_refines_steps s (Hr : ws_life_reachable s) :
  ws_reachable (lf_ws s) /\
  (lf_pc s = PcRead -> is_Some (ws_conn (lf_ws s))) /\
  lock_at (lf_pc s) (ws_lock (lf_ws s)) /\
  (started (lf_pc s) = false -> ws_stopped (lf_ws s) = false).
Proof.
  destruct (reachable_ok s Hr) as [[[Hl Hp] _ _ _] Hw]. split_and!; [done| |done|].
  - intros E. by rewrite E in Hp.
  - intros Hs. destruct (lf_pc s) as [|[]|[]|[]| | | | | |]; try done; by destruct Hp.
Qed.

(** *** What the callers can change *)

Lemma inside_exec e s : outside e = false ->
  life_exec e s =
  match e with EvMgr => mgr_step s | EvFrame _ | EvReadError => read_step e s | _ => dial_step e s end.
Proof. intros Ho. unfold life_exec. rewrite Ho. by destruct e. Qed.

(** Steps of the callers on the client's data. *)
Inductive caller_step w : CometRPCWebsocket -> Prop :=
  | cs_none : caller_step w w
  | cs_stop : caller_step w (close_stop w)
  | cs_register events mb : caller_step w (subscribe_register events mb w)
  | cs_lock x : ws_lock w = Free -> caller_step w (subscribe_lock x w)
  | cs_write x b : ws_lock w = BySubscribe x -> caller_step w (subscribe_write x b w).

Lemma caller_fields w w' : caller_step w w' ->
  ws_conn w' = ws_conn w /\ (ws_stopped w = true -> ws_stopped w' = true) /\ ws_delivered w' = ws_delivered w /\
  (length (ws_subs w) <= length (ws_subs w'))%nat /\ (ws_conn w = None -> ws_sent w' = ws_sent w) /\
  (forall l, ws_lock w = ByReplay l -> ws_lock w' = ByReplay l).
Proof.
  destruct 1 as [| |events mb|x Hl|x b Hl]; cbn; try (split_and!; try done; fail).
  - split_and!; try done. rewrite length_app. lia.
  - split_and!; try done. by rewrite Hl.
  - destruct (subscribe_write_fields x b w) as (-> & E2 & E3 & E4 & E5 & E6).
    split_and!; [done|by rewrite E3|done|by rewrite E5|done|by rewrite Hl].
Qed.

Lemma outside_effect e s s' : outside e = true -> life_exec e s = Some s' ->
  lf_pc s' = lf_pc s /\ started (lf_pc s) = true /\ caller_step (lf_ws s) (lf_ws s').
Proof.
  intros Ho He. unfold life_exec in He. rewrite Ho in He. destruct (started (lf_pc s)) eqn:Es; [|done]. cbn [andb negb] in He.
  destruct s as [w p c1 c2 fc]. cbn in Es.
  destruct e as [| | | | | | |events mb|x|b| | | | | | |err]; try done; cbn in He; rewrite ?Es;
    try (apply bind_Some in He as (fc' & _ & [= <-]); split_and!; cbn; try done; constructor).
  - simplify_eq. split_and!; try done; constructor.
  - destruct (ws_lock w) eqn:El; try done. case_bool_decide; [|done]. simplify_eq. split_and!; try done. by constructor.
  - destruct (ws_lock w) eqn:El; try done. simplify_eq. split_and!; try done. by constructor.
  - simplify_eq. split_and!; try done; constructor.
  - destruct c1; [done|]. destruct (decide (p = PcDone)) as [->|]; [|done]. simplify_eq. split_and!; try done; constructor.
Qed.

(** *** After [Close] has returned *)

Definition closed (s : life) : bool :=
  bool_decide (0 < lf_closed s)%nat || match lf_fetch s with FcReturned None _ => true | _ => false end.

Lemma closed_done s : life_ok s -> closed s = true -> lf_pc s = PcDone.
Proof.
  intros [_ _ Hc Hf] [H%bool_decide_eq_true_1|H]%orb_true_iff; [by apply Hc|].
  destruct (lf_fetch s) as [|[]|[|] []]; done.
Qed.

(** In the final state only callers move, and nothing is read or written. *)
Lemma done_step e s s' : lf_pc s = PcDone -> ws_conn (lf_ws s) = None -> life_exec e s = Some s' ->
  lf_pc s' = PcDone /\ ws_conn (lf_ws s') = None /\
  ws_sent (lf_ws s') = ws_sent (lf_ws s) /\ ws_delivered (lf_ws s') = ws_delivered (lf_ws s).
Proof.
  intros Hp Hc He. destruct (outside e) eqn:Eo.
  - destruct (outside_effect e s s' Eo He) as (-> & _ & (-> & _ & -> & _ & Hs & _)%caller_fields). split_and!; auto.
  - rewrite inside_exec in He by done. destruct s as [w p c1 c2 fc]. cbn in Hp. subst p.
    by destruct e as [|[]| | | | | | | | | | | | | | |].
Qed.

(** [Close], and a [DataFetcher.Close] that returns nil, return only when
    the manager has ended and the connection is dropped; whatever happens later,
    [Subscribe] included, nothing more is read, delivered or sent. *)
Theorem close_releases s (Hr : ws_life_reachable s) (Hc : closed s = true) :
  lf_pc s = PcDone /\ ws_stopped (lf_ws s) = true /\
  forall es s', run_events es s = Some s' ->
    ws_conn (lf_ws s') = None /\ ws_sent (lf_ws s') = ws_sent (lf_ws s) /\
    ws_delivered (lf_ws s') = ws_delivered (lf_ws s).
Proof.
  destruct (reachable_ok s Hr) as [Hok _]. pose proof (closed_done s Hok Hc) as Hd.
  pose proof (lok_pc _ Hok) as [_ Hp]. rewrite Hd in Hp. destruct Hp as [Hst Hconn]. split_and!; [done..|].
  intros es s' Hrun.
  pose (P := fun x => lf_pc x = PcDone /\ ws_conn (lf_ws x) = None /\
    ws_sent (lf_ws x) = ws_sent (lf_ws s) /\ ws_delivered (lf_ws x) = ws_delivered (lf_ws s)).
  assert (HP : P s').
  { apply (run_inv P (fun _ => True)) with (es := es) (s := s); [|done|done|by apply Forall_true|done].
    intros e x x' _ (H1 & H2 & H3 & H4) _ Hx. destruct (done_step e x x' H1 H2 Hx) as (K1 & K2 & K3 & K4).
    unfold P. by rewrite K3, K4. }
  by destruct HP as (_ & ? & ? & ?).
Qed.

(** *** From the stop signal to the end *)

Definition mgr_events (es : list event) : nat := length (filter (fun e => is_mgr e = true) es).

Definition is_tick (e : event) : bool := match e with EvTick => true | _ => false end.
Definition ticks (es : list event) : nat := length (filter (fun e => is_tick e = true) es).

(** How many of its own events the manager needs at most, once stopped and with [n]
    subscriptions to replay, if no back-off timer overtakes the signal. *)
Definition steps_left (n : nat) (w : CometRPCWebsocket) (p : pc) : nat :=
  match p with
  | PcNew => 7 + n | PcReset => 6 + n | PcDial _ => 5 + n | PcBackoff _ _ => 4 | PcReplay _ => 4 + length (to_replay w)
  | PcRead => 4 | PcReadTop => 3 | PcCheck => 2 | PcTerm => 1 | PcDone => 0
  end%nat.

Lemma exec_stopped e s s' : ws_stopped (lf_ws s) = true -> life_exec e s = Some s' ->
  ws_stopped (lf_ws s') = true /\ (length (ws_subs (lf_ws s)) <= length (ws_subs (lf_ws s')))%nat.
Proof.
  intros Hs He. destruct (outside e) eqn:Eo.
  - destruct (outside_effect e s s' Eo He) as (_ & _ & (_ & H1 & _ & H2 & _)%caller_fields). auto.
  - rewrite inside_exec in He by done. destruct s as [w p c1 c2 fc]. cbn in Hs.
    destruct e as [|[]| | |b|f| | | | | | | | | | |], p as [| |c []| | | | | | |]; try done; cbn in He; unfold mgr_step in He; cbn in He;
      rewrite ?Hs in He; try (destruct (ws_lock w) as [| | |[]]); simplify_eq; try done; cbn;
      first [by destruct (on_frame_fields f w) as (_ & _ & -> & ->)
            |by match goal with |- context [replay_write ?x ?l ?b w] => destruct (replay_write_fields x l b w) as (_ & _ & -> & _ & ->) end].
Qed.

Lemma exec_left n e s s' : ws_stopped (lf_ws s) = true -> (length (ws_subs (lf_ws s)) <= n)%nat -> life_exec e s = Some s' ->
  ((if is_mgr e then 1 else 0) + steps_left n (lf_ws s') (lf_pc s') <=
   (if is_tick e then n + 2 else 0) + steps_left n (lf_ws s) (lf_pc s))%nat.
Proof.
  intros Hs Hn He. destruct (outside e) eqn:Eo.
  - destruct (outside_effect e s s' Eo He) as (-> & _ & (_ & _ & _ & _ & _ & Hl)%caller_fields).
    assert (E : steps_left n (lf_ws s') (lf_pc s) = steps_left n (lf_ws s) (lf_pc s) \/ lf_pc s = PcReplay false \/ lf_pc s = PcReplay true)
      by (destruct (lf_pc s) as [| | |[]| | | | | |]; auto).
    assert (Hle : (steps_left n (lf_ws s') (lf_pc s) <= steps_left n (lf_ws s) (lf_pc s))%nat).
    { destruct E as [->|E]; [done|]. unfold to_replay in *. assert (H : (length (to_replay (lf_ws s')) <= length (to_replay (lf_ws s)))%nat).
      { unfold to_replay. destruct (ws_lock (lf_ws s)) as [| | |l] eqn:El; [..|by rewrite (Hl l eq_refl)];
        destruct (outside_effect e s s' Eo He) as (_ & _ & Hc); destruct Hc; cbn; rewrite ?El; try done;
        match goal with |- context [subscribe_write ?x ?b ?w] => by destruct (subscribe_write_fields x b w) as (_ & -> & _) end. }
      destruct E as [-> | ->]; cbn; lia. }
    destruct e; try done; cbn [is_mgr is_tick]; lia.
  - rewrite inside_exec in He by done. destruct s as [w p c1 c2 fc]. cbn in Hs, Hn.
    destruct e as [|[]| | |b|f| | | | | | | | | | |], p as [| |c []| | | | | | |]; try done; cbn in He; unfold mgr_step in He; cbn in He;
      rewrite ?Hs in He; try (destruct (ws_lock w) as [| | |[]] eqn:El); simplify_eq; cbn [is_mgr is_tick lf_ws lf_pc set_ws goto steps_left];
      unfold to_replay; cbn; rewrite ?El, ?length_fmap;
      try (match goal with |- context [replay_write ?x ?l ?b w] => rewrite (proj1 (proj2 (replay_write_fields x l b w))) end); cbn; lia.
Qed.

Lemma run_left es : forall s s', ws_stopped (lf_ws s) = true -> run_events es s = Some s' ->
  ws_stopped (lf_ws s') = true /\ (length (ws_subs (lf_ws s)) <= length (ws_subs (lf_ws s')))%nat /\
  forall n, (length (ws_subs (lf_ws s')) <= n)%nat ->
    (mgr_events es + steps_left n (lf_ws s') (lf_pc s') <= ticks es * (n + 2) + steps_left n (lf_ws s) (lf_pc s))%nat.
Proof.
  induction es as [|e es IH]; intros s s' Hs Hr; cbn in Hr; [simplify_eq; split_and!; [done..|]; intros; cbn; lia|].
  destruct (life_exec e s) as [s1|] eqn:E; [|done]. cbn in Hr. destruct (exec_stopped _ _ _ Hs E) as [Hs1 Hl1].
  destruct (IH s1 s' Hs1 Hr) as (H1 & H2 & H3). split_and!; [done|lia|]. intros n Hn. specialize (H3 n Hn).
  pose proof (exec_left n e s s1 Hs ltac:(lia) E) as H4. unfold mgr_events, ticks in *. rewrite !filter_cons.
  destruct (decide (is_mgr e = true)) as [Em|Em]; [rewrite Em in H4|destruct (is_mgr e); [done|]];
    (destruct (decide (is_tick e = true)) as [Et|Et]; [rewrite Et in H4|destruct (is_tick e); [done|]]; cbn; lia).
Qed.

(** The manager is never stuck: it moves by itself, or waits for a dial, a read, a
    write of its own, or for [muWrite] and the writer that has it. *)
Lemma mgr_enabled s : life_ok s -> lf_pc s <> PcDone -> ws_stopped (lf_ws s) = true ->
  (exists e, is_mgr e = true /\ e <> EvTick /\ is_Some (life_exec e s)) \/ exists x, ws_lock (lf_ws s) = BySubscribe x.
Proof.
  intros [[Hl Hp] _ _ _] Hd Hs. destruct s as [w p c1 c2 fc]. cbn in *.
  destruct p as [|c|c f|c| | | | | |]; try done; cbn in *;
    try (destruct (ws_lock w) as [|y| |[|y l]] eqn:El; try done; try (by right; exists y)); left.
  all: first [exists EvMgr; cbn; unfold mgr_step; cbn; rewrite ?Hs, ?El; by split_and!
             |exists (EvDial false); cbn; by split_and!|exists (EvReplay true); cbn; rewrite El; by split_and!
             |exists EvReadError; cbn; by split_and!].
Qed.

(** C30: Once [chStop] is closed the manager ends: after the signal it takes at
    most six more steps of its own and one more per subscription to write again;
    a back-off timer that overtakes the signal buys it one more dial and replay.
    It always has a next step, at worst the end of the dial, read or write it is in,
    or it waits for [muWrite], and then for the return of the [WriteJSON] of the
    [Subscribe] that holds it; when nobody holds it and the manager has no step left
    it has ended, and every waiting [Close] returns. *)
Theorem close_terminates s es s' (Hr : ws_life_reachable s) (Hs : ws_stopped (lf_ws s) = true)
    (Hrun : run_events es s = Some s') :
  (mgr_events es <= 6 + length (ws_subs (lf_ws s')) + ticks es * (length (ws_subs (lf_ws s')) + 2))%nat /\
  ((forall e, is_mgr e = true -> life_exec e s' = None) ->
   (exists x, ws_lock (lf_ws s') = BySubscribe x /\ forall b, is_Some (life_exec (EvWrite b) s')) \/
   lf_pc s' = PcDone /\
   (lf_closing s' <> 0%nat -> is_Some (life_exec EvCloseReturn s')) /\
   (lf_fetch s' = FcWait GWait -> is_Some (life_exec EvGoDone s'))).
Proof.
  destruct (reachable_ok s Hr) as [Hok _]. destruct (run_ok es s s' Hok Hrun) as [Hok' _].
  destruct (run_left es s s' Hs Hrun) as (Hs' & Hn & Hl). split.
  - specialize (Hl _ (le_n _)). pose proof (lok_pc _ Hok) as [Hlk Hp].
    pose proof (ok_left _ (reachable_ws_ok _ (proj2 (reachable_ok s Hr)))) as Hleft.
    destruct (lf_pc s) as [|c|c f|c| | | | | |]; cbn in Hl; try lia. destruct Hp; congruence.
  - intros Hnone. destruct (decide (lf_pc s' = PcDone)) as [Hd|Hne].
    + right. split; [done|]. split.
      * intros Hc. unfold life_exec, close_step. rewrite !Hd. cbn. by destruct (lf_closing s').
      * intros Hf. unfold life_exec, fetch_step. by rewrite !Hd, Hf.
    + destruct (mgr_enabled s' Hok' Hne Hs') as [(e & He & _ & [x Hx])|[x Hx]]; [by rewrite Hnone in Hx|].
      left. exists x. split; [done|]. intros b. pose proof (lok_pc _ Hok') as [Hlk _]. rewrite Hx in Hlk.
      unfold life_exec, subscribe_step. rewrite Hx. by destruct (lf_pc s').
Qed.

(** *** What the end depends on *)

(** The manager is inside [ReadJSON], or waits for [muWrite] while the [Subscribe] that
    holds it is inside [WriteJSON]; and what only the node can bring about. *)
Definition at_nodes_mercy (s : life) : Prop :=
  lf_pc s = PcRead \/ (lf_pc s = PcReset \/ lf_pc s = PcTerm) /\ exists x, ws_lock (lf_ws s) = BySubscribe x.
Definition node_event (e : event) : bool := match e with EvFrame _ | EvReadError | EvWrite _ => true | _ => false end.

(** Only the end of its write frees a lock a [Subscribe] has. *)
Lemma writer_keeps e s s' x : ws_lock (lf_ws s) = BySubscribe x -> outside e = true -> node_event e = false ->
  life_exec e s = Some s' -> ws_lock (lf_ws s') = BySubscribe x.
Proof.
  intros Hx Ho Hq He. unfold life_exec in He. destruct (_ && _); [done|]. destruct s as [w p c1 c2 fc]. cbn in Hx.
  destruct e as [| | | | | | |events mb|y|b| | | | | | |]; try done; cbn in He;
    try (apply bind_Some in He as (fc' & _ & [= <-]); done); rewrite ?Hx in He; simplify_eq; try done.
  destruct c1; [done|]. destruct (decide (p = PcDone)); by simplify_eq.
Qed.

Lemma mercy_step e s s' : at_nodes_mercy s -> node_event e = false -> life_exec e s = Some s' -> at_nodes_mercy s'.
Proof.
  intros Hm Hq He. destruct (outside e) eqn:Eo.
  - destruct (outside_effect e s s' Eo He) as (Hp & _). unfold at_nodes_mercy. rewrite Hp.
    destruct Hm as [Hm|[Hm [x Hx]]]; [by left|right]. split; [done|]. exists x. by eapply writer_keeps.
  - rewrite inside_exec in He by done. destruct s as [w p c1 c2 fc]. destruct Hm as [Hm|[[Hm|Hm] [x Hx]]]; cbn in *; subst p;
      destruct e as [|[]| | | | | | | | | | | | | | |]; try done; cbn in He; unfold mgr_step in He; cbn in He; by rewrite Hx in He.
Qed.

(** C5: [Close] does not close the connection, so it is at the node's mercy: while
    the manager is inside [ReadJSON], or waits for [muWrite] while a [Subscribe] is
    inside [WriteJSON], and the node neither sends nor reads nor breaks the
    connection, [Close] never returns, [DataFetcher.Close] never returns nil,
    whatever else happens, and only its context ends that call. *)
Theorem close_waits_for_the_node s es s' (Hr : ws_life_reachable s) (Hm : at_nodes_mercy s)
    (Hsilent : Forall (fun e => node_event e = false) es) (Hrun : run_events es s = Some s') :
  at_nodes_mercy s' /\ lf_closed s' = 0%nat /\ closed s' = false /\
  (forall g err, lf_fetch s' = FcWait g ->
     exists s'', life_exec (EvCtxDone err) s' = Some s'' /\ lf_fetch s'' = FcReturned (Some err) g).
Proof.
  destruct (reachable_ok s Hr) as [Hok _]. destruct (run_ok es s s' Hok Hrun) as [Hok' _].
  assert (Hp : at_nodes_mercy s').
  { apply (run_inv at_nodes_mercy (fun e => node_event e = false)) with (es := es) (s := s); try done.
    intros e x x' _ Hx Hq He. by eapply mercy_step. }
  assert (Hnd : lf_pc s' <> PcDone /\ started (lf_pc s') = true) by (destruct Hp as [->|[[->| ->] _]]; done).
  destruct Hnd as [Hnd Hst]. split_and!; [done|..].
  - destruct (lf_closed s') eqn:Ec; [done|]. destruct Hnd. apply (lok_closed _ Hok'). lia.
  - destruct (closed s') eqn:Ec; [|done]. by apply closed_done in Ec.
  - intros g err Hf. eexists. unfold life_exec, fetch_step. rewrite Hst, Hf. by split.
Qed.

Definition dialled (p : pc) : bool := match p with PcNew | PcDial true | PcBackoff true _ => false | _ => true end.
Lemma started_dialled p : started p = true -> dialled p = true.
Proof. by destruct p as [|[]|[]|[]| | | | | |]. Qed.

(** The constructor dials before anything can stop it: it returns only once some
    dial succeeded, so never while the node cannot be reached, and then it does. *)
Theorem constructor_needs_a_dial es s (Hrun : run_events es life0 = Some s) :
  (started (lf_pc s) = true -> EvDial true ∈ es) /\
  (EvDial true ∈ es -> started (lf_pc s) = true \/ exists s', life_exec EvMgr s = Some s' /\ started (lf_pc s') = true).
Proof.
  assert (HG : forall es s s', life_ok s -> run_events es s = Some s' ->
    dialled (lf_pc s') = true <-> dialled (lf_pc s) = true \/ EvDial true ∈ es).
  { clear. induction es as [|e es IH]; intros s s' Hok Hr; cbn in Hr; [simplify_eq; set_solver|].
    destruct (life_exec e s) as [s1|] eqn:E; [|done]. cbn in Hr.
    rewrite (IH _ _ (proj1 (exec_ok _ _ _ Hok E)) Hr), elem_of_cons. pose proof (lok_pc _ Hok) as [_ Hp].
    assert (H1 : dialled (lf_pc s1) = true <-> dialled (lf_pc s) = true \/ e = EvDial true).
    { clear -E Hp. destruct (outside e) eqn:Eo.
      - destruct (outside_effect _ _ _ Eo E) as (-> & Hs & _). apply started_dialled in Hs. split; [by left|done].
      - rewrite inside_exec in E by done. destruct s as [w p c1 c2 fc]. cbn in Hp |- *.
        destruct e as [|[]| | |b|f| | | | | | | | | | |], p as [|[]|[] []|[]| | | | | |]; try done; cbn in E; unfold mgr_step in E;
          cbn in E; rewrite ?(proj1 Hp) in E; try destruct (ws_stopped w); try destruct (ws_lock w) as [| | |[]]; simplify_eq; cbn;
          intuition congruence. }
    rewrite H1. split; [intros [[?| ->]|?]|intros [?|[<-|?]]]; auto. }
  destruct (reachable_ok s) as [Hok _]; [by exists es|]. specialize (HG _ _ _ life0_ok Hrun). cbn in HG. split.
  - intros Hs%started_dialled. apply HG in Hs as [?|?]; done.
  - intros Hin. assert (Hd : dialled (lf_pc s) = true) by (apply HG; by right).
    pose proof (lok_pc _ Hok) as [_ Hp]. destruct s as [w p c1 c2 fc]. cbn in Hp, Hd |- *.
    destruct p as [|[]|[]|[]| | | | | |]; try done; try by left. right. destruct Hp as (_ & _ & Hl).
    eexists. unfold life_exec, mgr_step. cbn. rewrite Hl. by split.
Qed.
End LifeFacts.

Section LifeExamples.
(** A client that connected at the second attempt and reads. *)
Definition w_start : list event := [EvMgr; EvDial false; EvTimer; EvTick; EvDial true; EvMgr; EvMgr].
Definition w_reading : life := default life0 (run_events w_start life0).
(** A subscription, its acknowledgement, and a [Close] noticed after it. *)
Definition w_stop : list event :=
  [EvRegister ["Vote"] 0; EvLock (mkSub 1 ["Vote"] 0); EvWrite true; EvClose; EvFrame (mkFrame None "{}" (Err "") None)].
Definition w_stopping : life := default life0 (run_events (w_start ++ w_stop) life0).
Definition w_end : list event := [EvMgr; EvMgr; EvMgr].
Definition w_closed : life := default life0 (run_events (w_start ++ w_stop ++ w_end ++ [EvCloseReturn]) life0).

Lemma life_refines_steps_witness : lf_pc w_reading = PcRead /\ is_Some (ws_conn (lf_ws w_reading)).
Proof.
  split; [reflexivity|].
  apply (life_refines_steps w_reading ltac:(by exists w_start)). reflexivity.
Defined.

(** Subscribing after [Close] registers and waits for ever unsent. *)
Lemma close_releases_witness :
  lf_pc w_closed = PcDone /\
  forall s', run_events [EvRegister ["NewRound"] 0; EvLock (mkSub 2 ["NewRound"] 0); EvWrite true] w_closed = Some s' ->
    ws_sent (lf_ws s') = [(0%nat, mkSub 1 ["Vote"] 0)].
Proof.
  destruct (close_releases w_closed) as (H1 & _ & H2); [exists (w_start ++ w_stop ++ w_end ++ [EvCloseReturn]); vm_compute; reflexivity|vm_compute; reflexivity|].
  split; [exact H1|]. intros s' Hs'. destruct (H2 _ _ Hs') as (_ & H & _). rewrite H. vm_compute. reflexivity.
Defined.

Lemma close_terminates_witness :
  exists s', run_events w_end w_stopping = Some s' /\ lf_pc s' = PcDone /\ is_Some (life_exec EvCloseReturn s').
Proof.
  destruct (run_events w_end w_stopping) as [s'|] eqn:E; [|vm_compute in E; discriminate].
  exists s'. split; [done|].
  destruct (close_terminates w_stopping w_end s') as [_ H];
    [exists (w_start ++ w_stop); vm_compute; reflexivity|vm_compute; reflexivity|exact E|].
  destruct H as [(x & H & _)|(H1 & H2 & _)].
  - vm_compute in E. injection E as <-. intros [| [] | | | | | | | | | | | | | | |] He; vm_compute in He; try discriminate He; reflexivity.
  - vm_compute in E. injection E as <-. discriminate H.
  - split; [exact H1|]. apply H2. vm_compute in E. injection E as <-. discriminate.
Defined.

(** The fetcher's [Close] on a silent node ends by its context, its goroutine stays. *)
Definition w_silent : list event := [EvFetchClose; EvGo; EvClose].
Lemma close_waits_for_the_node_witness :
  exists s', run_events w_silent w_reading = Some s' /\ ws_stopped (lf_ws s') = true /\ closed s' = false /\
    exists s'', life_exec (EvCtxDone "context deadline exceeded") s' = Some s'' /\
      lf_fetch s'' = FcReturned (Some "context deadline exceeded") GWait.
Proof.
  destruct (run_events w_silent w_reading) as [s'|] eqn:E; [|vm_compute in E; discriminate].
  destruct (close_waits_for_the_node w_reading w_silent s') as (_ & _ & H1 & H2);
    [by exists w_start|by left|by repeat constructor|exact E|].
  exists s'. split; [done|]. split; [vm_compute in E; injection E as <-; reflexivity|]. split; [exact H1|].
  apply H2. vm_compute in E. injection E as <-. reflexivity.
Defined.

Lemma constructor_needs_a_dial_witness : EvDial true ∈ w_start.
Proof. apply (constructor_needs_a_dial w_start w_reading); reflexivity. Defined.

(** A [Subscribe] whose [WriteJSON] does not return: the read fails, but neither the
    reconnect nor, after [Close], the end can have the lock. *)
Example stuck_writer :
  let s := default life0 (run_events (w_start ++ [EvRegister ["Vote"] 0; EvLock (mkSub 1 ["Vote"] 0); EvReadError; EvMgr; EvClose]) life0) in
  lf_pc s = PcReset /\ life_exec EvMgr s = None /\ life_exec EvCloseReturn s = None /\
  lf_pc <$> run_events [EvWrite false; EvMgr; EvDial false; EvMgr; EvMgr; EvMgr; EvMgr] s = Some PcDone.
Proof. vm_compute. by split_and!. Qed.

(** A reconnect that is stopped leaves the client without a connection; the reader
    sees the signal before it would touch it. *)
Example stopped_reconnect :
  lf_pc <$> run_events (w_start ++ [EvReadError; EvMgr; EvMgr; EvDial false; EvClose; EvMgr; EvMgr; EvMgr; EvMgr]) life0 =
  Some PcDone.
Proof. vm_compute. reflexivity. Qed.
End LifeExamples.
