(* ===== verification/Crawler.v ===== *)
(** * The crawler and the refreshers ([pkg/crawler], [pkg/refresher])

    The crawler drains a mailbox of URLs, fetches each at most once per rescan
    interval, records what it learns and queues the peers it finds.  Its probes run
    concurrently: a probe is a list of atomic actions on the shared state.  A
    refresher calls its function once and then on every tick. *)

From S2P Require Import Prelude GoNum GoText GoTime Deps Types Rounds MetricTypes State.
Local Open Scope Z_scope.

(** ** [Refresher.Run] *)

Section Refresher.
Context {St : Type} (refresh : St -> St).

(** What the [select] sees: a tick, or the closed stop channel. *)
Inductive refresher_event := Tick | StopClosed.

Fixpoint refresher_loop (events : list refresher_event) (st : St) : St :=
  match events with
  | [] => st
  | StopClosed :: _ => st
  | Tick :: events' => refresher_loop events' (refresh st)
  end.

Definition Refresher_Run (interval : Z) (events : list refresher_event) (st : St) : St :=
  let st := refresh st in
  if interval <=? 0 then st else refresher_loop events st.

Fixpoint ticks_before_stop (events : list refresher_event) : nat :=
  match events with Tick :: events' => S (ticks_before_stop events') | _ => O end.

Lemma refresher_loop_iter events st :
  refresher_loop events st = Nat.iter (ticks_before_stop events) refresh st.
Proof.
  revert st. induction events as [|[|] events IH]; intros st; [done| |done].
  cbn [refresher_loop ticks_before_stop]. by rewrite IH, <-Nat.iter_succ_r.
Qed.

(** A refresher calls its function once at the start and once per tick before
    the stop channel closes; with a non-positive interval it calls it exactly once. *)
Theorem Refresher_Run_calls interval events st :
  Refresher_Run interval events st =
  Nat.iter (S (if interval <=? 0 then 0 else ticks_before_stop events)) refresh st.
Proof.
  unfold Refresher_Run. destruct (interval <=? 0); [done|]. by rewrite refresher_loop_iter, <-Nat.iter_succ_r.
Qed.
End Refresher.

(** ** The crawler *)

Definition rescanInterval : Z := 15 * Second.

(** The mailbox of [butils], with a capacity of its own. *)
Class Mailbox := {
  mailbox : Type;
  mb_new : mailbox;
  mb_deliver : mailbox -> string -> mailbox;
  mb_retrieve_all : mailbox -> list string * mailbox;
}.

Section Crawler.
Context `{B : Butils} `{C : Comet}.

(** The two requests of a probe. *)
Record Probe := mkProbe { GetNetInfo_at : string -> res NetInfo; GetCometNodeStatus_at : string -> res ResultStatus }.

(** [strings.EqualFold] on the hexadecimal addresses it is used on. *)
Definition EqualFold (s t : string) : bool := bool_decide (to_lower s = to_lower t).

Fixpoint validator_moniker (vals : list TMValidator) (addr old : string) : string :=
  match vals with
  | [] => old
  | cv :: vals' =>
      match tv_Cosmos cv with
      | None => validator_moniker vals' addr old
      | Some c =>
          match ConsensusPubkey c with
          | None => validator_moniker vals' addr old
          | Some key =>
              if EqualFold (HexBytes_String (PubKey_Address key)) addr then Moniker c
              else validator_moniker vals' addr old
          end
      end
  end.

Definition self_rpc (known : option RPC) (rpcURL : string) (status : ResultStatus) (vals : list TMValidator) : RPC :=
  let rpc := default zero_RPC known in
  let addr := HexBytes_String (rs_ValidatorAddress status) in
  mkRPC (rs_ID status) (rpc_IP rpc) rpcURL (rs_Moniker status) addr
    (validator_moniker vals addr (rpc_ValidatorMoniker rpc)).

Definition peer_rpc (known : option RPC) (peer : Peer) : RPC :=
  let rpc := default zero_RPC known in
  mkRPC (peer_ID peer) (peer_RemoteIP peer) (peer_URL peer) (peer_Moniker peer)
    (rpc_ValidatorAddress rpc) (rpc_ValidatorMoniker rpc).

(** The atomic actions of a probe: each takes the state's lock once. The local
    variable is the record read last and the validators read last. *)
Inductive action :=
  | ReadKnown (url : string)
  | ReadValidators
  | WriteSelf (url : string) (status : ResultStatus)
  | WritePeers (url : string) (peers : list Peer)
  | WritePeer (peer : Peer)
  | Deliver (url : string).

Definition locals : Type := option RPC * list TMValidator.
Definition no_locals : locals := (None, []).

(** The shared state and the URLs delivered so far. *)
Definition exec_action (sh : State * list string) (lo : locals) (a : action) : (State * list string) * locals :=
  let '(s, mail) := sh in
  match a with
  | ReadKnown url => (sh, (KnownRPCByURL s url, lo.2))
  | ReadValidators => (sh, (lo.1, GetTMValidators s))
  | WriteSelf url status => ((AddKnownRPC (self_rpc lo.1 url status lo.2) s, mail), lo)
  | WritePeers url peers => ((AddRPCPeers url peers s, mail), lo)
  | WritePeer peer => ((AddKnownRPC (peer_rpc lo.1 peer) s, mail), lo)
  | Deliver url => ((s, mail ++ [url]), lo)
  end.

Definition run_actions (sh : State * list string) (acts : list action) : (State * list string) * locals :=
  foldl (fun x a => exec_action x.1 x.2 a) (sh, no_locals) acts.

Definition peer_actions (peer : Peer) : list action :=
  [ReadKnown (peer_URL peer); WritePeer peer; Deliver (peer_URL peer)].

(** A failed request ends the probe; a panic is not recovered and ends the process. *)
Definition fetch_actions (f : Probe) (rpcURL : string) : res (list action) :=
  match GetNetInfo_at f rpcURL with
  | Err _ => Ok []
  | Panic => Panic
  | Ok netInfo =>
      match GetCometNodeStatus_at f rpcURL with
      | Err _ => Ok []
      | Panic => Panic
      | Ok status =>
          Ok ([ReadKnown rpcURL; ReadValidators; WriteSelf rpcURL status; WritePeers rpcURL (ni_Peers netInfo)]
            ++ (ni_Peers netInfo ≫= peer_actions))
      end
  end.

(** One probe on its own. *)
Definition fetchOne (f : Probe) (s : State) (rpcURL : string) : res (State * list string) :=
  acts ← fetch_actions f rpcURL; Ok (run_actions (s, []) acts).1.

(** Two probes at once: a schedule says which of them moves. *)
Fixpoint run_two (schedule : list bool) (sh : State * list string)
    (p q : locals * list action) : State * list string :=
  match schedule with
  | [] => sh
  | true :: sch =>
      match p with
      | (lo, a :: acts) => let '(sh, lo) := exec_action sh lo a in run_two sch sh (lo, acts) q
      | (_, []) => run_two sch sh p q
      end
  | false :: sch =>
      match q with
      | (lo, a :: acts) => let '(sh, lo) := exec_action sh lo a in run_two sch sh p (lo, acts)
      | (_, []) => run_two sch sh p q
      end
  end.

(** ** [Crawler.Run] *)

Context `{MB : Mailbox}.

Record Crawler := mkCrawler {
  cr_mb : mailbox;
  cr_lastSeen : gmap string Z;
  cr_fetched : list (string * Z) }.   (** the probes started, with their recorded times *)

Definition NewCrawler (seed : string) : Crawler := mkCrawler (mb_deliver mb_new seed) ∅ [].

(** One retrieved URL: the clock is read for the test and again for the record. *)
Definition crawl_url (c : Crawler) (x : string * (Z * Z)) : Crawler :=
  let '(url, (t_test, t_record)) := x in
  let skip := match cr_lastSeen c !! url with
              | Some last => t_test - last <? rescanInterval
              | None => false
              end in
  if skip then c
  else mkCrawler (cr_mb c) (<[url := t_record]> (cr_lastSeen c)) (cr_fetched c ++ [(url, t_record)]).

(** [clock i] are the two readings for the i-th URL of the batch. *)
Definition on_notify (clock : nat -> Z * Z) (delivered : list string) (c : Crawler) : Crawler :=
  let '(urls, mb) := mb_retrieve_all (cr_mb c) in
  let c := mkCrawler mb (cr_lastSeen c) (cr_fetched c) in
  let c := foldl crawl_url c (imap (fun i url => (url, clock i)) urls) in
  mkCrawler (foldl mb_deliver (cr_mb c) delivered) (cr_lastSeen c) (cr_fetched c).

(** A URL never seen has the zero time, which is longer ago than any interval. *)
Definition due (now : Z) (lastSeen : gmap string Z) (url : string) : bool :=
  match lastSeen !! url with Some last => rescanInterval <=? now - last | None => true end.

Definition on_tick (now : Z) (s : State) (c : Crawler) : Crawler :=
  mkCrawler
    (foldl mb_deliver (cr_mb c)
       (filter (fun url => due now (cr_lastSeen c) url = true) ((fun p => rpc_URL p.2) <$> om_entries (KnownRPCs s))))
    (cr_lastSeen c) (cr_fetched c).

(** The deliveries during a batch are those of its probes, in any order. *)
Inductive crawler_step : Crawler -> Crawler -> Prop :=
  | step_notify c clock delivered : (forall i, (clock i).1 <= (clock i).2) ->
      crawler_step c (on_notify clock delivered c)
  | step_tick c now s : crawler_step c (on_tick now s c).

Definition crawler_reachable (seed : string) : Crawler -> Prop := rtc crawler_step (NewCrawler seed).
End Crawler.

(** ** Facts *)

Section CrawlerFacts.
Context `{BL : ButilsLaws} `{C : Comet} `{MB : Mailbox}.
Implicit Types (s : State) (c : Crawler).

(** *** The rate limit *)

(** Probes of one URL are a rescan interval apart, and [lastSeen] is the last of them. *)
Definition spaced (fetched : list (string * Z)) : Prop :=
  forall i j url t u, (i < j)%nat -> fetched !! i = Some (url, t) -> fetched !! j = Some (url, u) ->
    t + rescanInterval <= u.

Definition crawler_ok c : Prop :=
  spaced (cr_fetched c) /\
  forall url t, (url, t) ∈ cr_fetched c -> exists last, cr_lastSeen c !! url = Some last /\ t <= last.

Lemma crawl_url_ok c x : x.2.1 <= x.2.2 -> crawler_ok c -> crawler_ok (crawl_url c x).
Proof.
  destruct x as [url [t1 t2]]. cbn. intros Ht [Hsp Hl]. case_match eqn:Eskip; [by split|].
  assert (Hgap : forall t, (url, t) ∈ cr_fetched c -> t + rescanInterval <= t2).
  { intros t Hin. destruct (Hl url t Hin) as (last & Hlast & ?). rewrite Hlast in Eskip.
    destruct (Z.ltb_spec (t1 - last) rescanInterval); [done|lia]. }
  split; cbn.
  - intros i j u a b Hij Hi Hj. rewrite lookup_app in Hi, Hj.
    destruct (cr_fetched c !! j) as [y|] eqn:Ej.
    + destruct (cr_fetched c !! i) as [x|] eqn:Ei.
      * injection Hi as ->. injection Hj as ->. by eapply Hsp.
      * apply lookup_ge_None_1 in Ei. apply lookup_lt_Some in Ej. lia.
    + apply list_lookup_singleton_Some in Hj as [Hj0 [= <- <-]].
      destruct (cr_fetched c !! i) as [x|] eqn:Ei.
      * injection Hi as ->. apply Hgap. by eapply list_elem_of_lookup_2.
      * apply lookup_ge_None_1 in Ei. lia.
  - intros u a [Hin|[= -> ->]%list_elem_of_singleton]%elem_of_app.
    + destruct (decide (u = url)) as [->|Hne].
      * exists t2. rewrite lookup_insert_eq. split; [done|]. specialize (Hgap a Hin). unfold rescanInterval, Second in Hgap. lia.
      * rewrite lookup_insert_ne by done. by apply Hl.
    + exists t2. by rewrite lookup_insert_eq.
Qed.

Lemma on_notify_ok clock delivered c :
  (forall i, (clock i).1 <= (clock i).2) -> crawler_ok c -> crawler_ok (on_notify clock delivered c).
Proof.
  intros Hclk Hc. unfold on_notify. destruct (mb_retrieve_all (cr_mb c)) as [urls mb].
  assert (Hfold : forall l c, Forall (fun x => x.2.1 <= x.2.2) l -> crawler_ok c -> crawler_ok (foldl crawl_url c l)).
  { clear. induction l as [|x l IH]; intros c Hl Hc; [done|]. inversion Hl; subst. cbn. apply IH; [done|]. by apply crawl_url_ok. }
  apply Hfold.
  - apply Forall_forall. intros x Hx. apply list_elem_of_lookup in Hx as [i Hi].
    rewrite list_lookup_imap in Hi. destruct (urls !! i); [|done]. injection Hi as <-. apply Hclk.
  - exact Hc.
Qed.

(** C24: In every run of the crawler, whatever the mailbox does and whatever is
    delivered to it, two probes of one URL start at least a rescan interval apart. *)
Theorem crawl_rate_limited seed c i j url t u
    (Hr : crawler_reachable seed c) (Hij : (i < j)%nat)
    (Hi : cr_fetched c !! i = Some (url, t)) (Hj : cr_fetched c !! j = Some (url, u)) :
  t + rescanInterval <= u.
Proof.
  assert (Hok : crawler_ok c).
  { revert Hr. apply rtc_invariant.
    - intros y z Hy Hstep. destruct Hstep; [by apply on_notify_ok|]. exact Hy.
    - split; cbn; [intros ? ? ? ? ? ? H; by rewrite lookup_nil in H|]. intros ? ? H. by apply not_elem_of_nil in H. }
  destruct Hok as [Hsp _]. by eapply Hsp.
Qed.

(** *** What one probe records *)

Definition note_peer s (peer : Peer) : State :=
  AddKnownRPC (peer_rpc (KnownRPCByURL s (peer_URL peer)) peer) s.

Lemma run_peer_actions peers s mail lo :
  (foldl (fun x a => exec_action x.1 x.2 a) ((s, mail), lo) (peers ≫= peer_actions)).1 =
  (foldl note_peer s peers, mail ++ (peer_URL <$> peers)).
Proof.
  revert s mail lo. induction peers as [|p peers IH]; intros s mail lo; cbn; [by rewrite app_nil_r|].
  rewrite IH. f_equal. by rewrite <-app_assoc.
Qed.

Lemma fetchOne_effect f s url ni status :
  GetNetInfo_at f url = Ok ni -> GetCometNodeStatus_at f url = Ok status ->
  fetchOne f s url =
  Ok (foldl note_peer (AddRPCPeers url (ni_Peers ni)
     (AddKnownRPC (self_rpc (KnownRPCByURL s url) url status (GetTMValidators s)) s)) (ni_Peers ni),
   peer_URL <$> ni_Peers ni).
Proof.
  intros Hn Hs. unfold fetchOne, run_actions, fetch_actions. rewrite Hn, Hs. cbn [mbind res_bind]. rewrite foldl_app.
  cbn [foldl exec_action fst snd]. unfold no_locals. by rewrite run_peer_actions.
Qed.

Lemma note_peer_known s peer u :
  KnownRPCByURL (note_peer s peer) u =
  if decide (peer_URL peer = u) then Some (peer_rpc (KnownRPCByURL s u) peer) else KnownRPCByURL s u.
Proof. unfold note_peer, KnownRPCByURL. cbn. rewrite om_get_set. case_decide as E; [by rewrite E|done]. Qed.

Lemma note_peers_known s peers u :
  (u ∉ peer_URL <$> peers -> KnownRPCByURL (foldl note_peer s peers) u = KnownRPCByURL s u) /\
  (is_Some (KnownRPCByURL (foldl note_peer s peers) u) <->
   is_Some (KnownRPCByURL s u) \/ u ∈ peer_URL <$> peers).
Proof.
  revert s. induction peers as [|p peers IH]; intros s; cbn [foldl]; [split; [done|set_solver]|].
  destruct (IH (note_peer s p)) as [H1 H2]. rewrite H2, note_peer_known, fmap_cons, elem_of_cons. split.
  - intros Hu. rewrite H1 by set_solver. rewrite note_peer_known. case_decide; [set_solver|done].
  - case_decide as E; [subst u; split; [by right; left|by left; eexists]|].
    split; [intros [?|?]; [by left|by right; right]|intros [?|[?|?]]; [by left|congruence|by right]].
Qed.

Lemma note_peers_rest s peers u :
  RPCPeers (foldl note_peer s peers) u = RPCPeers s u /\
  foldl note_peer s peers = with_rpcs (fun _ => s_rpcs (foldl note_peer s peers)) s.
Proof.
  revert s. induction peers as [|p peers IH]; intros s; cbn [foldl]; [split; [done|by destruct s]|].
  destruct (IH (note_peer s p)) as [H1 H2]. split; [by rewrite H1|]. rewrite H2 at 1. done.
Qed.

(** A probe whose two requests succeed records the peer list under the probed
    URL and makes the URL and every peer known, keeps every other record as it
    was, records what the node says of itself with the moniker of the validator
    whose key it reports, and queues each peer; it writes nothing but the
    registry. A failed request changes nothing, and a panic of a request is the probe's. *)
Theorem fetchOne_spec f s url :
  match GetNetInfo_at f url, GetCometNodeStatus_at f url with
  | Ok ni, Ok status =>
      exists s' urls, fetchOne f s url = Ok (s', urls) /\ urls = peer_URL <$> ni_Peers ni /\
      RPCPeers s' url = ni_Peers ni /\
      (forall u, is_Some (KnownRPCByURL s' u) <-> is_Some (KnownRPCByURL s u) \/ u = url \/ u ∈ urls) /\
      (forall u, u <> url -> u ∉ urls -> KnownRPCByURL s' u = KnownRPCByURL s u) /\
      (url ∉ urls -> KnownRPCByURL s' url =
         Some (self_rpc (KnownRPCByURL s url) url status (GetTMValidators s))) /\
      s' = with_rpcs (fun _ => s_rpcs s') s
  | Panic, _ | Ok _, Panic => fetchOne f s url = Panic
  | Err _, _ | Ok _, Err _ => fetchOne f s url = Ok (s, [])
  end.
Proof.
  destruct (GetNetInfo_at f url) as [ni|e|] eqn:En; [|unfold fetchOne, fetch_actions; by rewrite En..].
  destruct (GetCometNodeStatus_at f url) as [st|e'|] eqn:Es; [|unfold fetchOne, fetch_actions; by rewrite En, Es..].
  rewrite (fetchOne_effect f s url ni st En Es). eexists _, _. split; [reflexivity|].
  set (s1 := AddRPCPeers _ _ _).
  assert (H1 : forall u, KnownRPCByURL s1 u =
    if decide (url = u) then Some (self_rpc (KnownRPCByURL s url) url st (GetTMValidators s)) else KnownRPCByURL s u).
  { intros u. unfold s1, KnownRPCByURL. cbn. by rewrite om_get_set. }
  split_and!.
  - done.
  - rewrite (proj1 (note_peers_rest s1 (ni_Peers ni) url)). unfold s1, RPCPeers. cbn.
    by rewrite om_get_set, decide_True.
  - intros u. rewrite (proj2 (note_peers_known s1 (ni_Peers ni) u)), H1. case_decide as E; [subst u|].
    + split; [by right; left|by left; eexists].
    + split; [intros [?|?]; [by left|by right; right]|intros [?|[?|?]]; [by left|congruence|by right]].
  - intros u Hu Hn. rewrite (proj1 (note_peers_known s1 (ni_Peers ni) u)) by done. rewrite H1. by case_decide.
  - intros Hn. rewrite (proj1 (note_peers_known s1 (ni_Peers ni) url)) by done. rewrite H1. by case_decide.
  - rewrite (proj2 (note_peers_rest s1 (ni_Peers ni) url)) at 1. done.
Qed.
End CrawlerFacts.

(** ** Concrete runs *)

Section CrawlerExamples.
#[local] Instance demo_mailbox : Mailbox :=
  {| mailbox := list string; mb_new := []; mb_deliver m u := m ++ [u]; mb_retrieve_all m := (m, []) |}.

Definition demo_clock (t : Z) (i : nat) : Z * Z := (t * Second, t * Second).

(** The seed at 0 s, its peer at 5 s, and the seed again, asked for at 10 s and at 20 s. *)
Definition demo_crawler : Crawler :=
  on_notify (demo_clock 20) [] (on_notify (demo_clock 10) ["seed"] (on_notify (demo_clock 5) ["seed"]
    (on_notify (demo_clock 0) ["peer"] (NewCrawler "seed")))).

Lemma demo_crawler_reachable : crawler_reachable "seed" demo_crawler.
Proof.
  unfold demo_crawler. repeat (eapply rtc_r; [|apply step_notify; done]). apply rtc_refl.
Qed.

Lemma crawl_rate_limited_witness :
  cr_fetched demo_crawler = [("seed", 0); ("peer", 5 * Second); ("seed", 20 * Second)] /\
  0 + rescanInterval <= 20 * Second.
Proof.
  split; [vm_compute; reflexivity|].
  apply (crawl_rate_limited "seed" demo_crawler 0 2 "seed" 0 (20 * Second) demo_crawler_reachable);
    [lia|vm_compute; reflexivity..].
Defined.

(** *** Two probes at once can lose a record *)

Definition race_peer : Peer :=
  mkPeer (mkNodeInfo (mkProtocolVersion 8 11 0) "bb" "" "net" "0.38" "" "beta" (mkNodeInfoOther "on" ""))
    true (mkConnectionStatus 0 (flow_at 0 0) (flow_at 0 0) []) "10.0.0.2".
Definition race_url : string := peer_URL race_peer.
Definition race_validator : TMValidator :=
  mkTMValidator None (Some (mkCosmosValidator "beta-validator" (Some "k") "" "op" "" "" "")) 0 None "".
Definition race_state : State := SetTMValidators [race_validator] (NewState "http://a" 0).
Definition race_probe : Probe := mkProbe
  (fun url => Ok (mkNetInfo true [] "1" (if bool_decide (url = race_url) then [] else [race_peer])))
  (fun url => Ok (mkResultStatus (if bool_decide (url = race_url) then "bb" else "aa") "net" "0.38" "node"
                    (if bool_decide (url = race_url) then "k" else "other"))).

Definition race_run (schedule : list bool) : State :=
  match fetch_actions race_probe "http://a", fetch_actions race_probe race_url with
  | Ok p, Ok q => (run_two schedule (race_state, []) (no_locals, p) (no_locals, q)).1
  | _, _ => race_state
  end.
Definition moniker_of (s : State) (url : string) : string :=
  default "" (rpc_ValidatorMoniker <$> KnownRPCByURL s url).

(** A probe reads a peer's record and writes it back in two separate steps: when the
    peer's own probe writes in between, the validator it found is lost; run one
    after the other, in either order, the probes keep it. *)
Lemma crawl_lost_update :
  moniker_of (race_run (replicate 7 true ++ replicate 4 false)) race_url = "beta-validator" /\
  moniker_of (race_run (replicate 4 false ++ replicate 7 true)) race_url = "beta-validator" /\
  moniker_of (race_run (replicate 5 true ++ replicate 4 false ++ replicate 2 true)) race_url = "".
Proof. vm_compute. done. Qed.

Lemma fetchOne_spec_witness :
  exists s', fetchOne race_probe race_state "http://a" = Ok (s', [race_url]) /\ RPCPeers s' "http://a" = [race_peer].
Proof.
  destruct (fetchOne_spec race_probe race_state "http://a") as (s' & urls & H & -> & Hp & _). by exists s'.
Defined.
End CrawlerExamples.
