(* ===== verification/App.v ===== *)
(** * The application ([pkg/app.go])

    The refresh handlers, the websocket consumer and the cleanup routine, over the
    shared state, the metrics builder, a consensus store behind its interface and
    the data source's answers.  Handlers run in goroutines of their own; a step of
    the system is one handler. *)

From S2P Require Import Prelude GoNum GoText Deps Rounds Types MetricTypes State Equivocation Asn Timing Health Builder Schema Store CometRPC Cosmos Fetcher Crawler.
Local Open Scope Z_scope.

Section App.
Context `{B : Butils} `{C : Comet} {T : Type} `{ST : !ConsensusStorer T}.

(** [a_draws] counts the calls of [DisplayWrapper.SetState], which redraw. *)
Record App := mkApp {
  a_State : State;
  a_Store : T;
  a_Builder : Builder;
  a_IsPaused : bool;
  a_draws : nat }.

Definition with_State (f : State -> State) (a : App) : App :=
  mkApp (f (a_State a)) (a_Store a) (a_Builder a) (a_IsPaused a) (a_draws a).
Definition with_Store (t : T) (a : App) : App :=
  mkApp (a_State a) t (a_Builder a) (a_IsPaused a) (a_draws a).
Definition with_Builder (b : Builder) (a : App) : App :=
  mkApp (a_State a) (a_Store a) b (a_IsPaused a) (a_draws a).
Definition draw (a : App) : App :=
  mkApp (a_State a) (a_Store a) (a_Builder a) (a_IsPaused a) (S (a_draws a)).

(** [NewApp]: the state, the builder, the store and the pause flag. *)
Definition NewApp (rpcHost : string) (now : Z) (store : T) (builder : Builder) : App :=
  mkApp (NewState rpcHost now) store builder false 0.

(** A store call whose error is only logged. *)
Definition log_store (r : res unit * T) : res T :=
  match r.1 with Panic => Panic | _ => Ok r.2 end.

(** ** Refresh handlers *)

(** The clock readings of the writes to the store. *)
Record StoreClock := mkStoreClock { clk_validators : Z; clk_round : HeightAndRound -> Z; clk_vote : string -> Z -> Z }.

Definition persist_round (clk : StoreClock) (store : res T) (p : HeightAndRound * RoundData) : res T * bool :=
  match store with
  | Ok st => (log_store (storer_StoreRoundData (clk_round clk p.1) (clk_vote clk) (hr_Height p.1) (hr_Round p.1) p.2 st), true)
  | r => (r, false)
  end.

Definition seed_proposer (consensus : RoundState) (s : State) : State :=
  match rs_Proposer consensus with
  | Some proposer => with_votes (AddProposer (VotesByRound s) (rs_Height consensus) (rs_Round consensus) (HexBytes_String proposer)) s
  | None => s
  end.

Definition on_consensus (clk : StoreClock) (consensus : RoundState) (vals : list TMValidator) (a : App) : res App :=
  let a := with_State (SetConsensusHeight (rs_Height consensus) (rs_Round consensus) (rs_Step consensus) (rs_StartTime consensus)) a in
  let a := with_State (seed_proposer consensus) a in
  store ← log_store (storer_StoreValidators (clk_validators clk) (rs_Height consensus) vals (a_Store a));
  store ← Iter (VotesByRound (a_State a)) (persist_round clk) (Ok store);
  Ok (with_Store store a).

(** Both requests have answered when the handler goes on. *)
Definition RefreshConsensus (clk : StoreClock) (f : Fetcher) (a : App) : res App :=
  if a_IsPaused a then Ok a
  else
    match fetch_ConsensusState f, fetch_Validators f with
    | Panic, _ | _, Panic => Panic
    | Err e, _ => Ok (draw (with_State (SetConsensusStateError (Some e)) a))
    | _, Err e => Ok (draw (with_State (SetConsensusStateError (Some e)) a))
    | Ok consensus, Ok vals =>
        let a := with_State (SetTMValidators vals) a in
        let a := with_State (SetConsensusStateError None) a in
        a ← match consensus with Some c => on_consensus clk c vals a | None => Ok a end;
        Ok (draw a)
    end.

Definition RefreshCometNodeInfo (f : Fetcher) (a : App) : res App :=
  if a_IsPaused a then Ok a
  else
    match fetch_CometNodeStatus f (rpc_URL (CurrentRPC (a_State a))) with
    | Err e => Ok (draw (with_State (SetChainInfoError (Some e)) a))
    | Ok nodeStatus =>
        let a := with_State (SetChainInfo (Some nodeStatus)) a in
        let a := with_State (SetChainInfoError None) a in
        Ok (draw a)
    | Panic => Panic
    end.

Definition RefreshUpgrade (haltHeight : Z) (f : Fetcher) (a : App) : res App :=
  if a_IsPaused a then Ok a
  else if 0 <? haltHeight then
    Ok (draw (with_State (SetUpgrade (Some (mkUpgrade "halt-height upgrade" haltHeight))) a))
  else
    match fetch_UpgradePlan f with
    | Err e => Ok (draw (with_State (SetUpgradePlanError (Some e)) a))
    | Ok upgrade =>
        let a := with_State (SetUpgrade upgrade) a in
        let a := with_State (SetUpgradePlanError None) a in
        Ok (draw a)
    | Panic => Panic
    end.

Definition RefreshBlockTime (f : Fetcher) (a : App) : res App :=
  if a_IsPaused a then Ok a
  else
    match fetch_BlockTime f with
    | Err _ => Ok a
    | Ok blockTime => Ok (draw (with_State (SetBlockTime blockTime) a))
    | Panic => Panic
    end.

Definition RefreshMempool (f : Fetcher) (a : App) : res App :=
  if a_IsPaused a then Ok a
  else
    match fetch_NumUnconfirmedTxs f with
    | Err _ => Ok a
    | Ok (txs, bytes) => Ok (with_State (SetMempool txs bytes) a)
    | Panic => Panic
    end.

Definition RefreshNetInfo (f : Fetcher) (a : App) : res App :=
  if a_IsPaused a then Ok a
  else
    match fetch_NetInfo f (rpc_URL (CurrentRPC (a_State a))) with
    | Err _ => Ok a
    | Ok netInfo => Ok (draw (with_State (SetNetInfo (Some netInfo)) a))
    | Panic => Panic
    end.

(** The clock readings and the iteration order and sort of [Build]. *)
Record BuildEnv := mkBuildEnv {
  be_observe : Z; be_halt : Z;
  be_range : gmap Z asnAccum -> list (Z * asnAccum);
  be_sort : (ASNShare -> ASNShare -> bool) -> list ASNShare -> list ASNShare }.

Definition RefreshHealthMetrics (env : BuildEnv) (a : App) : res App :=
  if a_IsPaused a then Ok a
  else
    '(b, (nh, rows)) ← Build (be_observe env) (be_halt env) (be_range env) (be_sort env) (a_Builder a) (a_State a);
    let a := with_Builder b a in
    let a := with_State (SetNetworkHealth (Some (AnyNetworkHealth nh))) a in
    let a := with_State (SetValidatorHealth (Some (AnyRows rows))) a in
    Ok (draw a).

(** ** The websocket consumer and the cleanup routine *)

(** One notification: [events] with the clock readings of the builder's observers. *)
Definition on_events (clock : TMEventData -> Z) (events : list (TMEventData * (Z * Z))) (a : App) : res App :=
  s ← AddCometBFTEvents (a_State a) (fst <$> events);
  let a := with_State (fun _ => s) a in
  let a := with_Builder (ObserveEvents (a_Builder a) events) a in
  store ← (match events with
           | [] => Ok (a_Store a)
           | _ => log_store (storer_StoreCometBFTEvents clock (fst <$> events) (a_Store a))
           end);
  Ok (draw (with_Store store a)).

Definition cleanup (now : Z) (a : App) : res App :=
  store ← log_store (storer_CleanupOldData now (a_Store a)); Ok (with_Store store a).

(** A batch of the mailbox: the clock of the store and the events. *)
Definition batch : Type := ((TMEventData -> Z) * list (TMEventData * (Z * Z)))%type.

(** [SubscribeCometBFT]: what the [select] sees, batch after batch until the stop
    channel is closed ([None]). *)
Fixpoint SubscribeCometBFT (selects : list (option batch)) (a : App) : res App :=
  match selects with
  | [] | None :: _ => Ok a
  | Some (clock, events) :: selects' => a ← on_events clock events a; SubscribeCometBFT selects' a
  end.

(** The names it subscribes to. *)
Definition subscribed_events : list string := ["Vote"; "NewRound"; "NewRoundStep"].

(** [databaseCleanupRoutine]: once at the start, then on every tick ([Some], with
    the clock) until the stop channel is closed. *)
Fixpoint cleanup_loop (selects : list (option Z)) (a : App) : res App :=
  match selects with
  | [] | None :: _ => Ok a
  | Some now :: selects' => a ← cleanup now a; cleanup_loop selects' a
  end.
Definition databaseCleanupRoutine (now : Z) (selects : list (option Z)) (a : App) : res App :=
  a ← cleanup now a; cleanup_loop selects a.

Definition toggle_pause (a : App) : App :=
  mkApp (a_State a) (a_Store a) (a_Builder a) (negb (a_IsPaused a)) (a_draws a).

(** ** Runs *)

(** What Go's types guarantee of the data that arrives: 32-bit rounds and vote types. *)
Definition event_typed (e : TMEventData) : Prop :=
  match e with
  | EventDataNewRound _ round _ => is_int32 round
  | EventDataVote (Some v) => is_int32 (v_Round v) /\ is_int32 (v_Type v)
  | _ => True
  end.
Definition fetcher_typed (f : Fetcher) : Prop :=
  forall c, fetch_ConsensusState f = Ok (Some c) -> is_int32 (rs_Round c).

(** Everything but the websocket's events. *)
Inductive quiet_step : App -> App -> Prop :=
  | as_consensus clk f a a' : fetcher_typed f -> RefreshConsensus clk f a = Ok a' -> quiet_step a a'
  | as_node_info f a a' : RefreshCometNodeInfo f a = Ok a' -> quiet_step a a'
  | as_upgrade h f a a' : RefreshUpgrade h f a = Ok a' -> quiet_step a a'
  | as_block_time f a a' : RefreshBlockTime f a = Ok a' -> quiet_step a a'
  | as_mempool f a a' : RefreshMempool f a = Ok a' -> quiet_step a a'
  | as_net_info f a a' : RefreshNetInfo f a = Ok a' -> quiet_step a a'
  | as_health env a a' : RefreshHealthMetrics env a = Ok a' -> quiet_step a a'
  | as_cleanup now a a' : cleanup now a = Ok a' -> quiet_step a a'
  | as_pause a : quiet_step a (toggle_pause a)
  | as_probe f url a r : fetchOne f (a_State a) url = Ok r -> quiet_step a (with_State (fun _ => r.1) a)
  | as_select url a : quiet_step a (with_State (SetCurrentRPCURL url) a).

Inductive app_step : App -> App -> Prop :=
  | as_quiet a a' : quiet_step a a' -> app_step a a'
  | as_events clock events a a' : Forall (fun p => event_typed p.1) events ->
      on_events clock events a = Ok a' -> app_step a a'.

(** A run with the events it observed, each with the clock reading of the
    equivocation detector. *)
Inductive app_trace (a0 : App) : list (Z * TMEventData) -> App -> Prop :=
  | at_start : app_trace a0 [] a0
  | at_quiet tr a a' : app_trace a0 tr a -> quiet_step a a' -> app_trace a0 tr a'
  | at_events tr clock events a a' : app_trace a0 tr a -> Forall (fun p => event_typed p.1) events ->
      on_events clock events a = Ok a' -> app_trace a0 (tr ++ ((fun p => (p.2.1, p.1)) <$> events)) a'.
End App.

Arguments App {_} _.

(** ** What an invariant of the store owes to the application *)

Section Laws.
Context `{B : Butils} `{C : Comet}.

Class StorerLaws (T : Type) `{ST : !ConsensusStorer T} (I : T -> Prop) : Prop := {
  sl_round : forall now clock h r rd t, is_int32 r -> types_int32 rd -> I t -> I (storer_StoreRoundData now clock h r rd t).2;
  sl_validators : forall now h vals t, I t -> I (storer_StoreValidators now h vals t).2;
  sl_events : forall clock events t, I t -> I (storer_StoreCometBFTEvents clock events t).2;
  sl_cleanup : forall now t, I t -> I (storer_CleanupOldData now t).2 }.

#[export] Instance nop_laws (I : unit -> Prop) : StorerLaws unit I.
Proof. split; by cbn; intros. Qed.
End Laws.

#[export] Instance db_laws `{BL : ButilsLaws} `{CL : CometLaws} (config : Config) :
  StorerLaws (ST := db_storer config) Tables store_wf.
Proof.
  split; cbn; intros.
  - by apply StoreRoundData_wf.
  - by apply StoreValidators_wf.
  - by apply StoreCometBFTEvents_wf.
  - by apply CleanupOldData_wf.
Qed.

(** ** Facts *)

Section AppFacts.
Context `{BL : ButilsLaws} `{CL : CometLaws} {T : Type} `{ST : !ConsensusStorer T}.
Implicit Types (a : App T) (s : State).

(** *** The invariant of a run *)

Definition votes_ok (v : RoundDataMap) : Prop :=
  forall h r rd, lookup_round v h r = Some rd -> is_int32 r /\ types_int32 rd.

Definition state_ok s : Prop := rpc_wf s /\ votes_ok (VotesByRound s).

(** Writers that leave the registry and the votes alone. *)
Lemma state_ok_frame s s' :
  s_rpcs s' = s_rpcs s -> VotesByRound s' = VotesByRound s -> state_ok s -> state_ok s'.
Proof. intros Hr Hv [H1 H2]. split; [|by rewrite Hv]. unfold rpc_wf, KnownRPCByURL. by rewrite Hr. Qed.

Lemma default_types_int32 v h r rd : votes_ok v -> default new_RoundData (lookup_round v h r) = rd -> types_int32 rd.
Proof.
  intros Hv <-. destruct (lookup_round v h r) as [rd|] eqn:E; cbn; [by eapply Hv|].
  intros x t b. unfold rd_vote, new_RoundData; cbn. rewrite lookup_empty. cbn. discriminate.
Qed.

Lemma AddProposer_ok v h r p : is_int32 r -> votes_ok v -> votes_ok (AddProposer v h r p).
Proof.
  intros Hr Hv h' r' rd. rewrite lookup_AddProposer. destruct (key_eq h r h' r') eqn:E; [|apply Hv].
  apply key_eq_true in E as [<- <-]. intros [= <-]. split; [done|].
  intros x t b. unfold rd_vote, rd_add_proposer; cbn. by eapply (default_types_int32 v h r).
Qed.

Lemma AddVote_ok v h r x t b : is_int32 r -> is_int32 t -> votes_ok v -> votes_ok (AddVote v h r x t b).
Proof.
  intros Hr Ht Hv h' r' rd. rewrite lookup_AddVote. destruct (key_eq h r h' r') eqn:E; [|apply Hv].
  apply key_eq_true in E as [<- <-]. intros [= <-]. split; [done|].
  intros y t' b'. rewrite rd_vote_add. destruct (_ && _) eqn:Eq.
  - apply andb_true_iff in Eq as [_ Eq%Z.eqb_eq]. by subst t'.
  - by eapply (default_types_int32 v h r).
Qed.

Lemma AddCometBFTEvents_ok s s' events :
  Forall event_typed events -> AddCometBFTEvents s events = Ok s' -> state_ok s -> state_ok s'.
Proof.
  intros Ht He [Hr Hv]. unfold AddCometBFTEvents in He.
  destruct (foldM add_event (VotesByRound s) events) as [v| |] eqn:Ef; [|done..]. injection He as <-.
  split; [exact Hr|]. cbn. revert Ef Hv. generalize (VotesByRound s). clear Hr.
  induction Ht as [|e events Hte _ IH]; intros w; [by intros [= <-]|].
  cbn. destruct e as [h r p|[x|]|h r st|]; cbn in Hte |- *; intros Ef Hw; try done; eapply IH; try exact Ef; try done.
  - by apply AddProposer_ok.
  - destruct Hte. by apply AddVote_ok.
Qed.

Lemma exec_action_ok sh lo x : state_ok sh.1 -> state_ok (exec_action sh lo x).1.1.
Proof.
  destruct sh as [s mail]. cbn. intros [Hr Hv]. destruct x as [u| |u st|u ps|p|u]; cbn; try (by split).
  - split; [|exact Hv]. eapply rpc_wf_step; [exact Hr|]. apply step_known.
  - split; [|exact Hv]. eapply rpc_wf_step; [exact Hr|]. apply step_known.
Qed.

Lemma fetchOne_ok f s url r : fetchOne f s url = Ok r -> state_ok s -> state_ok r.1.
Proof.
  unfold fetchOne, run_actions. destruct (fetch_actions f url) as [acts| |]; intros [= <-] Hs.
  assert (H : state_ok (s, @nil string).1) by exact Hs. revert H. generalize (s, @nil string), no_locals.
  induction acts as [|x acts IH]; intros sh lo H; [exact H|]. cbn [foldl fst snd].
  destruct (exec_action sh lo x) as [sh' lo'] eqn:E. apply (IH sh' lo').
  pose proof (exec_action_ok sh lo x H) as Ho. by rewrite E in Ho.
Qed.

Context {I : T -> Prop} `{SL : !StorerLaws T I}.

Definition app_ok a : Prop := state_ok (a_State a) /\ I (a_Store a).

Lemma log_store_ok r t : I r.2 -> log_store r = Ok t -> I t.
Proof. unfold log_store. destruct r as [[] u]; cbn; congruence. Qed.

Lemma persist_rounds_ok clk v t t' :
  votes_ok v -> I t -> Iter v (persist_round clk) (Ok t) = Ok t' -> I t'.
Proof.
  intros Hv Ht. unfold Iter.
  assert (Hl : Forall (fun p => is_int32 (hr_Round p.1) /\ types_int32 p.2) (iter_list v)).
  { apply Forall_forall. intros [hr rd] Hin. apply iter_elem in Hin. cbn. by eapply Hv. }
  revert t Ht Hl. induction (iter_list v) as [|p l IH]; intros t Ht Hl; cbn; [by intros [= <-]|].
  inversion Hl as [|? ? [Hr Hp] Hl']; subst.
  destruct (log_store _) as [t1| |] eqn:E; [|by destruct l..].
  apply IH; [|done]. eapply log_store_ok; [|exact E]. by apply sl_round.
Qed.

Lemma on_consensus_ok clk c vals a a' :
  is_int32 (rs_Round c) -> app_ok a -> on_consensus clk c vals a = Ok a' -> app_ok a'.
Proof.
  intros Hc [Hs Hi]. unfold on_consensus. cbn.
  set (s1 := seed_proposer c _).
  assert (Hs1 : state_ok s1).
  { unfold s1, seed_proposer. destruct (rs_Proposer c).
    - destruct Hs as [Hr Hv]. split; [exact Hr|]. by apply AddProposer_ok.
    - exact Hs. }
  destruct (log_store (storer_StoreValidators _ _ _ _)) as [t1| |] eqn:E1; [|done..]. cbn.
  destruct (Iter _ _ _) as [t2| |] eqn:E2; [|done..]. cbn. intros [= <-]. split; [exact Hs1|]. cbn.
  eapply persist_rounds_ok; [apply Hs1| |exact E2]. eapply log_store_ok; [|exact E1]. by apply sl_validators.
Qed.

Lemma app_step_ok a a' : app_step a a' -> app_ok a -> app_ok a'.
Proof.
  intros Hstep [Hs Hi]. destruct Hstep as [a a' Hq|clock events a a' Ht He];
    [destruct Hq as [clk f a a' Ht He|f a a' He|h f a a' He|f a a' He|f a a' He|f a a' He|env a a' He|now a a' He|a|f url a r He|url a]|].
  - unfold RefreshConsensus in He. destruct (a_IsPaused a); [by simplify_eq|].
    destruct (fetch_ConsensusState f) as [[c|]|e|] eqn:Ec, (fetch_Validators f) as [vals|e'|]; try done; cbn in He;
      try (by simplify_eq).
    destruct (on_consensus clk c vals _) as [a1| |] eqn:E1; [|done..]. injection He as <-.
    assert (Hok : app_ok a1) by (eapply on_consensus_ok; [by apply Ht| |exact E1]; split; [exact Hs|exact Hi]).
    exact Hok.
  - unfold RefreshCometNodeInfo in He. repeat case_match; simplify_eq; done.
  - unfold RefreshUpgrade in He. repeat case_match; simplify_eq; done.
  - unfold RefreshBlockTime in He. repeat case_match; simplify_eq; done.
  - unfold RefreshMempool in He. repeat case_match; simplify_eq; done.
  - unfold RefreshNetInfo in He. repeat case_match; simplify_eq; done.
  - unfold RefreshHealthMetrics in He. destruct (a_IsPaused a); [by simplify_eq|].
    destruct (Build _ _ _ _ _ _) as [[b [nh rows]]| |]; [|done..]. cbn in He. injection He as <-. done.
  - unfold cleanup in He. destruct (log_store _) as [t| |] eqn:El; [|done..]. injection He as <-.
    split; [exact Hs|]. eapply log_store_ok; [|exact El]. by apply sl_cleanup.
  - done.
  - split; [by eapply fetchOne_ok|done].
  - split; [|done]. exact Hs.
  - unfold on_events in He. destruct (AddCometBFTEvents _ _) as [s'| |] eqn:Es; [|done..]. cbn in He.
    assert (Hs' : state_ok s') by (eapply AddCometBFTEvents_ok; [|exact Es|exact Hs]; by apply Forall_fmap).
    destruct events as [|p events]; cbn in He; [by simplify_eq|].
    destruct (log_store _) as [t| |] eqn:El; [|done..]. injection He as <-. split; [exact Hs'|].
    eapply log_store_ok; [|exact El]. by apply sl_events.
Qed.

Lemma NewApp_ok host now store builder : I store -> app_ok (NewApp host now store builder).
Proof.
  intros Hi. split; [|done]. split.
  - intros url rpc. unfold KnownRPCByURL; cbn. by autorewrite with butils.
  - intros h r rd. cbn. by rewrite lookup_new.
Qed.

(** Whatever the order in which the refreshers, the websocket consumer, the
    crawler's probes, the cleanup and the user's key strokes take effect, and
    whatever the requests answer, the store keeps every invariant its operations
    keep, the current RPC has the current URL, and every stored round number and
    vote type fits the 32 bits it is persisted in. *)
Theorem app_run_safe host now store builder a
    (Hi : I store) (Hrun : rtc app_step (NewApp host now store builder) a) :
  I (a_Store a) /\
  rpc_URL (CurrentRPC (a_State a)) = s_currentRPC (s_rpcs (a_State a)) /\
  votes_ok (VotesByRound (a_State a)).
Proof.
  assert (Hok : app_ok a).
  { revert Hrun. apply rtc_invariant; [|by apply NewApp_ok]. intros x y Hx Hxy. by eapply app_step_ok. }
  destruct Hok as [[Hr Hv] Hst]. split_and!; [done| |done].
  unfold CurrentRPC. destruct (om_get _ _) as [rpc|] eqn:E; [|done]. by apply Hr.
Qed.

(** *** Pausing *)

(** While the application is paused no refresher changes anything, neither the
    shared state nor the store nor the builder nor the screen. *)
Theorem paused_refreshers_idle clk env haltHeight f a (Hp : a_IsPaused a = true) :
  RefreshConsensus clk f a = Ok a /\ RefreshCometNodeInfo f a = Ok a /\
  RefreshUpgrade haltHeight f a = Ok a /\ RefreshBlockTime f a = Ok a /\
  RefreshMempool f a = Ok a /\ RefreshNetInfo f a = Ok a /\ RefreshHealthMetrics env a = Ok a.
Proof.
  unfold RefreshConsensus, RefreshCometNodeInfo, RefreshUpgrade, RefreshBlockTime, RefreshMempool,
    RefreshNetInfo, RefreshHealthMetrics. by rewrite Hp.
Qed.

(** *** [RefreshConsensus], branch by branch *)

(** The error the consensus panel shows: the consensus request's first. *)
Definition refresh_error (f : Fetcher) : option string :=
  match fetch_ConsensusState f, fetch_Validators f with
  | Err e, _ => Some e
  | _, Err e => Some e
  | _, _ => None
  end.

Lemma on_consensus_state clk c vals a a' :
  on_consensus clk c vals a = Ok a' ->
  a_State a' = seed_proposer c (SetConsensusHeight (rs_Height c) (rs_Round c) (rs_Step c) (rs_StartTime c) (a_State a)) /\
  a_draws a' = a_draws a /\ a_Builder a' = a_Builder a.
Proof.
  unfold on_consensus. cbn. destruct (log_store _); cbn; [|done..]. destruct (Iter _ _ _); cbn; [|done..].
  by intros [= <-].
Qed.

(** C26: A consensus refresh that ends redraws exactly once. If a request failed, the
    error is shown and everything else keeps its last value; if both succeeded,
    the error is cleared, the validators are the fetched ones, and with a round
    state the height, round and proposer are the node's; the votes are never touched. *)
Theorem RefreshConsensus_spec clk f a a'
    (Hp : a_IsPaused a = false) (H : RefreshConsensus clk f a = Ok a') :
  a_draws a' = S (a_draws a) /\ a_Builder a' = a_Builder a /\
  GetConsensusStateError (a_State a') = refresh_error f /\
  (forall h r x t, GetVote (VotesByRound (a_State a')) h r x t = GetVote (VotesByRound (a_State a)) h r x t) /\
  match fetch_ConsensusState f, fetch_Validators f with
  | Ok consensus, Ok vals =>
      GetTMValidators (a_State a') = vals /\
      match consensus with
      | Some c =>
          GetConsensusHeight (a_State a') = (rs_Height c, rs_Round c, rs_Step c, rs_StartTime c) /\
          forall p, rs_Proposer c = Some p -> exists ps,
            GetProposers (VotesByRound (a_State a')) (rs_Height c) (rs_Round c) = Some ps /\
            set_has ps (HexBytes_String p) = true
      | None => GetConsensusHeight (a_State a') = GetConsensusHeight (a_State a) /\ a_Store a' = a_Store a
      end
  | _, _ => a_State a' = SetConsensusStateError (refresh_error f) (a_State a) /\ a_Store a' = a_Store a
  end.
Proof.
  unfold RefreshConsensus, refresh_error in *. rewrite Hp in H.
  destruct (fetch_ConsensusState f) as [[c|]|e|], (fetch_Validators f) as [vals|e'|]; try done; cbn in H;
    try (injection H as <-; done).
  destruct (on_consensus clk c vals _) as [a1| |] eqn:E1; [|done..]. injection H as <-.
  apply on_consensus_state in E1 as (Hs & Hd & Hb). cbn [a_draws a_Builder a_State draw a_Store]. rewrite Hs, Hd, Hb.
  split_and!; try done; unfold seed_proposer.
  - by destruct (rs_Proposer c).
  - intros h r x t. destruct (rs_Proposer c); [|done]. cbn. by rewrite !GetVote_at, vote_at_AddProposer.
  - by destruct (rs_Proposer c).
  - by destruct (rs_Proposer c).
  - intros p ->. cbn. rewrite GetProposers_at, lookup_AddProposer.
    rewrite (proj2 (key_eq_true _ _ _ _)) by done. cbn. eexists. split; [done|].
    by rewrite set_has_add, bool_decide_eq_true_2.
Qed.

(** *** Batches of events *)

Lemma on_events_parts clock events a a' :
  on_events clock events a = Ok a' ->
  AddCometBFTEvents (a_State a) (fst <$> events) = Ok (a_State a') /\
  a_Builder a' = ObserveEvents (a_Builder a) events.
Proof.
  unfold on_events. destruct (AddCometBFTEvents _ _); cbn; [|done..].
  destruct events as [|p events]; cbn; [by intros [= <-]|].
  destruct (log_store _); cbn; [|done..]. by intros [= <-].
Qed.

Lemma AddCometBFTEvents_app s e1 e2 :
  AddCometBFTEvents s (e1 ++ e2) = (s' ← AddCometBFTEvents s e1; AddCometBFTEvents s' e2).
Proof.
  unfold AddCometBFTEvents. rewrite foldM_app.
  destruct (foldM add_event (VotesByRound s) e1) as [v| |]; cbn; [|done..].
  by destruct (foldM add_event v e2).
Qed.

(** How the mailbox groups the websocket's events does not matter: two
    notifications leave the votes and the metrics accumulators exactly where one
    notification with both batches leaves them. *)
Theorem batching_irrelevant clock clock1 clock2 e1 e2 a a1 a2 a'
    (H1 : on_events clock1 e1 a = Ok a1) (H2 : on_events clock2 e2 a1 = Ok a2)
    (H : on_events clock (e1 ++ e2) a = Ok a') :
  a_State a' = a_State a2 /\ a_Builder a' = a_Builder a2.
Proof.
  apply on_events_parts in H1 as [Hs1 Hb1], H2 as [Hs2 Hb2], H as [Hs Hb].
  rewrite Hb, Hb2, Hb1. split; [|unfold ObserveEvents; apply foldl_app].
  rewrite fmap_app, AddCometBFTEvents_app, Hs1 in Hs. cbn in Hs. congruence.
Qed.

(** What the loop received before it was stopped. *)
Fixpoint received (selects : list (option batch)) : list (TMEventData * (Z * Z)) :=
  match selects with
  | [] | None :: _ => []
  | Some (_, events) :: selects' => events ++ received selects'
  end.

Lemma SubscribeCometBFT_parts selects a a' :
  SubscribeCometBFT selects a = Ok a' ->
  AddCometBFTEvents (a_State a) (fst <$> received selects) = Ok (a_State a') /\
  a_Builder a' = ObserveEvents (a_Builder a) (received selects).
Proof.
  assert (H0 : forall a0 : App T, AddCometBFTEvents (a_State a0) [] = Ok (a_State a0)).
  { intros a0. unfold AddCometBFTEvents. cbn. unfold with_votes. by destruct (a_State a0). }
  revert a. induction selects as [|[[clock events]|] selects IH]; intros a;
    cbn [SubscribeCometBFT received]; try (intros [= <-]; split; [apply H0|done]).
  destruct (on_events clock events a) as [a1| |] eqn:E; [|done..]. cbn [mbind res_bind]. intros [Hs Hb]%IH.
  apply on_events_parts in E as [Hs1 Hb1]. split.
  - by rewrite fmap_app, AddCometBFTEvents_app, Hs1.
  - rewrite Hb, Hb1. unfold ObserveEvents. by rewrite foldl_app.
Qed.

(** A run of the loop is a run of the application, which observed what it received. *)
Lemma SubscribeCometBFT_trace a0 tr selects a a' :
  app_trace a0 tr a -> Forall (fun p => event_typed p.1) (received selects) ->
  SubscribeCometBFT selects a = Ok a' ->
  app_trace a0 (tr ++ ((fun p => (p.2.1, p.1)) <$> received selects)) a'.
Proof.
  revert a tr. induction selects as [|[[clock events]|] selects IH]; intros a tr Ht; cbn;
    try (intros _ [= <-]; by rewrite app_nil_r).
  intros [He Hr]%Forall_app. destruct (on_events clock events a) as [a1| |] eqn:E; [|done..]. cbn. intros Hs.
  rewrite fmap_app, app_assoc. by apply (IH a1); [eapply at_events| |].
Qed.

(** C34: How the mailbox groups the websocket's events does not matter: two runs of
    the consumer that receive the same events before they are stopped, in whatever
    batches and with whatever store clocks, leave the same votes and the same
    metrics accumulators. *)
Theorem SubscribeCometBFT_batching selects1 selects2 a a1 a2
    (Hsame : received selects1 = received selects2)
    (H1 : SubscribeCometBFT selects1 a = Ok a1) (H2 : SubscribeCometBFT selects2 a = Ok a2) :
  a_State a1 = a_State a2 /\ a_Builder a1 = a_Builder a2.
Proof.
  apply SubscribeCometBFT_parts in H1 as [Hs1 Hb1], H2 as [Hs2 Hb2]. rewrite Hsame in Hs1, Hb1.
  split; congruence.
Qed.

(** The cleanup routine prunes once for every reading of its clock. *)
Lemma databaseCleanupRoutine_steps now selects a a' :
  databaseCleanupRoutine now selects a = Ok a' -> rtc quiet_step a a'.
Proof.
  unfold databaseCleanupRoutine. destruct (cleanup now a) as [a1| |] eqn:E; [|done..]. cbn. intros H.
  eapply rtc_l; [by eapply as_cleanup|]. clear E. revert a1 H.
  induction selects as [|[t|] selects IH]; intros a1; cbn; try (by intros [= <-]).
  destruct (cleanup t a1) as [a2| |] eqn:E; [|done..]. cbn. intros H. eapply rtc_l; [by eapply as_cleanup|]. by apply IH.
Qed.
End AppFacts.

(** ** A concrete run, with a database *)

Section AppExamples.
Definition demo_config : Config := mkConfig "db" 0 100.
#[local] Instance demo_storer : ConsensusStorer Tables := db_storer demo_config.
Definition demo_vals : list TMValidator :=
  [mkTMValidator (Some (mkCometValidator "A" (Some "ka") 30)) None 0 (Some (Fin 100)) ""].
Definition demo_fetcher : Fetcher := mkFetcher
  (Ok (Some (mkRoundState 7 0 1 0 (Some "A")))) (fun _ => Err "no status") (Ok 6000000000)
  (fun _ => Err "no net info") (Err "timeout") (Err "no plan") (Ok demo_vals).
Definition demo_clk : StoreClock := mkStoreClock 10 (fun _ => 11) (fun _ _ => 12).
Definition demo_event : TMEventData * (Z * Z) :=
  (EventDataVote (Some (mkVote PrevoteType 7 0 (mkBlockID "H" (mkPSH 1 "P")) "A")), (1, 2)).
Definition demo_app : App Tables :=
  NewApp "http://node" 0 (empty_tables false) (NewBuilder None None 100).

Definition demo_seen : App Tables := match on_events (fun _ => 3) [demo_event] demo_app with Ok a => a | _ => demo_app end.
Definition demo_refreshed : App Tables := match RefreshConsensus demo_clk demo_fetcher demo_seen with Ok a => a | _ => demo_app end.

Lemma demo_run : rtc app_step demo_app demo_refreshed.
Proof.
  eapply rtc_l; [apply (as_events (fun _ => 3) [demo_event] demo_app demo_seen)|].
  - constructor; [|done]. cbn. unfold PrevoteType. split; go_lia.
  - vm_compute. reflexivity.
  - apply rtc_once, as_quiet. eapply (as_consensus demo_clk demo_fetcher); [intros c [= <-]; cbn; go_lia|]. vm_compute. reflexivity.
Qed.

(** The refresh wrote the vote it found in memory to the database. *)
Example demo_stored :
  is_Some (t_votes (a_Store demo_refreshed) !! (7, 0, HexBytes_String "A", PrevoteType)).
Proof. vm_compute. eexists. reflexivity. Qed.

Lemma app_run_safe_witness :
  store_wf (a_Store demo_refreshed) /\
  rpc_URL (CurrentRPC (a_State demo_refreshed)) = s_currentRPC (s_rpcs (a_State demo_refreshed)) /\
  votes_ok (VotesByRound (a_State demo_refreshed)).
Proof.
  apply (app_run_safe "http://node" 0 (empty_tables false) (NewBuilder None None 100) demo_refreshed);
    [apply empty_wf|exact demo_run].
Defined.

Lemma paused_refreshers_idle_witness :
  RefreshMempool demo_fetcher (toggle_pause demo_app) = Ok (toggle_pause demo_app).
Proof.
  apply (paused_refreshers_idle demo_clk (mkBuildEnv 0 0 map_to_list (fun _ l => l)) 0 demo_fetcher (toggle_pause demo_app)).
  reflexivity.
Defined.

Lemma RefreshConsensus_spec_witness :
  a_draws demo_refreshed = 2%nat /\ GetTMValidators (a_State demo_refreshed) = demo_vals.
Proof.
  destruct (RefreshConsensus_spec demo_clk demo_fetcher demo_seen demo_refreshed) as (Hd & _ & _ & _ & Hv & _);
    [reflexivity|vm_compute; reflexivity|].
  split; [exact Hd|exact Hv].
Defined.

Lemma SubscribeCometBFT_batching_witness :
  exists a1 a2,
    SubscribeCometBFT [Some (fun _ => 3, [demo_event]); Some (fun _ => 4, [demo_event]); None] demo_app = Ok a1 /\
    SubscribeCometBFT [Some (fun _ => 5, [demo_event; demo_event])] demo_app = Ok a2 /\
    a_State a1 = a_State a2 /\ a_Builder a1 = a_Builder a2.
Proof.
  eexists _, _. split; [reflexivity|]. split; [reflexivity|].
  apply (SubscribeCometBFT_batching
    [Some (fun _ => 3, [demo_event]); Some (fun _ => 4, [demo_event]); None]
    [Some (fun _ => 5, [demo_event; demo_event])] demo_app); reflexivity.
Defined.

Lemma batching_irrelevant_witness :
  exists a1 a2 a', on_events (fun _ => 3) [demo_event] demo_app = Ok a1 /\
    on_events (fun _ => 4) [demo_event] a1 = Ok a2 /\
    on_events (fun _ => 5) ([demo_event] ++ [demo_event]) demo_app = Ok a' /\
    a_State a' = a_State a2.
Proof.
  eexists _, _, _. split; [reflexivity|]. split; [reflexivity|]. split; [reflexivity|].
  eapply (batching_irrelevant (fun _ => 5) (fun _ => 3) (fun _ => 4) [demo_event] [demo_event] demo_app); reflexivity.
Defined.
End AppExamples.
