(* ===== verification/Interleave.v ===== *)
(** * The goroutines of the application, access by access ([pkg/app.go])

    [App] runs each handler as a whole.  Here a handler is the sequence of its
    accesses to what the goroutines share: one accessor of the state under its
    mutex, one recorded vote, one call of the store, one critical section of the
    metrics builder, one reading of the pause flag.  Any number of handlers run at
    once and interleave between accesses.  [Iter] holds the read lock of the votes
    while its body runs, so nobody records a vote meanwhile.

    The answers of requests are fixed when a handler starts, as in [App].  An
    enricher of [Build] reads the state once.  A handler that panics stops; what
    the process does then is [Lifecycle]. *)

From S2P Require Import Prelude GoNum GoText Deps Rounds Types MetricTypes State Decentralization Equivocation Asn Timing Analytics Health Builder Schema Store CometRPC Cosmos Fetcher Crawler App.
Local Open Scope Z_scope.

Section Interleave.
Context `{B : Butils} `{C : Comet} {T : Type} `{ST : !ConsensusStorer T}.

(** ** Handlers as sequences of accesses *)

(** What [Build] returns. *)
Definition BuildResult : Type := NetworkHealth * list ValidatorHealthRow.

Inductive prog : Type :=
  | Done
  | Crash
  | Paused (k : bool -> prog)
  | Toggle (k : prog)
  | Get (k : State -> prog)
  | Put (set : State -> State) (k : prog)
  | RecordOp (op : round_op) (k : prog)
  | Range (body : HeightAndRound * RoundData -> T -> res unit * T) (k : prog)
  | Ranging (body : HeightAndRound * RoundData -> T -> res unit * T) (l : list (HeightAndRound * RoundData)) (k : prog)
  | OnStore (op : T -> res unit * T) (k : prog)
  | OnBuilder (f : Builder -> res (Builder * option BuildResult)) (k : option BuildResult -> prog)
  | Redraw (k : prog).

Definition record_vote (op : round_op) (s : State) : State := with_votes (apply_op (VotesByRound s) op) s.

(** One access of a handler: its rest, the application and the number of iterations
    that hold the votes' read lock.  [None]: finished, or waiting for the lock. *)
Definition advance (p : prog) (a : App T) (readers : nat) : option (prog * App T * nat) :=
  match p with
  | Done | Crash => None
  | Paused k => Some (k (a_IsPaused a), a, readers)
  | Toggle k => Some (k, toggle_pause a, readers)
  | Get k => Some (k (a_State a), a, readers)
  | Put set k => Some (k, with_State set a, readers)
  | RecordOp op k => match readers with O => Some (k, with_State (record_vote op) a, O) | S _ => None end
  | Range body k => Some (Ranging body (iter_list (VotesByRound (a_State a))) k, a, S readers)
  | Ranging body [] k => Some (k, a, pred readers)
  | Ranging body (x :: l) k =>
      match log_store (body x (a_Store a)) with
      | Ok t => Some (Ranging body l k, with_Store t a, readers)
      | _ => Some (Crash, a, pred readers)
      end
  | OnStore op k =>
      match log_store (op (a_Store a)) with Ok t => Some (k, with_Store t a, readers) | _ => Some (Crash, a, readers) end
  | OnBuilder f k =>
      match f (a_Builder a) with Ok (b, x) => Some (k x, with_Builder b a, readers) | _ => Some (Crash, a, readers) end
  | Redraw k => Some (k, draw a, readers)
  end.

(** ** The handlers *)

(** [if a.IsPaused.Load() { return }] *)
Definition unless_paused (k : prog) : prog := Paused (fun paused => if paused then Done else k).

Definition p_seed (c : RoundState) (k : prog) : prog :=
  match rs_Proposer c with
  | Some proposer => RecordOp (OpProposer (rs_Height c) (rs_Round c) (HexBytes_String proposer)) k
  | None => k
  end.

Definition store_round (clk : StoreClock) (p : HeightAndRound * RoundData) : T -> res unit * T :=
  storer_StoreRoundData (clk_round clk p.1) (clk_vote clk) (hr_Height p.1) (hr_Round p.1) p.2.

Definition p_RefreshConsensus (clk : StoreClock) (f : Fetcher) : prog :=
  unless_paused
    match fetch_ConsensusState f, fetch_Validators f with
    | Panic, _ | _, Panic => Crash
    | Err e, _ => Put (SetConsensusStateError (Some e)) (Redraw Done)
    | _, Err e => Put (SetConsensusStateError (Some e)) (Redraw Done)
    | Ok consensus, Ok vals =>
        Put (SetTMValidators vals) (Put (SetConsensusStateError None)
          match consensus with
          | Some c =>
              Put (SetConsensusHeight (rs_Height c) (rs_Round c) (rs_Step c) (rs_StartTime c))
                (p_seed c
                  (OnStore (storer_StoreValidators (clk_validators clk) (rs_Height c) vals)
                    (Range (store_round clk) (Redraw Done))))
          | None => Redraw Done
          end)
    end.

Definition p_RefreshCometNodeInfo (f : Fetcher) : prog :=
  unless_paused
    (Get (fun s =>
      match fetch_CometNodeStatus f (rpc_URL (CurrentRPC s)) with
      | Err e => Put (SetChainInfoError (Some e)) (Redraw Done)
      | Ok nodeStatus => Put (SetChainInfo (Some nodeStatus)) (Put (SetChainInfoError None) (Redraw Done))
      | Panic => Crash
      end)).

Definition p_RefreshUpgrade (haltHeight : Z) (f : Fetcher) : prog :=
  unless_paused
    (if 0 <? haltHeight then Put (SetUpgrade (Some (mkUpgrade "halt-height upgrade" haltHeight))) (Redraw Done)
     else
       match fetch_UpgradePlan f with
       | Err e => Put (SetUpgradePlanError (Some e)) (Redraw Done)
       | Ok upgrade => Put (SetUpgrade upgrade) (Put (SetUpgradePlanError None) (Redraw Done))
       | Panic => Crash
       end).

Definition p_RefreshBlockTime (f : Fetcher) : prog :=
  unless_paused
    match fetch_BlockTime f with
    | Err _ => Done
    | Ok blockTime => Put (SetBlockTime blockTime) (Redraw Done)
    | Panic => Crash
    end.

Definition p_RefreshMempool (f : Fetcher) : prog :=
  unless_paused
    match fetch_NumUnconfirmedTxs f with
    | Err _ => Done
    | Ok (txs, bytes) => Put (SetMempool txs bytes) Done
    | Panic => Crash
    end.

Definition p_RefreshNetInfo (f : Fetcher) : prog :=
  unless_paused
    (Get (fun s =>
      match fetch_NetInfo f (rpc_URL (CurrentRPC s)) with
      | Err _ => Done
      | Ok netInfo => Put (SetNetInfo (Some netInfo)) (Redraw Done)
      | Panic => Crash
      end)).

(** What [Build] reads of the state, in order: the height, the validators, and the
    state as each enricher that takes it finds it. *)
Record BuildReads := mkBuildReads {
  br_height : Z * Z * Z * Z;
  br_validators : list TMValidator;
  br_liveness : State; br_mempool : State; br_asn : State; br_liveness_rows : State; br_asn_rows : State }.

Definition Build_over (env : BuildEnv) (r : BuildReads) (b : Builder) : res (Builder * BuildResult) :=
  let '(height, round, _, _) := br_height r in
  let timing := observe (b_timing b) height round (be_observe env) in
  let b := mkBuilder (b_analytics b) (b_asn b) (b_windowBlocks b) timing (b_step b) (b_equiv b) in
  let validators := br_validators r in
  let nh := enrichDecentralization zero_NetworkHealth validators in
  let nh := enrichLiveness nh timing (be_halt env) (br_liveness r) in
  let nh := enrichBlockTime nh timing in
  let nh := enrichStepTiming nh (b_step b) in
  let nh := enrichMempool nh (br_mempool r) in
  let nh := enrichASN (be_range env) (be_sort env) nh (br_asn r) (b_asn b) in
  let nh := enrichEquivocations nh (b_equiv b) in
  let rows := buildBaseRows validators in
  let rows := enrichLivenessRows rows (br_liveness_rows r) in
  rows ← enrichPerformance (b_analytics b) (b_windowBlocks b) rows;
  rows ← enrichLatency (b_analytics b) (b_windowBlocks b) rows;
  let rows := enrichASNRows rows (br_asn_rows r) (b_asn b) in
  let rows := enrichEquivocationFlags rows (b_equiv b) in
  Ok (b, (nh, rows)).

(** The builder is locked throughout [Build]: its one access may stand last. *)
Definition p_RefreshHealthMetrics (env : BuildEnv) : prog :=
  unless_paused
    (Get (fun h => Get (fun vals => Get (fun s1 => Get (fun s2 => Get (fun s3 => Get (fun s4 => Get (fun s5 =>
       OnBuilder
         (fun b => '(b, health) ← Build_over env (mkBuildReads (GetConsensusHeight h) (GetTMValidators vals) s1 s2 s3 s4 s5) b;
            Ok (b, Some health))
         (fun health =>
            match health with
            | Some (nh, rows) =>
                Put (SetNetworkHealth (Some (AnyNetworkHealth nh)))
                  (Put (SetValidatorHealth (Some (AnyRows rows))) (Redraw Done))
            | None => Done
            end))))))))).

(** [AddCometBFTEvents]: each vote and proposer is recorded under the lock of the
    votes; a nil vote panics. *)
Fixpoint p_add_events (events : list TMEventData) (k : prog) : prog :=
  match events with
  | [] => k
  | e :: events' =>
      if nil_vote e then Crash
      else match event_op e with Some op => RecordOp op (p_add_events events' k) | None => p_add_events events' k end
  end.

Definition p_on_events (clock : TMEventData -> Z) (events : list (TMEventData * (Z * Z))) : prog :=
  p_add_events (fst <$> events)
    (OnBuilder (fun b => Ok (ObserveEvents b events, None)) (fun _ =>
      match events with
      | [] => Redraw Done
      | _ => Get (fun _ => OnStore (storer_StoreCometBFTEvents clock (fst <$> events)) (Redraw Done))
      end)).

Definition p_cleanup (now : Z) : prog := OnStore (storer_CleanupOldData now) Done.

(** A probe of the crawler, with what it read last. *)
Fixpoint p_actions (lo : locals) (acts : list action) : prog :=
  match acts with
  | [] => Done
  | ReadKnown url :: acts' => Get (fun s => p_actions (KnownRPCByURL s url, lo.2) acts')
  | ReadValidators :: acts' => Get (fun s => p_actions (lo.1, GetTMValidators s) acts')
  | WriteSelf url status :: acts' => Put (AddKnownRPC (self_rpc lo.1 url status lo.2)) (p_actions lo acts')
  | WritePeers url peers :: acts' => Put (AddRPCPeers url peers) (p_actions lo acts')
  | WritePeer peer :: acts' => Put (AddKnownRPC (peer_rpc lo.1 peer)) (p_actions lo acts')
  | Deliver _ :: acts' => p_actions lo acts'
  end.

(** What a goroutine can be asked to do. *)
Inductive task :=
  | TConsensus (clk : StoreClock) (f : Fetcher)
  | TNodeInfo (f : Fetcher)
  | TUpgrade (haltHeight : Z) (f : Fetcher)
  | TBlockTime (f : Fetcher)
  | TMempool (f : Fetcher)
  | TNetInfo (f : Fetcher)
  | THealth (env : BuildEnv)
  | TEvents (clock : TMEventData -> Z) (events : list (TMEventData * (Z * Z)))
  | TCleanup (now : Z)
  | TPause
  | TProbe (f : Probe) (url : string)
  | TSelect (url : string).

Definition task_prog (t : task) : prog :=
  match t with
  | TConsensus clk f => p_RefreshConsensus clk f
  | TNodeInfo f => p_RefreshCometNodeInfo f
  | TUpgrade h f => p_RefreshUpgrade h f
  | TBlockTime f => p_RefreshBlockTime f
  | TMempool f => p_RefreshMempool f
  | TNetInfo f => p_RefreshNetInfo f
  | THealth env => p_RefreshHealthMetrics env
  | TEvents clock events => p_on_events clock events
  | TCleanup now => p_cleanup now
  | TPause => Toggle Done
  | TProbe f url => match fetch_actions f url with Ok acts => p_actions no_locals acts | _ => Crash end
  | TSelect url => Put (SetCurrentRPCURL url) Done
  end.

(** The same handlers as [App] has them. *)
Definition task_handler (t : task) (a : App T) : res (App T) :=
  match t with
  | TConsensus clk f => RefreshConsensus clk f a
  | TNodeInfo f => RefreshCometNodeInfo f a
  | TUpgrade h f => RefreshUpgrade h f a
  | TBlockTime f => RefreshBlockTime f a
  | TMempool f => RefreshMempool f a
  | TNetInfo f => RefreshNetInfo f a
  | THealth env => RefreshHealthMetrics env a
  | TEvents clock events => on_events clock events a
  | TCleanup now => cleanup now a
  | TPause => Ok (toggle_pause a)
  | TProbe f url => r ← fetchOne f (a_State a) url; Ok (with_State (fun _ => r.1) a)
  | TSelect url => Ok (with_State (SetCurrentRPCURL url) a)
  end.

Definition is_refresher (t : task) : bool :=
  match t with TEvents _ _ | TCleanup _ | TPause | TProbe _ _ | TSelect _ => false | _ => true end.

(** Go's types, as in [App]. *)
Definition task_typed (t : task) : Prop :=
  match t with
  | TConsensus _ f => fetcher_typed f
  | TEvents _ events => Forall (fun p => event_typed p.1) events
  | _ => True
  end.

(** ** The system *)

Record sys := mkSys { y_app : App T; y_readers : nat; y_threads : list prog }.

Inductive sys_step (allowed : task -> Prop) : sys -> sys -> Prop :=
  | sy_spawn t s : allowed t ->
      sys_step allowed s (mkSys (y_app s) (y_readers s) (y_threads s ++ [task_prog t]))
  | sy_run s i p p' a' n' : y_threads s !! i = Some p -> advance p (y_app s) (y_readers s) = Some (p', a', n') ->
      sys_step allowed s (mkSys a' n' (<[i := p']> (y_threads s))).

Definition at_rest (a : App T) : sys := mkSys a 0 [].

(** A schedule: which handler is started or makes its next access. *)
Inductive turn := Begin (t : task) | Access (i : nat).
Definition play (m : turn) (s : sys) : option sys :=
  match m with
  | Begin t => Some (mkSys (y_app s) (y_readers s) (y_threads s ++ [task_prog t]))
  | Access i =>
      p ← y_threads s !! i;
      '(p', a', n') ← advance p (y_app s) (y_readers s);
      Some (mkSys a' n' (<[i := p']> (y_threads s)))
  end.
Fixpoint plays (ms : list turn) (s : sys) : option sys :=
  match ms with [] => Some s | m :: ms' => s' ← play m s; plays ms' s' end.
Definition begins (allowed : task -> Prop) (m : turn) : Prop := match m with Begin t => allowed t | Access _ => True end.

Lemma play_step allowed m s s' : begins allowed m -> play m s = Some s' -> sys_step allowed s s'.
Proof.
  destruct m as [t|i]; cbn; [by intros Ht [= <-]; constructor|]. intros _.
  destruct (y_threads s !! i) as [p|] eqn:Ei; [|done]. cbn.
  destruct (advance p (y_app s) (y_readers s)) as [[[p' a'] n']|] eqn:Ea; [|done]. cbn. intros [= <-]. by eapply sy_run.
Qed.

Lemma plays_run allowed ms s s' : Forall (begins allowed) ms -> plays ms s = Some s' -> rtc (sys_step allowed) s s'.
Proof.
  intros Hms. revert s. induction Hms as [|m ms Hm _ IH]; intros s; cbn; [by intros [= ->]|].
  intros (s1 & E & H)%bind_Some. eapply rtc_l; [by eapply play_step|by apply IH].
Qed.
End Interleave.

(** ** A handler that runs without interruption is the handler of [App] *)

Section Alone.
Context `{B : Butils} `{C : Comet} {T : Type} `{ST : !ConsensusStorer T}.
Implicit Types (a : App T) (p : prog (T := T)).

Fixpoint store_all (body : HeightAndRound * RoundData -> T -> res unit * T) (l : list (HeightAndRound * RoundData)) (t : T) : res T :=
  match l with [] => Ok t | x :: l' => t ← log_store (body x t); store_all body l' t end.

(** The access by access run of a single handler. *)
Fixpoint alone p a : res (App T) :=
  match p with
  | Done => Ok a
  | Crash => Panic
  | Paused k => alone (k (a_IsPaused a)) a
  | Toggle k => alone k (toggle_pause a)
  | Get k => alone (k (a_State a)) a
  | Put set k => alone k (with_State set a)
  | RecordOp op k => alone k (with_State (record_vote op) a)
  | Range body k => t ← store_all body (iter_list (VotesByRound (a_State a))) (a_Store a); alone k (with_Store t a)
  | Ranging body l k => t ← store_all body l (a_Store a); alone k (with_Store t a)
  | OnStore op k => t ← log_store (op (a_Store a)); alone k (with_Store t a)
  | OnBuilder f k => '(b, x) ← f (a_Builder a); alone (k x) (with_Builder b a)
  | Redraw k => alone k (draw a)
  end.

Definition solo_step (x y : prog (T := T) * App T * nat) : Prop := advance x.1.1 x.1.2 x.2 = Some y.

(** How a solo run of [p] from [a] ends: with the result of [alone]. *)
Definition solo_ends p a : Prop :=
  match alone p a with
  | Ok a' => rtc solo_step (p, a, 0%nat) (Done, a', 0%nat)
  | _ => exists a', rtc solo_step (p, a, 0%nat) (Crash, a', 0%nat)
  end.

Lemma solo_next p a p' a' :
  advance p a 0 = Some (p', a', 0%nat) -> alone p a = alone p' a' -> solo_ends p' a' -> solo_ends p a.
Proof.
  unfold solo_ends. intros Hs -> H. assert (S1 : solo_step (p, a, 0%nat) (p', a', 0%nat)) by exact Hs.
  destruct (alone p' a'); [by eapply rtc_l|..]; destruct H as [a2 H]; exists a2; by eapply rtc_l.
Qed.

(** An iteration on its own, while it holds the lock. *)
Lemma solo_ranging body l k a :
  (forall a', solo_ends k a') ->
  match store_all body l (a_Store a) ≫= fun t => alone k (with_Store t a) with
  | Ok a' => rtc solo_step (Ranging body l k, a, 1%nat) (Done, a', 0%nat)
  | _ => exists a', rtc solo_step (Ranging body l k, a, 1%nat) (Crash, a', 0%nat)
  end.
Proof.
  intros Hk. revert a. induction l as [|x l IH]; intros a.
  - assert (S1 : solo_step (Ranging body [] k, a, 1%nat) (k, a, 0%nat)) by done.
    cbn [store_all]. change (Ok (a_Store a) ≫= fun t => alone k (with_Store t a)) with (alone k (with_Store (a_Store a) a)).
    assert (E : with_Store (a_Store a) a = a) by (by destruct a). rewrite E. specialize (Hk a). unfold solo_ends in Hk.
    destruct (alone k a); [by eapply rtc_l|..]; destruct Hk as [a' Hk]; exists a'; by eapply rtc_l.
  - cbn [store_all]. destruct (log_store (body x (a_Store a))) as [t| |] eqn:El; cbn [mbind res_bind].
    + assert (S1 : solo_step (Ranging body (x :: l) k, a, 1%nat) (Ranging body l k, with_Store t a, 1%nat)).
      { unfold solo_step. cbn. by rewrite El. }
      specialize (IH (with_Store t a)). cbn [a_Store with_Store] in IH.
      change (fun t0 => alone k (with_Store t0 (with_Store t a))) with (fun t0 => alone k (with_Store t0 a)) in IH.
      destruct (store_all body l t ≫= _); [by eapply rtc_l|..]; destruct IH as [a' IH]; exists a'; by eapply rtc_l.
    + exists a. apply rtc_once. unfold solo_step. cbn. by rewrite El.
    + exists a. apply rtc_once. unfold solo_step. cbn. by rewrite El.
Qed.

(** [Ranging] only occurs while its iteration runs. *)
Fixpoint fresh p : Prop :=
  match p with
  | Done | Crash => True
  | Paused k => forall b, fresh (k b)
  | Get k => forall s, fresh (k s)
  | OnBuilder _ k => forall x, fresh (k x)
  | Toggle k | Put _ k | RecordOp _ k | Range _ k | OnStore _ k | Redraw k => fresh k
  | Ranging _ _ _ => False
  end.

Lemma solo_alone p : fresh p -> forall a, solo_ends p a.
Proof.
  induction p as [| |k IH|k IH|k IH|set k IH|op k IH|body k IH|body l k IH|op k IH|f k IH|k IH]; cbn [fresh]; intros Hf a.
  - apply rtc_refl.
  - by exists a.
  - eapply solo_next; [reflexivity|reflexivity|]. by apply IH.
  - eapply solo_next; [reflexivity|reflexivity|]. by apply IH.
  - eapply solo_next; [reflexivity|reflexivity|]. by apply IH.
  - eapply solo_next; [reflexivity|reflexivity|]. by apply IH.
  - eapply solo_next; [reflexivity|reflexivity|]. by apply IH.
  - unfold solo_ends. cbn [alone].
    assert (S1 : solo_step (Range body k, a, 0%nat) (Ranging body (iter_list (VotesByRound (a_State a))) k, a, 1%nat)) by done.
    pose proof (solo_ranging body (iter_list (VotesByRound (a_State a))) k a (IH Hf)) as H.
    destruct (store_all _ _ _ ≫= _); [by eapply rtc_l|..]; destruct H as [a' H]; exists a'; by eapply rtc_l.
  - done.
  - unfold solo_ends. cbn [alone]. destruct (log_store (op (a_Store a))) as [t| |] eqn:El; cbn [mbind res_bind].
    + specialize (IH Hf (with_Store t a)). unfold solo_ends in IH.
      assert (S1 : solo_step (OnStore op k, a, 0%nat) (k, with_Store t a, 0%nat)) by (unfold solo_step; cbn; by rewrite El).
      destruct (alone k _); [by eapply rtc_l|..]; destruct IH as [a' IH]; exists a'; by eapply rtc_l.
    + exists a. apply rtc_once. unfold solo_step. cbn. by rewrite El.
    + exists a. apply rtc_once. unfold solo_step. cbn. by rewrite El.
  - unfold solo_ends. cbn [alone]. destruct (f (a_Builder a)) as [[b x]| |] eqn:Ef; cbn [mbind res_bind].
    + specialize (IH x (Hf x) (with_Builder b a)). unfold solo_ends in IH.
      assert (S1 : solo_step (OnBuilder f k, a, 0%nat) (k x, with_Builder b a, 0%nat)) by (unfold solo_step; cbn; by rewrite Ef).
      destruct (alone (k x) _); [by eapply rtc_l|..]; destruct IH as [a' IH]; exists a'; by eapply rtc_l.
    + exists a. apply rtc_once. unfold solo_step. cbn. by rewrite Ef.
    + exists a. apply rtc_once. unfold solo_step. cbn. by rewrite Ef.
  - eapply solo_next; [reflexivity|reflexivity|]. by apply IH.
Qed.
End Alone.

Section TaskAlone.
Context `{BL : ButilsLaws} `{C : Comet} {T : Type} `{ST : !ConsensusStorer T}.
Implicit Types (a : App T) (t : task).

Lemma fresh_add_events events k : fresh (T := T) k -> fresh (p_add_events events k).
Proof.
  intros Hk. induction events as [|e events IH]; [done|]. cbn. destruct (nil_vote e); [done|]. by destruct (event_op e).
Qed.

Lemma fresh_actions acts : forall lo, fresh (T := T) (p_actions lo acts).
Proof. induction acts as [|[] acts IH]; intros lo; cbn; auto. Qed.

Lemma task_fresh t : fresh (task_prog (T := T) t).
Proof.
  destruct t as [clk f|f|h f|f|f|f|env|clock events|now| |f url|url]; cbn; try done; try (intros []; [done|]).
  - destruct (fetch_ConsensusState f) as [[c|]|e|], (fetch_Validators f) as [vals|e'|]; try done. cbn.
    unfold p_seed. by destruct (rs_Proposer c).
  - intros s. by destruct (fetch_CometNodeStatus f _).
  - destruct (0 <? h); [done|]. by destruct (fetch_UpgradePlan f).
  - by destruct (fetch_BlockTime f).
  - by destruct (fetch_NumUnconfirmedTxs f) as [[]| |].
  - intros s. by destruct (fetch_NetInfo f _).
  - cbn. intros _ _ _ _ _ _ _ [[nh rows]|]; done.
  - apply fresh_add_events. cbn. intros _. by destruct events.
  - destruct (fetch_actions f url); [apply fresh_actions|done..].
Qed.

Lemma alone_add_events events k a :
  alone (p_add_events events k) a =
  s ← AddCometBFTEvents (a_State a) events; alone k (with_State (fun _ => s) a).
Proof.
  unfold AddCometBFTEvents. rewrite add_events_fold. revert a. induction events as [|e events IH]; intros a.
  - cbn. f_equal. destruct a as [s t b p n]. cbn. unfold with_State. cbn. f_equal. by destruct s.
  - cbn [p_add_events existsb omap]. destruct (nil_vote e); [done|]. cbn [orb].
    destruct (event_op e) as [op|] eqn:Eo; cbn [alone]; rewrite IH; cbn [omap list_omap]; rewrite Eo; [|done].
    cbn [a_State with_State]. by destruct (existsb nil_vote events).
Qed.

Lemma alone_actions acts : forall lo mail a,
  alone (T := T) (p_actions lo acts) a =
  Ok (with_State (fun s => (foldl (fun x y => exec_action x.1 x.2 y) ((s, mail), lo) acts).1.1) a).
Proof.
  induction acts as [|x acts IH]; intros lo mail a; [by destruct a|]. cbn [foldl fst snd].
  destruct x; cbn [p_actions alone exec_action]; erewrite IH; reflexivity.
Qed.

(** One [yield] per round, as [Iter] makes them. *)
Lemma alone_iter clk v : forall r : res T,
  Iter v (persist_round clk) r = t ← r; store_all (store_round clk) (iter_list v) t.
Proof.
  unfold Iter. induction (iter_list v) as [|x l IH]; intros r; cbn; [by destruct r|].
  destruct r as [t|e|]; cbn; [|done..]. rewrite IH. reflexivity.
Qed.

Lemma Build_over_same env s b :
  Build_over env (mkBuildReads (GetConsensusHeight s) (GetTMValidators s) s s s s s) b =
  Build (be_observe env) (be_halt env) (be_range env) (be_sort env) b s.
Proof. reflexivity. Qed.

Lemma alone_task t a : alone (task_prog t) a = task_handler t a.
Proof.
  destruct t as [clk f|f|h f|f|f|f|env|clock events|now| |f url|url]; cbn [task_prog task_handler].
  - unfold RefreshConsensus, p_RefreshConsensus, unless_paused. cbn [alone]. destruct (a_IsPaused a); [done|].
    destruct (fetch_ConsensusState f) as [[c|]|e|], (fetch_Validators f) as [vals|e'|]; try done.
    unfold on_consensus, p_seed, seed_proposer. destruct (rs_Proposer c) as [p|]; cbn;
      (destruct (log_store (storer_StoreValidators _ _ _ _)) as [t1| |]; [|done..]); cbn;
      rewrite alone_iter; cbn; by destruct (store_all _ _ _).
  - unfold RefreshCometNodeInfo, p_RefreshCometNodeInfo, unless_paused. cbn [alone]. destruct (a_IsPaused a); [done|]. cbn. by destruct (fetch_CometNodeStatus f _).
  - unfold RefreshUpgrade, p_RefreshUpgrade, unless_paused. cbn [alone]. destruct (a_IsPaused a); [done|]. cbn. destruct (0 <? h); [done|].
    by destruct (fetch_UpgradePlan f).
  - unfold RefreshBlockTime, p_RefreshBlockTime, unless_paused. cbn [alone]. destruct (a_IsPaused a); [done|]. cbn. by destruct (fetch_BlockTime f).
  - unfold RefreshMempool, p_RefreshMempool, unless_paused. cbn [alone]. destruct (a_IsPaused a); [done|]. cbn. by destruct (fetch_NumUnconfirmedTxs f) as [[]| |].
  - unfold RefreshNetInfo, p_RefreshNetInfo, unless_paused. cbn [alone]. destruct (a_IsPaused a); [done|]. cbn. by destruct (fetch_NetInfo f _).
  - unfold RefreshHealthMetrics, p_RefreshHealthMetrics, unless_paused. cbn [alone].
    destruct (a_IsPaused a); [done|]. cbn [alone]. rewrite Build_over_same. by destruct (Build _ _ _ _ _ _) as [[b [nh rows]]| |].
  - unfold p_on_events, on_events. rewrite alone_add_events. destruct (AddCometBFTEvents _ _) as [s| |]; [|done..]. cbn.
    by destruct events.
  - done.
  - done.
  - unfold fetchOne, run_actions. destruct (fetch_actions f url) as [acts|e|] eqn:Ef; [by rewrite (alone_actions _ _ [])| |done].
    unfold fetch_actions in Ef. by destruct (GetNetInfo_at f url), (GetCometNodeStatus_at f url).
  - done.
Qed.

(** [App]'s handlers are these sequences of accesses run without interruption:
    alone, a handler takes a finite number of steps, ends with the application
    [App] says it leaves, and crashes exactly when [App]'s does not return. *)
Theorem handlers_refined t a :
  match task_handler t a with
  | Ok a' => rtc solo_step (task_prog t, a, 0%nat) (Done, a', 0%nat)
  | _ => exists a', rtc solo_step (task_prog t, a, 0%nat) (Crash, a', 0%nat)
  end.
Proof. rewrite <-alone_task. apply (solo_alone _ (task_fresh t) a). Qed.
End TaskAlone.

(** ** Every interleaving *)

Section Interleaved.
Context `{BL : ButilsLaws} `{CL : CometLaws} {T : Type} `{ST : !ConsensusStorer T} {I : T -> Prop} `{SL : !StorerLaws T I}.
Implicit Types (a : App T) (p : prog (T := T)) (s : sys (T := T)) (t : task).

Definition put_ok (set : State -> State) : Prop :=
  forall st, state_ok st -> state_ok (set st) /\ VotesByRound (set st) = VotesByRound st.
Definition round_typed (x : HeightAndRound * RoundData) : Prop := is_int32 (hr_Round x.1) /\ types_int32 x.2.
Definition op_typed (op : round_op) : Prop :=
  match op with OpProposer _ r _ => is_int32 r | OpVote _ r _ ty _ => is_int32 r /\ is_int32 ty end.
Definition body_ok (body : HeightAndRound * RoundData -> T -> res unit * T) : Prop :=
  forall x u, round_typed x -> I u -> I (body x u).2.

(** What a handler owes to the others at every access, whatever it reads. *)
Fixpoint safe p : Prop :=
  match p with
  | Done | Crash => True
  | Paused k => forall b, safe (k b)
  | Get k => forall st, state_ok st -> safe (k st)
  | Put set k => put_ok set /\ safe k
  | RecordOp op k => op_typed op /\ safe k
  | Range body k => body_ok body /\ safe k
  | Ranging body l k => body_ok body /\ Forall round_typed l /\ safe k
  | OnStore op k => (forall u, I u -> I (op u).2) /\ safe k
  | OnBuilder _ k => forall x, safe (k x)
  | Toggle k | Redraw k => safe k
  end.

(** An iteration, if one is running, is the outermost of what is left. *)
Definition shape p : Prop := match p with Ranging _ _ k => fresh k | _ => fresh p end.
Definition ranging p : nat := match p with Ranging _ _ _ => 1 | _ => 0 end.

Lemma fresh_shape p : fresh p -> shape p /\ ranging p = 0%nat.
Proof. by destruct p. Qed.

Lemma iter_typed v : votes_ok v -> Forall round_typed (iter_list v).
Proof. intros Hv. apply Forall_forall. intros [hr rd] Hin. apply iter_elem in Hin. by eapply Hv. Qed.

Lemma record_vote_ok op st : op_typed op -> state_ok st -> state_ok (record_vote op st).
Proof.
  intros Ho [Hr Hv]. split; [exact Hr|]. cbn. destruct op; cbn in *; [by apply AddProposer_ok|]. destruct Ho. by apply AddVote_ok.
Qed.

Lemma advance_ok p a n p' a' n' :
  advance p a n = Some (p', a', n') -> safe p -> app_ok (I := I) a -> safe p' /\ app_ok (I := I) a'.
Proof.
  intros Hs Hp [Hst Hi]. destruct p as [| |k|k|k|set k|op k|body k|body [|x l] k|op k|f k|k]; cbn in Hs, Hp; try done.
  - injection Hs as <- <- <-. split; [apply Hp|done].
  - injection Hs as <- <- <-. split; [apply Hp|done].
  - injection Hs as <- <- <-. split; [by apply Hp|done].
  - injection Hs as <- <- <-. destruct Hp as [Hset Hp]. split; [done|]. split; [by apply Hset|done].
  - destruct n; [|done]. injection Hs as <- <- <-. destruct Hp as [Hop Hp]. split; [done|]. split; [by apply record_vote_ok|done].
  - injection Hs as <- <- <-. destruct Hp as [Hb Hp]. split; [|done]. split_and!; [done|by apply iter_typed, Hst|done].
  - injection Hs as <- <- <-. destruct Hp as (_ & _ & Hp). done.
  - destruct Hp as (Hb & [Hx Hl]%Forall_cons & Hp).
    destruct (log_store (body x (a_Store a))) as [u| |] eqn:El; injection Hs as <- <- <-; try done.
    split; [by split_and!|]. split; [done|]. eapply log_store_ok; [|exact El]. by apply Hb.
  - destruct Hp as [Ho Hp]. destruct (log_store (op (a_Store a))) as [u| |] eqn:El; injection Hs as <- <- <-; try done.
    split; [done|]. split; [done|]. eapply log_store_ok; [|exact El]. by apply Ho.
  - destruct (f (a_Builder a)) as [[b x]| |]; injection Hs as <- <- <-; by split; [|split].
  - injection Hs as <- <- <-. done.
Qed.

(** The readers are counted, and nobody writes the votes while there is one. *)
Lemma advance_readers p a n p' a' n' :
  advance p a n = Some (p', a', n') -> shape p -> (ranging p <= n)%nat ->
  shape p' /\ (n' + ranging p = n + ranging p')%nat.
Proof.
  intros Hs Hp Hn. destruct p as [| |k|k|k|set k|op k|body k|body [|x l] k|op k|f k|k]; cbn in Hs, Hp, Hn; try done;
    repeat case_match; simplify_eq; cbn; try (split; [done|lia]);
    match goal with |- shape ?q /\ _ => destruct (fresh_shape q) as [H1 H2]; [by auto|split; [exact H1|rewrite ?H2; lia]] end.
Qed.

Lemma advance_votes p a n p' a' n' :
  advance p a n = Some (p', a', n') -> safe p -> state_ok (a_State a) -> n <> 0%nat ->
  VotesByRound (a_State a') = VotesByRound (a_State a).
Proof.
  intros Hs Hp Hst Hn. destruct p as [| |k|k|k|set k|op k|body k|body [|x l] k|op k|f k|k]; cbn in Hs, Hp; try done;
    repeat case_match; simplify_eq; try done. cbn. by apply Hp.
Qed.

(** What is left of a running iteration. *)
Definition rest_of p (v : RoundDataMap) : Prop :=
  match p with Ranging _ l _ => l `suffix_of` iter_list v | _ => True end.

Lemma advance_rest p a n p' a' n' :
  advance p a n = Some (p', a', n') -> shape p -> safe p -> state_ok (a_State a) -> rest_of p (VotesByRound (a_State a)) ->
  rest_of p' (VotesByRound (a_State a')).
Proof.
  intros Hs Hsh Hp Hst Hr. destruct (decide (ranging p' = 0%nat)) as [E|E]; [by destruct p'|].
  destruct p as [| |k|k|k|set k|op k|body k|body [|x l] k|op k|f k|k]; cbn in Hs, Hsh, Hr; try done;
    repeat case_match; simplify_eq; try done;
    try (match type of E with ranging ?q <> _ => destruct (fresh_shape q) as [_ H0]; [by auto|congruence] end).
  - cbn. reflexivity.
  - cbn. by apply (suffix_cons_l _ _ _ Hr).
Qed.

(** *** Every handler is safe *)

(** A write that leaves the registry of nodes and the votes alone. *)
Ltac put_plain := let x := fresh in let H := fresh in intros x H; split; [exact H|reflexivity].
Ltac puts := repeat first [put_plain|apply conj|exact Logic.I].

Lemma put_known f : put_ok (AddKnownRPC f).
Proof. intros st [Hr Hv]. split; [|done]. split; [|exact Hv]. eapply rpc_wf_step; [exact Hr|]. apply step_known. Qed.

Lemma safe_add_events events k : Forall event_typed events -> safe k -> safe (p_add_events events k).
Proof.
  intros Ht Hk. induction Ht as [|e events He _ IH]; [done|]. cbn.
  destruct e as [h r p|[x|]|h r st|]; cbn in *; try done.
Qed.

Lemma safe_actions acts : forall lo, safe (p_actions lo acts).
Proof.
  induction acts as [|[u| |u st|u ps|q|u] acts IH]; intros lo; cbn; auto; split; auto;
    try apply put_known; put_plain.
Qed.

Lemma task_safe t : task_typed t -> safe (task_prog t).
Proof.
  destruct t as [clk f|f|h f|f|f|f|env|clock events|now| |f url|url]; cbn; intros Ht; try done; try (intros []; [done|]).
  - destruct (fetch_ConsensusState f) as [[c|]|e|] eqn:Ec, (fetch_Validators f) as [vals|e'|]; try done; cbn;
      try puts.
    repeat (split; [put_plain|]).
    assert (Hseed : forall k, safe k -> safe (p_seed c k)).
    { intros k Hk. unfold p_seed. destruct (rs_Proposer c); [|done]. split; [by apply Ht|done]. }
    apply Hseed. cbn. split_and!; [intros u; apply sl_validators| |done].
    intros x u [Hx1 Hx2]. unfold store_round. by apply sl_round.
  - intros st _. destruct (fetch_CometNodeStatus f _); cbn; puts.
  - destruct (0 <? h); [|destruct (fetch_UpgradePlan f)]; cbn; puts.
  - destruct (fetch_BlockTime f); cbn; puts.
  - destruct (fetch_NumUnconfirmedTxs f) as [[]| |]; cbn; puts.
  - intros st _. destruct (fetch_NetInfo f _); cbn; puts.
  - cbn. intros ? _ ? _ ? _ ? _ ? _ ? _ ? _ [[nh rows]|]; cbn; puts.
  - apply safe_add_events; [by apply Forall_fmap|]. cbn. intros _. destruct events; [done|]. cbn. intros _ _.
    split; [|done]. intros u. apply sl_events.
  - split; [|done]. intros u. apply sl_cleanup.
  - destruct (fetch_actions f url); [apply safe_actions|done..].
Qed.

(** *** The invariant of the system *)

Record sys_ok s : Prop := {
  so_app : app_ok (I := I) (y_app s);
  so_safe : Forall safe (y_threads s);
  so_shape : Forall shape (y_threads s);
  so_readers : y_readers s = sum_list_with ranging (y_threads s);
  so_rest : Forall (fun p => rest_of p (VotesByRound (a_State (y_app s)))) (y_threads s) }.

Lemma sum_ranging_insert (l : list (prog (T := T))) i p p' : l !! i = Some p ->
  (sum_list_with ranging (<[i := p']> l) + ranging p = sum_list_with ranging l + ranging p')%nat.
Proof.
  revert i. induction l as [|x l IH]; intros [|i] Hi; [done|done| |].
  - injection Hi as ->. cbn -[ranging]. lia.
  - specialize (IH i Hi). change (<[S i := p']> (x :: l)) with (x :: <[i := p']> l). cbn [sum_list_with]. lia.
Qed.

Lemma sum_ranging_elem (l : list (prog (T := T))) p : p ∈ l -> (ranging p <= sum_list_with ranging l)%nat.
Proof.
  induction l as [|x l IH]; [set_solver|]. cbn -[ranging]. intros [->|H]%elem_of_cons; [lia|]. specialize (IH H). lia.
Qed.

Lemma sys_step_ok s s' : sys_ok s -> sys_step task_typed s s' -> sys_ok s'.
Proof.
  intros [Ha Hsf Hsh Hn Hr] Hstep. destruct Hstep as [t s Ht|s i p p' a' n' Hi Hadv].
  - destruct (fresh_shape (task_prog t)) as [H1 H2]; [apply task_fresh|]. split; cbn; [done|..].
    + apply Forall_app. split; [done|]. by constructor; [apply task_safe|].
    + apply Forall_app. split; [done|]. by constructor.
    + rewrite sum_list_with_app. cbn. lia.
    + apply Forall_app. split; [done|]. constructor; [|done]. by destruct (task_prog t).
  - pose proof (list_elem_of_lookup_2 _ _ _ Hi) as Hin.
    pose proof (proj1 (Forall_forall _ _) Hsf p Hin) as Hp1. pose proof (proj1 (Forall_forall _ _) Hsh p Hin) as Hp2.
    pose proof (proj1 (Forall_forall _ _) Hr p Hin) as Hp3.
    destruct (advance_ok _ _ _ _ _ _ Hadv Hp1 Ha) as [Hp1' Ha'].
    destruct (advance_readers _ _ _ _ _ _ Hadv Hp2) as [Hp2' Hn']; [rewrite Hn; by apply sum_ranging_elem|].
    split; cbn; [done| | | |].
    + by apply Forall_insert.
    + by apply Forall_insert.
    + pose proof (sum_ranging_insert _ _ _ p' Hi). lia.
    + destruct (decide (y_readers s = 0%nat)) as [E|E].
      * assert (H0 : Forall (fun q => ranging q = 0%nat) (y_threads s)).
        { apply Forall_forall. intros q Hq%sum_ranging_elem. lia. }
        apply Forall_insert; [|by eapply advance_rest; [done..|apply Ha|]].
        eapply Forall_impl; [exact H0|]. by intros [].
      * apply Forall_insert; [|by eapply advance_rest; [done..|apply Ha|]].
        by rewrite (advance_votes _ _ _ _ _ _ Hadv Hp1 (proj1 Ha) E).
Qed.

Lemma reachable_sys_ok host now store builder s :
  I store -> rtc (sys_step task_typed) (at_rest (NewApp host now store builder)) s -> sys_ok s.
Proof.
  intros Hi. apply rtc_invariant; [exact sys_step_ok|]. by split; cbn; [apply NewApp_ok|..].
Qed.

(** C3: However the accesses of any number of handlers interleave, started at any
    time and with whatever answers, the store keeps every invariant its operations
    keep, the current RPC has the current URL, stored rounds and vote types fit
    their 32 bits, and a refresh that is persisting rounds stores those of one
    version of the votes: what it has still to store is the end of the rounds in
    memory at that moment. *)
Theorem interleaved_safe host now store builder s
    (Hi : I store) (Hrun : rtc (sys_step task_typed) (at_rest (NewApp host now store builder)) s) :
  I (a_Store (y_app s)) /\
  rpc_URL (CurrentRPC (a_State (y_app s))) = s_currentRPC (s_rpcs (a_State (y_app s))) /\
  votes_ok (VotesByRound (a_State (y_app s))) /\
  forall i body l k, y_threads s !! i = Some (Ranging body l k) -> l `suffix_of` iter_list (VotesByRound (a_State (y_app s))).
Proof.
  pose proof (reachable_sys_ok _ _ _ _ _ Hi Hrun) as Hok.
  destruct Hok as [[[Hr Hv] Hst] _ _ _ Hrest]. split_and!; [done| |done|].
  - unfold CurrentRPC. destruct (om_get _ _) as [rpc|] eqn:E; [|done]. by apply Hr.
  - intros i body l k Hl. apply list_elem_of_lookup_2 in Hl. exact (proj1 (Forall_forall _ _) Hrest _ Hl).
Qed.

(** *** Pausing *)

Definition finished p : Prop := p = Done \/ p = Crash.
Definition no_more t : Prop := False.

Definition at_start p : Prop := finished p \/ exists k, p = unless_paused k.

Lemma refresher_starts t : is_refresher t = true -> exists k, task_prog t = unless_paused k.
Proof. destruct t; try done; intros _; by eexists. Qed.

(** A refresh that read the flag before it was set goes on. *)
Lemma pause_in_flight s f txs bytes :
  a_IsPaused (y_app s) = false -> fetch_NumUnconfirmedTxs f = Ok (txs, bytes) ->
  exists s1 s2, rtc (sys_step (fun t => t = TMempool f \/ t = TPause)) s s1 /\
    a_IsPaused (y_app s1) = true /\ a_State (y_app s1) = a_State (y_app s) /\
    sys_step no_more s1 s2 /\ a_IsPaused (y_app s2) = true /\ GetMempool (a_State (y_app s2)) = (txs, bytes, true).
Proof.
  intros Hp Hf. destruct s as [a n l]. cbn in Hp. set (j := length l).
  assert (Hj : forall (q r : prog) ll, (l ++ q :: ll) !! j = Some q /\ <[j := r]> (l ++ q :: ll) = l ++ r :: ll).
  { intros q r ll. split; [by apply list_lookup_middle|]. unfold j. rewrite insert_app_r_alt by lia. by rewrite Nat.sub_diag. }
  assert (Hj1 : forall (q q' r : prog), (l ++ [q; q']) !! S j = Some q' /\ <[S j := r]> (l ++ [q; q']) = l ++ [q; r]).
  { intros q q' r. change (l ++ [q; q']) with (l ++ [q] ++ [q']). rewrite app_assoc.
    assert (E : S j = length (l ++ [q])) by (rewrite length_app; cbn; lia). rewrite E. split; [by apply list_lookup_middle|].
    rewrite insert_app_r_alt by lia. rewrite Nat.sub_diag. cbn. by rewrite <-app_assoc. }
  set (rest := Put (SetMempool txs bytes) Done : prog (T := T)).
  exists (mkSys (toggle_pause a) n (l ++ [rest; Done])), (mkSys (with_State (SetMempool txs bytes) (toggle_pause a)) n (l ++ [Done; Done])).
  assert (Hrest : task_prog (TMempool f) = unless_paused rest) by (cbn; unfold p_RefreshMempool; by rewrite Hf).
  split; [|split_and!; [cbn; by rewrite Hp|done|..]].
  - eapply rtc_l; [apply (sy_spawn _ (TMempool f)); by left|]. cbn [y_app y_readers y_threads]. rewrite Hrest.
    eapply rtc_l; [eapply sy_run; [apply (Hj _ Done [])|reflexivity]|]. cbn [y_app y_readers y_threads].
    rewrite (proj2 (Hj _ _ [])), Hp.
    eapply rtc_l; [apply (sy_spawn _ TPause); by right|]. cbn [y_app y_readers y_threads]. rewrite <-app_assoc. cbn [app].
    apply rtc_once. pose proof (sy_run (fun t => t = TMempool f \/ t = TPause) (mkSys a n (l ++ [rest; Toggle Done])) (S j)
      (Toggle Done) Done (toggle_pause a) n) as H. cbn [y_app y_readers y_threads] in H.
    rewrite (proj2 (Hj1 _ _ _)) in H. apply H; [apply (Hj1 _ _ Done)|done].
  - pose proof (sy_run no_more (mkSys (toggle_pause a) n (l ++ [rest; Done])) j rest Done
      (with_State (SetMempool txs bytes) (toggle_pause a)) n) as H. cbn [y_app y_readers y_threads] in H.
    rewrite (proj2 (Hj _ _ _)) in H. apply H; [apply (Hj _ Done)|done].
  - cbn. by rewrite Hp.
  - done.
Qed.

(** The pause flag is read once, when a refresh starts.  While it is set no
    refresh that has not started changes anything, however many are started; a
    refresh that had read it before goes on to its end. *)
Theorem pause_stops_at_the_start s :
  (a_IsPaused (y_app s) = true -> Forall at_start (y_threads s) ->
   forall s', rtc (sys_step (fun t => is_refresher t = true)) s s' -> y_app s' = y_app s) /\
  forall f txs bytes, a_IsPaused (y_app s) = false -> fetch_NumUnconfirmedTxs f = Ok (txs, bytes) ->
   exists s1 s2, rtc (sys_step (fun t => t = TMempool f \/ t = TPause)) s s1 /\
     a_IsPaused (y_app s1) = true /\ a_State (y_app s1) = a_State (y_app s) /\
     sys_step no_more s1 s2 /\ a_IsPaused (y_app s2) = true /\ GetMempool (a_State (y_app s2)) = (txs, bytes, true).
Proof.
  split.
  - intros Hp Hall s' Hrun.
    apply (rtc_invariant _ (fun x => y_app x = y_app s /\ Forall at_start (y_threads x)) s s') in Hrun; [by apply Hrun| |done].
    intros x y [Ha Hx] Hstep. destruct Hstep as [t x Ht|x i p p' a' n' Hi Hadv]; cbn.
    + split; [done|]. apply Forall_app. split; [done|]. constructor; [|done]. right. by apply refresher_starts.
    + pose proof (proj1 (Forall_lookup _ _) Hx i p Hi) as [[->| ->]|[k ->]]; [done..|].
      cbn in Hadv. rewrite Ha, Hp in Hadv. injection Hadv as <- <- <-. split; [done|].
      apply Forall_insert; [done|]. left. by left.
  - intros f txs bytes. apply pause_in_flight.
Qed.
End Interleaved.

(** ** A concrete schedule, with a database *)

Section InterleaveExamples.
#[local] Instance interleave_store : ConsensusStorer Tables := db_storer demo_config.

Definition demo_pool : Fetcher := mkFetcher (Err "no state") (fun _ => Err "no status") (Err "no time")
  (fun _ => Err "no net info") (Ok (5, 600)) (Err "no plan") (Err "no validators").

(** A vote arrives while a refresh is under way: it is recorded before the rounds
    are persisted, and one that arrives later waits until they are. *)
Definition demo_moves : list turn :=
  [Begin (TEvents (fun _ => 3) [demo_event]); Begin (TConsensus demo_clk demo_fetcher);
   Access 1; Access 1; Access 1; Access 0; Access 1; Access 1; Access 1; Access 1;
   Begin (TEvents (fun _ => 4) [demo_event])].
Definition demo_sys : sys (T := Tables) := match plays demo_moves (at_rest demo_app) with Some s => s | None => at_rest demo_app end.

Lemma demo_reached : rtc (sys_step (T := Tables) task_typed) (at_rest demo_app) demo_sys.
Proof.
  apply (plays_run task_typed demo_moves).
  2: { assert (E : match plays demo_moves (at_rest demo_app) with Some _ => true | None => false end = true) by (vm_compute; reflexivity).
       unfold demo_sys. by destruct (plays demo_moves (at_rest demo_app)). }
  assert (He : forall g, task_typed (TEvents g [demo_event])).
  { intros g. constructor; [|done]. cbn. unfold PrevoteType. split; go_lia. }
  assert (Hc : task_typed (TConsensus demo_clk demo_fetcher)) by (intros c [= <-]; cbn; go_lia).
  repeat (apply Forall_cons_2; [first [exact Logic.I|exact (He _)|exact Hc]|]). apply Forall_nil_2.
Qed.

Definition moves (m : turn) (s : sys (T := Tables)) : bool := match play m s with Some _ => true | None => false end.
Example demo_waits : y_readers demo_sys = 1%nat /\ moves (Access 2) demo_sys = false /\ moves (Access 1) demo_sys = true.
Proof. vm_compute. done. Qed.

Lemma interleaved_safe_witness :
  store_wf (a_Store (y_app demo_sys)) /\
  exists body l k, y_threads demo_sys !! 1%nat = Some (Ranging body l k) /\
    l `suffix_of` iter_list (VotesByRound (a_State (y_app demo_sys))).
Proof.
  destruct (interleaved_safe (I := store_wf) "http://node" 0 (empty_tables false) (NewBuilder None None 100) demo_sys
    (empty_wf false) demo_reached) as (Hwf & _ & _ & Hrest).
  split; [exact Hwf|]. assert (E : exists body l k, y_threads demo_sys !! 1%nat = Some (Ranging body l k)).
  { assert (Hr : match y_threads demo_sys !! 1%nat with Some (Ranging _ _ _) => true | _ => false end = true) by (vm_compute; reflexivity).
    destruct (y_threads demo_sys !! 1%nat) as [[]|]; try discriminate Hr. by eexists _, _, _. }
  destruct E as (body & l & k & E). exists body, l, k. split; [exact E|exact (Hrest 1%nat body l k E)].
Defined.

Lemma pause_stops_at_the_start_witness :
  exists s1 s2, rtc (sys_step (T := Tables) (fun t => t = TMempool demo_pool \/ t = TPause)) (at_rest demo_app) s1 /\
    sys_step no_more s1 s2 /\ a_IsPaused (y_app s2) = true /\ GetMempool (a_State (y_app s2)) = (5, 600, true).
Proof.
  destruct (proj2 (pause_stops_at_the_start (at_rest demo_app)) demo_pool 5 600 eq_refl eq_refl) as (s1 & s2 & H1 & _ & _ & H2 & H3 & H4).
  by exists s1, s2.
Defined.
End InterleaveExamples.
