(* ===== verification/Locks.v ===== *)
(** * Who waits for whom: the locks of the application

    [Interleave] takes one access of a handler as one step.  Here every lock is taken
    and given back by steps of its own, so a goroutine can wait, and could wait for
    ever: [State.mu] and [RoundDataMap.mu] (two [sync.RWMutex], pkg/types), the
    [Builder]'s mutex (pkg/metrics/builder.go) and the event loop of the display, which
    runs one closure at a time while the goroutine that queued it waits for it
    ([QueueUpdateDraw]), so that it is a mutex too.  The write lock of the websocket
    is in [Websocket] and [WsLife]; the tables of the display have [NoopLocker]s.

    A goroutine is the code of a handler, key or request with its [Lock]s and
    [Unlock]s; [Build] and the redraw of the display make each accessor call of the
    source.  [sync.RWMutex] is Go's: a [Lock] first announces itself, and from then on
    no new reader enters, not even a goroutine that already reads.

    Requests, calls of the store and closures of the display are taken to return
    while the display runs; what they wait for outside the program is not a lock of
    it. *)

From S2P Require Import Prelude GoNum GoText Deps Rounds Types MetricTypes State Decentralization Equivocation Asn Timing Analytics Health Builder Schema Store CometRPC Cosmos Fetcher Crawler App Interleave.
Local Open Scope Z_scope.

Inductive lock := Loop | BuilderMu | VotesMu | StateMu.
Inductive mode := Rd | Wr.
#[export] Instance lock_eq_dec : EqDecision lock.
Proof. solve_decision. Defined.
#[export] Instance mode_eq_dec : EqDecision mode.
Proof. solve_decision. Defined.

(** The order in which the program nests its locks. *)
Definition rank (l : lock) : nat :=
  match l with Loop => 0 | BuilderMu => 1 | VotesMu => 2 | StateMu => 3 end.

Section Locks.
Context `{B : Butils} `{C : Comet} {T : Type} `{ST : !ConsensusStorer T}.

(** ** Goroutines *)

(** [Act] is what a goroutine does between two calls of a lock: it changes the
    application and goes on according to what it saw there; one that fails panics. *)
Inductive code : Type :=
  | Ret
  | Die
  | Acq (l : lock) (m : mode) (k : code)
  | Rel (l : lock) (m : mode) (k : code)
  | Act (f : App T -> res (App T)) (k : App T -> code).

Record thread := mkThread { th_held : list (lock * mode); th_announced : bool; th_code : code }.

(** A panic runs the deferred [Unlock]s. *)
Definition enter (held : list (lock * mode)) (c : code) : thread :=
  mkThread (match c with Die => [] | _ => held end) false c.

Definition holding (l : lock) (t : thread) : bool := existsb (fun h => bool_decide (h.1 = l)) (th_held t).
Definition writing (l : lock) (t : thread) : bool := bool_decide ((l, Wr) ∈ th_held t).
Definition announcing (l : lock) (t : thread) : bool :=
  th_announced t && match th_code t with Acq l' Wr _ => bool_decide (l' = l) | _ => false end.

Fixpoint drop_lock (h : lock * mode) (held : list (lock * mode)) : list (lock * mode) :=
  match held with
  | [] => []
  | h' :: held' => if bool_decide (h' = h) then held' else h' :: drop_lock h held'
  end.

(** The next step of [t] among [ths], itself included.  [None]: it has ended, or
    waits.  [RLock] waits for a writer, one that only announced itself included; [Lock]
    waits for other writers to announce itself, then for everybody to leave.
    [Unlock] of a lock that is not held is fatal. *)
Definition go (ths : list thread) (t : thread) (a : App T) : option (thread * App T) :=
  match th_code t with
  | Ret | Die => None
  | Acq l Rd k =>
      if existsb (fun u => writing l u || announcing l u) ths then None
      else Some (enter ((l, Rd) :: th_held t) k, a)
  | Acq l Wr k =>
      if th_announced t then
        if existsb (holding l) ths then None else Some (enter ((l, Wr) :: th_held t) k, a)
      else if existsb (fun u => writing l u || announcing l u) ths then None
      else Some (mkThread (th_held t) true (Acq l Wr k), a)
  | Rel l m k =>
      if bool_decide ((l, m) ∈ th_held t) then Some (enter (drop_lock (l, m) (th_held t)) k, a)
      else Some (enter [] Die, a)
  | Act f k => match f a with Ok a' => Some (enter (th_held t) (k a), a') | _ => Some (enter [] Die, a) end
  end.

(** ** The accessors *)

Definition get (k : State -> code) : code := Acq StateMu Rd (Act Ok (fun a => Rel StateMu Rd (k (a_State a)))).
Definition put (set : State -> State) (k : code) : code :=
  Acq StateMu Wr (Act (fun a => Ok (with_State set a)) (fun _ => Rel StateMu Wr k)).
Definition record (op : round_op) (k : code) : code :=
  Acq VotesMu Wr (Act (fun a => Ok (with_State (record_vote op) a)) (fun _ => Rel VotesMu Wr k)).
(** [GetVote], [GetProposers], or an iteration whose body calls nothing. *)
Definition votes (k : RoundDataMap -> code) : code :=
  Acq VotesMu Rd (Act Ok (fun a => Rel VotesMu Rd (k (VotesByRound (a_State a))))).
Definition on_store (op : T -> res unit * T) (k : code) : code :=
  Act (fun a => t ← log_store (op (a_Store a)); Ok (with_Store t a)) (fun _ => k).

Fixpoint store_loop (body : HeightAndRound * RoundData -> T -> res unit * T) (l : list (HeightAndRound * RoundData)) (k : code) : code :=
  match l with [] => k | x :: l' => on_store (body x) (store_loop body l' k) end.
(** [for hr, rd := range votes.Iter()]: the read lock is held while the body runs. *)
Definition range_votes (body : HeightAndRound * RoundData -> T -> res unit * T) (k : code) : code :=
  Acq VotesMu Rd (Act Ok (fun a => store_loop body (iter_list (VotesByRound (a_State a))) (Rel VotesMu Rd k))).

Definition on_builder (f : Builder -> Builder) (k : code) : code :=
  Act (fun a => Ok (with_Builder (f (a_Builder a)) a)) (fun _ => k).
Definition on_loop (body : code -> code) (k : code) : code := Acq Loop Wr (body (Rel Loop Wr k)).

Fixpoint gets (n : nat) (k : code) : code := match n with O => k | S n' => get (fun _ => gets n' k) end.
Fixpoint votes_times (n : nat) (k : code) : code := match n with O => k | S n' => votes (fun _ => votes_times n' k) end.

(** ** [Build], under the builder's mutex *)

Definition voted_c (height round : Z) (addr : string) (k : bool -> code) : code :=
  votes (fun v1 => votes (fun v2 =>
    let pre := GetVote v1 height round addr PrevoteType in
    let pc := GetVote v2 height round addr PrecommitType in
    k (bool_decide (pre = VoteStateForBlock) || bool_decide (pre = VoteStateNil) ||
       bool_decide (pc = VoteStateForBlock) || bool_decide (pc = VoteStateNil)))).

Fixpoint offline_c (height round : Z) (acc : Z * gofloat * gofloat) (vals : list TMValidator)
    (k : Z * gofloat * gofloat -> code) : code :=
  match vals with
  | [] => k acc
  | v :: vals' =>
      match tv_Comet v with
      | None => offline_c height round acc vals' k
      | Some cv =>
          let '(offline, offlinePower, totalPower) := acc in
          let power := f64_of_Z (cv_VotingPower cv) in
          let totalPower := f64_add totalPower power in
          voted_c height round (GetDisplayAddress v) (fun voted =>
            offline_c height round
              (if negb voted then (offline + 1, f64_add offlinePower power, totalPower)
               else (offline, offlinePower, totalPower)) vals' k)
      end
  end.

Definition liveness_c (nh : NetworkHealth) (b : Timing) (now : Z) (k : NetworkHealth -> code) : code :=
  let l := setHaltFields (nh_liveness nh) b now in
  get (fun sh => let '(height, round, _, _) := GetConsensusHeight sh in
  get (fun sv =>
    offline_c height (int32 round) (0, f64_zero, f64_zero) (GetTMValidators sv) (fun '(offline, offlinePower, totalPower) =>
      k (with_liveness nh
        (mkLiveness (ChainHalted l) (SecondsSinceHeight l) (int32 round) offline
          (if f_lt f64_zero totalPower then f64_div (f64_mul (Fin 100) offlinePower) totalPower
           else OfflinePowerPct l)))))).

Fixpoint online_c (height round : Z) (rows : list ValidatorHealthRow) (k : list ValidatorHealthRow -> code) : code :=
  match rows with
  | [] => k []
  | r :: rows' =>
      voted_c height round (row_Address r) (fun voted =>
        online_c height round rows' (fun rows' => k (with_online r voted :: rows')))
  end.

Definition liveness_rows_c (rows : list ValidatorHealthRow) (k : list ValidatorHealthRow -> code) : code :=
  get (fun s => let '(height, round, _, _) := GetConsensusHeight s in online_c height (int32 round) rows k).

Definition asn_c (env : BuildEnv) (nh : NetworkHealth) (lookup : option Lookup) (k : NetworkHealth -> code) : code :=
  match lookup with
  | None => k nh
  | Some l => get (fun sr => get (fun sv =>
      k (with_asns nh (take topASNCount (be_sort env share_less (share_of <$> be_range env
           (foldl (asn_step (buildAddrToIPMap sr) l) ∅ (GetTMValidators sv))))))))
  end.

Definition asn_rows_c (rows : list ValidatorHealthRow) (lookup : option Lookup) (k : list ValidatorHealthRow -> code) : code :=
  match lookup with None => k rows | Some _ => get (fun s => k (enrichASNRows rows s lookup)) end.

Definition rows_or_die (r : res (list ValidatorHealthRow)) (k : list ValidatorHealthRow -> code) : code :=
  match r with Ok rows => k rows | _ => Die end.

Definition build_c (env : BuildEnv) (k : NetworkHealth -> list ValidatorHealthRow -> code) : code :=
  Acq BuilderMu Wr (get (fun s => let '(height, round, _, _) := GetConsensusHeight s in
  let observed b := mkBuilder (b_analytics b) (b_asn b) (b_windowBlocks b)
    (observe (b_timing b) height round (be_observe env)) (b_step b) (b_equiv b) in
  on_builder observed (Act Ok (fun a => let b := a_Builder a in
  get (fun s => let validators := GetTMValidators s in
  liveness_c (enrichDecentralization zero_NetworkHealth validators) (b_timing b) (be_halt env) (fun nh =>
  let nh := enrichBlockTime nh (b_timing b) in
  let nh := enrichStepTiming nh (b_step b) in
  get (fun s => asn_c env (enrichMempool nh s) (b_asn b) (fun nh =>
  let nh := enrichEquivocations nh (b_equiv b) in
  liveness_rows_c (buildBaseRows validators) (fun rows =>
  rows_or_die (enrichPerformance (b_analytics b) (b_windowBlocks b) rows) (fun rows =>
  rows_or_die (enrichLatency (b_analytics b) (b_windowBlocks b) rows) (fun rows =>
  asn_rows_c rows (b_asn b) (fun rows =>
  Rel BuilderMu Wr (k nh (enrichEquivocationFlags rows (b_equiv b))))))))))))))).

(** ** [SetState], on the event loop

    [shown i s]: the cells of the last-round grid that hold a validator when it is
    redrawn for the [i]-th of the three times, and whether votes are looked up for it
    (the table's height is positive).  The votes the table had before it was given
    those of the state are of another map; to take them for the same adds to what
    the loop can wait for. *)

Variable shown : nat -> State -> list bool.

Fixpoint grid_reads (cells : list bool) (k : code) : code :=
  match cells with [] => k | c :: cells' => votes_times (if c then 3 else 1)%nat (grid_reads cells' k) end.
Definition grid_c (i : nat) (k : code) : code := Act Ok (fun a => grid_reads (shown i (a_State a)) k).

Definition all_rounds_c (vals : list TMValidator) (k : code) : code :=
  match vals with [] => k | _ => votes_times (2 + length vals) k end.

(** [GetTotalVotingPower...Percent] *)
Definition percent_c (k : code) : code := get (fun s => votes_times (length (GetTMValidators s)) k).

Definition SerializeConsensus_c (k : code) : code :=
  get (fun s =>
    match GetConsensusStateError s with
    | Some _ => k
    | None => get (fun s =>
        match GetTMValidators s with
        | [] => k
        | _ => get (fun _ => percent_c (percent_c (percent_c (percent_c k))))
        end)
    end).

Definition SerializeChainInfo_c (k : code) : code :=
  gets 4 (get (fun su => get (fun se =>
    match GetUpgradePlanError se, GetUpgrade su with
    | None, Some _ => get (fun _ => k)
    | _, _ => k
    end))).

Definition progress_c (k : code) : code :=
  get (fun s => match GetTMValidators s with [] => k | _ => percent_c k end).

Definition closure_c (k : code) : code :=
  get (fun sv => let vals := GetTMValidators sv in
  gets 2 (grid_c 0 (grid_c 1 (grid_c 2 (all_rounds_c vals
  (gets 4 (SerializeConsensus_c (SerializeChainInfo_c (progress_c (progress_c
  (Act (fun a => Ok (draw a)) (fun _ => k)))))))))))).

Definition SetState_c (k : code) : code := on_loop closure_c k.

(** ** The handlers

    [asks t]: how often the requests of [t] ask for the current RPC. *)

Variable asks : task -> nat.

Definition unless_paused_c (k : code) : code := Act Ok (fun a => if a_IsPaused a then Ret else k).

Definition seed_c (c : RoundState) (k : code) : code :=
  match rs_Proposer c with
  | Some proposer => record (OpProposer (rs_Height c) (rs_Round c) (HexBytes_String proposer)) k
  | None => k
  end.

Definition RefreshConsensus_c (clk : StoreClock) (f : Fetcher) : code :=
  unless_paused_c (gets (asks (TConsensus clk f))
    match fetch_ConsensusState f, fetch_Validators f with
    | Panic, _ | _, Panic => Die
    | Err e, _ => put (SetConsensusStateError (Some e)) (SetState_c Ret)
    | _, Err e => put (SetConsensusStateError (Some e)) (SetState_c Ret)
    | Ok consensus, Ok vals =>
        put (SetTMValidators vals) (put (SetConsensusStateError None)
          match consensus with
          | Some c =>
              put (SetConsensusHeight (rs_Height c) (rs_Round c) (rs_Step c) (rs_StartTime c))
                (seed_c c
                  (on_store (storer_StoreValidators (clk_validators clk) (rs_Height c) vals)
                    (range_votes (store_round clk) (SetState_c Ret))))
          | None => SetState_c Ret
          end)
    end).

Definition RefreshCometNodeInfo_c (f : Fetcher) : code :=
  unless_paused_c (get (fun s =>
    match fetch_CometNodeStatus f (rpc_URL (CurrentRPC s)) with
    | Err e => put (SetChainInfoError (Some e)) (SetState_c Ret)
    | Ok nodeStatus => put (SetChainInfo (Some nodeStatus)) (put (SetChainInfoError None) (SetState_c Ret))
    | Panic => Die
    end)).

Definition RefreshUpgrade_c (haltHeight : Z) (f : Fetcher) : code :=
  unless_paused_c
    (if 0 <? haltHeight then put (SetUpgrade (Some (mkUpgrade "halt-height upgrade" haltHeight))) (SetState_c Ret)
     else gets (asks (TUpgrade haltHeight f))
       match fetch_UpgradePlan f with
       | Err e => put (SetUpgradePlanError (Some e)) (SetState_c Ret)
       | Ok upgrade => put (SetUpgrade upgrade) (put (SetUpgradePlanError None) (SetState_c Ret))
       | Panic => Die
       end).

Definition RefreshBlockTime_c (f : Fetcher) : code :=
  unless_paused_c (gets (asks (TBlockTime f))
    match fetch_BlockTime f with
    | Err _ => Ret
    | Ok blockTime => put (SetBlockTime blockTime) (SetState_c Ret)
    | Panic => Die
    end).

Definition RefreshMempool_c (f : Fetcher) : code :=
  unless_paused_c (gets (asks (TMempool f))
    match fetch_NumUnconfirmedTxs f with
    | Err _ => Ret
    | Ok (txs, bytes) => put (SetMempool txs bytes) Ret
    | Panic => Die
    end).

Definition RefreshNetInfo_c (f : Fetcher) : code :=
  unless_paused_c (get (fun s =>
    match fetch_NetInfo f (rpc_URL (CurrentRPC s)) with
    | Err _ => Ret
    | Ok netInfo => put (SetNetInfo (Some netInfo)) (SetState_c Ret)
    | Panic => Die
    end)).

Definition RefreshHealthMetrics_c (env : BuildEnv) : code :=
  unless_paused_c (build_c env (fun nh rows =>
    put (SetNetworkHealth (Some (AnyNetworkHealth nh)))
      (put (SetValidatorHealth (Some (AnyRows rows))) (SetState_c Ret)))).

Fixpoint add_events_c (events : list TMEventData) (k : code) : code :=
  match events with
  | [] => k
  | e :: events' =>
      if nil_vote e then Die
      else match event_op e with Some op => record op (add_events_c events' k) | None => add_events_c events' k end
  end.

Definition on_events_c (clock : TMEventData -> Z) (events : list (TMEventData * (Z * Z))) : code :=
  add_events_c (fst <$> events)
    (Acq BuilderMu Wr (on_builder (fun b => ObserveEvents b events) (Rel BuilderMu Wr
      match events with
      | [] => SetState_c Ret
      | _ => get (fun _ => on_store (storer_StoreCometBFTEvents clock (fst <$> events)) (SetState_c Ret))
      end))).

Fixpoint actions_c (lo : locals) (acts : list action) : code :=
  match acts with
  | [] => Ret
  | ReadKnown url :: acts' => get (fun s => actions_c (KnownRPCByURL s url, lo.2) acts')
  | ReadValidators :: acts' => get (fun s => actions_c (lo.1, GetTMValidators s) acts')
  | WriteSelf url status :: acts' => put (AddKnownRPC (self_rpc lo.1 url status lo.2)) (actions_c lo acts')
  | WritePeers url peers :: acts' => put (AddRPCPeers url peers) (actions_c lo acts')
  | WritePeer peer :: acts' => put (AddKnownRPC (peer_rpc lo.1 peer)) (actions_c lo acts')
  | Deliver _ :: acts' => actions_c lo acts'
  end.

(** The keys run on the event loop. *)
Definition task_code (t : task) : code :=
  match t with
  | TConsensus clk f => RefreshConsensus_c clk f
  | TNodeInfo f => RefreshCometNodeInfo_c f
  | TUpgrade h f => RefreshUpgrade_c h f
  | TBlockTime f => RefreshBlockTime_c f
  | TMempool f => RefreshMempool_c f
  | TNetInfo f => RefreshNetInfo_c f
  | THealth env => RefreshHealthMetrics_c env
  | TEvents clock events => on_events_c clock events
  | TCleanup now => on_store (storer_CleanupOldData now) Ret
  | TPause => on_loop (fun k => Act (fun a => Ok (toggle_pause a)) (fun _ => k)) Ret
  | TProbe f url => match fetch_actions f url with Ok acts => actions_c no_locals acts | _ => Die end
  | TSelect url => on_loop (fun k => get (fun _ => put (SetCurrentRPCURL url) k)) Ret
  end.

(** Besides the tasks: a request of the topology server, or a tick of the crawler,
    makes so many reads of the state, one after the other. *)
Inductive job := JTask (t : task) | JReads (n : nat).
Definition job_code (j : job) : code := match j with JTask t => task_code t | JReads n => gets n Ret end.

(** ** The system *)

Record lsys := mkLsys { l_app : App T; l_threads : list thread }.

Inductive lstep (allowed : job -> Prop) : lsys -> lsys -> Prop :=
  | ls_spawn j s : allowed j -> lstep allowed s (mkLsys (l_app s) (l_threads s ++ [enter [] (job_code j)]))
  | ls_go s i t t' a' : l_threads s !! i = Some t -> go (l_threads s) t (l_app s) = Some (t', a') ->
      lstep allowed s (mkLsys a' (<[i := t']> (l_threads s))).

Definition idle (a : App T) : lsys := mkLsys a [].
Definition any_job (j : job) : Prop := True.
Definition no_job (j : job) : Prop := False.
Definition ended (t : thread) : Prop := th_code t = Ret \/ th_code t = Die.

(** A schedule: a job is started, or goroutine [i] goes on. *)
Definition lplay (m : job + nat) (s : lsys) : option lsys :=
  match m with
  | inl j => Some (mkLsys (l_app s) (l_threads s ++ [enter [] (job_code j)]))
  | inr i =>
      t ← l_threads s !! i;
      '(t', a') ← go (l_threads s) t (l_app s);
      Some (mkLsys a' (<[i := t']> (l_threads s)))
  end.
Fixpoint lplays (ms : list (job + nat)) (s : lsys) : option lsys :=
  match ms with [] => Some s | m :: ms' => s' ← lplay m s; lplays ms' s' end.
End Locks.

(** ** Alone, a goroutine does what [App] says *)

Section Alone.
Context `{BL : ButilsLaws} `{C : Comet} {T : Type} `{ST : !ConsensusStorer T}.
Context (shown : nat -> State -> list bool) (asks : task -> nat).
Implicit Types (a : App T) (c : code (T := T)).

Fixpoint run_alone c a : res (App T) :=
  match c with
  | Ret => Ok a
  | Die => Panic
  | Acq _ _ k | Rel _ _ k => run_alone k a
  | Act f k => match f a with Ok a' => run_alone (k a) a' | _ => Panic end
  end.

Lemma alone_gets n (k : code) a : run_alone (gets n k) a = run_alone k a.
Proof. induction n as [|n IH]; [done|exact IH]. Qed.
Lemma alone_votes n k a : run_alone (votes_times n k) a = run_alone k a.
Proof. induction n as [|n IH]; [done|exact IH]. Qed.
Lemma alone_grid cells k a : run_alone (grid_reads cells k) a = run_alone k a.
Proof. induction cells as [|c cells IH]; [done|]. cbn. by rewrite alone_votes. Qed.
Lemma alone_all_rounds vals k a : run_alone (all_rounds_c vals k) a = run_alone k a.
Proof. destruct vals; [done|apply alone_votes]. Qed.
Lemma alone_percent k a : run_alone (percent_c k) a = run_alone k a.
Proof. cbn. apply alone_votes. Qed.
Lemma alone_progress k a : run_alone (progress_c k) a = run_alone k a.
Proof. cbn. destruct (GetTMValidators _); [done|apply alone_percent]. Qed.
Lemma alone_consensus k a : run_alone (SerializeConsensus_c k) a = run_alone k a.
Proof.
  cbn. destruct (GetConsensusStateError _); [done|]. cbn. destruct (GetTMValidators _); [done|]. cbn [run_alone get].
  by rewrite !alone_percent.
Qed.
Lemma alone_chain_info k a : run_alone (SerializeChainInfo_c k) a = run_alone k a.
Proof. unfold SerializeChainInfo_c. cbn [gets get run_alone]. repeat case_match; done. Qed.

Lemma alone_SetState k a : run_alone (SetState_c shown k) a = run_alone k (draw a).
Proof.
  unfold SetState_c, on_loop, closure_c, grid_c. cbn [run_alone get gets]. rewrite alone_grid. cbn [run_alone].
  rewrite alone_grid. cbn [run_alone]. rewrite alone_grid, alone_all_rounds. cbn [run_alone get gets].
  by rewrite alone_consensus, alone_chain_info, !alone_progress.
Qed.

#[local] Arguments SetState_c : simpl never.

Lemma alone_offline height round acc vals k a :
  run_alone (offline_c height round acc vals k) a =
  run_alone (k (foldl (offline_step (a_State a) height round) acc vals)) a.
Proof.
  revert acc. induction vals as [|v vals IH]; intros [[o op] tp]; [done|]. cbn [offline_c foldl offline_step].
  destruct (tv_Comet v) as [cv|]; [|apply IH]. apply IH.
Qed.

Lemma alone_online height round rows k a :
  run_alone (online_c height round rows k) a =
  run_alone (k ((fun r => with_online r (votedThisHeight (a_State a) height round (row_Address r))) <$> rows)) a.
Proof. revert k. induction rows as [|r rows IH]; intros k; [done|]. cbn. apply IH. Qed.

Lemma alone_build env k a :
  run_alone (build_c env k) a =
  match Build (be_observe env) (be_halt env) (be_range env) (be_sort env) (a_Builder a) (a_State a) with
  | Ok (b, (nh, rows)) => run_alone (k nh rows) (with_Builder b a)
  | _ => Panic
  end.
Proof.
  unfold build_c, Build. cbn [run_alone get on_builder a_State with_Builder a_Builder b_timing].
  unfold GetConsensusHeight. cbn [run_alone on_builder liveness_c get a_State with_Builder a_Builder b_timing].
  unfold liveness_c, enrichLiveness, enrichLivenessRows, GetConsensusHeight. cbn [run_alone get a_State with_Builder]. rewrite alone_offline.
  cbn [a_State with_Builder].
  destruct (foldl _ _ _) as [[o op] tp]. unfold asn_c, enrichASN. cbn [b_asn b_analytics b_windowBlocks b_equiv b_step b_timing].
  assert (E : forall nh k', run_alone (liveness_rows_c (buildBaseRows (GetTMValidators (a_State a))) k') (with_Builder nh a) = run_alone (k' (enrichLivenessRows (buildBaseRows (GetTMValidators (a_State a))) (a_State a))) (with_Builder nh a)).
  { intros nh k'. unfold liveness_rows_c. cbn. by rewrite alone_online. }
  destruct (b_asn (a_Builder a)) as [lk|] eqn:El; cbn [run_alone get];
    rewrite E; unfold enrichLivenessRows, GetConsensusHeight;
    destruct (enrichPerformance _ _ _) as [r1| |]; cbn [rows_or_die run_alone mbind res_bind]; try done;
    destruct (enrichLatency _ _ _) as [r2| |]; cbn [rows_or_die run_alone mbind res_bind]; try done.
Qed.

Lemma alone_events events (k : code) a :
  run_alone (add_events_c events k) a =
  match AddCometBFTEvents (a_State a) events with Ok s => run_alone k (with_State (fun _ => s) a) | _ => Panic end.
Proof.
  unfold AddCometBFTEvents. rewrite add_events_fold. revert a. induction events as [|e events IH]; intros a.
  - cbn. f_equal. destruct a as [s t b p n]. cbn. unfold with_State. cbn. f_equal. by destruct s.
  - cbn [add_events_c existsb omap]. destruct (nil_vote e); [done|]. cbn [orb].
    destruct (event_op e) as [op|] eqn:Eo; cbn [run_alone record]; rewrite IH; cbn [omap list_omap]; rewrite Eo; [|done].
    cbn [a_State with_State]. by destruct (existsb nil_vote events).
Qed.

Lemma alone_acts acts : forall lo mail a,
  run_alone (actions_c lo acts) a =
  Ok (with_State (fun s => (foldl (fun x y => exec_action x.1 x.2 y) ((s, mail), lo) acts).1.1) a).
Proof.
  induction acts as [|x acts IH]; intros lo mail a; [by destruct a|]. cbn [foldl fst snd].
  destruct x; cbn [actions_c get put run_alone exec_action]; erewrite IH; reflexivity.
Qed.

Lemma alone_store op (k : code) a :
  run_alone (on_store op k) a = match log_store (op (a_Store a)) with Ok t => run_alone k (with_Store t a) | _ => Panic end.
Proof. cbn. by destruct (log_store _). Qed.

Lemma alone_store_loop body l (k : code) a :
  run_alone (store_loop body l k) a = match store_all body l (a_Store a) with Ok t => run_alone k (with_Store t a) | _ => Panic end.
Proof.
  revert a. induction l as [|x l IH]; intros a; [by destruct a|]. cbn [store_loop store_all]. rewrite alone_store.
  destruct (log_store _) as [t| |]; [|done..]. by rewrite IH.
Qed.

Lemma alone_code t a :
  run_alone (task_code shown asks t) a = match task_handler t a with Ok a' => Ok a' | _ => Panic end.
Proof.
  destruct t as [clk f|f|h f|f|f|f|env|clock events|now| |f url|url]; cbn [task_code task_handler].
  - unfold RefreshConsensus, RefreshConsensus_c, unless_paused_c. cbn [run_alone]. destruct (a_IsPaused a); [done|].
    rewrite alone_gets. destruct (fetch_ConsensusState f) as [[c|]|e|], (fetch_Validators f) as [vals|e'|]; try done;
      cbn [run_alone put]; rewrite ?alone_SetState; try done.
    unfold on_consensus, seed_c, seed_proposer. destruct (rs_Proposer c) as [p|]; cbn [run_alone record];
      rewrite alone_store; cbn; (destruct (log_store (storer_StoreValidators _ _ _ _)) as [t1| |]; [|done..]); cbn;
      rewrite alone_store_loop, alone_iter; cbn; destruct (store_all _ _ _); try done; cbn -[SetState_c]; by rewrite alone_SetState.
  - unfold RefreshCometNodeInfo, RefreshCometNodeInfo_c, unless_paused_c. cbn [run_alone get]. destruct (a_IsPaused a); [done|].
    cbn [run_alone get]. destruct (fetch_CometNodeStatus f _); cbn [run_alone put]; by rewrite ?alone_SetState.
  - unfold RefreshUpgrade, RefreshUpgrade_c, unless_paused_c. cbn [run_alone]. destruct (a_IsPaused a); [done|].
    destruct (0 <? h); cbn [run_alone put]; rewrite ?alone_gets, ?alone_SetState; [done|].
    destruct (fetch_UpgradePlan f); cbn [run_alone put]; by rewrite ?alone_SetState.
  - unfold RefreshBlockTime, RefreshBlockTime_c, unless_paused_c. cbn [run_alone]. destruct (a_IsPaused a); [done|].
    rewrite alone_gets. destruct (fetch_BlockTime f); cbn [run_alone put]; by rewrite ?alone_SetState.
  - unfold RefreshMempool, RefreshMempool_c, unless_paused_c. cbn [run_alone]. destruct (a_IsPaused a); [done|].
    rewrite alone_gets. by destruct (fetch_NumUnconfirmedTxs f) as [[]| |].
  - unfold RefreshNetInfo, RefreshNetInfo_c, unless_paused_c. cbn [run_alone get]. destruct (a_IsPaused a); [done|].
    cbn [run_alone get]. destruct (fetch_NetInfo f _); cbn [run_alone put]; by rewrite ?alone_SetState.
  - unfold RefreshHealthMetrics, RefreshHealthMetrics_c, unless_paused_c. cbn [run_alone]. destruct (a_IsPaused a); [done|].
    rewrite alone_build. destruct (Build _ _ _ _ _ _) as [[b [nh rows]]| |]; [|done..]. cbn [run_alone put]. by rewrite alone_SetState.
  - unfold on_events_c, on_events. rewrite alone_events. destruct (AddCometBFTEvents _ _) as [s| |]; [|done..]. cbn [mbind res_bind run_alone on_builder].
    destruct events as [|e events]; [by rewrite alone_SetState|]. cbn [run_alone get]. rewrite alone_store. cbn.
    destruct (log_store _); [|done..]. cbn. by rewrite alone_SetState.
  - unfold cleanup. rewrite alone_store. by destruct (log_store _).
  - done.
  - unfold fetchOne, run_actions. destruct (fetch_actions f url) as [acts|e|]; [by rewrite (alone_acts _ _ [])|done..].
  - done.
Qed.
End Alone.

(** ** No deadlock *)

Section LockFacts.
Context `{B : Butils} `{C : Comet} {T : Type} `{ST : !ConsensusStorer T}.
Context (shown : nat -> State -> list bool) (asks : task -> nat).
Notation thread := (thread (T := T)).
Notation code := (code (T := T)).
Notation lsys := (lsys (T := T)).
Implicit Types (a : App T) (t u : thread) (c : code) (s : lsys) (held : list (lock * mode)).

(** Locks are taken in the order of their ranks, given back when held, and none is
    held at the end. *)
Definition room (l : lock) held : Prop := Forall (fun h => (rank h.1 < rank l)%nat) held.

Fixpoint ordered held c : Prop :=
  match c with
  | Ret => held = []
  | Die => True
  | Acq l m k => room l held /\ ordered ((l, m) :: held) k
  | Rel l m k => (l, m) ∈ held /\ ordered (drop_lock (l, m) held) k
  | Act _ k => forall a, ordered held (k a)
  end.

#[local] Arguments ordered : simpl nomatch.
#[local] Arguments get : simpl never.
#[local] Arguments put : simpl never.
#[local] Arguments record : simpl never.
#[local] Arguments votes : simpl never.
#[local] Arguments voted_c : simpl never.

Lemma drop_first h held : drop_lock h (h :: held) = held.
Proof. cbn. by rewrite bool_decide_eq_true_2. Qed.

Lemma ordered_rel l m held (k : code) : ordered held k -> ordered ((l, m) :: held) (Rel l m k).
Proof. intros H. split; [by left|]. by rewrite drop_first. Qed.

Lemma ordered_get held (k : State -> code) : room StateMu held -> (forall x, ordered held (k x)) -> ordered held (get k).
Proof. intros Hr Hk. split; [done|]. intros a. by apply ordered_rel. Qed.
Lemma ordered_put held set (k : code) : room StateMu held -> ordered held k -> ordered held (put set k).
Proof. intros Hr Hk. split; [done|]. intros a. by apply ordered_rel. Qed.
Lemma ordered_record held op (k : code) : room VotesMu held -> ordered held k -> ordered held (record op k).
Proof. intros Hr Hk. split; [done|]. intros a. by apply ordered_rel. Qed.
Lemma ordered_votes held (k : RoundDataMap -> code) : room VotesMu held -> (forall v, ordered held (k v)) -> ordered held (votes k).
Proof. intros Hr Hk. split; [done|]. intros a. by apply ordered_rel. Qed.
Lemma ordered_act held f (k : App T -> code) : (forall a, ordered held (k a)) -> ordered held (Act f k).
Proof. done. Qed.
Lemma ordered_store held op (k : code) : ordered held k -> ordered held (on_store op k).
Proof. by intros H a. Qed.
Lemma ordered_on_loop (body : code -> code) (k : code) :
  (forall k', ordered [(Loop, Wr)] k' -> ordered [(Loop, Wr)] (body k')) -> ordered [] k -> ordered [] (on_loop body k).
Proof. intros Hb Hk. split; [constructor|]. by apply Hb, ordered_rel. Qed.

Lemma ordered_gets held n (k : code) : room StateMu held -> ordered held k -> ordered held (gets n k).
Proof. intros Hr Hk. induction n as [|n IH]; [done|]. by apply ordered_get. Qed.
Lemma ordered_votes_times held n (k : code) : room VotesMu held -> ordered held k -> ordered held (votes_times n k).
Proof. intros Hr Hk. induction n as [|n IH]; [done|]. by apply ordered_votes. Qed.

Lemma ordered_range held body (k : code) : room VotesMu held -> ordered held k -> ordered held (range_votes body k).
Proof.
  intros Hr Hk. split; [done|]. intros a. induction (iter_list _) as [|x l IH]; [by apply ordered_rel|]. by apply ordered_store.
Qed.

Lemma ordered_voted held h r addr (k : bool -> code) :
  room VotesMu held -> (forall b, ordered held (k b)) -> ordered held (voted_c h r addr k).
Proof. intros Hr Hk. by do 2 (apply ordered_votes; [done|intros ?]). Qed.

Lemma ordered_offline held h r acc vals (k : Z * gofloat * gofloat -> code) :
  room VotesMu held -> (forall x, ordered held (k x)) -> ordered held (offline_c h r acc vals k).
Proof.
  intros Hr Hk. revert acc. induction vals as [|v vals IH]; intros [[o op] tp]; cbn; [done|].
  destruct (tv_Comet v); [|done]. by apply ordered_voted.
Qed.

Lemma ordered_online held h r rows (k : list ValidatorHealthRow -> code) :
  room VotesMu held -> (forall x, ordered held (k x)) -> ordered held (online_c h r rows k).
Proof.
  intros Hr. revert k. induction rows as [|x rows IH]; intros k Hk; cbn; [done|].
  apply ordered_voted; [done|]. intros b. by apply IH.
Qed.

(** Chosen by the first accessor of what is left. *)
Ltac lockstep :=
  repeat (intros; cbv beta zeta;
    lazymatch goal with
    | |- room _ _ => first [assumption | repeat constructor; cbn; lia]
    | |- ordered _ (get _) => apply ordered_get
    | |- ordered _ (put _ _) => apply ordered_put
    | |- ordered _ (record _ _) => apply ordered_record
    | |- ordered _ (votes _) => apply ordered_votes
    | |- ordered _ (gets _ _) => apply ordered_gets
    | |- ordered _ (votes_times _ _) => apply ordered_votes_times
    | |- ordered _ (range_votes _ _) => apply ordered_range
    | |- ordered _ (on_store _ _) => apply ordered_store
    | |- ordered _ (Rel _ _ _) => apply ordered_rel
    | |- ordered _ (voted_c _ _ _ _) => apply ordered_voted
    | |- ordered _ (offline_c _ _ _ _ _) => apply ordered_offline
    | |- ordered _ (online_c _ _ _ _) => apply ordered_online
    | |- ordered _ (Act _ _) => apply ordered_act
    | |- ordered _ (match ?x with _ => _ end) => destruct x
    | |- _ => assumption || reflexivity || exact I
    end); intros.

Lemma ordered_grid i (k : code) : ordered [(Loop, Wr)] k -> ordered [(Loop, Wr)] (grid_c shown i k).
Proof. intros Hk a. induction (shown i _) as [|x l IH]; [done|]. by apply ordered_votes_times; [lockstep|]. Qed.

Lemma ordered_all_rounds vals (k : code) : ordered [(Loop, Wr)] k -> ordered [(Loop, Wr)] (all_rounds_c vals k).
Proof. intros Hk. unfold all_rounds_c. lockstep. Qed.

Lemma ordered_percent (k : code) : ordered [(Loop, Wr)] k -> ordered [(Loop, Wr)] (percent_c k).
Proof. intros Hk. unfold percent_c. lockstep. Qed.

Lemma ordered_progress (k : code) : ordered [(Loop, Wr)] k -> ordered [(Loop, Wr)] (progress_c k).
Proof. intros Hk. unfold progress_c. lockstep. by apply ordered_percent. Qed.

Lemma ordered_consensus (k : code) : ordered [(Loop, Wr)] k -> ordered [(Loop, Wr)] (SerializeConsensus_c k).
Proof. intros Hk. unfold SerializeConsensus_c. lockstep. by repeat apply ordered_percent. Qed.

Lemma ordered_chain_info (k : code) : ordered [(Loop, Wr)] k -> ordered [(Loop, Wr)] (SerializeChainInfo_c k).
Proof. intros Hk. unfold SerializeChainInfo_c. lockstep. Qed.

Lemma ordered_SetState (k : code) : ordered [] k -> ordered [] (SetState_c shown k).
Proof.
  intros Hk. apply ordered_on_loop; [|done]. intros k' Hk'. unfold closure_c. lockstep.
  do 3 apply ordered_grid. apply ordered_all_rounds. lockstep.
  apply ordered_consensus, ordered_chain_info. by do 2 apply ordered_progress; lockstep.
Qed.

Lemma ordered_build env (k : NetworkHealth -> list ValidatorHealthRow -> code) :
  (forall nh rows, ordered [] (k nh rows)) -> ordered [] (build_c env k).
Proof.
  intros Hk. split; [constructor|]. unfold liveness_c, asn_c, liveness_rows_c, rows_or_die, asn_rows_c, on_builder.
  lockstep; apply Hk.
Qed.

Lemma ordered_events events (k : code) : ordered [] k -> ordered [] (add_events_c events k).
Proof. intros Hk. induction events as [|e events IH]; cbn; lockstep. Qed.

Lemma ordered_actions acts : forall lo, ordered [] (actions_c (T := T) lo acts).
Proof. induction acts as [|[] acts IH]; intros lo; cbn -[get put]; lockstep; apply IH. Qed.

Lemma job_ordered j : ordered [] (job_code shown asks j).
Proof.
  destruct j as [t|n]; [|cbn; lockstep]. destruct t as [clk f|f|h f|f|f|f|env|clock events|now| |f url|url]; cbn [job_code task_code];
    unfold RefreshConsensus_c, RefreshCometNodeInfo_c, RefreshUpgrade_c, RefreshBlockTime_c, RefreshMempool_c,
      RefreshNetInfo_c, RefreshHealthMetrics_c, unless_paused_c, seed_c; lockstep; try (by apply ordered_SetState).
  - apply ordered_build. intros nh rows. lockstep. by apply ordered_SetState.
  - apply ordered_events. split; [constructor|]. unfold on_builder. lockstep; by apply ordered_SetState.
  - by apply ordered_on_loop; [intros k Hk; lockstep|].
  - apply ordered_actions.
  - by apply ordered_on_loop; [intros k Hk; lockstep|].
Qed.

(** *** The invariant *)

Definition thread_ok t : Prop :=
  match th_code t with Die => th_held t = [] | c => ordered (th_held t) c end /\
  (th_announced t = true -> exists l k, th_code t = Acq l Wr k).

(** A writer is alone. *)
Definition exclusive (ths : list thread) : Prop :=
  forall i j t u l, ths !! i = Some t -> ths !! j = Some u -> i <> j -> writing l t = true -> holding l u = false.

Lemma enter_ok held c : ordered held c -> thread_ok (enter held c).
Proof. intros H. split; [by destruct c|done]. Qed.

Lemma go_ok ths t a t' a' : go ths t a = Some (t', a') -> thread_ok t -> thread_ok t'.
Proof.
  unfold go. intros Hg [Ho Ha]. destruct (th_code t) as [| |l [] k|l m k|f k] eqn:Ec; [done|done| | | |].
  - destruct (existsb _ _); [done|]. injection Hg as <- _. apply enter_ok, Ho.
  - destruct (th_announced t), (existsb _ _); try done; injection Hg as <- _; [apply enter_ok, Ho|].
    split; [exact Ho|]. intros _. by exists l, k.
  - destruct (bool_decide _); injection Hg as <- _; [apply enter_ok, Ho|by apply enter_ok].
  - destruct (f a); injection Hg as <- _; by apply enter_ok.
Qed.

Lemma writing_holding l t : writing l t = true -> holding l t = true.
Proof.
  unfold writing, holding. rewrite bool_decide_eq_true. intros H. apply existsb_exists. exists (l, Wr).
  split; [by apply list_elem_of_In|by apply bool_decide_eq_true_2].
Qed.

Lemma holding_elem l t : holding l t = true <-> exists m, (l, m) ∈ th_held t.
Proof.
  unfold holding. rewrite existsb_exists. split.
  - intros ([l' m] & Hin & Hl%bool_decide_eq_true). exists m. cbn in Hl. subst l'. by apply list_elem_of_In.
  - intros [m Hin]. exists (l, m). split; [by apply list_elem_of_In|by apply bool_decide_eq_true_2].
Qed.

Lemma existsb_none {A} (f : A -> bool) l x : existsb f l = false -> x ∈ l -> f x = false.
Proof.
  intros H Hx. destruct (f x) eqn:E; [|done]. assert (existsb f l = true) by (apply existsb_exists; exists x; by rewrite <-list_elem_of_In).
  congruence.
Qed.

Lemma drop_sub h held x : x ∈ drop_lock h held -> x ∈ held.
Proof.
  induction held as [|y held IH]; [done|]. cbn. destruct (bool_decide _); [by right|].
  intros [->|Hx]%elem_of_cons; [by left|right; by apply IH].
Qed.

Lemma enter_sub held c x : x ∈ th_held (enter held c) -> x ∈ held.
Proof. by destruct c; cbn; [|intros ?%elem_of_nil|..]. Qed.

(** What a step adds to what its goroutine holds was free for it. *)
Lemma go_held ths t a t' a' h : go ths t a = Some (t', a') -> h ∈ th_held t' -> h ∈ th_held t \/
  (h.2 = Rd /\ forall u, u ∈ ths -> writing h.1 u = false) \/ (h.2 = Wr /\ forall u, u ∈ ths -> holding h.1 u = false).
Proof.
  unfold go. intros Hg Hh. destruct (th_code t) as [| |l [] k|l m k|f k]; [done|done| | | |].
  - destruct (existsb _ _) eqn:E; [done|]. injection Hg as <- _. apply enter_sub, elem_of_cons in Hh as [->|Hh]; [|by left].
    right. left. split; [done|]. intros u Hu. by pose proof (existsb_none _ _ _ E Hu) as [? _]%orb_false_iff.
  - destruct (th_announced t), (existsb _ _) eqn:E; try done; injection Hg as <- _; [|by left].
    apply enter_sub, elem_of_cons in Hh as [->|Hh]; [|by left]. right. right. split; [done|]. intros u Hu.
    exact (existsb_none _ _ _ E Hu).
  - destruct (bool_decide _); injection Hg as <- _; apply enter_sub in Hh; [left; by eapply drop_sub|by apply elem_of_nil in Hh].
  - destruct (f a); injection Hg as <- _; apply enter_sub in Hh; [by left|by apply elem_of_nil in Hh..].
Qed.

Lemma go_exclusive ths i t a t' a' : ths !! i = Some t -> go ths t a = Some (t', a') -> exclusive ths -> exclusive (<[i := t']> ths).
Proof.
  intros Hi Hg Hx j1 j2 u v l H1 H2 Hne Hw.
  apply list_lookup_insert_Some in H1 as [(<- & <- & _)|[Hj1 H1]]; apply list_lookup_insert_Some in H2 as [(<- & <- & _)|[Hj2 H2]]; [done| | |exact (Hx j1 j2 u v l H1 H2 Hne Hw)].
  - apply bool_decide_eq_true in Hw. destruct (go_held _ _ _ _ _ _ Hg Hw) as [H|[[H _]|[_ H]]]; [|done|].
    + apply (Hx i j2 t v l); [done..|]. by apply bool_decide_eq_true.
    + apply H. by eapply list_elem_of_lookup_2.
  - destruct (holding l t') eqn:E; [|done]. apply holding_elem in E as [m Hm].
    destruct (go_held _ _ _ _ _ _ Hg Hm) as [H|[[_ H]|[_ H]]].
    + assert (Ht : holding l t = true) by (apply holding_elem; by exists m). by rewrite (Hx j1 i u t l) in Ht.
    + apply list_elem_of_lookup_2, H in H1. cbn in H1. congruence.
    + apply list_elem_of_lookup_2, H in H1. cbn in H1. apply writing_holding in Hw. congruence.
Qed.

Definition lsys_ok s : Prop := Forall thread_ok (l_threads s) /\ exclusive (l_threads s).

Lemma lstep_ok allowed s s' : lsys_ok s -> lstep shown asks allowed s s' -> lsys_ok s'.
Proof.
  intros Hok Hst. destruct Hst as [j s _|s i t t' a' Hi Hg]; destruct Hok as [Ho Hx]; cbn.
  - split; [apply Forall_app; split; [done|]; constructor; [apply enter_ok, job_ordered|done]|].
    intros i1 i2 u v l H1 H2 Hne Hw. assert (Hnew : th_held (enter [] (job_code shown asks j)) = []) by by destruct (job_code _ _ j).
    apply lookup_app_Some in H1 as [H1|[_ H1]]; [|apply list_lookup_singleton_Some in H1 as [_ <-]; apply writing_holding, holding_elem in Hw as [m Hm]; rewrite Hnew in Hm; by apply elem_of_nil in Hm].
    apply lookup_app_Some in H2 as [H2|[_ H2]]; [exact (Hx i1 i2 u v l H1 H2 Hne Hw)|]. apply list_lookup_singleton_Some in H2 as [_ <-].
    destruct (holding l _) eqn:E; [|done]. apply holding_elem in E as [m Hm]. rewrite Hnew in Hm. by apply elem_of_nil in Hm.
  - split; [|by apply (go_exclusive _ _ _ _ _ _ Hi Hg)]. apply Forall_insert; [done|].
    apply (go_ok _ _ _ _ _ Hg), (Forall_lookup_1 _ _ _ _ Ho Hi).
Qed.

Lemma idle_ok a : lsys_ok (idle a).
Proof. split; [constructor|]. by intros i j t u l Ht. Qed.

(** *** Nobody waits for ever *)

Lemma waits ths t a : go ths t a = None -> ~ ended t -> exists l m k u,
  th_code t = Acq l m k /\ u ∈ ths /\ (holding l u = true \/ announcing l u = true).
Proof.
  unfold go, ended. intros Hg Hend. destruct (th_code t) as [| |l [] k|l m k|f k] eqn:Ec; try tauto.
  - destruct (existsb _ _) eqn:E; [|done]. apply existsb_exists in E as (u & Hu & [Hw|Ha]%orb_true_iff).
    + exists l, Rd, k, u. split_and!; [done|by apply list_elem_of_In|left; by apply writing_holding].
    + exists l, Rd, k, u. split_and!; [done|by apply list_elem_of_In|by right].
  - destruct (th_announced t), (existsb _ _) eqn:E; try done; apply existsb_exists in E as (u & Hu & E); exists l, Wr, k, u;
      (split_and!; [done|by apply list_elem_of_In|]); [by left|].
    apply orb_true_iff in E as [E|E]; [left; by apply writing_holding|by right].
  - by destruct (bool_decide _).
  - by destruct (f a).
Qed.

(** A chain of waits climbs the ranks. *)
Lemma no_wait n : forall ths a l, (4 - rank l <= n)%nat -> Forall thread_ok ths -> (forall t, t ∈ ths -> go ths t a = None) ->
  forall t m k, t ∈ ths -> th_code t <> Acq l m k.
Proof.
  induction n as [|n IH]; intros ths a l Hn Hok Hstuck t m k Ht Hc; [destruct l; cbn in Hn; lia|].
  assert (Hholder : exists u, u ∈ ths /\ holding l u = true).
  { destruct (waits ths t a) as (l' & m' & k' & u & Hc' & Hu & Hw); [by apply Hstuck|unfold ended; rewrite Hc; by intros [|]|].
    assert (l' = l) as -> by congruence. destruct Hw as [Hw|Hw]; [by exists u|].
    apply andb_true_iff in Hw as [Hann Hw]. pose proof (Hstuck u Hu) as Hg. unfold go in Hg.
    destruct (th_code u) as [| |l2 [] k2| |]; try done. apply bool_decide_eq_true in Hw as ->. rewrite Hann in Hg.
    destruct (existsb (holding l) ths) eqn:E; [|done]. apply existsb_exists in E as (v & Hv & E). exists v. by rewrite list_elem_of_In. }
  destruct Hholder as (u & Hu & [m2 Hh]%holding_elem). pose proof (proj1 (Forall_forall _ _) Hok u Hu) as [Ho _].
  assert (Hnend : ~ ended u).
  { intros [E|E]; rewrite E in Ho; cbn in Ho; rewrite Ho in Hh; by apply elem_of_nil in Hh. }
  destruct (waits ths u a (Hstuck u Hu) Hnend) as (l3 & m3 & k3 & _ & Hc3 & _). rewrite Hc3 in Ho. destruct Ho as [Hroom _].
  pose proof (proj1 (Forall_forall _ _) Hroom _ Hh) as Hlt. cbn in Hlt.
  exact (IH ths a l3 ltac:(lia) Hok Hstuck u m3 k3 Hu Hc3).
Qed.

Lemma stuck_ended ths a : Forall thread_ok ths -> (forall t, t ∈ ths -> go ths t a = None) -> Forall ended ths.
Proof.
  intros Hok Hstuck. apply Forall_forall. intros t Ht.
  destruct (th_code t) as [| |l m k|l m k|f k] eqn:Ec; [by left|by right|..]; exfalso.
  - by eapply (no_wait 4 ths a l ltac:(lia) Hok Hstuck t).
  - pose proof (Hstuck t Ht) as Hg. unfold go in Hg. rewrite Ec in Hg. by destruct (bool_decide _).
  - pose proof (Hstuck t Ht) as Hg. unfold go in Hg. rewrite Ec in Hg. by destruct (f a).
Qed.

Definition thread_step t' t : Prop := exists ths a a', go ths t a = Some (t', a').

Lemma ended_acc t : ended t -> Acc thread_step t.
Proof. intros [E|E]; constructor; intros t' (ths & a & a' & Hg); unfold go in Hg; by rewrite E in Hg. Qed.

Lemma thread_acc c : forall held b, Acc thread_step (mkThread held b c).
Proof.
  induction c as [| |l m k IH|l m k IH|f k IH]; intros held b; constructor; intros t' (ths & a & a' & Hg); unfold go in Hg; cbn [th_code th_announced th_held] in Hg.
  - done.
  - done.
  - assert (Hk : forall h, Acc thread_step (enter h k)) by (intros h; exact (IH _ _)).
    destruct m; [destruct (existsb _ _); [discriminate|injection Hg as <- _; exact (Hk _)]|].
    assert (Hyes : forall h, Acc thread_step (mkThread h true (Acq l Wr k))).
    { intros h. constructor. intros t2 (ths2 & a2 & a3 & Hg2). unfold go in Hg2. cbn [th_code th_announced th_held] in Hg2.
      destruct (existsb (holding l) ths2); [discriminate|injection Hg2 as <- _; exact (Hk _)]. }
    destruct b, (existsb _ _); try discriminate; injection Hg as <- _; [exact (Hk _)|exact (Hyes _)].
  - destruct (bool_decide _); injection Hg as <- _; [exact (IH _ _)|apply ended_acc; by right].
  - destruct (f a); injection Hg as <- _; [exact (IH _ _ _)|apply ended_acc; by right..].
Qed.

Lemma lsys_acc s : Acc (fun y x => lstep shown asks no_job x y) s.
Proof.
  assert (H : forall l, Acc (one_of thread_step) l -> forall x, l_threads x = l -> Acc (fun y x => lstep shown asks no_job x y) x).
  { intros l Hl. induction Hl as [l _ IH]. intros x <-. constructor. intros y Hy.
    destruct Hy as [j x Hno|x i t t' a' Hi Hg]; [done|]. eapply IH; [|done]. exists i, t, t'. split_and!; [done| |done].
    by exists (l_threads x), (l_app x), a'. }
  eapply H; [|done]. apply one_of_acc, Forall_forall. intros [held b c] _. apply thread_acc.
Qed.

End LockFacts.

Section AloneEnds.
Context `{BL : ButilsLaws} `{C : Comet} {T : Type} `{ST : !ConsensusStorer T}.
Context (shown : nat -> State -> list bool) (asks : task -> nat).

Lemma go_keeps_result ths (t t' : thread (T := T)) a a' :
  thread_ok t -> go ths t a = Some (t', a') -> run_alone (th_code t) a = run_alone (th_code t') a'.
Proof.
  unfold go. intros [Ho _] Hg. destruct (th_code t) as [| |l [] k|l m k|f k]; [done|done|..]; cbn [run_alone].
  - destruct (existsb _ _); [done|]. by injection Hg as <- <-.
  - destruct (th_announced t), (existsb _ _); try done; by injection Hg as <- <-.
  - rewrite bool_decide_eq_true_2 in Hg by apply Ho. by injection Hg as <- <-.
  - destruct (f a); by injection Hg as <- <-.
Qed.

(** Alone, a handler with its locks ends with what [App] says it leaves. *)
Theorem handler_alone t a s'
    (Hrun : rtc (lstep shown asks no_job) (mkLsys a [enter [] (task_code shown asks t)]) s')
    (Hend : forall s'', ~ lstep shown asks no_job s' s'') :
  match task_handler t a with
  | Ok a' => l_app s' = a' /\ th_code <$> l_threads s' = [Ret]
  | _ => th_code <$> l_threads s' = [Die]
  end.
Proof.
  pose (good := fun s : lsys => exists th, l_threads s = [th] /\ thread_ok th /\
    run_alone (th_code th) (l_app s) = run_alone (task_code shown asks t) a).
  assert (Hg : good s').
  { revert Hrun. apply rtc_invariant.
    - intros x y (th & Hth & Hok & Hr) Hstep. destruct Hstep as [j x Hno|x i th1 t' a' Hi Hgo]; [done|].
      rewrite Hth in Hi. apply list_lookup_singleton_Some in Hi as [-> ->]. exists t'. cbn. rewrite Hth.
      split_and!; [done|by eapply go_ok|]. by rewrite <-(go_keeps_result _ _ _ _ _ Hok Hgo).
    - eexists. split_and!; [done|apply enter_ok, (job_ordered shown asks (JTask t))|done]. }
  destruct Hg as (th & Hth & Hok & Hr).
  assert (Hended : Forall ended (l_threads s')).
  { apply (stuck_ended _ (l_app s')); [rewrite Hth; by constructor|]. rewrite Hth. intros u ->%list_elem_of_singleton.
    destruct (go [th] th (l_app s')) as [[t' a']|] eqn:E; [|done]. destruct (Hend (mkLsys a' (<[0%nat := t']> (l_threads s')))).
    eapply ls_go; rewrite Hth; done. }
  rewrite Hth in Hended |- *. apply Forall_cons in Hended as [He _]. rewrite alone_code in Hr.
  destruct He as [E|E]; rewrite E in Hr; cbn in Hr |- *; rewrite E; destruct (task_handler t a); try done. by injection Hr as ->.
Qed.
End AloneEnds.

(** ** A concrete run, and what the order rules out *)

Section LockExamples.
#[local] Instance locks_store : ConsensusStorer Tables := db_storer demo_config.
Notation lsys := (lsys (T := Tables)).
Notation code := (code (T := Tables)).

Definition one_cell (i : nat) (s : State) : list bool := [true].
Definition asks_once (t : task) : nat := 1.

Lemma lplays_run ms (s s' : lsys) : lplays one_cell asks_once ms s = Some s' -> rtc (lstep one_cell asks_once any_job) s s'.
Proof.
  revert s. induction ms as [|m ms IH]; intros s; cbn [lplays]; [by intros [= ->]|].
  intros (s1 & E & H)%bind_Some. eapply rtc_l; [|by apply IH]. destruct m as [j|i]; cbn [lplay] in E.
  - injection E as <-. by constructor.
  - destruct (l_threads s !! i) as [t|] eqn:Ei; [|done]. cbn [mbind option_bind] in E.
    destruct (go (l_threads s) t (l_app s)) as [[t' a']|] eqn:Eg; [|done]. cbn in E. injection E as <-. by eapply ls_go.
Qed.

(** A refresh persists rounds and holds the votes, a batch of events has announced
    itself to record a vote, and a redraw, which has the event loop, waits behind it. *)
Definition demo_schedule : list (job + nat) :=
  [inl (JTask (TConsensus demo_clk demo_fetcher)); inl (JTask (TEvents (fun _ => 3) [demo_event]));
   inl (JTask (TEvents (fun _ => 4) [demo_event])); inl (JTask (TUpgrade 10 demo_fetcher))] ++
  replicate 97 (inr 1%nat) ++ replicate 23 (inr 0%nat) ++ [inr 2%nat] ++ replicate 17 (inr 3%nat).
Definition demo_queue : lsys := default (idle demo_app) (lplays one_cell asks_once demo_schedule (idle demo_app)).

Definition locked_state (s : lsys) : list (list (lock * mode) * bool * bool) :=
  (fun t => (th_held t, th_announced t, match go (l_threads s) t (l_app s) with Some _ => true | None => false end)) <$> l_threads s.

Example demo_queue_ex : locked_state demo_queue =
  [([(VotesMu, Rd)], false, true); ([], false, false); ([], true, false); ([(Loop, Wr)], false, false)].
Proof. vm_compute. reflexivity. Qed.

Lemma demo_queued : rtc (lstep one_cell asks_once any_job) (idle demo_app) demo_queue.
Proof.
  apply (lplays_run demo_schedule). unfold demo_queue.
  assert (E : match lplays one_cell asks_once demo_schedule (idle demo_app) with Some _ => true | None => false end = true)
    by (vm_compute; reflexivity).
  by destruct (lplays one_cell asks_once demo_schedule (idle demo_app)).
Qed.


(** Recording a vote from inside an iteration waits for itself. *)
Example vote_inside_an_iteration (k : code) (a : App Tables) :
  let t := mkThread [(VotesMu, Rd)] true (Acq VotesMu Wr k) in go [t] t a = None /\ ~ ended t /\ ~ thread_ok t.
Proof.
  split_and!; [done|by intros [|]|]. intros [[H _] _]. apply Forall_cons in H as [H _]. cbn in H. lia.
Qed.

(** So does a [GetVote] inside an iteration, once a writer has announced itself. *)
Example read_inside_an_iteration (k k' : code) (a : App Tables) :
  let t := mkThread [(VotesMu, Rd)] false (Acq VotesMu Rd k) in
  let u := mkThread [] true (Acq VotesMu Wr k') in
  go [t; u] t a = None /\ go [t; u] u a = None /\ go [t] t a <> None /\ ~ thread_ok t.
Proof.
  split_and!; [done|done|done|]. intros [[H _] _]. apply Forall_cons in H as [H _]. cbn in H. lia.
Qed.

(** And a handler that redraws under the builder's mutex, once the loop needs it. *)
Example redraw_under_the_builder (k k' : code) (a : App Tables) :
  let t := mkThread [(BuilderMu, Wr)] false (Acq Loop Wr k) in
  let u := mkThread [(Loop, Wr)] false (Acq BuilderMu Wr k') in
  go [t; u] t a = None /\ go [t; u] u a = None /\ ~ thread_ok t.
Proof.
  split_and!; [done|done|]. intros [[H _] _]. apply Forall_cons in H as [H _]. cbn in H. lia.
Qed.
End LockExamples.
