(* ===== verification/Tables.v ===== *)
(** * The tables of the terminal ([pkg/display])

    Each table keeps a grid of cells and rebuilds it when its data changes.  A cell is
    its text and the attributes the code sets; the terminal library only draws them.
    A table that shows votes holds a pointer to the shared map: [live] is what the
    pointer reads when the grid is rebuilt. *)

From S2P Require Import Prelude GoNum GoText GoTime Deps Rounds Types MetricTypes Utils.
From Stdlib Require Import Ascii.
Local Open Scope Z_scope.

Record Cell := mkCell {
  cell_text : string;
  cell_highlight : bool;    (** [SetBackgroundColor(ColorDimGray)] *)
  cell_selectable : bool;
  cell_bold : bool;
  cell_right : bool }.

Definition NewTableCell (text : string) : Cell := mkCell text false true false false.
Definition highlight (b : bool) (c : Cell) : Cell :=
  mkCell (cell_text c) (b || cell_highlight c) (cell_selectable c) (cell_bold c) (cell_right c).
Definition header_cell (bold : bool) (text : string) : Cell := mkCell text false false bold false.
Definition right_cell (text : string) : Cell := mkCell text false true false true.

(** [GetCell], [GetRowCount], [GetColumnCount], which every table repeats. *)
Abbreviation grid := (list (list Cell)).
Definition GetCell (cells : grid) (row column : nat) : option Cell :=
  match cells !! row with
  | None => None
  | Some r => r !! column
  end.
Definition GetRowCount (cells : grid) : nat := length cells.
Definition GetColumnCount (cells : grid) : nat :=
  match cells with [] => O | r :: _ => length r end.

(** The text of a percentage: [Text('f', 2)], and [%.2f] of the pointer. *)
Definition percent_text (p : option gofloat) : string :=
  match p with Some x => fmt_fixed 2 x | None => "0.00" end.
Definition percent_fmt (p : option gofloat) : string :=
  match p with Some x => fmt_fixed 2 x | None => "<nil>" end.

Section Tables.
Context `{B : Butils} `{C : Comet}.

(** ** [LastRoundTableData] *)

Record LastRoundTableData := mkLastRound {
  lr_Validators : list TMValidator;
  lr_HasRoundData : bool;
  lr_Height : Z;
  lr_Round : Z;
  lr_Error : option string;
  lr_Columns : nat;
  lr_DisableEmojis : bool;
  lr_Transpose : bool;
  lr_cells : grid }.

Definition NewLastRoundTableData (columnsCount : nat) (disableEmojis transpose : bool) : LastRoundTableData :=
  mkLastRound [] true 0 0 None columnsCount disableEmojis transpose [].

Definition generateValidatorDisplayText (d : LastRoundTableData) (live : RoundDataMap) (v : TMValidator) : res string :=
  let name := GetDisplayName v in
  let name := if HasAssignedKey v then (if lr_DisableEmojis d then "[k]" else "🔑") +:+ " " +:+ name else name in
  let none := if lr_DisableEmojis d then "[ ]" else "❌" in
  let vote (ty : Z) :=
    if lr_HasRoundData d && (0 <? lr_Height d)
    then Serialize (GetVote live (lr_Height d) (lr_Round d) (GetDisplayAddress v) ty) (lr_DisableEmojis d)
    else none in
  number ← RightPadAndTrim (itoa (Index v + 1)) 3;
  power ← RightPadAndTrim (percent_text (VotingPowerPercent v)) 6;
  name ← LeftPadAndTrim name 25;
  Ok (" " +:+ vote PrevoteType +:+ " " +:+ vote PrecommitType +:+ " " +:+ number +:+ " " +:+ power +:+ "% " +:+ name +:+ " ").

Definition is_proposer (ps : option (GoSet string)) (v : TMValidator) : bool :=
  match ps with Some s => set_has s (GetDisplayAddress v) | None => false end.

Definition validator_cell (d : LastRoundTableData) (live : RoundDataMap) (v : TMValidator) : res Cell :=
  text ← generateValidatorDisplayText d live v;
  let proposer := lr_HasRoundData d && is_proposer (GetProposers live (lr_Height d) (lr_Round d)) v in
  Ok (highlight proposer (NewTableCell text)).

Definition rows_count (d : LastRoundTableData) : nat :=
  let n := length (lr_Validators d) in
  if (n mod lr_Columns d =? 0)%nat then (n / lr_Columns d)%nat else (n / lr_Columns d + 1)%nat.

(** The transposed index uses the row count of the grid still on screen. *)
Definition cell_index (d : LastRoundTableData) (row column : nat) : nat :=
  if lr_Transpose d then (column * GetRowCount (lr_cells d) + row)%nat else (row * lr_Columns d + column)%nat.

Definition table_cell (d : LastRoundTableData) (live : RoundDataMap) (row column : nat) : res Cell :=
  match lr_Validators d !! cell_index d row column with
  | Some v => validator_cell d live v
  | None => Ok (NewTableCell "")
  end.

Definition last_round_makeCells (d : LastRoundTableData) (live : RoundDataMap) : res grid :=
  match lr_Error d with
  | Some e => Ok [[NewTableCell (" Error fetching consensus: " +:+ e)]]
  | None =>
      match lr_Columns d with
      | O => Ok []
      | _ => mapM (fun row => mapM (table_cell d live row) (seq 0 (lr_Columns d))) (seq 0 (rows_count d))
      end
  end.

Definition redrawData (live : RoundDataMap) (d : LastRoundTableData) : res LastRoundTableData :=
  cells ← last_round_makeCells d live;
  Ok (mkLastRound (lr_Validators d) (lr_HasRoundData d) (lr_Height d) (lr_Round d) (lr_Error d) (lr_Columns d)
        (lr_DisableEmojis d) (lr_Transpose d) cells).

Definition lr_SetColumnsCount (live : RoundDataMap) (count : nat) (d : LastRoundTableData) : res LastRoundTableData :=
  redrawData live (mkLastRound (lr_Validators d) (lr_HasRoundData d) (lr_Height d) (lr_Round d) (lr_Error d) count
                (lr_DisableEmojis d) (lr_Transpose d) (lr_cells d)).
Definition lr_SetTranspose (live : RoundDataMap) (transpose : bool) (d : LastRoundTableData) : res LastRoundTableData :=
  redrawData live (mkLastRound (lr_Validators d) (lr_HasRoundData d) (lr_Height d) (lr_Round d) (lr_Error d) (lr_Columns d)
                (lr_DisableEmojis d) transpose (lr_cells d)).
Definition lr_SetTMValidators (live : RoundDataMap) (vals : list TMValidator) (err : option string)
    (d : LastRoundTableData) : res LastRoundTableData :=
  redrawData live (mkLastRound vals (lr_HasRoundData d) (lr_Height d) (lr_Round d) err (lr_Columns d)
                (lr_DisableEmojis d) (lr_Transpose d) (lr_cells d)).
Definition lr_SetRoundData (live : RoundDataMap) (d : LastRoundTableData) : res LastRoundTableData :=
  redrawData live (mkLastRound (lr_Validators d) true (lr_Height d) (lr_Round d) (lr_Error d) (lr_Columns d)
                (lr_DisableEmojis d) (lr_Transpose d) (lr_cells d)).
Definition lr_SetCurrentRound (live : RoundDataMap) (height round : Z) (d : LastRoundTableData) : res LastRoundTableData :=
  redrawData live (mkLastRound (lr_Validators d) (lr_HasRoundData d) height round (lr_Error d) (lr_Columns d)
                (lr_DisableEmojis d) (lr_Transpose d) (lr_cells d)).

(** ** [AllRoundsTableData] *)

Record AllRoundsTableData := mkAllRounds {
  ar_RoundData : bool;
  ar_Validators : list TMValidator;
  ar_DisableEmojis : bool;
  ar_Transpose : bool;
  ar_Height : Z;
  ar_Round : Z;
  ar_cells : grid }.

Definition NewAllRoundsTableData (disableEmojis transpose : bool) : AllRoundsTableData :=
  mkAllRounds false [] disableEmojis transpose 0 0 [].

Definition ar_SetTMValidators (vals : list TMValidator) (height : Z) (d : AllRoundsTableData) : AllRoundsTableData :=
  let h := if (ar_Height d =? 0) && (0 <? height) then height else ar_Height d in
  mkAllRounds (ar_RoundData d) vals (ar_DisableEmojis d) (ar_Transpose d) h (ar_Round d) (ar_cells d).
Definition ar_SetCurrentRound (height round : Z) (d : AllRoundsTableData) : AllRoundsTableData :=
  mkAllRounds (ar_RoundData d) (ar_Validators d) (ar_DisableEmojis d) (ar_Transpose d) height round (ar_cells d).
Definition ar_SetRoundData (d : AllRoundsTableData) : AllRoundsTableData :=
  mkAllRounds true (ar_Validators d) (ar_DisableEmojis d) (ar_Transpose d) (ar_Height d) (ar_Round d) (ar_cells d).
(** The flag is stored, and read by no operation of this table. *)
Definition ar_SetTranspose (transpose : bool) (d : AllRoundsTableData) : AllRoundsTableData :=
  mkAllRounds (ar_RoundData d) (ar_Validators d) (ar_DisableEmojis d) transpose (ar_Height d) (ar_Round d) (ar_cells d).

(** The last four digits of the height. *)
Definition height_text (height : Z) : string :=
  let s := itoa height in if (4 <? slen s)%nat then sdrop (slen s - 4) s else s.

Definition round_header (hr : HeightAndRound) : Cell :=
  header_cell true (height_text (hr_Height hr) +:+ "." +:+ itoa (hr_Round hr)).

Definition round_cell (disableEmojis isCurrentProposer : bool) (v : TMValidator) (p : HeightAndRound * RoundData) : Cell :=
  let valVotes := default ∅ (Votes p.2 !! GetDisplayAddress v) in
  let prevote := VoteStateFromVotesMap valVotes PrevoteType in
  let precommit := VoteStateFromVotesMap valVotes PrecommitType in
  highlight (isCurrentProposer || set_has (Proposers p.2) (GetDisplayAddress v))
    (NewTableCell (" " +:+ Serialize precommit disableEmojis +:+ Serialize prevote disableEmojis +:+ " ")).

Definition validator_row (d : AllRoundsTableData) (currentProposers : option (GoSet string)) (live : RoundDataMap)
    (i : nat) (v : TMValidator) : list Cell :=
  let isCurrentProposer := is_proposer currentProposers v in
  let nameCell := NewTableCell (itoa (Z.of_nat i + 1) +:+ ". " +:+ GetDisplayName v) in
  let vpCell := NewTableCell ("(" +:+ percent_fmt (VotingPowerPercent v) +:+ "%)") in
  highlight isCurrentProposer nameCell :: highlight isCurrentProposer vpCell ::
    (round_cell (ar_DisableEmojis d) isCurrentProposer v <$> reverse_iter_list live).

(** The map is read once for the header, once for the proposers of the current
    round and once per row, each time under its own lock.  A nil map pointer is
    dereferenced once there are validators. *)
Definition createCells_reads (d : AllRoundsTableData) (header proposers : RoundDataMap) (row : nat -> RoundDataMap) : res grid :=
  match ar_Validators d with
  | [] => Ok []
  | vals =>
      if ar_RoundData d then
        let currentProposers := GetProposers proposers (ar_Height d) (ar_Round d) in
        Ok ((header_cell true "Validator" :: header_cell false "" ::
               (round_header <$> (reverse_iter_list header).*1))
            :: imap (fun i => validator_row d currentProposers (row i) i) vals)
      else Panic
  end.

(** With no write in between. *)
Definition createCells (d : AllRoundsTableData) (live : RoundDataMap) : res grid :=
  createCells_reads d live live (fun _ => live).

Definition Update (live : RoundDataMap) (d : AllRoundsTableData) : res AllRoundsTableData :=
  cells ← createCells d live;
  Ok (mkAllRounds (ar_RoundData d) (ar_Validators d) (ar_DisableEmojis d) (ar_Transpose d) (ar_Height d) (ar_Round d) cells).

(** ** [RPCsTableData], [NetInfoTableData] *)

Definition rpcs_cells (rpcs : list RPC) : grid :=
  (fun rpc => [NewTableCell (rpc_URL rpc); NewTableCell (rpc_Moniker rpc)]) <$> rpcs.

Record RPCsTableData := mkRPCsTable { knownRPCs : list RPC; rt_cells : grid }.
Definition NewRPCsTableData : RPCsTableData := mkRPCsTable [] [].
Definition SetKnownRPCs (rpcs : list RPC) (d : RPCsTableData) : RPCsTableData := mkRPCsTable rpcs (rpcs_cells rpcs).

(** The comparison of the sort: never equal. *)
Definition compare_peers (a b : Peer) : Z :=
  if fs_AvgRate (cs_RecvMonitor (peer_ConnectionStatus b)) <? fs_AvgRate (cs_RecvMonitor (peer_ConnectionStatus a))
  then -1 else 1.

Definition peer_row (p : Peer) : list Cell :=
  let st := peer_ConnectionStatus p in
  let rate (b : Z) := right_cell (ByteSize_String b +:+ "/s") in
  let '(p2p, block, app) := peer_Protocol p in
  [ NewTableCell (if peer_IsOutbound p then "out" else "in");
    NewTableCell (peer_RemoteIP p);
    NewTableCell (peer_Moniker p);
    NewTableCell (default "" (head (split_on "."%char (Duration_String (cs_Duration st)))));
    rate (fs_CurRate (cs_SendMonitor st)); rate (fs_CurRate (cs_RecvMonitor st));
    rate (fs_AvgRate (cs_SendMonitor st)); rate (fs_AvgRate (cs_RecvMonitor st));
    NewTableCell (peer_ID p);
    NewTableCell (peer_Version p);
    NewTableCell (itoa p2p +:+ "/" +:+ itoa block +:+ "/" +:+ itoa app);
    NewTableCell (peer_RPCAddress p) ].

(** [sort] is [slices.SortFunc]: it sorts the peers of the shared [NetInfo] in place,
    so the table keeps the sorted record. *)
Definition sort_peers (sort : (Peer -> Peer -> Z) -> list Peer -> list Peer) (ni : NetInfo) : NetInfo :=
  mkNetInfo (ni_Listening ni) (ni_Listeners ni) (ni_NPeers ni) (sort compare_peers (ni_Peers ni)).

Definition net_info_makeCells (sort : (Peer -> Peer -> Z) -> list Peer -> list Peer) (netInfo : option NetInfo) : grid :=
  match netInfo with
  | None => []
  | Some ni =>
      map NewTableCell [""; "IP"; "Moniker"; "Duration"; "Send (cur)"; "Recv (cur)"; "Send (avg)"; "Recv (avg)";
                        "Node ID"; "Version"; "Proto"; "RPC"]
      :: map NewTableCell [""; "=="; "========"; "========"; "=========="; "=========="; "=========="; "==========";
                           "========================================"; "======="; "====="; "==="]
      :: (peer_row <$> ni_Peers (sort_peers sort ni))
  end.

Record NetInfoTableData := mkNetInfoTable { nt_NetInfo : option NetInfo; nt_cells : grid }.
Definition NewNetInfoTableData : NetInfoTableData := mkNetInfoTable None [].
Definition nt_SetNetInfo (sort : (Peer -> Peer -> Z) -> list Peer -> list Peer) (netInfo : option NetInfo)
    (d : NetInfoTableData) : NetInfoTableData :=
  mkNetInfoTable (sort_peers sort <$> netInfo) (net_info_makeCells sort netInfo).

(** ** [ValidatorHealthTableData] *)

Definition serializeStatus (disableEmojis online equivocated : bool) : string :=
  let status := if online then (if disableEmojis then "[on]" else "✅") else (if disableEmojis then "[off]" else "❌") in
  if equivocated then status +:+ (if disableEmojis then "[!]" else "⚠") else status.

Definition asn_cell (row : ValidatorHealthRow) : res Cell :=
  if negb (row_ASN row =? 0) then
    if negb (bool_decide (row_ASNOrg row = "")) then
      text ← RightPadAndTrim (row_ASNOrg row) 12; Ok (NewTableCell text)
    else Ok (NewTableCell ("AS" +:+ itoa (row_ASN row)))
  else Ok (NewTableCell "—").

Definition history_cells (h : RowHistory) : list Cell :=
  if HasHistory h then
    [ right_cell (fmt_fixed 2 (SigningRatePct h)); right_cell (itoa (BlocksMissed h));
      right_cell (fmt_fixed 2 (PrevoteRatePct h)); right_cell (fmt_fixed 2 (PrecommitRatePct h));
      right_cell (fmt_fixed 2 (ProposerSharePct h)) ]
  else replicate 5 (right_cell "—").

Definition latency_cells (l : RowLatency) : list Cell :=
  if HasLatency l then
    [ right_cell (Duration_String (AvgPrevoteArrival l)); right_cell (Duration_String (AvgPrecommitArrival l)) ]
  else replicate 2 (right_cell "—").

Definition health_row (disableEmojis : bool) (i : nat) (row : ValidatorHealthRow) : res (list Cell) :=
  moniker ← RightPadAndTrim (row_Moniker row) 20;
  asn ← asn_cell row;
  Ok ([ right_cell (itoa (Z.of_nat i + 1)); NewTableCell moniker; right_cell (fmt_fixed 2 (row_VotingPowerPct row)) ]
        ++ history_cells (row_history row) ++ latency_cells (row_latency row)
        ++ [ asn; NewTableCell (serializeStatus disableEmojis (row_Online row) (row_Equivocated row)) ]).

Definition health_makeCells (disableEmojis : bool) (rows : list ValidatorHealthRow) : res grid :=
  data ← mapM (fun p => health_row disableEmojis p.1 p.2) (imap pair rows);
  Ok (map NewTableCell ["#"; "Moniker"; "VP%"; "Sign%"; "Missed"; "Prevote%"; "Precommit%"; "Prop%"; "ArrPrevote";
                        "ArrPrecommit"; "ASN"; "Status"]
      :: map NewTableCell ["="; "======="; "===="; "====="; "======"; "========"; "=========="; "====="; "==========";
                           "============"; "==="; "======"]
      :: data).

Record ValidatorHealthTableData := mkHealthTable {
  ht_rows : list ValidatorHealthRow; ht_disableEmojis : bool; ht_cells : grid }.
Definition NewValidatorHealthTableData (disableEmojis : bool) : ValidatorHealthTableData := mkHealthTable [] disableEmojis [].
Definition SetRows (rows : list ValidatorHealthRow) (d : ValidatorHealthTableData) : res ValidatorHealthTableData :=
  cells ← health_makeCells (ht_disableEmojis d) rows;
  Ok (mkHealthTable rows (ht_disableEmojis d) cells).
End Tables.

(** ** Facts *)

Section TableFacts.
Context `{BL : ButilsLaws} `{C : Comet}.
Implicit Types (d : LastRoundTableData) (live : RoundDataMap) (v : TMValidator).

(** Every width the table asks for is at least three, so no text can panic. *)
Lemma generate_total d live v : exists t, generateValidatorDisplayText d live v = Ok t.
Proof.
  unfold generateValidatorDisplayText, RightPadAndTrim, LeftPadAndTrim. cbv zeta.
  destruct (PadAndTrim_total (itoa (Index v + 1)) 3 false) as [a ->]; [lia|]. cbn [mbind res_bind].
  destruct (PadAndTrim_total (percent_text (VotingPowerPercent v)) 6 false) as [b ->]; [lia|]. cbn [mbind res_bind].
  match goal with |- context [PadAndTrim ?n 25 true] => destruct (PadAndTrim_total n 25 true) as [c ->]; [lia|] end.
  by eexists.
Qed.

Lemma validator_cell_total d live v : exists c, validator_cell d live v = Ok c.
Proof. unfold validator_cell. destruct (generate_total d live v) as [t ->]. by eexists. Qed.

Lemma table_cell_total d live row col : exists c, table_cell d live row col = Ok c.
Proof. unfold table_cell. destruct (_ !! _); [apply validator_cell_total|by eexists]. Qed.

Lemma last_round_cells d live :
  lr_Error d = None -> (0 < lr_Columns d)%nat ->
  exists cells, last_round_makeCells d live = Ok cells /\ length cells = rows_count d /\
    forall row col, (row < rows_count d)%nat -> (col < lr_Columns d)%nat ->
      exists c, GetCell cells row col = Some c /\ table_cell d live row col = Ok c.
Proof.
  intros He Hc. unfold last_round_makeCells. rewrite He. destruct (lr_Columns d) as [|n] eqn:En; [lia|].
  set (f := fun row col => ok_default (NewTableCell "") (table_cell d live row col)).
  assert (Hf : forall row col, table_cell d live row col = Ok (f row col)).
  { intros row col. unfold f. by destruct (table_cell_total d live row col) as [c ->]. }
  exists ((fun row => f row <$> seq 0 (S n)) <$> seq 0 (rows_count d)). split_and!.
  - apply mapM_res_Ok. intros row _. apply mapM_res_Ok. intros col _. apply Hf.
  - by rewrite length_fmap, length_seq.
  - intros row col Hr Hcol. exists (f row col). split; [|apply Hf].
    assert (E : ((fun row => f row <$> seq 0 (S n)) <$> seq 0 (rows_count d)) !! row = Some (f row <$> seq 0 (S n)))
      by (rewrite list_lookup_fmap, lookup_seq_lt by done; done).
    unfold GetCell. rewrite E, list_lookup_fmap, lookup_seq_lt by done. done.
Qed.

Lemma rows_count_enough d i : (0 < lr_Columns d)%nat -> (i < length (lr_Validators d))%nat ->
  (i / lr_Columns d < rows_count d)%nat /\ (i mod lr_Columns d < lr_Columns d)%nat /\ (i < rows_count d * lr_Columns d)%nat.
Proof.
  intros Hc Hi. unfold rows_count. set (c := lr_Columns d) in *. set (n := length _) in *.
  pose proof (Nat.div_mod_eq n c) as Hn. pose proof (Nat.mod_upper_bound n c ltac:(lia)).
  pose proof (Nat.div_mod_eq i c). pose proof (Nat.mod_upper_bound i c ltac:(lia)).
  destruct (Nat.eqb_spec (n mod c) 0) as [E|E].
  - rewrite E in Hn. split_and!; [apply Nat.Div0.div_lt_upper_bound; lia|done|lia].
  - split_and!; [apply Nat.Div0.div_lt_upper_bound; lia|done|lia].
Qed.

Lemma redraw_shows_all d live
    (He : lr_Error d = None) (Hc : (0 < lr_Columns d)%nat)
    (Hset : lr_Transpose d = true -> GetRowCount (lr_cells d) = rows_count d) :
  exists d', redrawData live d = Ok d' /\ GetRowCount (lr_cells d') = rows_count d /\
    forall i v, lr_Validators d !! i = Some v -> exists cell,
      validator_cell d live v = Ok cell /\
      GetCell (lr_cells d')
        (if lr_Transpose d then i mod rows_count d else i / lr_Columns d)%nat
        (if lr_Transpose d then i / rows_count d else i mod lr_Columns d)%nat = Some cell.
Proof.
  destruct (last_round_cells d live He Hc) as (cells & Hm & Hl & Hcell).
  unfold redrawData. rewrite Hm. cbn. eexists. split; [done|]. cbn. split; [exact Hl|].
  intros i v Hv. pose proof (lookup_lt_Some _ _ _ Hv) as Hi.
  destruct (rows_count_enough d i Hc Hi) as (Hr & Hmod & Hrc).
  destruct (lr_Transpose d) eqn:Et.
  - assert (Hrows : (0 < rows_count d)%nat) by lia.
    destruct (Hcell (i mod rows_count d)%nat (i / rows_count d)%nat) as (c & Hg & Hok).
    + apply Nat.mod_upper_bound. lia.
    + apply Nat.Div0.div_lt_upper_bound. lia.
    + unfold table_cell, cell_index in Hok. rewrite Et, Hset in Hok by done.
      replace (i / rows_count d * rows_count d + i mod rows_count d)%nat with i in Hok
        by (pose proof (Nat.div_mod_eq i (rows_count d)); lia).
      rewrite Hv in Hok. by exists c.
  - destruct (Hcell (i / lr_Columns d)%nat (i mod lr_Columns d)%nat Hr Hmod) as (c & Hg & Hok).
    unfold table_cell, cell_index in Hok. rewrite Et in Hok.
    replace (i / lr_Columns d * lr_Columns d + i mod lr_Columns d)%nat with i in Hok
      by (pose proof (Nat.div_mod_eq i (lr_Columns d)); lia).
    rewrite Hv in Hok. by exists c.
Qed.

(** A redraw never panics and shows every validator: row by row, or, transposed,
    column by column, provided the grid on screen already has the right number of
    rows. *)
Theorem last_round_shows_all d live
    (He : lr_Error d = None) (Hc : (0 < lr_Columns d)%nat)
    (Hset : lr_Transpose d = true -> GetRowCount (lr_cells d) = rows_count d) :
  exists d', redrawData live d = Ok d' /\ GetRowCount (lr_cells d') = rows_count d /\
    forall i v, lr_Validators d !! i = Some v -> exists cell,
      validator_cell d live v = Ok cell /\
      GetCell (lr_cells d')
        (if lr_Transpose d then i mod rows_count d else i / lr_Columns d)%nat
        (if lr_Transpose d then i / rows_count d else i mod lr_Columns d)%nat = Some cell.
Proof. by apply redraw_shows_all. Qed.

(** A redraw changes the grid only, which has all its rows unless there is an error
    or no column. *)
Lemma redraw_total d live : exists cells,
  redrawData live d = Ok (mkLastRound (lr_Validators d) (lr_HasRoundData d) (lr_Height d) (lr_Round d) (lr_Error d)
    (lr_Columns d) (lr_DisableEmojis d) (lr_Transpose d) cells) /\
  (lr_Error d = None -> (0 < lr_Columns d)%nat -> GetRowCount cells = rows_count d).
Proof.
  unfold redrawData. destruct (lr_Error d) as [e|] eqn:He; [unfold last_round_makeCells; rewrite He; by eexists|].
  destruct (lr_Columns d) as [|n] eqn:Hc.
  - unfold last_round_makeCells. rewrite He, Hc. eexists. split; [done|]. cbn. lia.
  - destruct (last_round_cells d live He ltac:(lia)) as (cells & -> & Hl & _). cbn. by eexists.
Qed.

(** The transpose flag of the all-rounds table changes nothing it shows. *)
Lemma transpose_ignored b (d : AllRoundsTableData) live : createCells (ar_SetTranspose b d) live = createCells d live.
Proof. done. Qed.

(** *** All rounds *)

Lemma votes_map_GetVote live hr rd a ty :
  lookup_round live (hr_Height hr) (hr_Round hr) = Some rd ->
  VoteStateFromVotesMap (default ∅ (Votes rd !! a)) ty = GetVote live (hr_Height hr) (hr_Round hr) a ty.
Proof.
  intros Hrd. unfold lookup_round in Hrd. unfold GetVote, VoteStateFromVotesMap, VoteStateFromCometBFT.
  destruct (sm_get (heights live) (hr_Height hr)) as [m|]; [|done]. cbn in Hrd. rewrite Hrd.
  destruct (Votes rd !! a) as [vm|]; cbn; [by destruct (vm !! ty)|]. by rewrite lookup_empty.
Qed.

Lemma reverse_iter_elem live hr rd :
  (hr, rd) ∈ reverse_iter_list live -> lookup_round live (hr_Height hr) (hr_Round hr) = Some rd.
Proof. rewrite reverse_iter, elem_of_reverse. apply iter_elem. Qed.

(** The all-rounds table has one row per validator and one column per round, the
    newest first, all rows equally long; the cell of a validator in a round shows
    the states of its precommit and prevote there, and is highlighted exactly when
    it proposed that round or proposes the current one. *)
Theorem all_rounds_table (d : AllRoundsTableData) live
    (Hrd : ar_RoundData d = true) (Hne : ar_Validators d <> []) :
  exists cells, createCells d live = Ok cells /\
    length cells = S (length (ar_Validators d)) /\
    Forall (fun row => length row = (2 + length (iter_list live))%nat) cells /\
    forall i j v hr, ar_Validators d !! i = Some v -> (reverse_iter_list live).*1 !! j = Some hr ->
      exists cell, GetCell cells (S i) (S (S j)) = Some cell /\
        let vote ty := Serialize (GetVote live (hr_Height hr) (hr_Round hr) (GetDisplayAddress v) ty) (ar_DisableEmojis d) in
        cell_text cell = " " +:+ vote PrecommitType +:+ vote PrevoteType +:+ " " /\
        cell_highlight cell =
          is_proposer (GetProposers live (ar_Height d) (ar_Round d)) v ||
          is_proposer (GetProposers live (hr_Height hr) (hr_Round hr)) v.
Proof.
  unfold createCells, createCells_reads. rewrite Hrd. destruct (ar_Validators d) as [|v0 vals] eqn:Ev; [done|].
  eexists. split; [done|]. assert (Hlen : length (reverse_iter_list live) = length (iter_list live))
    by by rewrite reverse_iter, length_reverse.
  split_and!.
  - cbn [length]. by rewrite length_imap.
  - constructor; [cbn; by rewrite !length_fmap, Hlen|].
    apply Forall_forall. intros row Hin. apply list_elem_of_lookup in Hin as [i Hi].
    rewrite list_lookup_imap in Hi. destruct ((v0 :: vals) !! i); [|done]. injection Hi as <-.
    unfold validator_row. cbn. by rewrite length_fmap, Hlen.
  - intros i j v hr Hv Hj. rewrite list_lookup_fmap in Hj.
    destruct (reverse_iter_list live !! j) as [[hr' rd]|] eqn:Ej; [|done]. injection Hj as <-.
    assert (Hin : lookup_round live (hr_Height hr') (hr_Round hr') = Some rd).
    { apply reverse_iter_elem. by eapply list_elem_of_lookup_2. }
    eexists. split.
    + unfold GetCell. rewrite lookup_cons_ne_0 by done. cbn [pred]. rewrite list_lookup_imap, Hv. cbn [fmap option_fmap option_map].
      unfold validator_row. rewrite !lookup_cons_ne_0 by done. cbn [pred]. by rewrite list_lookup_fmap, Ej.
    + cbn. rewrite !(votes_map_GetVote live hr' rd) by done. split; [done|].
      rewrite orb_false_r, GetProposers_at, GetProposers_at, Hin. done.
Qed.

(** The cell a round's votes are shown in. *)
Definition round_cell_at (d : AllRoundsTableData) (proposers live : RoundDataMap) (v : TMValidator) (hr : HeightAndRound) : option Cell :=
  (fun rd => round_cell (ar_DisableEmojis d) (is_proposer (GetProposers proposers (ar_Height d) (ar_Round d)) v) v (hr, rd))
    <$> lookup_round live (hr_Height hr) (hr_Round hr).

Lemma validator_row_cell (d : AllRoundsTableData) (proposers live : RoundDataMap) i v j hr :
  (reverse_iter_list live).*1 !! j = Some hr ->
  validator_row d (GetProposers proposers (ar_Height d) (ar_Round d)) live i v !! S (S j) =
  round_cell_at d proposers live v hr.
Proof.
  intros Hj. rewrite list_lookup_fmap in Hj. destruct (reverse_iter_list live !! j) as [[hr' rd]|] eqn:Ej; [|done].
  injection Hj as <-. unfold validator_row, round_cell_at. rewrite !lookup_cons_ne_0 by done. cbn [pred].
  rewrite list_lookup_fmap, Ej. cbn. by rewrite (reverse_iter_elem live hr' rd) by (by eapply list_elem_of_lookup_2).
Qed.

(** The table is not drawn from one state of the votes.  When the first vote of
    a later round arrives after the header was read, every row has one column more
    than the header, and each older round stands one column to the right of its
    header: under the header of a round it is not. *)
Theorem late_round_shifts_rows (d : AllRoundsTableData) (header : RoundDataMap) height round a t b
    (Hrd : ar_RoundData d = true)
    (Hlater : forall hr, hr ∈ (iter_list header).*1 -> hr_lt hr (mkHR height round)) :
  let later := AddVote header height round a t b in
  forall i v, ar_Validators d !! i = Some v ->
  exists cells, createCells_reads d header header (fun _ => later) = Ok cells /\
    (exists row, cells !! S i = Some row /\ length row = S (GetColumnCount cells)) /\
    GetCell cells (S i) 2 = round_cell_at d header later v (mkHR height round) /\
    forall j hr, (reverse_iter_list header).*1 !! j = Some hr ->
      GetCell cells 0 (S (S j)) = Some (round_header hr) /\
      GetCell cells (S i) (S (S (S j))) = round_cell_at d header later v hr.
Proof.
  intros later i v Hv.
  assert (Hkeys : (reverse_iter_list later).*1 = mkHR height round :: (reverse_iter_list header).*1).
  { rewrite !reverse_iter, !fmap_reverse. unfold later. rewrite iter_keys_later by done. by rewrite reverse_app. }
  assert (Hlen : length (reverse_iter_list later) = S (length (reverse_iter_list header))).
  { apply (f_equal length) in Hkeys. cbn in Hkeys. by rewrite !length_fmap in Hkeys. }
  unfold createCells_reads. rewrite Hrd. destruct (ar_Validators d) as [|v0 vals] eqn:Ev; [done|].
  eexists. split; [reflexivity|]. unfold GetCell. rewrite lookup_cons_ne_0 by done. cbn [pred].
  rewrite list_lookup_imap, Hv. cbn [fmap option_fmap option_map]. split; [|split].
  - eexists. split; [reflexivity|]. unfold validator_row. cbn. by rewrite !length_fmap, Hlen.
  - apply (validator_row_cell d header later i v 0). by rewrite Hkeys.
  - intros j hr Hj. split.
    + change ((round_header <$> (reverse_iter_list header).*1) !! j = Some (round_header hr)). by rewrite list_lookup_fmap, Hj.
    + apply (validator_row_cell d header later i v (S j)). rewrite Hkeys. exact Hj.
Qed.

(** *** Validator health *)

Lemma health_row_total e i row : exists r, health_row e i row = Ok r /\ length r = 12%nat.
Proof.
  unfold health_row, asn_cell, RightPadAndTrim.
  destruct (PadAndTrim_total (row_Moniker row) 20 false) as [m ->]; [lia|]. cbn [mbind res_bind].
  destruct (PadAndTrim_total (row_ASNOrg row) 12 false) as [o ->]; [lia|].
  destruct (negb (row_ASN row =? 0)), (negb (bool_decide (row_ASNOrg row = ""))); cbn [mbind res_bind];
    (eexists; split; [done|]); unfold history_cells, latency_cells;
    destruct (HasHistory _), (HasLatency _); done.
Qed.

(** The health table never panics and is a rectangle of twelve columns. *)
Lemma health_table_rectangular e rows :
  exists cells, health_makeCells e rows = Ok cells /\ length cells = (2 + length rows)%nat /\
    Forall (fun r => length r = 12%nat) cells.
Proof.
  unfold health_makeCells.
  rewrite (mapM_res_Ok _ (fun p => ok_default [] (health_row e p.1 p.2))).
  - cbn [mbind res_bind]. eexists. split; [done|]. split; [cbn [length]; by rewrite length_fmap, length_imap|].
    do 2 (constructor; [done|]). apply Forall_fmap, Forall_true. intros p. cbn.
    by destruct (health_row_total e p.1 p.2) as (r & -> & Hr).
  - intros p _. by destruct (health_row_total e p.1 p.2) as (r & -> & _).
Qed.
End TableFacts.

(** ** Concrete tables *)

Section TableExamples.
Definition demo_validator (i : nat) : TMValidator :=
  mkTMValidator (Some (mkCometValidator (itoa (Z.of_nat i)) None 10)) None (Z.of_nat i) (Some (Fin 5)) "".
Definition demo_live : RoundDataMap :=
  AddProposer (AddVote NewRoundDataMap 12345 0 (GetDisplayAddress (demo_validator 0)) PrevoteType
    (mkBlockID "H" (mkPSH 1 "P"))) 12345 0 (GetDisplayAddress (demo_validator 1)).

(** Six validators in two columns, on screen, and then in three columns. *)
Definition demo_table (transpose : bool) : LastRoundTableData :=
  ok_default (NewLastRoundTableData 2 true transpose)
    (d ← lr_SetTMValidators demo_live (demo_validator <$> seq 0 6) None (NewLastRoundTableData 2 true transpose);
     lr_SetCurrentRound demo_live 12345 0 d).

Lemma last_round_shows_all_witness :
  exists d', redrawData demo_live (demo_table false) = Ok d' /\ GetRowCount (lr_cells d') = 3%nat /\
    exists cell, GetCell (lr_cells d') 1 1 = Some cell /\ validator_cell (demo_table false) demo_live (demo_validator 3) = Ok cell.
Proof.
  destruct (last_round_shows_all (demo_table false) demo_live) as (d' & Hd & Hr & Hv);
    [vm_compute; reflexivity|vm_compute; lia|vm_compute; discriminate|].
  exists d'. split; [exact Hd|]. split; [exact Hr|].
  destruct (Hv 3%nat (demo_validator 3)) as (cell & Hc & Hg); [vm_compute; reflexivity|].
  exists cell. split; [exact Hg|exact Hc].
Defined.

(** Transposed, a change of the column count lays the cells out with the row count
    of the old grid: the first redraw leaves validators out. *)
Definition shown (d : LastRoundTableData) (v : TMValidator) : bool :=
  match validator_cell d demo_live v with
  | Ok c => existsb (existsb (fun x => bool_decide (cell_text x = cell_text c))) (lr_cells d)
  | _ => false
  end.
Definition demo_settled : LastRoundTableData := ok_default (demo_table true) (redrawData demo_live (demo_table true)).
Definition demo_widened : LastRoundTableData :=
  ok_default (demo_table true) (lr_SetColumnsCount demo_live 3 demo_settled).

Lemma transpose_drops_validators :
  shown demo_settled <$> (demo_validator <$> seq 0 6) = [true; true; true; true; true; true] /\
  shown demo_widened <$> (demo_validator <$> seq 0 6) = [true; true; false; true; true; false].
Proof. vm_compute. split; reflexivity. Qed.

Definition demo_all : AllRoundsTableData :=
  ar_SetRoundData (ar_SetCurrentRound 12345 0 (ar_SetTMValidators (demo_validator <$> seq 0 2) 12345 (NewAllRoundsTableData true false))).

Lemma all_rounds_table_witness :
  exists cells, createCells demo_all demo_live = Ok cells /\ length cells = 3%nat.
Proof.
  destruct (all_rounds_table demo_all demo_live) as (cells & Hc & Hl & _); [reflexivity|discriminate|].
  exists cells. split; [exact Hc|exact Hl].
Defined.

(** The state of height 12345 seen by the header, a vote of height 12346 before the rows. *)
Lemma late_round_shifts_rows_witness :
  exists cells, createCells_reads demo_all demo_live demo_live (fun _ => AddVote demo_live 12346 0 "V" 1 zero_BlockID) = Ok cells /\
    GetCell cells 0 2 = Some (round_header (mkHR 12345 0)) /\
    GetCell cells 1 3 = round_cell_at demo_all demo_live (AddVote demo_live 12346 0 "V" 1 zero_BlockID) (demo_validator 0) (mkHR 12345 0).
Proof.
  destruct (late_round_shifts_rows demo_all demo_live 12346 0 "V" 1 zero_BlockID) with (i := 0%nat) (v := demo_validator 0)
    as (cells & H1 & _ & _ & H2); [reflexivity| |reflexivity|].
  - intros hr Hin. vm_compute in Hin. apply list_elem_of_singleton in Hin as ->. left. vm_compute. reflexivity.
  - exists cells. split; [exact H1|]. apply (H2 0%nat (mkHR 12345 0)). vm_compute. reflexivity.
Defined.

Example all_rounds_header :
  (map cell_text <$> head (ok_default [] (createCells demo_all demo_live))) = Some ["Validator"; ""; "2345.0"].
Proof. vm_compute. reflexivity. Qed.
End TableExamples.
