(* ===== verification/Panels.v ===== *)
(** * The panels of the terminal ([pkg/display])

    The progress bars, the consensus and chain blocks and the network-health panel,
    as the texts the code builds.  The clock is an argument, read once per panel
    where two readings only differ by the time between them; [SerializeTime] is
    [time.Format] in the configured zone, a parameter.  Labels are ASCII. *)

From S2P Require Import Prelude GoNum GoText GoTime Deps Rounds Types MetricTypes State Utils.
From Stdlib Require Import Ascii Lqa.
Local Open Scope Z_scope.

Definition newline : string := String (ascii_of_nat 10) EmptyString.

(** ** [ProgressBar] *)

Record ProgressBar := mkProgressBar { Width : Z; Height : Z; Progress : Z; Prefix : string }.

Definition percent_label (p : ProgressBar) : string := Prefix p +:+ " " +:+ itoa (Progress p) +:+ "%".

(** [int(float64(index) / float64(p.Width) * 100)] *)
Definition bar_percent (width index : Z) : Z :=
  f_int64 (f64_mul (f64_div (f64_of_Z index) (f64_of_Z width)) (Fin 100)).

Definition is_colored (p : ProgressBar) (index : Z) : bool := bar_percent (Width p) index <=? Progress p.

Definition bar_format (p : ProgressBar) (index : Z) : string :=
  "[white:" +:+ (if is_colored p index then "green" else "-") +:+ "]".

Definition label_char (p : ProgressBar) (lineIndex index : Z) : string :=
  let text := percent_label p in
  let start := go_div (Width p - Z.of_nat (slen text)) 2 in
  let line := go_div (Height p + 1) 2 - 1 in
  if (lineIndex =? line) && (start <=? index) && (index <? start + Z.of_nat (slen text))
  then match String.get (Z.to_nat (index - start)) text with Some c => String c EmptyString | None => "" end
  else " ".

(** One column: the format is written when it changes. *)
Definition bar_step (p : ProgressBar) (lineIndex : Z) (acc : string * string) (index : Z) : string * string :=
  let '(line, format) := acc in
  let newFormat := bar_format p index in
  let line := if bool_decide (format = newFormat) then line else line +:+ newFormat in
  (line +:+ label_char p lineIndex index, newFormat).

Definition indices (n : Z) : list Z := Z.of_nat <$> seq 0 (Z.to_nat n).

Definition bar_line (p : ProgressBar) (lineIndex : Z) : string :=
  (foldl (bar_step p lineIndex) ("", "") (indices (Width p))).1.

(** [ProgressBar.Serialize] *)
Definition ProgressBar_Serialize (p : ProgressBar) : string :=
  foldl (fun sb lineIndex => sb +:+ bar_line p lineIndex +:+ newline) "" (indices (Height p)).

Section StatePanels.
Context `{B : Butils} `{C : Comet}.
Implicit Types (s : State).

(** Both bars, from the percentage the state computes. *)
Definition bar_of (prefix : string) (percent : res gofloat) (vals : list TMValidator) (width height : Z) : res string :=
  match vals with
  | [] => Ok ""
  | _ =>
      p ← percent;
      Ok (ProgressBar_Serialize (mkProgressBar width height (f_int64 (big_Float64 p)) prefix))
  end.
Definition SerializePrevotesProgressbar (s : State) (width height : Z) : res string :=
  bar_of "Prevotes: " (GetTotalVotingPowerPrevotedPercent s true) (GetTMValidators s) width height.
Definition SerializePrecommitsProgressbar (s : State) (width height : Z) : res string :=
  bar_of "Precommits: " (GetTotalVotingPowerPrecommittedPercent s true) (GetTMValidators s) width height.

(** ** The consensus and chain blocks *)

Context (SerializeTime : Z -> string).

(** [time.Since] and [time.Until] *)
Definition since (now t : Z) : Z := time_Sub now t.
Definition until (now t : Z) : Z := time_Sub t now.

Definition SerializeConsensus (now : Z) (s : State) : res string :=
  match GetConsensusStateError s with
  | Some err => Ok (" consensus state error: " +:+ err)
  | None =>
      match GetTMValidators s with
      | [] => Ok ""
      | _ =>
          let '(height, round, step, startTime) := GetConsensusHeight s in
          pv_total ← GetTotalVotingPowerPrevotedPercent s true;
          pv_agreeing ← GetTotalVotingPowerPrevotedPercent s false;
          pc_total ← GetTotalVotingPowerPrecommittedPercent s true;
          pc_agreeing ← GetTotalVotingPowerPrecommittedPercent s false;
          Ok (" height=" +:+ itoa height +:+ " round=" +:+ itoa round +:+ " step=" +:+ itoa step +:+ newline
            +:+ " block time: " +:+ Duration_String (ZeroOrPositiveDuration (SerializeDuration (since now startTime)))
            +:+ " (" +:+ SerializeTime startTime +:+ ")" +:+ newline
            +:+ " prevote consensus (total/agreeing): " +:+ fmt_fixed 2 pv_total +:+ " / " +:+ fmt_fixed 2 pv_agreeing +:+ newline
            +:+ " precommit consensus (total/agreeing): " +:+ fmt_fixed 2 pc_total +:+ " / " +:+ fmt_fixed 2 pc_agreeing +:+ newline
            +:+ " last updated at: " +:+ SerializeTime now +:+ newline)
      end
  end.

(** [serializeUpgradeInfo]: the clock readings of the estimate and of [Since] or [Until]. *)
Inductive upgrade_phase := UpgradeInProgress | UpgradeApplied | UpgradeScheduled.

Definition phase_of (upgrade : Upgrade) (height : Z) : upgrade_phase :=
  if int64 (up_Height upgrade + 1) =? height then UpgradeInProgress
  else if int64 (up_Height upgrade + 1) <? height then UpgradeApplied
  else UpgradeScheduled.

Definition serializeUpgradeInfo (now1 now2 : Z) (upgrade : Upgrade) (height blockTime : Z) : string :=
  let upgradeTime := CalculateTimeTillBlock now1 height (up_Height upgrade) blockTime in
  match phase_of upgrade height with
  | UpgradeInProgress => " upgrade in progress..." +:+ newline
  | UpgradeApplied =>
      " chain upgrade " +:+ up_Name upgrade +:+ " applied at block " +:+ itoa (up_Height upgrade) +:+ newline
      +:+ " blocks since upgrade: " +:+ itoa (int64 (height - up_Height upgrade)) +:+ newline
      +:+ (if blockTime =? 0 then ""
           else " time since upgrade: " +:+ Duration_String (SerializeDuration (since now2 upgradeTime)) +:+ newline
                +:+ " upgrade approximate time: " +:+ SerializeTime upgradeTime +:+ newline)
  | UpgradeScheduled =>
      " chain upgrade " +:+ up_Name upgrade +:+ " scheduled at block " +:+ itoa (up_Height upgrade) +:+ newline
      +:+ " blocks till upgrade: " +:+ itoa (int64 (up_Height upgrade - height)) +:+ newline
      +:+ (if blockTime =? 0 then ""
           else " time till upgrade: " +:+ Duration_String (SerializeDuration (until now2 upgradeTime)) +:+ newline
                +:+ " upgrade estimated time: " +:+ SerializeTime upgradeTime +:+ newline)
  end.

Definition SerializeChainInfo (now1 now2 : Z) (s : State) : string :=
  let rpc := CurrentRPC s in
  let blockTime := GetBlockTime s in
  " rpc: " +:+ rpc_URL rpc +:+ newline +:+ " (" +:+ rpc_Moniker rpc +:+ ")" +:+ newline +:+ newline
  +:+ (match GetChainInfoError s with
       | Some err => " chain info fetch error: " +:+ err +:+ newline
       | None =>
           match GetChainInfo s with
           | None => ""
           | Some info =>
               " chain name: " +:+ rs_Network info +:+ newline +:+ " tendermint version: v" +:+ rs_Version info +:+ newline
               +:+ (if blockTime =? 0 then "" else " avg block time: " +:+ Duration_String (SerializeDuration blockTime) +:+ newline)
           end
       end)
  +:+ (match GetUpgradePlanError s with
       | Some err => " upgrade plan fetch error: " +:+ err +:+ newline
       | None =>
           match GetUpgrade s with
           | None => " no chain upgrade scheduled" +:+ newline
           | Some upgrade =>
               let '(height, _, _, _) := GetConsensusHeight s in serializeUpgradeInfo now1 now2 upgrade height blockTime
           end
       end).
End StatePanels.

(** ** The network-health panel *)

Definition dash_int (v : Z) : string := if v =? 0 then "—" else itoa v.

(** A value printed only when it is not zero. *)
Definition or_dash (zero : bool) (text : string) : string := if zero then "—" else text.
Definition f_zero (x : gofloat) : bool := f_eq x f64_zero.

Definition fmtDuration (d : Z) : string := fmt_fixed 1 (Seconds d) +:+ "s".

(** [sparkline]: the level of one interval between the smallest and the largest. *)
Definition min_max (l : list Z) (x : Z) : Z * Z :=
  foldl (fun a d => (if d <? a.1 then d else a.1, if a.2 <? d then d else a.2)) (x, x) l.

Definition nBars : Z := 8.
Definition spark_level (minV maxV d : Z) : Z :=
  if minV <? maxV then
    let ratio := f64_div (f64_of_Z (int64 (d - minV))) (f64_of_Z (int64 (maxV - minV))) in
    let idx := f_int64 (f64_mul ratio (f64_of_Z (nBars - 1))) in
    if nBars <=? idx then nBars - 1 else idx
  else 0.

Definition bars (disableEmojis : bool) : list string :=
  if disableEmojis then ["."; ":"; "-"; "="; "+"; "*"; "#"; "@"]
  else ["▁"; "▂"; "▃"; "▄"; "▅"; "▆"; "▇"; "█"].

(** A level outside the runes panics. *)
Definition spark_bar (disableEmojis : bool) (minV maxV d : Z) : res string :=
  let idx := spark_level minV maxV d in
  if idx <? 0 then Panic else match bars disableEmojis !! Z.to_nat idx with Some r => Ok r | None => Panic end.

Definition sparkline (intervals : list Z) (disableEmojis : bool) : res string :=
  match intervals with
  | [] => Ok ""
  | x :: rest =>
      let '(minV, maxV) := min_max rest x in
      runes ← mapM (spark_bar disableEmojis minV maxV) intervals;
      Ok (join "" runes)
  end.

Definition hosting (i : nat) (asn : ASNShare) : string :=
  "AS" +:+ itoa (as_ASN asn) +:+ " " +:+ as_Description asn +:+ " " +:+ fmt_fixed 1 (as_PowerPct asn) +:+ "%".

(** At most three shares, then an ellipsis. *)
Definition top_hosting (asns : list ASNShare) : string :=
  match asns with
  | [] => ""
  | _ => "   top hosting: " +:+ join " · " (imap hosting (take 3 asns) ++ (if (3 <? length asns)%nat then ["…"] else [])) +:+ newline
  end.

Definition equivocation_line (disableEmojis : bool) (ev : EquivocationEvent) : string :=
  let addr := eq_ValidatorAddress ev in
  let addr := if (8 <? slen addr)%nat then stake 8 addr +:+ "…" else addr in
  "   " +:+ (if disableEmojis then "!" else "⚠") +:+ " equivocation detected (val " +:+ addr +:+ " h=" +:+ itoa (eq_Height ev)
  +:+ " r=" +:+ itoa (eq_Round ev) +:+ " " +:+ eq_VoteType ev +:+ ")" +:+ newline.

(** [fmt_v] is [%v] of a [float64]; a standard deviation outside [int64] is the
    conversion's implementation-defined value, the smallest one.  A value of another
    type in the untyped field counts as absent. *)
Definition SerializeNetworkHealth `{B : Butils} (fmt_v : gofloat -> string) (s : State) (disableEmojis : bool) : res string :=
  match GetNetworkHealth s with
  | None | Some (AnyRows _) => Ok (" network health: computing…" +:+ newline)
  | Some (AnyNetworkHealth nh) =>
      let l := nh_liveness nh in let q := nh_quality nh in let st := nh_steps nh in
      let m := nh_mempool nh in let dz := nh_decentralization nh in
      let status :=
        if ChainHalted l
        then (if disableEmojis then "" else "⚠ ") +:+ "STALLED (" +:+ fmt_fixed 1 (SecondsSinceHeight l) +:+ "s since last height)"
        else "yes" in
      let offline :=
        if 0 <? OfflineCount l
        then itoa (OfflineCount l) +:+ " vals / " +:+ fmt_fixed 1 (OfflinePowerPct l) +:+ "% power"
        else or_dash (f_zero (OfflinePowerPct l)) (fmt_v (OfflinePowerPct l)) in
      let std := default MinInt64 (BlockTimeStdDev q) in
      spark ← (match BlockIntervals q with [] => Ok "" | iv => t ← sparkline iv disableEmojis; Ok (" [" +:+ t +:+ "]") end);
      Ok (" LIVENESS" +:+ newline
        +:+ "   height advancing: " +:+ pad_right 30 status
        +:+ "offline: " +:+ offline +:+ newline
        +:+ "   current round: " +:+ pad_right 33 (dash_int (CurrentMaxRound l)) +:+ newline
        +:+ " CONSENSUS QUALITY" +:+ newline
        +:+ "   rounds/block (avg): " +:+ pad_right 22 (or_dash (f_zero (RoundsPerBlockAvg q)) (fmt_fixed 2 (RoundsPerBlockAvg q)))
        +:+ " round-0 commits: " +:+ or_dash (f_zero (RoundZeroCommitPct q)) (fmt_fixed 1 (RoundZeroCommitPct q) +:+ "%") +:+ newline
        +:+ "   block time: " +:+ or_dash (AvgBlockTime q =? 0) (fmtDuration (AvgBlockTime q))
        +:+ " ± " +:+ or_dash (std =? 0) (fmtDuration std) +:+ spark +:+ newline
        +:+ "   step timing (avg): propose " +:+ or_dash (AvgProposeTime st =? 0) (fmtDuration (AvgProposeTime st))
        +:+ " · prevote " +:+ or_dash (AvgPrevoteTime st =? 0) (fmtDuration (AvgPrevoteTime st))
        +:+ " · precommit " +:+ or_dash (AvgPrecommitTime st =? 0) (fmtDuration (AvgPrecommitTime st)) +:+ newline
        +:+ " MEMPOOL" +:+ newline
        +:+ (if negb (MempoolKnown m) then "   unconfirmed txs: —" +:+ newline
             else "   unconfirmed txs: " +:+ itoa (MempoolTxs m) +:+ " ("
                  +:+ fmt_fixed 0 (f64_div (f64_of_Z (MempoolBytes m)) (Fin 1024)) +:+ " KB)" +:+ newline)
        +:+ " DECENTRALIZATION" +:+ newline
        +:+ "   nakamoto: " +:+ dash_int (Nakamoto33 dz) +:+ " to halt (>⅓) · " +:+ dash_int (Nakamoto66 dz)
        +:+ " to control (>⅔)" +:+ newline
        +:+ "   gini: " +:+ pad_right 12 (or_dash (f_zero (Gini dz)) (fmt_fixed 2 (Gini dz)))
        +:+ " top-10 power: " +:+ or_dash (f_zero (Top10Pct dz)) (fmt_fixed 1 (Top10Pct dz) +:+ "%") +:+ newline
        +:+ top_hosting (TopASNs nh)
        +:+ " SECURITY" +:+ newline
        +:+ (match Equivocations nh with
             | [] => "   no equivocations detected (same-round only)" +:+ newline
             | evs => join "" (equivocation_line disableEmojis <$> evs)
             end))
  end.

(** ** Facts *)

Section PanelFacts.

(** A scaled ratio of exact integers, truncated: between 0 and the scale, and monotone. *)
Definition scaled (a b k : Z) : Z :=
  Qfloor (rnd (Some (-1074)%Z) (rnd (Some (-1074)%Z) (inject_Z a / inject_Z b) * inject_Z k)).

Lemma ratio_range a b : 0 <= a <= b -> 0 < b -> (0 <= inject_Z a / inject_Z b /\ inject_Z a / inject_Z b <= 1)%Q.
Proof.
  intros Ha Hb. assert (H1 : (0 < inject_Z b)%Q) by (change 0%Q with (inject_Z 0); rewrite <-Zlt_Qlt; lia).
  pose proof (inject_nonneg a ltac:(lia)).
  split; [apply Qle_shift_div_l; lra|apply Qle_shift_div_r; [done|]].
  rewrite Qmult_1_l, <-Zle_Qle. lia.
Qed.

(** Rounding against an exact integer. *)
Lemma rnd_le_Z x k : (0 <= x)%Q -> (x <= inject_Z k)%Q -> 0 <= k <= 2 ^ 53 -> (rnd (Some (-1074)%Z) x <= inject_Z k)%Q.
Proof.
  intros Hx Hk Hr. apply (Qle_trans _ (rnd (Some (-1074)%Z) (inject_Z k))); [by apply rnd_le|].
  rewrite rnd_Z by lia. apply Qle_refl.
Qed.
Lemma rnd_eq_Z x k : (0 <= x)%Q -> (x == inject_Z k)%Q -> 0 <= k <= 2 ^ 53 -> (rnd (Some (-1074)%Z) x == inject_Z k)%Q.
Proof.
  intros Hx Hk Hr. apply (Qeq_trans _ (rnd (Some (-1074)%Z) (inject_Z k))); [by apply rnd_eq|]. by apply rnd_Z.
Qed.

Lemma scaled_inner a b k : 0 <= a <= b -> 0 < b -> 0 <= k <= 2 ^ 53 ->
  let r := rnd (Some (-1074)%Z) (inject_Z a / inject_Z b) in
  (0 <= r /\ r <= 1 /\ 0 <= r * inject_Z k /\ r * inject_Z k <= inject_Z k)%Q.
Proof.
  intros Ha Hb Hk r. destruct (ratio_range a b Ha Hb) as [H0 H1]. pose proof (inject_nonneg k ltac:(lia)).
  assert (Hr0 : (0 <= r)%Q) by by apply rnd_nonneg.
  assert (Hr1 : (r <= 1)%Q).
  { by apply (rnd_le_Z _ 1). }
  split_and!; [done|done|nra|nra].
Qed.

Lemma scaled_range a b k : 0 <= a <= b -> 0 < b -> 0 <= k <= 2 ^ 53 -> 0 <= scaled a b k <= k.
Proof.
  intros Ha Hb Hk. destruct (scaled_inner a b k Ha Hb Hk) as (_ & _ & H0 & H1). unfold scaled. split.
  - change 0 with (Qfloor 0). apply Qfloor_resp_le. by apply rnd_nonneg.
  - rewrite <-(Qfloor_Z k) at 2. apply Qfloor_resp_le. by apply rnd_le_Z.
Qed.

Lemma scaled_mono a a' b k : 0 <= a <= a' -> a' <= b -> 0 < b -> 0 <= k <= 2 ^ 53 -> scaled a b k <= scaled a' b k.
Proof.
  intros Ha Hb Hp Hk. destruct (scaled_inner a b k ltac:(lia) Hp Hk) as (Hr & _ & H0 & _).
  destruct (ratio_range a b ltac:(lia) Hp) as [Hq _]. pose proof (inject_nonneg k ltac:(lia)).
  apply Qfloor_resp_le, rnd_le; [done|]. apply Qmult_le_compat_r; [|done]. apply rnd_le; [done|].
  apply Qmult_le_compat_r; [rewrite <-Zle_Qle; lia|]. apply Qinv_le_0_compat, inject_nonneg. lia.
Qed.

Lemma scaled_full b k : 0 < b -> 0 <= k <= 2 ^ 53 -> scaled b b k = k.
Proof.
  intros Hb Hk. assert (H1 : (1 <= inject_Z b)%Q) by (change 1%Q with (inject_Z 1); rewrite <-Zle_Qle; lia).
  assert (Hr : (rnd (Some (-1074)%Z) (inject_Z b / inject_Z b) == inject_Z 1)%Q).
  { apply rnd_eq_Z; [apply (ratio_range b b); lia|change (inject_Z 1) with 1%Q; field; lra|lia]. }
  destruct (scaled_inner b b k ltac:(lia) Hb Hk) as (_ & _ & H0 & _).
  unfold scaled. rewrite <-(Qfloor_Z k) at 2. apply Qfloor_comp, rnd_eq_Z; [done| |done].
  rewrite Hr. change (inject_Z 1) with 1%Q. ring.
Qed.

Lemma scaled_zero b k : 0 < b -> 0 <= k <= 2 ^ 53 -> scaled 0 b k = 0.
Proof.
  intros Hb Hk. assert (Hr : (rnd (Some (-1074)%Z) (inject_Z 0 / inject_Z b) == inject_Z 0)%Q).
  { apply rnd_eq_Z; [apply (ratio_range 0 b); lia|unfold Qdiv; change (inject_Z 0) with 0%Q; ring|lia]. }
  destruct (scaled_inner 0 b k ltac:(lia) Hb Hk) as (_ & _ & H0 & _).
  unfold scaled. rewrite <-(Qfloor_Z 0). apply Qfloor_comp, rnd_eq_Z; [done| |lia].
  rewrite Hr. change (inject_Z 0) with 0%Q. ring.
Qed.

Lemma scaled_code x y z a b k :
  f_is x a -> f_is y b -> f_is z k -> 0 <= a <= b -> 0 < b <= 2 ^ 53 -> 0 <= k <= 2 ^ 53 ->
  f_int64 (f64_mul (f64_div x y) z) = scaled a b k.
Proof.
  intros Hx Hy (kq & -> & Hkq) Ha Hb Hk.
  destruct (f_is_div x y a b Hx Hy) as (q & -> & Hq); [lia..|].
  destruct (scaled_inner a b k Ha ltac:(lia) Hk) as (Hr0 & _ & H0 & H1).
  cbn [f_mul]. assert (Hqk : (q * kq == rnd (Some (-1074)%Z) (inject_Z a / inject_Z b) * inject_Z k)%Q) by by rewrite Hq, Hkq.
  assert (Hqk0 : (0 <= q * kq)%Q) by by rewrite Hqk.
  assert (f64_round (q * kq) = Fin (rnd (Some (-1074)%Z) (q * kq))) as ->.
  { apply f64_round_small; [done|]. rewrite Hqk. eapply Qle_lt_trans; [exact H1|].
    apply (Qle_lt_trans _ (two_pow 53)); [rewrite two_pow_nonneg by done; rewrite <-Zle_Qle; lia|].
    by apply two_pow_lt_check; vm_compute. }
  assert (Hf : Qfloor (rnd (Some (-1074)%Z) (q * kq)) = scaled a b k) by (apply Qfloor_comp, rnd_eq; done).
  assert (Hrn : (0 <= rnd (Some (-1074)%Z) (q * kq))%Q) by by apply rnd_nonneg.
  unfold f_int64, f_to_int64, Qtrunc. rewrite (proj2 (Qle_bool_iff _ _) Hrn), Hf.
  pose proof (scaled_range a b k Ha ltac:(lia) Hk).
  unfold MinInt64, MaxInt64. destruct (Z.leb_spec (- 2 ^ 63) (scaled a b k)), (Z.leb_spec (scaled a b k) (2 ^ 63 - 1)); try lia. done.
Qed.

(** The coloured part of a bar is a prefix of its columns, empty only for a
    negative progress and the whole bar from a progress of 100 on. *)
Theorem bar_is_prefix p i j
    (Hw : 0 < Width p <= 2 ^ 53) (Hij : 0 <= i <= j) (Hj : j < Width p) :
  (is_colored p j = true -> is_colored p i = true) /\
  is_colored p 0 = (0 <=? Progress p) /\ (100 <= Progress p -> is_colored p j = true).
Proof.
  assert (Hb : forall x, 0 <= x < Width p -> bar_percent (Width p) x = scaled x (Width p) 100).
  { intros x Hx. apply scaled_code; [by apply f64_of_Z_exact; lia..|by exists 100%Q|lia|lia|lia]. }
  unfold is_colored. rewrite !Hb by lia. rewrite scaled_zero by lia.
  pose proof (scaled_mono i j (Width p) 100 ltac:(lia) ltac:(lia) ltac:(lia) ltac:(lia)).
  pose proof (scaled_range j (Width p) 100 ltac:(lia) ltac:(lia) ltac:(lia)).
  rewrite !Z.leb_le. split_and!; [lia|done|lia].
Qed.

(** The sparkline maps intervals between the smallest and the largest to the eight
    bars monotonically, the smallest to the lowest and the largest to the highest;
    no interval falls outside the bars. *)
Theorem spark_level_scale minV maxV d e
    (Hmin : 0 <= minV) (Hmax : maxV - minV <= 2 ^ 53) (Hfit : maxV <= MaxInt64)
    (Hd : minV <= d <= e) (He : e <= maxV) :
  0 <= spark_level minV maxV d <= spark_level minV maxV e /\ spark_level minV maxV e < nBars /\
  (minV < maxV -> spark_level minV maxV minV = 0 /\ spark_level minV maxV maxV = nBars - 1).
Proof.
  unfold spark_level. destruct (Z.ltb_spec minV maxV) as [Hlt|]; [|unfold nBars; lia].
  assert (Hs : forall x, minV <= x <= maxV ->
    f_int64 (f64_mul (f64_div (f64_of_Z (int64 (x - minV))) (f64_of_Z (int64 (maxV - minV)))) (f64_of_Z (nBars - 1))) =
    scaled (x - minV) (maxV - minV) 7).
  { intros x Hx. rewrite !int64_id by go_lia.
    apply scaled_code; [apply f64_of_Z_exact; lia..|by apply f64_of_Z_exact|lia|lia|lia]. }
  cbv zeta. rewrite !Hs by lia. rewrite Z.sub_diag, scaled_zero, scaled_full by lia.
  pose proof (scaled_mono (d - minV) (e - minV) (maxV - minV) 7 ltac:(lia) ltac:(lia) ltac:(lia) ltac:(lia)).
  pose proof (scaled_range (d - minV) (maxV - minV) 7 ltac:(lia) ltac:(lia) ltac:(lia)).
  pose proof (scaled_range (e - minV) (maxV - minV) 7 ltac:(lia) ltac:(lia) ltac:(lia)).
  unfold nBars. repeat match goal with |- context [8 <=? ?x] => destruct (Z.leb_spec 8 x); [lia|] end. lia.
Qed.

(** The phase of an upgrade, without overflow. *)
Lemma phase_of_spec u height : 0 <= up_Height u < MaxInt64 ->
  match phase_of u height with
  | UpgradeInProgress => height = up_Height u + 1
  | UpgradeApplied => up_Height u + 1 < height
  | UpgradeScheduled => height <= up_Height u
  end.
Proof.
  intros Hu. unfold phase_of. rewrite int64_id by go_lia.
  destruct (Z.eqb_spec (up_Height u + 1) height); [lia|].
  destruct (Z.ltb_spec (up_Height u + 1) height); lia.
Qed.
End PanelFacts.

Section PanelExamples.
Lemma bar_is_prefix_witness :
  is_colored (mkProgressBar 40 1 50 "Prevotes: ") 20 = true /\ is_colored (mkProgressBar 40 1 50 "Prevotes: ") 7 = true.
Proof.
  assert (H : is_colored (mkProgressBar 40 1 50 "Prevotes: ") 20 = true) by (vm_compute; reflexivity).
  split; [exact H|]. exact (proj1 (bar_is_prefix (mkProgressBar 40 1 50 "Prevotes: ") 7 20
    ltac:(cbn; lia) ltac:(lia) ltac:(cbn; lia)) H).
Defined.

Lemma spark_level_scale_witness :
  spark_level (2 * Second) (9 * Second) (2 * Second) = 0 /\ spark_level (2 * Second) (9 * Second) (9 * Second) = 7.
Proof.
  apply (spark_level_scale (2 * Second) (9 * Second) (3 * Second) (4 * Second)); unfold Second, MaxInt64; lia.
Defined.

Example bar_ex :
  bar_line (mkProgressBar 6 1 33 "p") 0 = "[white:green]p 3[white:-]3% ".
Proof. vm_compute. reflexivity. Qed.
Example sparkline_ex : sparkline [1; 5; 8; 2] true = Ok ".+@:".
Proof. vm_compute. reflexivity. Qed.
End PanelExamples.
