(* ===== verification/Wrapper.v ===== *)
(** * The terminal interface ([pkg/display/wrapper.go])

    The keys, the modes, the layout and what [SetState] puts on screen.  The terminal
    library is an interface with its documented laws: a grid is the list of its
    items, [RemoveItem] removes every item of a widget, pages are known by name. *)

From S2P Require Import Prelude GoNum GoText GoTime Deps Rounds Types MetricTypes State Utils Tables Panels.
From Stdlib Require Import Ascii.
Local Open Scope Z_scope.

Inductive Widget :=
  | ConsensusInfoTextView | ChainInfoTextView | ProgressTextView | DebugTextView
  | LastRoundTable | AllRoundsTable | NetInfoTable | ValidatorHealthTable | NetworkHealthTextView
  | RPCsTable | HelpModal.
#[export] Instance Widget_eq : EqDecision Widget.
Proof. solve_decision. Defined.

Record GridItem := mkGridItem { gi_item : Widget; gi_row : Z; gi_column : Z; gi_rowSpan : Z; gi_colSpan : Z }.
#[export] Instance GridItem_eq : EqDecision GridItem.
Proof. solve_decision. Defined.

(** What the code uses of [tview]. *)
Class Tview := {
  Grid : Type;
  grid_New : Grid;
  grid_AddItem : GridItem -> Grid -> Grid;
  grid_RemoveItem : Widget -> Grid -> Grid;
  grid_items : Grid -> list GridItem;
  Pages : Type;
  pages_New : Pages;
  pages_AddPage : string -> Pages -> Pages;
  pages_RemovePage : string -> Pages -> Pages;
  pages_HasPage : Pages -> string -> bool }.

Class TviewLaws (V : Tview) : Prop := {
  items_New : grid_items grid_New = [];
  items_Add : forall i g, grid_items (grid_AddItem i g) = grid_items g ++ [i];
  items_Remove : forall w g, grid_items (grid_RemoveItem w g) = filter (fun i => gi_item i <> w) (grid_items g);
  has_New : forall n, pages_HasPage pages_New n = false;
  has_Add : forall n p m, pages_HasPage (pages_AddPage n p) m = bool_decide (n = m) || pages_HasPage p m;
  has_Remove : forall n p m, pages_HasPage (pages_RemovePage n p) m = negb (bool_decide (n = m)) && pages_HasPage p m }.

(** ** State *)

Inductive Mode := ModeLastRound | ModeAllRounds | ModeNetInfo | ModeValidatorHealth | ModeNetworkHealth.
Definition DefaultColumnsCount : nat := 3.
Definition RowsAmount : Z := 10.
Definition DebugBlockHeight : Z := 8.
Definition DefaultMode : Mode := ModeAllRounds.

(** The fields [Redraw] reads. *)
Record View := mkView {
  InfoBlockWidth : Z; w_Mode : Mode; DebugEnabled : bool; IsRPCListDisplayed : bool; IsHelpDisplayed : bool }.

Record Texts := mkTexts { t_consensus : string; t_chain : string; t_progress : string; t_health : string; t_debug : string }.

Section Wrapper.
Context `{B : Butils} `{C : Comet} `{V : Tview}.
Context (SerializeTime : Z -> string) (fmt_v : gofloat -> string).
Context (sort : (Peer -> Peer -> Z) -> list Peer -> list Peer).

Record Screen := mkScreen { sc_Grid : Grid; sc_Pages : Pages; sc_Focus : Widget; sc_RPCsRect : Z * Z * Z * Z }.

(** [w_Attached]: the last-round table points to the map of the shared state, which
    [SetState] gives it, and no longer to the empty map of its constructor.
    [ColumnsCount] counts key presses: fewer than [2^63] of them. *)
Record Wrapper := mkWrapper {
  LastRoundData : LastRoundTableData;
  AllRoundsData : AllRoundsTableData;
  NetInfoData : NetInfoTableData;
  ValidatorHealthData : ValidatorHealthTableData;
  RPCsData : RPCsTableData;
  w_View : View;
  w_Screen : Screen;
  w_Texts : Texts;
  ColumnsCount : nat;
  w_Transpose : bool;
  w_DisableEmojis : bool;
  w_paused : bool;
  w_Stopped : bool;
  w_Attached : bool;
  w_AfterDraw : bool }.

(** What a handler reads of its surroundings: the shared state, the sizes the
    terminal library computed, the clock. *)
Record UIEnv := mkUIEnv {
  env_State : State;
  env_lastRoundWidth : Z;
  env_pages : Z * Z;
  env_info : Z * Z;
  env_now : Z; env_now1 : Z; env_now2 : Z }.

Definition with_View (f : View -> View) (w : Wrapper) : Wrapper :=
  mkWrapper (LastRoundData w) (AllRoundsData w) (NetInfoData w) (ValidatorHealthData w) (RPCsData w) (f (w_View w))
    (w_Screen w) (w_Texts w) (ColumnsCount w) (w_Transpose w) (w_DisableEmojis w) (w_paused w) (w_Stopped w)
    (w_Attached w) (w_AfterDraw w).
Definition with_Screen (f : Screen -> Screen) (w : Wrapper) : Wrapper :=
  mkWrapper (LastRoundData w) (AllRoundsData w) (NetInfoData w) (ValidatorHealthData w) (RPCsData w) (w_View w)
    (f (w_Screen w)) (w_Texts w) (ColumnsCount w) (w_Transpose w) (w_DisableEmojis w) (w_paused w) (w_Stopped w)
    (w_Attached w) (w_AfterDraw w).
Definition with_LastRound (d : LastRoundTableData) (w : Wrapper) : Wrapper :=
  mkWrapper d (AllRoundsData w) (NetInfoData w) (ValidatorHealthData w) (RPCsData w) (w_View w)
    (w_Screen w) (w_Texts w) (ColumnsCount w) (w_Transpose w) (w_DisableEmojis w) (w_paused w) (w_Stopped w)
    (w_Attached w) (w_AfterDraw w).
Definition with_AllRounds (d : AllRoundsTableData) (w : Wrapper) : Wrapper :=
  mkWrapper (LastRoundData w) d (NetInfoData w) (ValidatorHealthData w) (RPCsData w) (w_View w)
    (w_Screen w) (w_Texts w) (ColumnsCount w) (w_Transpose w) (w_DisableEmojis w) (w_paused w) (w_Stopped w)
    (w_Attached w) (w_AfterDraw w).
Definition with_Texts (t : Texts) (w : Wrapper) : Wrapper :=
  mkWrapper (LastRoundData w) (AllRoundsData w) (NetInfoData w) (ValidatorHealthData w) (RPCsData w) (w_View w)
    (w_Screen w) t (ColumnsCount w) (w_Transpose w) (w_DisableEmojis w) (w_paused w) (w_Stopped w)
    (w_Attached w) (w_AfterDraw w).
(** The column count, the transpose, pause, stop and after-draw flags. *)
Definition with_flags (columns : nat) (transpose paused stopped afterDraw : bool) (w : Wrapper) : Wrapper :=
  mkWrapper (LastRoundData w) (AllRoundsData w) (NetInfoData w) (ValidatorHealthData w) (RPCsData w) (w_View w)
    (w_Screen w) (w_Texts w) columns transpose (w_DisableEmojis w) paused stopped (w_Attached w) afterDraw.

Definition with_Columns (n : nat) (w : Wrapper) : Wrapper :=
  with_flags n (w_Transpose w) (w_paused w) (w_Stopped w) (w_AfterDraw w) w.

Definition NewWrapper (disableEmojis paused : bool) : Wrapper :=
  mkWrapper (NewLastRoundTableData DefaultColumnsCount disableEmojis false) (NewAllRoundsTableData disableEmojis false)
    NewNetInfoTableData (NewValidatorHealthTableData disableEmojis) NewRPCsTableData
    (mkView 2 DefaultMode false false false)
    (mkScreen grid_New (pages_AddPage "grid" pages_New) LastRoundTable (0, 0, 0, 0))
    (mkTexts "" "" "" "" "") DefaultColumnsCount false disableEmojis paused false false true.

(** ** [Redraw] *)

Definition main_widget (m : Mode) : Widget :=
  match m with
  | ModeLastRound => LastRoundTable
  | ModeAllRounds => AllRoundsTable
  | ModeNetInfo => NetInfoTable
  | ModeValidatorHealth => ValidatorHealthTable
  | ModeNetworkHealth => NetworkHealthTextView
  end.

(** The widgets removed before the new layout is added. *)
Definition removed : list Widget :=
  [ConsensusInfoTextView; ChainInfoTextView; ProgressTextView; LastRoundTable; AllRoundsTable;
   ValidatorHealthTable; NetworkHealthTextView; DebugTextView].

Definition layout (v : View) : list GridItem :=
  let main := main_widget (w_Mode v) in
  [ mkGridItem ConsensusInfoTextView 0 0 (InfoBlockWidth v) 3;
    mkGridItem ChainInfoTextView 0 3 (InfoBlockWidth v) 2;
    mkGridItem ProgressTextView 0 5 (InfoBlockWidth v) 1 ] ++
  if DebugEnabled v
  then [ mkGridItem main (InfoBlockWidth v) 0 (RowsAmount - InfoBlockWidth v - DebugBlockHeight) 6;
         mkGridItem DebugTextView (RowsAmount - DebugBlockHeight) 0 DebugBlockHeight 6 ]
  else [ mkGridItem main (InfoBlockWidth v) 0 (RowsAmount - InfoBlockWidth v) 6 ].

Definition rpc_rect (p : Z * Z) : Z * Z * Z * Z :=
  let '(pwidth, pheight) := p in
  let width := f_int64 (f64_div (f64_of_Z pwidth) (Fin (5 # 2))) in
  let height := pheight - 8 in
  (go_div (pwidth - width) 2, go_div (pheight - height) 2, width, height).

Definition redraw_screen (env : UIEnv) (v : View) (sc : Screen) : Screen :=
  let main := main_widget (w_Mode v) in
  let g := foldl (fun g w => grid_RemoveItem w g) (sc_Grid sc) removed in
  let g := foldl (fun g i => grid_AddItem i g) g (layout v) in
  let p := if IsHelpDisplayed v then pages_AddPage "modal" (sc_Pages sc) else pages_RemovePage "modal" (sc_Pages sc) in
  if IsRPCListDisplayed v
  then mkScreen g (pages_AddPage "rpclist" p) RPCsTable (rpc_rect (env_pages env))
  else mkScreen g (pages_RemovePage "rpclist" p) main (sc_RPCsRect sc).

Definition Redraw (env : UIEnv) (w : Wrapper) : Wrapper := with_Screen (redraw_screen env (w_View w)) w.

(** ** Keys *)

Definition ToggleDebug (env : UIEnv) (w : Wrapper) : Wrapper :=
  Redraw env (with_View (fun v => mkView (InfoBlockWidth v) (w_Mode v) (negb (DebugEnabled v)) (IsRPCListDisplayed v) (IsHelpDisplayed v)) w).
Definition ToggleRPCList (env : UIEnv) (w : Wrapper) : Wrapper :=
  Redraw env (with_View (fun v => mkView (InfoBlockWidth v) (w_Mode v) (DebugEnabled v) (negb (IsRPCListDisplayed v)) (IsHelpDisplayed v)) w).
Definition ToggleHelp (env : UIEnv) (w : Wrapper) : Wrapper :=
  Redraw env (with_View (fun v => mkView (InfoBlockWidth v) (w_Mode v) (DebugEnabled v) (IsRPCListDisplayed v) (negb (IsHelpDisplayed v))) w).

Definition info_block (increase : bool) (width : Z) : Z :=
  if increase && (width + 1 <=? RowsAmount - DebugBlockHeight - 1) then width + 1
  else if negb increase && (1 <=? width - 1) then width - 1
  else width.
Definition ChangeInfoBlockHeight (env : UIEnv) (increase : bool) (w : Wrapper) : Wrapper :=
  Redraw env (with_View (fun v => mkView (info_block increase (InfoBlockWidth v)) (w_Mode v) (DebugEnabled v)
    (IsRPCListDisplayed v) (IsHelpDisplayed v)) w).

(** What the table's pointer reads. *)
Definition live (env : UIEnv) (w : Wrapper) : RoundDataMap :=
  if w_Attached w then VotesByRound (env_State env) else NewRoundDataMap.

Definition set_columns (env : UIEnv) (n : nat) (w : Wrapper) : res Wrapper :=
  d ← lr_SetColumnsCount (live env w) n (LastRoundData w);
  Ok (with_LastRound d (with_Columns n w)).

Definition next_columns (increase : bool) (n : nat) : nat :=
  if increase then S n else if (1 <=? Z.of_nat n - 1) then (n - 1)%nat else n.
Definition ChangeColumnsCount (env : UIEnv) (increase : bool) (w : Wrapper) : res Wrapper :=
  w ← set_columns env (next_columns increase (ColumnsCount w)) w;
  Ok (Redraw env w).

Definition fit_columns (env : UIEnv) (w : Wrapper) : res Wrapper :=
  if 0 <? env_lastRoundWidth env then
    let columns := go_div (env_lastRoundWidth env) 50 in
    set_columns env (Z.to_nat (if columns <? 1 then 1 else columns)) w
  else Ok w.

Definition next_mode (m : Mode) : Mode :=
  match m with
  | ModeAllRounds => ModeNetInfo
  | ModeNetInfo => ModeValidatorHealth
  | ModeValidatorHealth => ModeNetworkHealth
  | ModeNetworkHealth => ModeLastRound
  | ModeLastRound => ModeAllRounds
  end.
Definition ChangeMode (env : UIEnv) (w : Wrapper) : res Wrapper :=
  let w := Redraw env (with_View (fun v => mkView (InfoBlockWidth v) (next_mode (w_Mode v)) (DebugEnabled v)
    (IsRPCListDisplayed v) (IsHelpDisplayed v)) w) in
  match w_Mode (w_View w) with ModeLastRound => fit_columns env w | _ => Ok w end.

Definition toggle_transpose (env : UIEnv) (w : Wrapper) : res Wrapper :=
  let t := negb (w_Transpose w) in
  d ← lr_SetTranspose (live env w) t (LastRoundData w);
  let w := with_LastRound d (with_AllRounds (ar_SetTranspose t (AllRoundsData w)) w) in
  Ok (with_flags (ColumnsCount w) t (w_paused w) (w_Stopped w) (w_AfterDraw w) w).

Definition when {A} (b : bool) (f : A -> res A) (w : A) : res A := if b then f w else Ok w.
Definition code (c : ascii) : Z := Z.of_nat (nat_of_ascii c).
Record KeyEvent := mkKey { ev_Rune : Z; ev_Tab : bool; ev_CtrlC : bool }.

(** [tview.Application.Stop]: the event loop is asked to end. *)
Definition App_Stop (w : Wrapper) : Wrapper :=
  with_flags (ColumnsCount w) (w_Transpose w) (w_paused w) true (w_AfterDraw w) w.

(** The input capture. *)
Definition on_key (env : UIEnv) (ev : KeyEvent) (w : Wrapper) : res Wrapper :=
  let rune c := ev_Rune ev =? code c in
  if rune "q"%char || ev_CtrlC ev
  then Ok (App_Stop w)
  else
    w ← when (rune "d"%char) (fun w => Ok (ToggleDebug env w)) w;
    w ← when (rune "b"%char) (fun w => Ok (ChangeInfoBlockHeight env true w)) w;
    w ← when (rune "s"%char) (fun w => Ok (ChangeInfoBlockHeight env false w)) w;
    w ← when (rune "h"%char) (fun w => Ok (ToggleHelp env w)) w;
    w ← when (rune "r"%char) (fun w => Ok (ToggleRPCList env w)) w;
    w ← when (rune "m"%char) (ChangeColumnsCount env true) w;
    w ← when (rune "l"%char) (ChangeColumnsCount env false) w;
    w ← when (rune "t"%char) (toggle_transpose env) w;
    w ← when (rune "p"%char)
      (fun w => Ok (with_flags (ColumnsCount w) (w_Transpose w) (negb (w_paused w)) (w_Stopped w) (w_AfterDraw w) w)) w;
    when (ev_Tab ev) (ChangeMode env) w.

(** A row of the RPC list is selected: the new current RPC, and the list closes. *)
Definition on_select (env : UIEnv) (row : nat) (w : Wrapper) : State * Wrapper :=
  let s := env_State env in
  (match RPCAtIndex s row with Some rpc => SetCurrentRPCURL (rpc_URL rpc) s | None => s end, ToggleRPCList env w).

(** The first draw fits the columns, once. *)
Definition after_draw (env : UIEnv) (w : Wrapper) : res Wrapper :=
  if w_AfterDraw w then
    w ← fit_columns env w;
    Ok (with_flags (ColumnsCount w) (w_Transpose w) (w_paused w) (w_Stopped w) false w)
  else Ok w.

(** [Start], up to the event loop. *)
Definition Start (env : UIEnv) (w : Wrapper) : Wrapper :=
  with_Texts (let t := w_Texts w in
    mkTexts (t_consensus t +:+ "Loading...") (t_chain t +:+ "Loading...") (t_progress t +:+ "Loading...") (t_health t) (t_debug t))
    (Redraw env w).

(** The escape sequences that show the cursor, reset the colours, clear the screen,
    move to its corner and leave the alternate buffer; before them a screen of the
    terminal library is opened and closed, its errors dropped. *)
Definition restoreTerminal : string :=
  String.concat "" ((fun code => String "027"%char ("[" +:+ code)) <$> ["?25h"; "0m"; "2J"; "H"; "?1049l"]).

(** What is printed, and the interface asked to end. *)
Definition Stop (w : Wrapper) : string * Wrapper := (restoreTerminal, App_Stop w).
Definition wrapper_cleanup (w : Wrapper) : string * Wrapper := (restoreTerminal, App_Stop w).

(** The end of [Start]: a failed event loop cleans up, a finished one prints nothing. *)
Definition Start_end (run : res unit) (w : Wrapper) : res unit * (string * Wrapper) :=
  match run with Err e => (Err e, wrapper_cleanup w) | r => (r, ("", w)) end.

Definition DebugText (text : string) (w : Wrapper) : Wrapper :=
  with_Texts (let t := w_Texts w in
    mkTexts (t_consensus t) (t_chain t) (t_progress t) (t_health t) (t_debug t +:+ text +:+ newline)) w.

(** [App.DisplayLogs]: the lines a notification brings, in order. *)
Definition DisplayLogs (lines : list string) (w : Wrapper) : Wrapper := foldl (fun w line => DebugText line w) w lines.

(** ** [SetState] *)

Definition state_tables (s : State) (w : Wrapper) : res Wrapper :=
  let validators := GetTMValidators s in
  let '(height, round, _, _) := GetConsensusHeight s in
  let before := if w_Attached w then VotesByRound s else NewRoundDataMap in
  d ← lr_SetTMValidators before validators (GetConsensusStateError s) (LastRoundData w);
  d ← lr_SetRoundData (VotesByRound s) d;
  d ← lr_SetCurrentRound (VotesByRound s) height (int32 round) d;
  let a := ar_SetTMValidators validators height (AllRoundsData w) in
  let a := ar_SetCurrentRound height (int32 round) a in
  let a := ar_SetRoundData a in
  a ← Update (VotesByRound s) a;
  h ← match GetValidatorHealth s with Some (AnyRows rows) => SetRows rows (ValidatorHealthData w) | _ => Ok (ValidatorHealthData w) end;
  Ok (mkWrapper d a (nt_SetNetInfo sort (GetNetInfo s) (NetInfoData w)) h
        (SetKnownRPCs (snd <$> om_entries (KnownRPCs s)) (RPCsData w)) (w_View w) (w_Screen w) (w_Texts w) (ColumnsCount w)
        (w_Transpose w) (w_DisableEmojis w) (w_paused w) (w_Stopped w) true (w_AfterDraw w)).

Definition state_texts (env : UIEnv) (w : Wrapper) : res Texts :=
  let s := env_State env in
  let '(width, height) := env_info env in
  health ← SerializeNetworkHealth fmt_v s (w_DisableEmojis w);
  consensus ← SerializeConsensus SerializeTime (env_now env) s;
  prevotes ← SerializePrevotesProgressbar s width (go_div height 2);
  precommits ← SerializePrecommitsProgressbar s width (go_div height 2);
  Ok (mkTexts consensus (SerializeChainInfo SerializeTime (env_now1 env) (env_now2 env) s)
        (prevotes +:+ newline +:+ precommits) health (t_debug (w_Texts w))).

Definition SetState (env : UIEnv) (w : Wrapper) : res Wrapper :=
  w ← state_tables (env_State env) w;
  t ← state_texts env w;
  Ok (with_Texts t w).

(** ** Runs *)

(** One callback of the terminal library or one queued update. *)
Inductive ui_step : Wrapper -> Wrapper -> Prop :=
  | us_key env ev w w' : on_key env ev w = Ok w' -> ui_step w w'
  | us_select env row w : ui_step w (on_select env row w).2
  | us_draw env w w' : after_draw env w = Ok w' -> ui_step w w'
  | us_state env w w' : SetState env w = Ok w' -> ui_step w w'
  | us_debug text w : ui_step w (DebugText text w)
  | us_stop w : ui_step w (Stop w).2.
Definition ui_run (w w' : Wrapper) : Prop := rtc ui_step w w'.
End Wrapper.

(** ** Facts *)

Section WrapperFacts.
Context `{BL : ButilsLaws} `{C : Comet} `{VL : TviewLaws}.
Context (SerializeTime : Z -> string) (fmt_v : gofloat -> string).
Context (sort : (Peer -> Peer -> Z) -> list Peer -> list Peer).
Implicit Types (env : UIEnv) (w : Wrapper) (v : View) (sc : Screen) (g : Grid).

Lemma bind_Ok_inv {A A'} (m : res A) (f : A -> res A') b : m ≫= f = Ok b -> exists a, m = Ok a /\ f a = Ok b.
Proof. destruct m; [eauto|done..]. Qed.

(** *** The screen *)

Definition main_focus v : Widget := if IsRPCListDisplayed v then RPCsTable else main_widget (w_Mode v).

(** What a screen holds before a redraw: widgets it knows how to remove, and the
    network table, which it does not remove. *)
Definition redrawable sc : Prop :=
  Forall (fun i => gi_item i ∈ NetInfoTable :: removed) (grid_items (sc_Grid sc)) /\ pages_HasPage (sc_Pages sc) "grid" = true.

(** The screen of a view: its layout on top of network tables left behind. *)
Definition screen_shows v sc : Prop :=
  (exists stale, grid_items (sc_Grid sc) = stale ++ layout v /\ Forall (fun i => gi_item i = NetInfoTable) stale) /\
  sc_Focus sc = main_focus v /\ pages_HasPage (sc_Pages sc) "grid" = true /\
  pages_HasPage (sc_Pages sc) "modal" = IsHelpDisplayed v /\ pages_HasPage (sc_Pages sc) "rpclist" = IsRPCListDisplayed v.

(** The network tables in the grid. *)
Definition net_tables sc : nat := length (filter (fun i => gi_item i = NetInfoTable) (grid_items (sc_Grid sc))).

Lemma grid_add_all l g : grid_items (foldl (fun g i => grid_AddItem i g) g l) = grid_items g ++ l.
Proof.
  revert g. induction l as [|i l IH]; intros g; cbn; [by rewrite app_nil_r|].
  by rewrite IH, items_Add, <-app_assoc.
Qed.

Lemma grid_remove_all ws g i :
  i ∈ grid_items (foldl (fun g x => grid_RemoveItem x g) g ws) <-> i ∈ grid_items g /\ gi_item i ∉ ws.
Proof.
  revert g. induction ws as [|y ws IH]; intros g; cbn; [set_solver|].
  rewrite IH, items_Remove, list_elem_of_filter. set_solver.
Qed.

Lemma grid_remove_keeps ws g (x : Widget) : x ∉ ws ->
  filter (fun i => gi_item i = x) (grid_items (foldl (fun g x => grid_RemoveItem x g) g ws)) =
  filter (fun i => gi_item i = x) (grid_items g).
Proof.
  revert g. induction ws as [|y ws IH]; intros g Hx; cbn; [done|].
  rewrite IH, items_Remove by set_solver. rewrite list_filter_filter. apply list_filter_iff. set_solver.
Qed.

Lemma layout_widgets v i : i ∈ layout v -> gi_item i ∈ NetInfoTable :: removed.
Proof.
  unfold layout. destruct (w_Mode v), (DebugEnabled v); cbn [app main_widget];
    intros Hi; rewrite !elem_of_cons in Hi; destruct_or?; subst; cbn; try (unfold removed; set_solver).
Qed.

Lemma redraw_shows env v sc : redrawable sc -> screen_shows v (redraw_screen env v sc).
Proof.
  intros [Hw Hg]. unfold redraw_screen.
  set (g := foldl (fun g x => grid_RemoveItem x g) (sc_Grid sc) removed).
  assert (Hs : Forall (fun i => gi_item i = NetInfoTable) (grid_items g)).
  { apply Forall_forall. intros i Hi. apply grid_remove_all in Hi as [Hi Hn].
    rewrite Forall_forall in Hw. specialize (Hw i Hi). set_solver. }
  unfold screen_shows, main_focus.
  destruct (IsHelpDisplayed v), (IsRPCListDisplayed v); cbn [sc_Grid sc_Pages sc_Focus];
    rewrite grid_add_all, ?has_Add, ?has_Remove, ?has_Add, ?has_Remove, ?Hg; cbn; rewrite ?andb_false_r;
    (split; [by exists (grid_items g)|done]).
Qed.

Lemma shows_redrawable v sc : screen_shows v sc -> redrawable sc.
Proof.
  intros ((stale & Hi & Hs) & _ & Hg & _). split; [|done]. rewrite Hi. apply Forall_app. split.
  - apply (Forall_impl _ _ _ Hs). intros i ->. set_solver.
  - apply Forall_forall. apply layout_widgets.
Qed.

Lemma net_tables_redraw env v sc :
  net_tables (redraw_screen env v sc) = (net_tables sc + match w_Mode v with ModeNetInfo => 1 | _ => 0 end)%nat.
Proof.
  unfold net_tables.
  assert (E : sc_Grid (redraw_screen env v sc) =
    foldl (fun g i => grid_AddItem i g) (foldl (fun g x => grid_RemoveItem x g) (sc_Grid sc) removed) (layout v))
    by (unfold redraw_screen; by destruct (IsRPCListDisplayed v)).
  rewrite E, grid_add_all, filter_app, length_app, grid_remove_keeps by (unfold removed; set_solver).
  f_equal. unfold layout. destruct (w_Mode v), (DebugEnabled v); done.
Qed.

(** *** The invariant of the interface *)

Record tables_ok w : Prop := {
  tk_columns : lr_Columns (LastRoundData w) = ColumnsCount w;
  tk_positive : (0 < ColumnsCount w)%nat;
  tk_lr_transpose : lr_Transpose (LastRoundData w) = w_Transpose w;
  tk_ar_transpose : ar_Transpose (AllRoundsData w) = w_Transpose w;
  tk_rounds : lr_HasRoundData (LastRoundData w) = true }.

Record ui_ok w : Prop := {
  uk_tables : tables_ok w;
  uk_width : 1 <= InfoBlockWidth (w_View w) <= 2;
  uk_screen : screen_shows (w_View w) (w_Screen w) }.

(** A step ui_keeps the invariant, never enlarges the info blocks and never takes a
    network table out of the grid. *)
Definition good_step w w' : Prop :=
  ui_ok w' /\ InfoBlockWidth (w_View w') <= InfoBlockWidth (w_View w) /\
  (net_tables (w_Screen w) <= net_tables (w_Screen w'))%nat.
Definition ui_keeps (f : Wrapper -> res Wrapper) : Prop := forall w w', ui_ok w -> f w = Ok w' -> good_step w w'.

Lemma good_refl w : ui_ok w -> good_step w w.
Proof. intros Hw. split; [done|lia]. Qed.

Lemma good_trans w1 w2 w3 : good_step w1 w2 -> good_step w2 w3 -> good_step w1 w3.
Proof. intros (_ & ? & ?) (? & ? & ?). split; [done|lia]. Qed.

Lemma keeps_when b f : ui_keeps f -> ui_keeps (when b f).
Proof. intros Hf w w' Hw. destruct b; cbn; [by apply Hf|]. intros [= <-]. by apply good_refl. Qed.

Lemma keeps_bind f h : ui_keeps f -> ui_keeps h -> ui_keeps (fun w => f w ≫= h).
Proof.
  intros Hf Hh w w'' Hw (w' & H1 & H2)%bind_Ok_inv. specialize (Hf _ _ Hw H1).
  apply (good_trans _ w'); [done|]. apply (Hh w'); [apply Hf|done].
Qed.

(** A change of the view followed by a redraw. *)
Lemma redraw_view env f w :
  ui_ok w -> 1 <= InfoBlockWidth (f (w_View w)) <= InfoBlockWidth (w_View w) -> good_step w (Redraw env (with_View f w)).
Proof.
  intros [Ht Hw Hs] Hf. unfold good_step. split_and!.
  - split; [by destruct Ht|cbn; lia|]. cbn. apply redraw_shows. by eapply shows_redrawable.
  - cbn. lia.
  - cbn. rewrite net_tables_redraw. lia.
Qed.

Lemma redraw_same env w : ui_ok w -> good_step w (Redraw env w).
Proof. intros Hw. apply (redraw_view env id w Hw). destruct Hw as [_ ? _]. cbn. lia. Qed.

(** A step that leaves view and screen alone. *)
Lemma good_still w w' : ui_ok w -> tables_ok w' -> w_View w' = w_View w -> w_Screen w' = w_Screen w -> good_step w w'.
Proof. intros [Ht Hw Hs] Ht' Ev Es. unfold good_step. split_and!; [split; [done|by rewrite Ev|by rewrite Ev, Es]|by rewrite Ev|by rewrite Es]. Qed.

Lemma info_block_shrinks b n : 1 <= n -> 1 <= info_block b n <= n.
Proof.
  intros Hn. unfold info_block. change (RowsAmount - DebugBlockHeight - 1) with 1.
  destruct b; cbn [andb negb]; [destruct (Z.leb_spec (n + 1) 1)|destruct (Z.leb_spec 1 (n - 1))]; lia.
Qed.

Lemma set_columns_keeps env n w w' : ui_ok w -> (0 < n)%nat -> set_columns env n w = Ok w' -> good_step w w'.
Proof.
  intros Hw Hn H. unfold set_columns, lr_SetColumnsCount in H. apply bind_Ok_inv in H as (d & Hd & [= <-]).
  match type of Hd with redrawData ?m ?x = _ => destruct (redraw_total x m) as (cells & Hd' & _) end.
  rewrite Hd in Hd'. injection Hd' as ->. destruct Hw as [[] ? ?] eqn:E. apply good_still; [done| |done|done].
  by split.
Qed.

Lemma keeps_columns env b : ui_keeps (ChangeColumnsCount env b).
Proof.
  intros w w' Hw (w1 & H1 & [= <-])%bind_Ok_inv.
  assert (G : good_step w w1).
  { apply (set_columns_keeps env (next_columns b (ColumnsCount w)) w w1 Hw); [|done]. destruct Hw as [[_ ? _ _ _] _ _]. unfold next_columns.
    destruct b; [lia|]. destruct (Z.leb_spec 1 (Z.of_nat (ColumnsCount w) - 1)); lia. }
  apply (good_trans _ w1); [done|]. apply redraw_same, G.
Qed.

Lemma keeps_fit env : ui_keeps (fit_columns env).
Proof.
  intros w w' Hw. unfold fit_columns. destruct (0 <? _); [|intros [= <-]; by apply good_refl].
  cbv zeta. apply set_columns_keeps; [done|]. destruct (Z.ltb_spec (go_div (env_lastRoundWidth env) 50) 1); lia.
Qed.

Lemma keeps_mode env : ui_keeps (ChangeMode env).
Proof.
  intros w w' Hw. unfold ChangeMode. cbv zeta. set (w1 := Redraw _ _).
  assert (G : good_step w w1) by (apply redraw_view; [done|]; destruct Hw as [_ ? _]; cbn; lia).
  destruct (w_Mode (w_View w1)); try (intros [= <-]; done).
  intros H. apply (good_trans _ w1); [done|]. apply (keeps_fit env); [apply G|done].
Qed.

Lemma keeps_transpose env : ui_keeps (toggle_transpose env).
Proof.
  intros w w' Hw H. unfold toggle_transpose, lr_SetTranspose in H. apply bind_Ok_inv in H as (d & Hd & [= <-]).
  match type of Hd with redrawData ?m ?x = _ => destruct (redraw_total x m) as (cells & Hd' & _) end.
  rewrite Hd in Hd'. injection Hd' as ->. destruct Hw as [[] ? ?] eqn:E. apply good_still; [done| |done|done].
  by split.
Qed.

Lemma keeps_view env f : (forall v, 1 <= InfoBlockWidth v -> 1 <= InfoBlockWidth (f v) <= InfoBlockWidth v) ->
  ui_keeps (fun w => Ok (Redraw env (with_View f w))).
Proof. intros Hf w w' Hw [= <-]. apply redraw_view; [done|]. apply Hf. destruct Hw as [_ ? _]. lia. Qed.

Lemma keeps_pause : ui_keeps
  (fun w => Ok (with_flags (ColumnsCount w) (w_Transpose w) (negb (w_paused w)) (w_Stopped w) (w_AfterDraw w) w)).
Proof. intros w w' Hw [= <-]. apply good_still; [done| |done|done]. by destruct Hw as [[] ? ?]. Qed.

Lemma keeps_key env ev : ui_keeps (on_key env ev).
Proof.
  intros w w' Hw. unfold on_key. destruct (_ || _).
  - intros [= <-]. apply good_still; [done| |done|done]. by destruct Hw as [[] ? ?].
  - revert w w' Hw.
    repeat (apply (keeps_bind _ _); [apply keeps_when|]).
    all: try apply keeps_columns; try apply keeps_transpose; try apply keeps_pause; try apply keeps_when, keeps_mode.
    all: apply (keeps_view env); intros v Hv; cbn [InfoBlockWidth]; first [by apply info_block_shrinks|lia].
Qed.

(** *** [SetState] *)

(** What the tables hold once the state is set, [before] they were redrawn.  The health
    rows are numbered, and stay what they were until there are some. *)
Definition shows_state (s : State) before w : Prop :=
  let '(height, round, _, _) := GetConsensusHeight s in
  let d := LastRoundData w in
  let a := AllRoundsData w in
  let health := ValidatorHealthData w in
  (lr_Validators d = GetTMValidators s /\ lr_Height d = height /\ lr_Round d = int32 round) /\
  (GetConsensusStateError s = None -> GetRowCount (lr_cells d) = rows_count d /\
    forall i (v : TMValidator), GetTMValidators s !! i = Some v -> exists cell,
      validator_cell d (VotesByRound s) v = Ok cell /\
      GetCell (lr_cells d)
        (if lr_Transpose d then i mod rows_count d else i / lr_Columns d)%nat
        (if lr_Transpose d then i / rows_count d else i mod lr_Columns d)%nat = Some cell) /\
  createCells a (VotesByRound s) = Ok (ar_cells a) /\ ar_Validators a = GetTMValidators s /\
  ar_Height a = height /\ ar_Round a = int32 round /\
  rt_cells (RPCsData w) = rpcs_cells (snd <$> om_entries (KnownRPCs s)) /\
  match GetNetInfo s with
  | None => nt_cells (NetInfoData w) = []
  | Some ni => exists header separator,
      nt_cells (NetInfoData w) = header :: separator :: (peer_row <$> sort compare_peers (ni_Peers ni))
  end /\
  match GetValidatorHealth s with
  | Some (AnyRows rows) => GetRowCount (ht_cells health) = (2 + length rows)%nat /\
      forall i row, rows !! i = Some row -> exists cells,
        health_row (ht_disableEmojis (ValidatorHealthData before)) i row = Ok cells /\ ht_cells health !! (2 + i)%nat = Some cells
  | _ => health = ValidatorHealthData before
  end.

Lemma health_rows_shown e rows data :
  mapM (fun p => health_row e p.1 p.2) (imap pair rows) = Ok data ->
  length data = length rows /\ forall i row, rows !! i = Some row -> exists cells, health_row e i row = Ok cells /\ data !! i = Some cells.
Proof.
  intros [Hlen Hat]%mapM_res_lookup. rewrite length_imap in Hlen. split; [done|]. intros i row Hi.
  destruct (Hat i (i, row)) as (cells & Hc & Hr); [by rewrite list_lookup_imap, Hi|]. by exists cells.
Qed.

Lemma third_redraw live d cells :
  (lr_Error d = None -> (0 < lr_Columns d)%nat -> GetRowCount (lr_cells d) = rows_count d) ->
  redrawData live d = Ok (mkLastRound (lr_Validators d) (lr_HasRoundData d) (lr_Height d) (lr_Round d) (lr_Error d)
    (lr_Columns d) (lr_DisableEmojis d) (lr_Transpose d) cells) ->
  lr_Error d = None -> (0 < lr_Columns d)%nat ->
  GetRowCount cells = rows_count d /\
  forall i (v : TMValidator), lr_Validators d !! i = Some v -> exists cell,
    validator_cell d live v = Ok cell /\
    GetCell cells
      (if lr_Transpose d then i mod rows_count d else i / lr_Columns d)%nat
      (if lr_Transpose d then i / rows_count d else i mod lr_Columns d)%nat = Some cell.
Proof.
  intros Hset Hd He Hc. destruct (redraw_shows_all d live He Hc) as (d' & Hd' & Hr & Hv); [auto|].
  rewrite Hd in Hd'. injection Hd' as <-. by split.
Qed.

Lemma state_tables_total s w : tables_ok w -> exists w', state_tables sort s w = Ok w' /\ tables_ok w' /\
  w_View w' = w_View w /\ w_Screen w' = w_Screen w /\ w_DisableEmojis w' = w_DisableEmojis w /\
  w_Texts w' = w_Texts w /\ w_Attached w' = true /\ shows_state s w w'.
Proof.
  intros [Hcol Hpos Hlt Hat Hrd]. unfold state_tables, shows_state.
  destruct (GetConsensusHeight s) as [[[height round] st] start].
  unfold lr_SetTMValidators, lr_SetRoundData, lr_SetCurrentRound.
  match goal with |- context [redrawData ?m ?x] => destruct (redraw_total x m) as (c1 & -> & G1) end.
  cbn [mbind res_bind lr_Validators lr_HasRoundData lr_Height lr_Round lr_Error lr_Columns lr_DisableEmojis lr_Transpose lr_cells] in *.
  match goal with |- context [redrawData ?m ?x] => destruct (redraw_total x m) as (c2 & -> & G2) end.
  cbn [mbind res_bind lr_Validators lr_HasRoundData lr_Height lr_Round lr_Error lr_Columns lr_DisableEmojis lr_Transpose lr_cells] in *.
  match goal with |- context [redrawData ?m ?x] => destruct (redraw_total x m) as (c3 & H3 & _); rewrite H3;
    pose proof (third_redraw m x c3 G2 H3) as G3 end.
  cbn [mbind res_bind lr_Validators lr_HasRoundData lr_Height lr_Round lr_Error lr_Columns lr_DisableEmojis lr_Transpose lr_cells] in *.
  set (a := ar_SetRoundData _). assert (Ha : exists cells, createCells a (VotesByRound s) = Ok cells)
    by (unfold createCells, createCells_reads; destruct (ar_Validators a); by eexists).
  destruct Ha as [cells Ha]. unfold Update. rewrite Ha. cbn [mbind res_bind].
  assert (Hh : exists h, match GetValidatorHealth s with
    | Some (AnyRows rows) => SetRows rows (ValidatorHealthData w) | _ => Ok (ValidatorHealthData w) end = Ok h /\
    match GetValidatorHealth s with
    | Some (AnyRows rows) => GetRowCount (ht_cells h) = (2 + length rows)%nat /\
        forall i row, rows !! i = Some row -> exists cells,
          health_row (ht_disableEmojis (ValidatorHealthData w)) i row = Ok cells /\ ht_cells h !! (2 + i)%nat = Some cells
    | _ => h = ValidatorHealthData w
    end).
  { destruct (GetValidatorHealth s) as [[|rows]|]; [by eexists| |by eexists]. unfold SetRows.
    destruct (health_table_rectangular (ht_disableEmojis (ValidatorHealthData w)) rows) as (cs & E & _). rewrite E.
    eexists. split; [reflexivity|]. unfold health_makeCells in E. apply bind_Ok_inv in E as (data & [H1 H2]%health_rows_shown & [= <-]).
    cbn. split; [by rewrite H1|exact H2]. }
  destruct Hh as (h & -> & Hh). cbn [mbind res_bind]. eexists. split; [reflexivity|]. split; [by split|].
  split_and!; try done; [intros He; apply G3; [done|lia]|].
  cbn. unfold net_info_makeCells. destruct (GetNetInfo s); [by eexists _, _|done].
Qed.

Lemma SetState_inv env w w' : SetState SerializeTime fmt_v sort env w = Ok w' ->
  exists w1 t, state_tables sort (env_State env) w = Ok w1 /\ state_texts SerializeTime fmt_v env w1 = Ok t /\
    w' = with_Texts t w1.
Proof.
  unfold SetState. intros (w1 & H1 & H)%bind_Ok_inv. apply bind_Ok_inv in H as (t & Ht & [= <-]). by exists w1, t.
Qed.

Lemma ui_step_good w w' : ui_ok w -> ui_step SerializeTime fmt_v sort w w' -> good_step w w'.
Proof.
  intros Hw Hs. destruct Hs as [env ev w w' H|env row w|env w w' H|env w w' H|text w|w].
  - by apply (keeps_key env ev).
  - refine (keeps_view env _ _ w _ Hw eq_refl). intros v Hv. cbn. lia.
  - revert H. unfold after_draw. destruct (w_AfterDraw w); [|intros [= <-]; by apply good_refl].
    intros (w1 & H1 & [= <-])%bind_Ok_inv. pose proof (keeps_fit env _ _ Hw H1) as G.
    apply (good_trans _ w1); [done|]. destruct G as ([[] ? ?] & _).
    apply good_still; [by split| |done|done]. by split.
  - apply SetState_inv in H as (w1 & t & H1 & _ & ->).
    destruct (state_tables_total (env_State env) w) as (w1' & H1' & Ht & Ev & Es & _); [apply Hw|].
    rewrite H1 in H1'. injection H1' as <-. apply good_still; [done| |done|done]. by destruct Ht.
  - apply good_still; [done| |done|done]. by destruct Hw as [[] ? ?].
  - apply good_still; [done| |done|done]. by destruct Hw as [[] ? ?].
Qed.

Lemma start_ok env e p : ui_ok (Start env (NewWrapper e p)).
Proof.
  split; [by split; cbn; unfold DefaultColumnsCount; try lia|cbn; lia|].
  refine (redraw_shows env (mkView 2 DefaultMode false false false)
    (mkScreen grid_New (pages_AddPage "grid" pages_New) LastRoundTable (0, 0, 0, 0)) _).
  split; cbn; [by rewrite items_New|]. by rewrite has_Add, has_New.
Qed.

Lemma run_good w w' : ui_ok w -> ui_run SerializeTime fmt_v sort w w' -> good_step w w'.
Proof.
  intros Hw Hr. apply (rtc_invariant _ (good_step w) w w') in Hr; [done| |by apply good_refl].
  intros a b G Hs. apply (good_trans _ a); [done|]. apply ui_step_good; [apply G|done].
Qed.

(** C33: Whatever keys are pressed, states set and widths reported, in any order from
    the start, the screen is the layout of the current view on top of nothing but
    network tables, the focus is on the RPC list or the main widget, the open pages
    are those of the flags, and the tables agree with the interface on columns and
    transposition, with at least one column. *)
Theorem ui_invariant env e p w (Hrun : ui_run SerializeTime fmt_v sort (Start env (NewWrapper e p)) w) :
  screen_shows (w_View w) (w_Screen w) /\
  lr_Columns (LastRoundData w) = ColumnsCount w /\ (0 < ColumnsCount w)%nat /\
  lr_Transpose (LastRoundData w) = w_Transpose w /\ ar_Transpose (AllRoundsData w) = w_Transpose w /\
  1 <= InfoBlockWidth (w_View w) <= 2.
Proof. destruct (run_good _ _ (start_ok env e p) Hrun) as ([[] ? ?] & _). split_and!; try done; lia. Qed.

(** With the debug panel open, the info blocks at their first height leave no row to
    the main widget. *)
Lemma debug_hides_main v : DebugEnabled v = true -> InfoBlockWidth v = 2 ->
  exists i, i ∈ layout v /\ gi_item i = main_widget (w_Mode v) /\ gi_rowSpan i = 0.
Proof.
  intros Hd Hw. unfold layout. rewrite Hd, Hw.
  exists (mkGridItem (main_widget (w_Mode v)) 2 0 0 6). split; [|done]. cbn. set_solver.
Qed.

(** No sequence of events ever enlarges the info blocks, so after one press of
    [s] they stay at one row for good; and each network table put in the grid stays. *)
Theorem info_blocks_only_shrink env e p w w'
    (Hrun : ui_run SerializeTime fmt_v sort (Start env (NewWrapper e p)) w) (Hrun' : ui_run SerializeTime fmt_v sort w w') :
  InfoBlockWidth (w_View w') <= InfoBlockWidth (w_View w) <= 2 /\
  (InfoBlockWidth (w_View w) = 1 -> InfoBlockWidth (w_View w') = 1) /\
  (net_tables (w_Screen w) <= net_tables (w_Screen w'))%nat.
Proof.
  destruct (run_good _ _ (start_ok env e p) Hrun) as (Hw & _). destruct (run_good _ _ Hw Hrun') as (Hw' & H1 & H2).
  destruct Hw as [_ ? _], Hw' as [_ ? _]. split_and!; [done|lia|lia|done].
Qed.

(** C32: [SetState] puts the state on screen: if the texts of the panels do not panic it
    succeeds.  Then the all-rounds table is that of the state's map, the RPC list that
    of the known nodes, the peer table has a row per peer of the last [NetInfo] (none
    without one), the health table a row per validator row once there are some; and,
    if the state has no consensus error, the last-round table shows every validator
    with its votes of the current height and round, also when transposed. *)
Theorem SetState_shows_state env0 e p env w t
    (Hrun : ui_run SerializeTime fmt_v sort (Start env0 (NewWrapper e p)) w)
    (Ht : state_texts SerializeTime fmt_v env w = Ok t) :
  exists w', SetState SerializeTime fmt_v sort env w = Ok w' /\ w_Texts w' = t /\ shows_state (env_State env) w w'.
Proof.
  destruct (run_good _ _ (start_ok env0 e p) Hrun) as (Hw & _).
  destruct (state_tables_total (env_State env) w) as (w1 & H1 & _ & _ & _ & Ee & Et & _ & Hs); [apply Hw|].
  assert (Ht1 : state_texts SerializeTime fmt_v env w1 = Ok t) by (unfold state_texts in *; by rewrite Ee, Et).
  unfold SetState. rewrite H1. cbn [mbind res_bind]. rewrite Ht1. cbn [mbind res_bind].
  exists (with_Texts t w1). by split_and!.
Qed.
End WrapperFacts.

(** ** A concrete terminal library *)

Section WrapperExamples.
(** A grid is its items, the pages the names present. *)
#[local] Instance list_tview : Tview :=
  { Grid := list GridItem; grid_New := []; grid_AddItem i g := g ++ [i];
    grid_RemoveItem w g := filter (fun i => gi_item i <> w) g; grid_items g := g;
    Pages := list string; pages_New := []; pages_AddPage n p := n :: p;
    pages_RemovePage n p := filter (fun m => m <> n) p; pages_HasPage p n := bool_decide (n ∈ p) }.

#[local] Instance list_tview_laws : TviewLaws list_tview.
Proof.
  split; try done; cbn; intros n p m.
  - rewrite <-bool_decide_or. apply bool_decide_ext. set_solver.
  - rewrite <-bool_decide_not, <-bool_decide_and. apply bool_decide_ext. rewrite list_elem_of_filter. naive_solver.
Qed.

Definition demo_time (t : Z) : string := "t".
Definition demo_v (x : gofloat) : string := fmt_fixed 2 x.
Definition demo_sort (cmp : Peer -> Peer -> Z) (l : list Peer) : list Peer := l.
Definition demo_state : State :=
  with_votes demo_live (SetConsensusHeight 12345 0 6 0 (SetTMValidators (demo_validator <$> seq 0 6) (NewState "http://a" 0))).
Definition demo_env (s : State) : UIEnv := mkUIEnv s 120 (100, 40) (30, 8) 0 0 0.
Definition key (c : ascii) : KeyEvent := mkKey (code c) false false.
Definition tab_key : KeyEvent := mkKey 0 true false.

(** A run of keys. *)
Definition press (w : Wrapper) (ev : KeyEvent) : Wrapper := ok_default w (on_key (demo_env demo_state) ev w).
Definition ui_demo_start : Wrapper := Start (demo_env demo_state) (NewWrapper true false).

Lemma press_step w ev w' : on_key (demo_env demo_state) ev w = Ok w' -> ui_step demo_time demo_v demo_sort w w'.
Proof. apply us_key. Qed.

(** [Tab] to the peers and away, transposed, then a new state. *)
Definition demo_peers : Wrapper := press ui_demo_start tab_key.
Definition demo_away : Wrapper := press demo_peers tab_key.
Definition demo_turned : Wrapper := press demo_away (key "t").

Lemma ui_demo_run : ui_run demo_time demo_v demo_sort ui_demo_start demo_turned.
Proof.
  apply (rtc_l _ _ demo_peers); [apply (press_step _ tab_key); vm_compute; reflexivity|].
  apply (rtc_l _ _ demo_away); [apply (press_step _ tab_key); vm_compute; reflexivity|].
  apply (rtc_l _ _ demo_turned); [apply (press_step _ (key "t")); vm_compute; reflexivity|].
  apply rtc_refl.
Qed.

Lemma ui_invariant_witness :
  screen_shows (w_View demo_turned) (w_Screen demo_turned) /\ lr_Transpose (LastRoundData demo_turned) = true /\
  w_Mode (w_View demo_turned) = ModeValidatorHealth.
Proof.
  destruct (ui_invariant demo_time demo_v demo_sort (demo_env demo_state) true false demo_turned ui_demo_run)
    as (Hs & _ & _ & Ht & _).
  split; [exact Hs|]. split; [rewrite Ht; vm_compute; reflexivity|vm_compute; reflexivity].
Defined.

(** The network table is still in the grid two modes later. *)
Lemma info_blocks_only_shrink_witness :
  InfoBlockWidth (w_View (press demo_turned (key "b"))) <= 2 /\ net_tables (w_Screen demo_turned) = 1%nat.
Proof.
  split; [|vm_compute; reflexivity].
  apply (info_blocks_only_shrink demo_time demo_v demo_sort (demo_env demo_state) true false
    (press demo_turned (key "b")) (press demo_turned (key "b"))); [|apply rtc_refl].
  eapply rtc_r; [exact ui_demo_run|]. apply (press_step _ (key "b")). vm_compute. reflexivity.
Defined.

Lemma SetState_shows_state_witness :
  exists w', SetState demo_time demo_v demo_sort (demo_env demo_state) demo_turned = Ok w' /\
    GetRowCount (lr_cells (LastRoundData w')) = 2%nat.
Proof.
  assert (H : exists t, state_texts demo_time demo_v (demo_env demo_state) demo_turned = Ok t)
    by (eexists; vm_compute; reflexivity).
  destruct H as [t Ht].
  destruct (SetState_shows_state demo_time demo_v demo_sort (demo_env demo_state) true false (demo_env demo_state)
    demo_turned t ui_demo_run Ht) as (w' & Hw & _).
  exists w'. split; [exact Hw|]. revert Hw. vm_compute. intros [= <-]. reflexivity.
Defined.
End WrapperExamples.
