(* ===== verification/EndToEnd.v ===== *)
(** * From the websocket to the terminal

    The components composed: what a vote does between the event that carries it
    and the cell that shows it ([App.on_events], [State], [Rounds], [Tables],
    [Wrapper.SetState]), and what a double vote does between its two events and the
    security panel ([App.on_events], [Equivocation], [Builder], [Panels]). *)

From S2P Require Import Prelude GoNum GoText GoTime Deps Rounds Types MetricTypes State Equivocation Timing Asn Analytics Health Builder Store Utils Tables Panels Topology Fetcher Crawler App Wrapper.
Local Open Scope Z_scope.

(** ** A vote *)

Section VoteOnScreen.
Context `{BL : ButilsLaws} `{C : Comet} `{VL : TviewLaws} {T : Type} `{ST : !ConsensusStorer T}.
Context (SerializeTime : Z -> string) (fmt_v : gofloat -> string).
Context (sort : (Peer -> Peer -> Z) -> list Peer -> list Peer).
Implicit Types (a : App T) (w : Wrapper) (v : TMValidator).

(** The sign of a validator's vote once a batch of events has been handled: the
    last vote of the batch for that slot, or what was known before. *)
Definition vote_after (before : RoundDataMap) (events : list TMEventData) (height round : Z) (addr : string)
    (ty : Z) : VoteState :=
  state_of_vote
    match last_vote (omap event_op events) height round addr ty with
    | Some b => Some b
    | None => vote_at before height round addr ty
    end.

Lemma on_events_votes clock events a a' height round addr ty :
  on_events clock events a = Ok a' ->
  GetVote (VotesByRound (a_State a')) height round addr ty =
  vote_after (VotesByRound (a_State a)) (fst <$> events) height round addr ty.
Proof.
  intros [H _]%on_events_parts. rewrite AddCometBFTEvents_spec in H. destruct (existsb _ _); [done|].
  injection H as <-. rewrite GetVote_at. unfold vote_after. cbn. by rewrite vote_at_apply_ops.
Qed.

(** The cell of a validator in the last-round table starts with its two signs. *)
Lemma validator_cell_signs d live v cell :
  validator_cell d live v = Ok cell -> lr_HasRoundData d = true -> 0 < lr_Height d ->
  let sign ty := Serialize (GetVote live (lr_Height d) (lr_Round d) (GetDisplayAddress v) ty) (lr_DisableEmojis d) in
  exists rest, cell_text cell = " " +:+ sign PrevoteType +:+ " " +:+ sign PrecommitType +:+ " " +:+ rest.
Proof.
  intros Hc Hr Hh. unfold validator_cell in Hc. apply bind_Ok_inv in Hc as (t & Ht & [= <-]).
  unfold generateValidatorDisplayText in Ht. cbv zeta in Ht.
  assert (Hlt : lr_HasRoundData d && (0 <? lr_Height d) = true) by (rewrite Hr; by apply Z.ltb_lt in Hh as ->).
  rewrite Hlt in Ht. apply bind_Ok_inv in Ht as (n & _ & Ht). apply bind_Ok_inv in Ht as (p & _ & Ht).
  apply bind_Ok_inv in Ht as (x & _ & [= <-]). eexists. reflexivity.
Qed.

(** C8: A vote reaches the screen.  Once a batch of websocket events has been
    handled and the display has been given the state, whatever was pressed before,
    the last-round table shows each validator of the set in its place, with the
    signs of its prevote and precommit of the current height and round: those of
    the last votes of the batch, or those known before it. *)
Theorem vote_on_screen clock events a a' env0 e p w env w' height round step start i v
    (Hev : on_events clock events a = Ok a')
    (Hrun : ui_run SerializeTime fmt_v sort (Start env0 (NewWrapper e p)) w)
    (Hset : SetState SerializeTime fmt_v sort env w = Ok w') (Henv : env_State env = a_State a')
    (Hh : GetConsensusHeight (a_State a') = (height, round, step, start)) (Hpos : 0 < height)
    (Herr : GetConsensusStateError (a_State a') = None)
    (Hv : GetTMValidators (a_State a') !! i = Some v) :
  let d := LastRoundData w' in
  let sign ty := Serialize (vote_after (VotesByRound (a_State a)) (fst <$> events) height (int32 round)
                              (GetDisplayAddress v) ty) (lr_DisableEmojis d) in
  exists cell rest,
    GetCell (lr_cells d)
      (if lr_Transpose d then i mod rows_count d else i / lr_Columns d)%nat
      (if lr_Transpose d then i / rows_count d else i mod lr_Columns d)%nat = Some cell /\
    cell_text cell = " " +:+ sign PrevoteType +:+ " " +:+ sign PrecommitType +:+ " " +:+ rest.
Proof.
  destruct (run_good _ _ _ _ _ (start_ok _ _ _) Hrun) as (Hw & _).
  apply SetState_inv in Hset as (w1 & t & H1 & _ & ->). rewrite Henv in H1.
  destruct (state_tables_total sort (a_State a') w) as (w1' & H1' & Htk & _ & _ & _ & _ & _ & Hs); [apply Hw|].
  rewrite H1 in H1'. injection H1' as <-. unfold shows_state in Hs. rewrite Hh in Hs.
  destruct Hs as ((_ & Hht & Hrd) & Hcells & _). cbn [LastRoundData with_Texts].
  destruct (Hcells Herr) as [_ Hat]. destruct (Hat i v Hv) as (cell & Hc & Hg). exists cell.
  destruct (validator_cell_signs _ _ _ _ Hc (tk_rounds _ Htk)) as (rest & Ht); [by rewrite Hht|].
  exists rest. split; [exact Hg|]. rewrite Ht, Hht, Hrd. by rewrite !(on_events_votes _ _ _ _ _ _ _ _ Hev).
Qed.
End VoteOnScreen.

(** ** A double vote *)

(** *** The detector keeps what it has just reported *)

Section Retained.
Context `{CL : CometLaws}.
Variable windowBlocks : Z.

(** One observation appends at most one event to a ring that drops the oldest. *)
Lemma observe_appends now b e :
  exists new, (length new <= 1)%nat /\
    events (observeForEquivocation windowBlocks now b e) =
      (if maxEquivEvents <? Z.of_nat (length (events b ++ new))
       then drop (length (events b ++ new) - Z.to_nat maxEquivEvents) (events b ++ new) else events b ++ new)
    \/ events (observeForEquivocation windowBlocks now b e) = events b.
Proof.
  destruct (observe_cases windowBlocks now b e) as [->|(v & -> & Hne)]; [exists []; by right|].
  destruct (observe_vote windowBlocks now b v Hne) as [_ ->].
  destruct (first_seen b (v_Height v) (v_slot v)) as [x|]; [|exists []; by right].
  case_bool_decide; [exists []; by right|]. exists [conflict_event now v x]. left. split; [cbn; lia|]. done.
Qed.

(** An event with fewer than the ring's capacity behind it, counting those to come,
    stays in it. *)
Lemma observe_keeps k now b e ev :
  (exists l1 l2, events b = l1 ++ ev :: l2 /\ Z.of_nat (length l2) + Z.of_nat (S k) < maxEquivEvents) ->
  exists l1 l2, events (observeForEquivocation windowBlocks now b e) = l1 ++ ev :: l2 /\
    Z.of_nat (length l2) + Z.of_nat k < maxEquivEvents.
Proof.
  intros (l1 & l2 & E & Hl). destruct (observe_appends now b e) as (new & [[Hn Hev]|Hev]).
  2:{ exists l1, l2. rewrite Hev. split; [done|lia]. }
  rewrite Hev, E. destruct (Z.ltb_spec maxEquivEvents (Z.of_nat (length ((l1 ++ ev :: l2) ++ new)))) as [Hc|Hc].
  - rewrite <-app_assoc in *. cbn [app] in *. rewrite length_app in *. cbn [length] in *. rewrite length_app in *.
    rewrite drop_app_le by lia. eexists _, (l2 ++ new). split; [reflexivity|]. rewrite length_app. lia.
  - exists l1, (l2 ++ new). rewrite <-app_assoc. split; [done|]. rewrite length_app. lia.
Qed.

Lemma run_keeps tr tr' ev :
  last (events (run windowBlocks tr)) = Some ev -> Z.of_nat (length tr') < maxEquivEvents ->
  ev ∈ events (run windowBlocks (tr ++ tr')).
Proof.
  intros Hlast Hlen.
  assert (H : forall tr'' k, Z.of_nat (length tr'') + Z.of_nat k < maxEquivEvents ->
    exists l1 l2, events (run windowBlocks (tr ++ tr'')) = l1 ++ ev :: l2 /\ Z.of_nat (length l2) + Z.of_nat k < maxEquivEvents).
  { induction tr'' as [|p tr'' IH] using rev_ind; intros k Hk.
    - apply last_Some in Hlast as [l' El]. exists l', []. rewrite app_nil_r. split; [done|]. cbn in *. lia.
    - rewrite app_assoc, run_snoc. apply observe_keeps, IH. rewrite length_app in Hk. cbn in Hk. lia. }
  destruct (H tr' 0%nat) as (l1 & l2 & -> & _); [lia|]. set_solver.
Qed.
End Retained.

(** *** The application feeds the detector every event, in order *)

Section Trace.
Context `{BL : ButilsLaws} `{CL : CometLaws} {T : Type} `{ST : !ConsensusStorer T}.
Implicit Types (a : App T).

Lemma Build_keeps now1 now2 range sort b s b' x : Build now1 now2 range sort b s = Ok (b', x) ->
  b_equiv b' = b_equiv b /\ b_windowBlocks b' = b_windowBlocks b.
Proof.
  unfold Build. destruct (GetConsensusHeight s) as [[[h r] st] t]. intros (r1 & _ & H)%bind_Ok_inv.
  apply bind_Ok_inv in H as (r2 & _ & [= <- _]). done.
Qed.

Lemma quiet_keeps a a' : quiet_step a a' ->
  b_equiv (a_Builder a') = b_equiv (a_Builder a) /\ b_windowBlocks (a_Builder a') = b_windowBlocks (a_Builder a).
Proof.
  intros Hq. destruct Hq as [clk f a a' Ht He|f a a' He|h f a a' He|f a a' He|f a a' He|f a a' He|env a a' He|now a a' He|a|f url a|url a]; try done.
  - unfold RefreshConsensus in He. destruct (a_IsPaused a); [by simplify_eq|].
    destruct (fetch_ConsensusState f) as [[c|]|e|], (fetch_Validators f) as [vals|e'|]; try done; cbn in He; try (by simplify_eq).
    apply bind_Ok_inv in He as (a1 & H1 & [= <-]). unfold on_consensus in H1.
    apply bind_Ok_inv in H1 as (s1 & _ & H1). apply bind_Ok_inv in H1 as (s2 & _ & [= <-]). done.
  - unfold RefreshCometNodeInfo in He. repeat case_match; simplify_eq; done.
  - unfold RefreshUpgrade in He. repeat case_match; simplify_eq; done.
  - unfold RefreshBlockTime in He. repeat case_match; simplify_eq; done.
  - unfold RefreshMempool in He. repeat case_match; simplify_eq; done.
  - unfold RefreshNetInfo in He. repeat case_match; simplify_eq; done.
  - unfold RefreshHealthMetrics in He. destruct (a_IsPaused a); [by simplify_eq|].
    apply bind_Ok_inv in He as ((b & nh & rows) & Hb & [= <-]). by apply Build_keeps in Hb.
  - unfold cleanup in He. apply bind_Ok_inv in He as (s & _ & [= <-]). done.
Qed.

Lemma ObserveEvents_window b evs : b_windowBlocks (ObserveEvents b evs) = b_windowBlocks b.
Proof. revert b. unfold ObserveEvents. induction evs as [|[e [n1 n2]] evs IH]; intros b; cbn; [done|]. by rewrite IH. Qed.

Lemma observe_events_all windowBlocks b (evs : list (TMEventData * (Z * Z))) :
  foldl (fun e p => observeForEquivocation windowBlocks p.2.1 e p.1) b evs =
  observe_all windowBlocks b ((fun p => (p.2.1, p.1)) <$> evs).
Proof. revert b. induction evs as [|p evs IH]; intros b; [done|]. apply IH. Qed.

Lemma trace_builder a0 tr a : app_trace a0 tr a ->
  b_windowBlocks (a_Builder a) = b_windowBlocks (a_Builder a0) /\
  b_equiv (a_Builder a) = observe_all (b_windowBlocks (a_Builder a0)) (b_equiv (a_Builder a0)) tr.
Proof.
  induction 1 as [|tr a a' _ [IHw IHe] Hq|tr clock evs a a' _ [IHw IHe] _ He]; [done| |].
  - destruct (quiet_keeps _ _ Hq) as [-> ->]. by split.
  - apply on_events_parts in He as [_ ->]. rewrite ObserveEvents_window. split; [done|].
    destruct (ObserveEvents_parts (a_Builder a) evs) as [_ ->]. rewrite IHw, IHe, observe_events_all.
    unfold observe_all. by rewrite foldl_app.
Qed.
End Trace.

(** *** The panel *)

Lemma contains_prefix x y : contains (x +:+ y) x = true.
Proof. destruct (x +:+ y) eqn:E; cbn [contains]; rewrite <-E, has_prefix_app; done. Qed.

Lemma join_contains x l : x ∈ l -> contains (join "" l) x = true.
Proof.
  induction l as [|y l IH]; [set_solver|]. intros [<-|Hin]%elem_of_cons; cbn [join].
  - destruct l as [|z l]; [|apply contains_prefix]. pose proof (contains_prefix x "") as H. by rewrite append_nil_r in H.
  - destruct l as [|z l]; [set_solver|]. apply contains_app, contains_app, IH, Hin.
Qed.

Lemma health_shows_equivocation `{B : Butils} fmt_v s emojis nh ev text :
  GetNetworkHealth s = Some (AnyNetworkHealth nh) -> ev ∈ Equivocations nh ->
  SerializeNetworkHealth fmt_v s emojis = Ok text -> contains text (equivocation_line emojis ev) = true.
Proof.
  intros Hnh Hin H. unfold SerializeNetworkHealth in H. rewrite Hnh in H. cbv zeta in H.
  apply bind_Ok_inv in H as (spark & _ & [= <-]).
  repeat apply contains_app. destruct (Equivocations nh) as [|e es] eqn:E; [set_solver|].
  change (contains (join "" (equivocation_line emojis <$> e :: es)) (equivocation_line emojis ev) = true).
  apply join_contains, list_elem_of_fmap. by exists ev.
Qed.

(** *** From the second vote to the security panel *)

(** The network-health panel has the line of an equivocation. *)
Definition panel_shows `{V : Tview} `{B : Butils} (w : Wrapper) (ev : EquivocationEvent) : Prop :=
  contains (t_health (w_Texts w)) (equivocation_line (w_DisableEmojis w) ev) = true.

Section EquivocationOnScreen.
Context `{BL : ButilsLaws} `{CL : CometLaws} `{VL : TviewLaws} {T : Type} `{ST : !ConsensusStorer T}.
Context (SerializeTime : Z -> string) (fmt_v : gofloat -> string).
Context (sort : (Peer -> Peer -> Z) -> list Peer -> list Peer).

(** C7: A double vote reaches the screen.  In any run of the application whose
    websocket delivered two votes of one validator for one height, round and type
    and for two different blocks, no vote in between being further ahead than the
    window and fewer than 256 events following the first, the next health refresh
    and display update put the equivocation, with the validator's address, height,
    round and type, in the security panel, and flag the validator's row. *)
Theorem equivocation_on_screen host now store an lookup windowBlocks tr1 tr2 tr3 n1 n2 v w a benv a' env wr wr'
    (Hwin : windowBlocks <= MaxInt64)
    (Hslot : v_slot v = v_slot w) (Hheight : v_Height v = v_Height w)
    (Hdiff : bid_Hash (v_BlockID v) <> bid_Hash (v_BlockID w))
    (Hv : bid_Hash (v_BlockID v) <> "") (Hw : bid_Hash (v_BlockID w) <> "") (Hh : 0 <= v_Height v <= MaxInt64)
    (Hkeep : Forall (keeps windowBlocks (v_Height v)) tr2) (Hfew : Z.of_nat (length (tr2 ++ tr3)) + 1 < maxEquivEvents)
    (Htrace : app_trace (NewApp (T := T) host now store (NewBuilder an lookup windowBlocks))
       (tr1 ++ (n1, EventDataVote (Some v)) :: tr2 ++ (n2, EventDataVote (Some w)) :: tr3) a)
    (Hrunning : a_IsPaused a = false) (Hrefresh : RefreshHealthMetrics benv a = Ok a')
    (Hset : SetState SerializeTime fmt_v sort env wr = Ok wr') (Henv : env_State env = a_State a') :
  exists ev, eq_ValidatorAddress ev = HexBytes_String (v_ValidatorAddress v) /\ eq_Height ev = v_Height v /\
    eq_Round ev = v_Round v /\ eq_VoteType ev = voteTypeName (v_Type v) /\
    panel_shows wr' ev /\
    exists rows, GetValidatorHealth (a_State a') = Some (AnyRows rows) /\
      forall i val, GetTMValidators (a_State a') !! i = Some val ->
        GetDisplayAddress val = HexBytes_String (v_ValidatorAddress v) ->
        exists row, rows !! i = Some row /\ row_Address row = GetDisplayAddress val /\ row_Equivocated row = true.
Proof.
  set (tr := tr1 ++ (n1, EventDataVote (Some v)) :: tr2 ++ [(n2, EventDataVote (Some w))]).
  destruct (conflict_in_prefix windowBlocks Hwin tr1 tr2 n1 n2 v w Hslot Hheight Hdiff Hv Hw Hh Hkeep)
    as (p & q & ev & Hpq & Hq & Hlast & H1 & H2 & H3 & H4).
  assert (Hin : ev ∈ events (b_equiv (a_Builder a))).
  { destruct (trace_builder _ _ _ Htrace) as [_ ->]. cbn.
    replace (tr1 ++ (n1, EventDataVote (Some v)) :: tr2 ++ (n2, EventDataVote (Some w)) :: tr3) with (p ++ (q ++ tr3)).
    - apply run_keeps; [exact Hlast|]. rewrite !length_app in *. lia.
    - rewrite app_assoc, <-Hpq, <-app_assoc. cbn. by rewrite <-app_assoc. }
  unfold RefreshHealthMetrics in Hrefresh. rewrite Hrunning in Hrefresh.
  apply bind_Ok_inv in Hrefresh as ((b & nh & rows) & Hb & [= <-]).
  destruct (rows_built _ _ _ _ _ _ _ _ _ Hb) as [Hrows Hnh].
  exists ev. split_and!; [done..| |].
  - apply SetState_inv in Hset as (w1 & t & Ht1 & Ht & ->). unfold state_texts in Ht. rewrite Henv in Ht.
    destruct (env_info env) as [width hgt].
    apply bind_Ok_inv in Ht as (health & Hhealth & Ht). apply bind_Ok_inv in Ht as (c & _ & Ht).
    apply bind_Ok_inv in Ht as (c2 & _ & Ht). apply bind_Ok_inv in Ht as (c3 & _ & [= <-]).
    cbn. refine (health_shows_equivocation _ _ _ nh ev health _ _ Hhealth); [reflexivity|by rewrite Hnh].
  - exists rows. split; [done|]. intros i val Hi Ha. cbn in Hi.
    assert (Hri : (row_id <$> rows) !! i = Some (GetDisplayAddress val, GetDisplayName val, power_pct val,
      votedThisHeight (a_State a) (c_Height (s_consensus (a_State a))) (int32 (c_Round (s_consensus (a_State a)))) (GetDisplayAddress val),
      bool_decide (GetDisplayAddress val ∈ eq_ValidatorAddress <$> events (b_equiv (a_Builder a)))))
      by (rewrite Hrows, list_lookup_fmap; unfold GetTMValidators in Hi; cbn in Hi; by rewrite Hi).
    rewrite list_lookup_fmap in Hri. destruct (rows !! i) as [row|]; [|done]. cbn in Hri. unfold row_id in Hri.
    injection Hri as R1 _ _ _ R5. exists row. split_and!; [done|exact R1|]. rewrite R5. apply bool_decide_eq_true_2.
    rewrite Ha, <-H1. apply list_elem_of_fmap. by exists ev.
Qed.
End EquivocationOnScreen.

(** ** Witnesses: the runs of [App] and [Wrapper] joined *)

Section EndToEndExamples.
#[local] Existing Instance demo_storer.
#[local] Existing Instance list_tview.
#[local] Existing Instance list_tview_laws.

(** A precommit for the block of height 7, after a first refresh. *)
Definition end_vote (ty : Z) (blk : string) : TMEventData * (Z * Z) :=
  (EventDataVote (Some (mkVote ty 7 0 (mkBlockID blk (mkPSH 1 "P")) "A")), (1, 2)).
Definition end_seen : App Schema.Tables :=
  ok_default demo_refreshed (on_events (fun _ => 3) [end_vote PrecommitType "H"] demo_refreshed).
Definition end_screen : Wrapper :=
  ok_default ui_demo_start (SetState demo_time demo_v demo_sort (demo_env (a_State end_seen)) ui_demo_start).

Lemma vote_on_screen_witness :
  exists cell rest, GetCell (lr_cells (LastRoundData end_screen)) 0 0 = Some cell /\
    cell_text cell = " [X[] [X[] " +:+ rest.
Proof.
  destruct (vote_on_screen demo_time demo_v demo_sort (fun _ => 3) [end_vote PrecommitType "H"] demo_refreshed end_seen
    (demo_env demo_state) true false ui_demo_start (demo_env (a_State end_seen)) end_screen 7 0 1 0 0
    (mkTMValidator (Some (mkCometValidator "A" (Some "ka") 30)) None 0 (Some (Fin 100)) "")) as (cell & rest & H1 & H2);
    [vm_compute; reflexivity|apply rtc_refl|vm_compute; reflexivity|reflexivity|vm_compute; reflexivity|reflexivity
    |vm_compute; reflexivity|vm_compute; reflexivity|].
  exists cell, rest. split; [exact H1|exact H2].
Defined.

(** Two prevotes of one slot in one batch, a health refresh, a display update. *)
Definition double_app : App Schema.Tables :=
  ok_default demo_app (on_events (fun _ => 3) [end_vote PrevoteType "H"; end_vote PrevoteType "K"] demo_app).
Definition double_build : BuildEnv := mkBuildEnv 0 0 map_to_list insertion_sort.
Definition double_health : App Schema.Tables := ok_default demo_app (RefreshHealthMetrics double_build double_app).
Definition double_screen : Wrapper :=
  ok_default ui_demo_start (SetState demo_time demo_v demo_sort (demo_env (a_State double_health)) ui_demo_start).

Lemma equivocation_on_screen_witness :
  exists ev, eq_Height ev = 7 /\
    contains (t_health (w_Texts double_screen)) (equivocation_line (w_DisableEmojis double_screen) ev) = true.
Proof.
  destruct (equivocation_on_screen demo_time demo_v demo_sort "http://node" 0 (Schema.empty_tables false) None None 100
    [] [] [] 1 1 (mkVote PrevoteType 7 0 (mkBlockID "H" (mkPSH 1 "P")) "A") (mkVote PrevoteType 7 0 (mkBlockID "K" (mkPSH 1 "P")) "A")
    double_app double_build double_health (demo_env (a_State double_health)) ui_demo_start double_screen)
    as (ev & _ & H1 & _ & _ & H2 & _);
    [go_lia|reflexivity|reflexivity|discriminate|discriminate|discriminate|cbn; go_lia|constructor|reflexivity| |reflexivity
    |vm_compute; reflexivity|vm_compute; reflexivity|reflexivity|].
  - change ([] ++ ?x) with x. refine (at_events demo_app [] (fun _ => 3) [end_vote PrevoteType "H"; end_vote PrevoteType "K"]
      demo_app double_app (at_start _) _ _); [|vm_compute; reflexivity].
    repeat constructor; cbn; unfold PrevoteType; go_lia.
  - exists ev. split; [exact H1|exact H2].
Defined.
End EndToEndExamples.
