(* ===== verification/Persistence.v ===== *)
(** * From memory to the database ([pkg/app.go], [pkg/db])

    The application over its SQLite store: after a consensus refresh the database
    gives back what the memory holds, wherever it can hold it. *)

From S2P Require Import Prelude GoNum GoText Deps Rounds Types MetricTypes State Equivocation Asn Timing Health Builder Schema Store CometRPC Cosmos Fetcher Crawler App.
Local Open Scope Z_scope.

Section Persistence.
Context `{BL : ButilsLaws} `{CL : CometLaws} (config : Config).
#[local] Instance sqlite : ConsensusStorer Tables := db_storer config.
Implicit Types (d : Tables) (rd : RoundData) (l : list (HeightAndRound * RoundData)).

(** One turn of the persisting loop: an error leaves the database alone. *)
Definition persist_step (clk : StoreClock) (d : Tables) (p : HeightAndRound * RoundData) : Tables :=
  (StoreRoundData (clk_round clk p.1) (clk_vote clk) (hr_Height p.1) (hr_Round p.1) p.2 d).2.

(** The database has what a round needs: its height and its proposer. *)
Definition storable d h rd : bool := has_height d h && has_validator_opt d (head (set_range (Proposers rd))).

(** The round and its votes by known validators are in the database. *)
Definition recorded (clk : StoreClock) d (hr : HeightAndRound) rd : Prop :=
  is_Some (t_rounds d !! (hr_Height hr, hr_Round hr)) /\
  forall a t b, has_validator d a = true -> rd_vote rd a t = Some b ->
    t_votes d !! (hr_Height hr, hr_Round hr, a, t) = Some (vote_row (clk_vote clk a t) b).

(** The tables a round needs are the same; the rounds of other keys too. *)
Definition same_ground d d' : Prop := t_heights d' = t_heights d /\ t_validators d' = t_validators d.
Definition same_round d d' (hr : HeightAndRound) : Prop :=
  t_rounds d' !! (hr_Height hr, hr_Round hr) = t_rounds d !! (hr_Height hr, hr_Round hr) /\
  forall a t, t_votes d' !! (hr_Height hr, hr_Round hr, a, t) = t_votes d !! (hr_Height hr, hr_Round hr, a, t).

Lemma persist_step_effect clk d p :
  same_ground d (persist_step clk d p) /\
  (forall hr, hr <> p.1 -> same_round d (persist_step clk d p) hr) /\
  (storable d (hr_Height p.1) p.2 = true -> recorded clk (persist_step clk d p) p.1 p.2) /\
  log_store (storer_StoreRoundData (clk_round clk p.1) (clk_vote clk) (hr_Height p.1) (hr_Round p.1) p.2 d) =
    Ok (persist_step clk d p).
Proof.
  destruct p as [[h r] rd]. unfold persist_step, storable, log_store. cbn [fst snd hr_Height hr_Round storer_StoreRoundData sqlite db_storer].
  pose proof (StoreRoundData_effect (clk_round clk (mkHR h r)) (clk_vote clk) h r rd d) as He.
  destruct (_ && _); [|rewrite He; by split_and!].
  destruct He as (d' & He & Hd' & Hv). rewrite He. cbn [fst snd].
  assert (Hg : same_ground d d') by (rewrite Hd'; by split).
  split_and!; [done| | |done].
  - intros [h' r'] Hne. split; cbn [hr_Height hr_Round].
    + rewrite Hd'. cbn. by rewrite lookup_insert_ne by congruence.
    + intros a t. rewrite Hv, bool_decide_eq_false_2; [done|]. intros [-> ->]. done.
  - intros _. split; cbn [hr_Height hr_Round].
    + rewrite Hd'. cbn. rewrite lookup_insert_eq. by eexists.
    + intros a t b Ha Hb. assert (Ha' : has_validator d a = true) by (unfold has_validator in *; by destruct Hg as [_ <-]).
      by rewrite Hv, bool_decide_eq_true_2, Ha', Hb by done.
Qed.

Lemma ground_storable d d' h rd : same_ground d d' -> storable d' h rd = storable d h rd.
Proof.
  intros [Hh Hv]. unfold storable, has_height, has_validator_opt, has_validator. by rewrite Hh, Hv.
Qed.

Lemma same_recorded clk d d' hr rd :
  same_ground d d' -> same_round d d' hr -> recorded clk d hr rd -> recorded clk d' hr rd.
Proof.
  intros [_ Hg] [Hr Hv] [H1 H2]. split; [by rewrite Hr|]. intros a t b Ha. rewrite Hv. apply H2.
  unfold has_validator in *. by rewrite <-Hg.
Qed.

Lemma persist_loop_effect clk l d : NoDup l.*1 ->
  let d' := foldl (persist_step clk) d l in
  same_ground d d' /\ (forall hr, hr ∉ l.*1 -> same_round d d' hr) /\
  (forall hr rd, (hr, rd) ∈ l -> storable d (hr_Height hr) rd = true -> recorded clk d' hr rd) /\
  yield_all (persist_round clk) (Ok d) l = Ok d'.
Proof.
  revert d. induction l as [|p l IH]; intros d Hnd; cbn [foldl fmap list_fmap] in *.
  - split_and!; try done. set_solver.
  - apply NoDup_cons in Hnd as [Hp Hnd]. destruct (persist_step_effect clk d p) as ([Hh1 Hv1] & Hs1 & Hr1 & Hl1).
    destruct (IH (persist_step clk d p) Hnd) as ([Hh2 Hv2] & Hs2 & Hr2 & Hl2). split_and!.
    + split; congruence.
    + intros hr Hn. apply not_elem_of_cons in Hn as [Hn1 Hn2].
      destruct (Hs1 hr Hn1) as [Ha1 Hb1], (Hs2 hr Hn2) as [Ha2 Hb2]. split; [congruence|].
      intros a t. by rewrite Hb2, Hb1.
    + intros hr rd [E|Hin]%elem_of_cons Hst.
      * subst p. apply (same_recorded clk (persist_step clk d (hr, rd))); [done|by apply Hs2|by apply Hr1].
      * apply Hr2; [done|]. by rewrite (ground_storable d).
    + cbn -[log_store storer_StoreRoundData]. rewrite Hl1. exact Hl2.
Qed.

Lemma iter_nodup v : NoDup (iter_list v).*1.
Proof.
  pose proof (iter_sorted v) as Hs. induction Hs as [|x l _ IH Hx]; constructor; [|done].
  intros Hin. rewrite Forall_forall in Hx. destruct (Hx x Hin) as [|[_ ?]]; lia.
Qed.

(** A consensus refresh of an application whose invariant holds. *)
Lemma refresh_recorded a a' clk f c vals h r rd
    (Hok : app_ok (I := store_wf) a)
    (Hpause : a_IsPaused a = false) (Hty : fetcher_typed f)
    (Hc : fetch_ConsensusState f = Ok (Some c)) (Hvals : fetch_Validators f = Ok vals)
    (Hrefresh : RefreshConsensus clk f a = Ok a')
    (Hrd : lookup_round (VotesByRound (a_State a')) h r = Some rd)
    (Hst : storable (a_Store a') h rd = true) :
  store_wf (a_Store a') /\ is_int32 r /\ types_int32 rd /\ recorded clk (a_Store a') (mkHR h r) rd.
Proof.
  assert (Hok' : app_ok (I := store_wf) a') by (apply (app_step_ok a); [by apply as_quiet, (as_consensus clk f)|done]).
  destruct Hok' as [[_ Hvotes] Hwf]. destruct (Hvotes h r rd Hrd) as [Hr Ht]. split_and!; [done..|].
  unfold RefreshConsensus in Hrefresh. rewrite Hpause, Hc, Hvals in Hrefresh.
  destruct (on_consensus clk c vals _) as [a1| |] eqn:E1; [|done..]. injection Hrefresh as <-.
  cbn [draw a_State a_Store] in *. pose proof (on_consensus_state _ _ _ _ _ E1) as (Es & _ & _).
  unfold on_consensus in E1. cbn -[log_store Iter storer_StoreValidators] in E1.
  destruct (log_store _) as [d1| |]; [|done..]. cbn in E1.
  set (s1 := seed_proposer c _) in *.
  destruct (persist_loop_effect clk (iter_list (VotesByRound s1)) d1 (iter_nodup _)) as (Hg & _ & Hrec & Hl).
  unfold Iter in E1. rewrite Hl in E1. injection E1 as <-. cbn [a_State a_Store with_Store] in *.
  apply (Hrec (mkHR h r) rd); [by apply iter_elem|]. cbn [hr_Height]. by rewrite <-(ground_storable d1 _ h rd Hg).
Qed.

(** What is recorded loads back. *)
Lemma recorded_loads clk d from to h r rd x t b :
  store_wf d -> is_int32 r -> types_int32 rd -> recorded clk d (mkHR h r) rd -> from <= h <= to ->
  has_validator d x = true -> rd_vote rd x t = Some b -> (BlockID_IsZero b = false -> bid_Hash b <> "") ->
  GetVote (LoadRoundDataMap d from to) h r x t = state_of_vote (Some b).
Proof.
  intros Hwf Hr Ht [Hround Hvote] Hrange Hx Hb Hhash. cbn [hr_Height hr_Round] in Hround, Hvote.
  rewrite GetVote_at, load_vote_at by eauto. rewrite bool_decide_eq_true_2 by done.
  rewrite (Hvote x t b Hx Hb). unfold loaded_block, vote_row; cbn. destruct (BlockID_IsZero b) eqn:Eb.
  - by rewrite IsZero_zero.
  - rewrite HexBytes_String_decode, IsZero_hash; [done|]. cbn. by apply Hhash.
Qed.

(** The two together: after the refresh the database answers as the memory does. *)
Lemma refresh_loads a a' clk f c vals from to h r rd x t b
    (Hok : app_ok (I := store_wf) a)
    (Hpause : a_IsPaused a = false) (Hty : fetcher_typed f)
    (Hc : fetch_ConsensusState f = Ok (Some c)) (Hvals : fetch_Validators f = Ok vals)
    (Hrefresh : RefreshConsensus clk f a = Ok a')
    (Hrd : lookup_round (VotesByRound (a_State a')) h r = Some rd) (Hrange : from <= h <= to)
    (Hst : storable (a_Store a') h rd = true) (Hx : has_validator (a_Store a') x = true)
    (Hb : rd_vote rd x t = Some b) (Hhash : BlockID_IsZero b = false -> bid_Hash b <> "") :
  GetVote (LoadRoundDataMap (a_Store a') from to) h r x t = GetVote (VotesByRound (a_State a')) h r x t.
Proof.
  destruct (refresh_recorded a a' clk f c vals h r rd) as (Hwf & Hr & Ht & Hrec); [done..|].
  rewrite (recorded_loads clk _ from to h r rd x t b) by done.
  rewrite GetVote_at. unfold vote_at. rewrite Hrd. cbn. by rewrite Hb.
Qed.

(** C9: Memory survives in the database: in every run over the SQLite store, after a
    consensus refresh that was not paused and whose two requests were answered,
    every round in memory whose height and proposer the database knows loads back
    with the state the memory has of every vote cast by a validator the database
    knows, as long as a block that is not the zero block has a hash. *)
Theorem refresh_persists host now d0 builder a a' clk f c vals from to h r rd x t b
    (Hd0 : store_wf d0) (Hrun : rtc (app_step (T := Tables)) (NewApp host now d0 builder) a)
    (Hpause : a_IsPaused a = false) (Hty : fetcher_typed f)
    (Hc : fetch_ConsensusState f = Ok (Some c)) (Hvals : fetch_Validators f = Ok vals)
    (Hrefresh : RefreshConsensus clk f a = Ok a')
    (Hrd : lookup_round (VotesByRound (a_State a')) h r = Some rd) (Hrange : from <= h <= to)
    (Hst : storable (a_Store a') h rd = true) (Hx : has_validator (a_Store a') x = true)
    (Hb : rd_vote rd x t = Some b) (Hhash : BlockID_IsZero b = false -> bid_Hash b <> "") :
  GetVote (LoadRoundDataMap (a_Store a') from to) h r x t = GetVote (VotesByRound (a_State a')) h r x t.
Proof.
  apply (refresh_loads a a' clk f c vals from to h r rd x t b); try done.
  revert Hrun. apply rtc_invariant; [|by apply NewApp_ok]. intros y z Hy Hyz. by eapply app_step_ok.
Qed.
End Persistence.

(** ** A run that stores a vote *)

Section PersistenceExamples.
#[local] Instance demo_sqlite : ConsensusStorer Tables := db_storer demo_config.

Lemma demo_seen_run : rtc (app_step (T := Tables)) (NewApp "http://node" 0 (empty_tables false) (NewBuilder None None 100)) demo_seen.
Proof.
  apply rtc_once. apply (as_events (fun _ => 3) [demo_event]); [|vm_compute; reflexivity].
  constructor; [|done]. cbn. unfold PrevoteType. split; go_lia.
Qed.

Lemma refresh_persists_witness :
  GetVote (LoadRoundDataMap (a_Store demo_refreshed) 0 10) 7 0 (HexBytes_String "A") PrevoteType = VoteStateForBlock.
Proof.
  assert (Hr : exists rd, lookup_round (VotesByRound (a_State demo_refreshed)) 7 0 = Some rd) by (vm_compute; eexists; reflexivity).
  destruct Hr as [rd Hrd].
  assert (Hvote : rd_vote rd (HexBytes_String "A") PrevoteType = Some (mkBlockID "H" (mkPSH 1 "P")) /\
    storable (a_Store demo_refreshed) 7 rd = true).
  { revert Hrd. vm_compute. intros [= <-]. split; reflexivity. }
  destruct Hvote as [Hvote Hst].
  refine (eq_trans (refresh_persists demo_config "http://node" 0 (empty_tables false) (NewBuilder None None 100)
    demo_seen demo_refreshed demo_clk demo_fetcher (mkRoundState 7 0 1 0 (Some "A")) demo_vals 0 10 7 0 rd
    (HexBytes_String "A") PrevoteType (mkBlockID "H" (mkPSH 1 "P"))
    (empty_wf false) demo_seen_run _ _ _ _ _ Hrd _ Hst _ Hvote _) _).
  - vm_compute. reflexivity.
  - intros c [= <-]. cbn. go_lia.
  - reflexivity.
  - reflexivity.
  - vm_compute. reflexivity.
  - lia.
  - vm_compute. reflexivity.
  - discriminate.
  - vm_compute. reflexivity.
Defined.
End PersistenceExamples.
