(* ===== verification/Relational.v ===== *)
(** * SELECT statements over lists of rows

    The operators the queries of [pkg/db/sqlc] are made of: joins, grouping,
    DISTINCT, window functions.  A table scan is the list of its rows in some
    order; a query without ORDER BY answers its rows in some order. *)

From S2P Require Import Prelude.
Local Open Scope Z_scope.

Section Operators.
Context {A R : Type}.

Definition count (l : list A) : Z := Z.of_nat (length l).

Definition cross_join (l : list A) (r : list R) : list (A * R) := a ← l; pair a <$> r.

Definition inner_join (on : A -> R -> bool) (l : list A) (r : list R) : list (A * R) :=
  a ← l; pair a <$> filter (fun b => on a b = true) r.

(** The rows one left row contributes to a LEFT JOIN: itself with NULLs when nothing matches. *)
Definition left_rows (on : A -> R -> bool) (r : list R) (a : A) : list (A * option R) :=
  match filter (fun b => on a b = true) r with
  | [] => [(a, None)]
  | bs => (fun b => (a, Some b)) <$> bs
  end.
Definition left_join (on : A -> R -> bool) (l : list A) (r : list R) : list (A * option R) :=
  l ≫= left_rows on r.

(** GROUP BY: the keys once each, with their rows. *)
Definition group_by {K} `{EqDecision K} (key : A -> K) (l : list A) : list (K * list A) :=
  (fun k => (k, filter (fun a => key a = k) l)) <$> remove_dups (key <$> l).
End Operators.

(** [COUNT(DISTINCT x)] over the non-NULL values. *)
Definition count_distinct {K} `{EqDecision K} (l : list K) : Z := count (remove_dups l).

(** [ROW_NUMBER()] over rows already in the window's order. *)
Definition row_number {A} (l : list A) : list (Z * A) := imap (fun i a => (Z.of_nat i + 1, a)) l.

(** ** Facts *)

Lemma omap_fmap {A X Y} (f : X -> option Y) (g : A -> X) (l : list A) : omap f (g <$> l) = omap (f ∘ g) l.
Proof. induction l as [|a l IH]; [done|]. cbn. by rewrite IH. Qed.

Section Filters.
Context {A : Type} (P : A -> Prop) `{!forall a, Decision (P a)}.
Implicit Types l : list A.

Lemma filter_all l : Forall P l -> filter P l = l.
Proof. induction 1 as [|a l Ha _ IH]; [done|]. by rewrite filter_cons_True, IH. Qed.

Lemma filter_none l : Forall (fun a => ~ P a) l -> filter P l = [].
Proof. induction 1 as [|a l Ha _ IH]; [done|]. by rewrite filter_cons_False, IH. Qed.

Lemma filter_ext_in (Q : A -> Prop) `{!forall a, Decision (Q a)} l :
  (forall a, a ∈ l -> (P a <-> Q a)) -> filter P l = filter Q l.
Proof.
  induction l as [|a l IH]; intros Hpq; [done|]. rewrite !filter_cons, IH by set_solver.
  pose proof (Hpq a ltac:(set_solver)). destruct (decide (P a)), (decide (Q a)); naive_solver.
Qed.
End Filters.

Section Counting.
Context {A : Type}.
Implicit Types l : list A.

Lemma count_app l1 l2 : count (l1 ++ l2) = count l1 + count l2.
Proof. unfold count. rewrite length_app. lia. Qed.

Lemma count_fmap {X} (f : A -> X) l : count (f <$> l) = count l.
Proof. unfold count. by rewrite length_fmap. Qed.

Lemma count_perm l1 l2 : Permutation l1 l2 -> count l1 = count l2.
Proof. unfold count. by intros ->. Qed.

Lemma omap_bind {X Y} (f : X -> option Y) (g : A -> list X) l : omap f (l ≫= g) = l ≫= fun a => omap f (g a).
Proof.
  induction l as [|a l IH]; [done|]. rewrite !bind_cons, <-IH. clear IH.
  induction (g a) as [|x xs IH]; [done|]. cbn. destruct (f x); cbn; by rewrite IH.
Qed.

Lemma fmap_bind {X Y} (f : X -> Y) (g : A -> list X) l : f <$> (l ≫= g) = l ≫= fun a => f <$> g a.
Proof. induction l as [|a l IH]; [done|]. by rewrite !bind_cons, fmap_app, IH. Qed.

Lemma bind_ext_in {X} (f g : A -> list X) l : (forall a, a ∈ l -> f a = g a) -> l ≫= f = l ≫= g.
Proof. induction l as [|a l IH]; intros H; [done|]. rewrite !bind_cons, H, IH; set_solver. Qed.

(** Elements that give nothing can be left out. *)
Lemma bind_filter {X} (p : A -> bool) (f : A -> list X) l :
  (forall a, a ∈ l -> p a = false -> f a = []) -> l ≫= f = filter (fun a => p a = true) l ≫= f.
Proof.
  induction l as [|a l IH]; intros H; [done|]. rewrite bind_cons, filter_cons, IH by set_solver.
  destruct (p a) eqn:E; [rewrite decide_True by done; by rewrite bind_cons|].
  rewrite decide_False by done. by rewrite (H a) by set_solver.
Qed.

Lemma bind_assoc {X Y} (f : A -> list X) (g : X -> list Y) l : (l ≫= f) ≫= g = l ≫= fun a => f a ≫= g.
Proof. induction l as [|a l IH]; [done|]. by rewrite !bind_cons, bind_app, IH. Qed.

Lemma bind_fmap {X Y} (f : A -> X) (g : X -> list Y) l : (f <$> l) ≫= g = l ≫= fun a => g (f a).
Proof. induction l as [|a l IH]; [done|]. by rewrite fmap_cons, !bind_cons, IH. Qed.

Lemma filter_fmap_comp {X} (f : A -> X) (P : X -> Prop) `{!forall x, Decision (P x)} l :
  filter P (f <$> l) = f <$> filter (fun a => P (f a)) l.
Proof. induction l as [|a l IH]; [done|]. rewrite fmap_cons, !filter_cons, IH. by destruct (decide (P (f a))). Qed.

Lemma filter_bind {X} (f : A -> list X) (P : X -> Prop) `{!forall x, Decision (P x)} l :
  filter P (l ≫= f) = l ≫= fun a => filter P (f a).
Proof. induction l as [|a l IH]; [done|]. by rewrite !bind_cons, filter_app, IH. Qed.
End Counting.

Section Joins.
Context {A R : Type} (on : A -> R -> bool).
Implicit Types (l : list A) (r : list R).

Lemma filter_bind_left {X} (P : X -> Prop) `{!forall x, Decision (P x)} (Q : A -> Prop) `{!forall a, Decision (Q a)}
    (f : A -> list X) l :
  (forall a x, x ∈ f a -> (P x <-> Q a)) -> filter P (l ≫= f) = filter Q l ≫= f.
Proof.
  intros Hpq. induction l as [|a l IH]; [done|]. rewrite bind_cons, filter_app, IH, filter_cons.
  destruct (decide (Q a)) as [Hq|Hq].
  - rewrite filter_all, bind_cons; [done|]. apply Forall_forall. intros x Hx. by apply (Hpq a).
  - rewrite filter_none; [done|]. apply Forall_forall. intros x Hx. by rewrite (Hpq a).
Qed.

Lemma left_rows_fst r a x : x ∈ left_rows on r a -> x.1 = a.
Proof.
  unfold left_rows. destruct (filter _ r) as [|b bs]; [by intros ->%list_elem_of_singleton|].
  by intros (b' & -> & _)%list_elem_of_fmap.
Qed.

Lemma left_rows_nonempty r a : left_rows on r a <> [].
Proof. unfold left_rows. by destruct (filter _ r). Qed.

(** A WHERE on the left columns commutes with the LEFT JOIN. *)
Lemma filter_left_join (P : A * option R -> Prop) `{!forall x, Decision (P x)} (Q : A -> Prop) `{!forall a, Decision (Q a)} l r :
  (forall x, P x <-> Q x.1) -> filter P (left_join on l r) = left_join on (filter Q l) r.
Proof.
  intros Hpq. unfold left_join. apply filter_bind_left. intros a x Hx. rewrite Hpq. by rewrite (left_rows_fst r a x Hx).
Qed.
End Joins.

Section Grouping.
Context {K : Type} `{EqDecision K}.

Lemma remove_dups_const (l : list K) k : l <> [] -> Forall (fun x => x = k) l -> remove_dups l = [k].
Proof.
  intros Hne Hl. induction Hl as [|x l -> Hl IH]; [done|].
  destruct l as [|y l]; [done|]. rewrite <-IH by done. cbn [remove_dups].
  destruct (decide_rel elem_of k (y :: l)) as [|Hn]; [done|]. inversion Hl; subst. set_solver.
Qed.

Lemma remove_dups_app (l1 l2 : list K) :
  (forall x, x ∈ l1 -> x ∉ l2) -> remove_dups (l1 ++ l2) = remove_dups l1 ++ remove_dups l2.
Proof.
  induction l1 as [|x l1 IH]; intros H; [done|]. cbn. rewrite IH by set_solver.
  destruct (decide_rel _ x l1) as [Hx|Hx], (decide_rel _ x (l1 ++ l2)) as [Hy|Hy]; try done; set_solver.
Qed.

Lemma remove_dups_bind {A} (f : A -> list K) (kf : A -> K) (l : list A) :
  (forall a, a ∈ l -> f a <> [] /\ Forall (fun x => x = kf a) (f a)) -> NoDup (kf <$> l) ->
  remove_dups (l ≫= f) = kf <$> l.
Proof.
  intros Hf. induction l as [|a l IH]; intros Hnd; [done|]. cbn in Hnd. apply NoDup_cons in Hnd as [Ha Hnd].
  destruct (Hf a) as [Hne Hk]; [set_solver|]. rewrite bind_cons, remove_dups_app.
  - rewrite (remove_dups_const _ (kf a)) by done. rewrite IH; [done| |done]. intros b Hb. apply Hf. set_solver.
  - intros x Hx Hin. rewrite Forall_forall in Hk. apply Hk in Hx as ->.
    apply list_elem_of_bind in Hin as (b & Hx & Hb). destruct (Hf b) as [_ Hkb]; [set_solver|].
    rewrite Forall_forall in Hkb. apply Hkb in Hx. apply Ha. rewrite Hx. apply list_elem_of_fmap. by exists b.
Qed.

Context {X : Type} (key : X -> K).

Lemma group_by_app (l1 l2 : list X) :
  (forall x y, x ∈ l1 -> y ∈ l2 -> key x <> key y) -> group_by key (l1 ++ l2) = group_by key l1 ++ group_by key l2.
Proof.
  intros H. unfold group_by. rewrite fmap_app, remove_dups_app, fmap_app.
  2:{ intros k (x & -> & Hx)%list_elem_of_fmap (y & E & Hy)%list_elem_of_fmap. by apply (H x y). }
  f_equal; apply list_fmap_ext; intros i k Hk; f_equal; apply list_elem_of_lookup_2, elem_of_remove_dups, list_elem_of_fmap in Hk as (x & -> & Hx);
    rewrite filter_app.
  - rewrite (filter_none _ l2), app_nil_r; [done|]. apply Forall_forall. intros y Hy E. by apply (H x y).
  - rewrite (filter_none _ l1); [done|]. apply Forall_forall. intros y Hy E. by apply (H y x).
Qed.

Lemma group_by_const (l : list X) k : l <> [] -> Forall (fun x => key x = k) l -> group_by key l = [(k, l)].
Proof.
  intros Hne Hl. unfold group_by. rewrite (remove_dups_const _ k).
  - cbn. by rewrite filter_all.
  - by destruct l.
  - by apply Forall_fmap.
Qed.

(** Grouping rows that come from distinct sources by a key of the source. *)
Lemma group_by_bind {A} (f : A -> list X) (kf : A -> K) (l : list A) :
  (forall a, a ∈ l -> f a <> [] /\ Forall (fun x => key x = kf a) (f a)) -> NoDup (kf <$> l) ->
  group_by key (l ≫= f) = (fun a => (kf a, f a)) <$> l.
Proof.
  intros Hf. induction l as [|a l IH]; intros Hnd; [done|]. cbn in Hnd. apply NoDup_cons in Hnd as [Ha Hnd].
  destruct (Hf a) as [Hne Hk]; [set_solver|]. rewrite bind_cons, group_by_app.
  - rewrite (group_by_const _ (kf a)) by done. rewrite IH; [done| |done]. intros b Hb. apply Hf. set_solver.
  - intros x y Hx Hin E. rewrite Forall_forall in Hk. rewrite (Hk x Hx) in E.
    apply list_elem_of_bind in Hin as (b & Hy & Hb). destruct (Hf b) as [_ Hkb]; [set_solver|].
    rewrite Forall_forall in Hkb. rewrite (Hkb y Hy) in E. apply Ha. rewrite E. apply list_elem_of_fmap. by exists b.
Qed.

(** The groups hold every row once. *)
Lemma group_by_rows (l : list X) : Permutation (group_by key l ≫= snd) l.
Proof.
  assert (Hks : forall ks l, NoDup ks -> (forall x, x ∈ l -> key x ∈ ks) ->
    Permutation (ks ≫= fun k => filter (fun x => key x = k) l) l).
  { clear l. induction ks as [|k ks IH]; intros l Hnd Hin.
    - destruct l as [|x l]; [done|]. specialize (Hin x). set_solver.
    - apply NoDup_cons in Hnd as [Hk Hnd]. rewrite bind_cons.
      etransitivity; [|apply (filter_app_complement (fun x => key x = k))]. apply Permutation_app_head.
      etransitivity; [|apply (IH (filter (fun x => key x <> k) l)); [done|]].
      2:{ intros x [? Hx%Hin]%list_elem_of_filter. set_solver. }
      apply Permutation_refl', bind_ext_in. intros k' Hk'. rewrite list_filter_filter. apply filter_ext_in. set_solver. }
  unfold group_by. etransitivity; [|apply (Hks (remove_dups (key <$> l)))].
  - by rewrite bind_fmap.
  - apply NoDup_remove_dups.
  - intros x Hx. apply elem_of_remove_dups, list_elem_of_fmap. by exists x.
Qed.

Lemma group_by_keys (l : list X) : NoDup (group_by key l).*1.
Proof. unfold group_by. rewrite <-list_fmap_compose, list_fmap_id. apply NoDup_remove_dups. Qed.

Lemma group_by_elem (l : list X) g : g ∈ group_by key l ->
  g.2 = filter (fun x => key x = g.1) l /\ g.1 ∈ key <$> l.
Proof. unfold group_by. intros (k & -> & Hk)%list_elem_of_fmap. by rewrite elem_of_remove_dups in Hk. Qed.

(** Rows that repeat a key of their source count it once. *)
Lemma count_distinct_bind {A} (f : A -> list K) (kf : A -> K) (l : list A) :
  (forall a, a ∈ l -> f a <> [] /\ Forall (fun x => x = kf a) (f a)) -> NoDup (kf <$> l) ->
  count_distinct (l ≫= f) = count l.
Proof. intros H1 H2. unfold count_distinct. by rewrite (remove_dups_bind f kf), count_fmap. Qed.
End Grouping.

(** Two arrangements of the same rows sorted by a key that tells the rows apart are equal. *)
Lemma sorted_key_unique {A} (f : A -> Z) (l1 l2 : list A) :
  Permutation l1 l2 -> StronglySorted (fun x y => f x <= f y) l1 -> StronglySorted (fun x y => f x <= f y) l2 ->
  (forall x y, x ∈ l1 -> y ∈ l1 -> f x = f y -> x = y) -> l1 = l2.
Proof.
  intros Hp H1. revert l2 Hp. induction H1 as [|x l1 H1 IH Hx]; intros l2 Hp H2 Hinj.
  - by apply Permutation_nil_l in Hp.
  - destruct l2 as [|y l2]; [by apply Permutation_nil_r in Hp|]. inversion H2 as [|? ? Hs Hy]; subst.
    assert (x = y) as ->.
    { assert (Hxin : x ∈ y :: l2) by (rewrite <-Hp; set_solver). assert (Hyin : y ∈ x :: l1) by (rewrite Hp; set_solver).
      rewrite Forall_forall in Hx, Hy. apply Hinj; [set_solver|done|].
      apply elem_of_cons in Hxin as [->|Hxin]; [done|]. apply elem_of_cons in Hyin as [->|Hyin]; [done|].
      apply Hx in Hyin. apply Hy in Hxin. lia. }
    f_equal. apply IH; [by apply Permutation_cons_inv in Hp|done|]. intros a b Ha Hb. apply Hinj; set_solver.
Qed.
