(* ===== verification/Queries.v ===== *)
(** * The analytics queries ([pkg/db/sqlc/analytics.sql.go], [analytics_live.sql.go])

    Each generated method is the SELECT it runs, over the tables of [Schema] and
    with the operators of [Relational].  The functions of SQLite the statements
    call are fields of [SqlFunctions].  Rows an ORDER BY does not tell apart come
    in the order of the table scan; counts stay below 2^63.  Together the
    methods discharge [AnalyticsQueries], the interface of [Analytics]. *)

From S2P Require Import Prelude GoNum GoText GoTime Analytics Schema Relational.
Local Open Scope Z_scope.

(** SQLite's functions: [ROUND], [AVG] over the non-NULL values, how the driver
    hands back a computed DATETIME, [datetime(t, modifier)] and the number of
    days since the Julian epoch; [None] is NULL. *)
Class SqlFunctions := {
  sql_round : gofloat -> Z -> gofloat;
  sql_avg : list gofloat -> gofloat;
  sql_time : Z -> sqlval;
  sql_datetime : Z -> string -> option string;
  sql_julianday : Z -> option gofloat }.

(** ** Expressions *)

(** [SUM]: NULL on no row. *)
Definition sql_sum (l : list Z) : option Z := match l with [] => None | _ => Some (sumz l) end.

Definition f_max (x y : gofloat) : gofloat := if f_lt x y then y else x.
Definition sql_fmax (l : list gofloat) : option gofloat :=
  match l with [] => None | x :: l => Some (foldl f_max x l) end.

Definition case_when (b : bool) : Z := if b then 1 else 0.

Definition null_text (o : option string) : sqlval := match o with Some s => VText s | None => VNil end.

(** A row of the joins of the ranking queries. *)
Abbreviation MetricsJoin := (((string * ValidatorRow) * (Z * HeightRow)) * option (VoteKey * VoteRow)
  * option ((Z * string) * SnapshotRow))%type (only parsing).

Section Queries.
Context `{F : SqlFunctions}.
Implicit Types (d : Tables) (addr : string).

(** [COALESCE(ROUND(100.0 * n / NULLIF(m, 0), 2), 0.0)] *)
Definition percentage (n : option Z) (m : Z) : gofloat :=
  match n with
  | Some n => if m =? 0 then f64_zero
      else sql_round (f64_div (f64_mul (Fin 100) (f64_of_Z n)) (f64_of_Z m)) 2
  | None => f64_zero
  end.

(** A computed DATETIME column. *)
Definition null_time (o : option Z) : sqlval := match o with Some t => sql_time t | None => VNil end.

(** ** Conditions *)

(** [block_time >= ? AND block_time <= ?]: NULL is not in any window. *)
Definition time_in (start end_ : Z) (h : Z * HeightRow) : bool :=
  match h_BlockTime h.2 with Some t => (start <=? t) && (t <=? end_) | None => false end.
Definition height_in (minH maxH h : Z) : bool := (minH <=? h) && (h <=? maxH).

(** [h.height = v.height AND v.validator_hex_address = ?] *)
Definition votes_at addr (h : Z * HeightRow) (v : VoteKey * VoteRow) : bool :=
  (h.1 =? v.1.1.1.1) && bool_decide (v.1.1.2 = addr).
Definition vote_type_is (t : Z) (v : option (VoteKey * VoteRow)) : bool :=
  match v with Some v => v.1.2 =? t | None => false end.

Definition s_validators d := map_to_list (t_validators d).
Definition s_heights d := map_to_list (t_heights d).
Definition s_rounds d := map_to_list (t_rounds d).
Definition s_votes d := map_to_list (t_votes d).
Definition s_snapshots d := map_to_list (t_snapshots d).

(** [FROM heights h LEFT JOIN votes v ON ... WHERE h.block_time ...] *)
Definition window_votes d addr start end_ : list ((Z * HeightRow) * option (VoteKey * VoteRow)) :=
  filter (fun r => time_in start end_ r.1 = true) (left_join (votes_at addr) (s_heights d) (s_votes d)).

(** ** One validator *)

Definition GetValidatorSigningEfficiency d addr start end_ : EfficiencyRow :=
  let block_participation :=
    (fun g => case_when (0 <? count (omap snd g.2)))
    <$> group_by (fun r => (r.1.1, h_BlockTime r.1.2)) (window_votes d addr start end_) in
  let total := count block_participation in
  let signed := sql_sum block_participation in
  mkEfficiencyRow (VInt total) (VInt (default 0 signed))
    (VInt (default 0 ((fun s => total - s) <$> signed)))
    (VFloat (percentage signed total)).

Definition GetValidatorUptime d addr start end_ : UptimeRow :=
  let rows := window_votes d addr start end_ in
  let total := count_distinct ((fun r => r.1.1) <$> rows) in
  let participated := count_distinct (omap (fun r => (fun _ => r.1.1) <$> r.2) rows) in
  let times := omap (fun r => h_BlockTime r.1.2) rows in
  mkUptimeRow total participated (VInt (total - participated)) (VFloat (percentage (Some participated) total))
    (null_time (min_key times)) (null_time (max_key times)).

Definition GetValidatorConsensusParticipation d addr start end_ : ParticipationRow :=
  let joined :=
    left_join (fun p h => p.1.1.1 =? h.1)
      (left_join (fun r v => (r.1.1 =? v.1.1.1.1) && (r.1.2 =? v.1.1.1.2) && bool_decide (v.1.1.2 = addr))
        (s_rounds d) (s_votes d))
      (s_heights d) in
  let rows := filter (fun p => match p.2 with Some h => time_in start end_ h | None => false end = true) joined in
  let vote_participation :=
    (fun g => (count (filter (fun p => vote_type_is 1 p.1.2 = true) g.2),
               count (filter (fun p => vote_type_is 2 p.1.2 = true) g.2)))
    <$> group_by (fun p => p.1.1.1) rows in
  let total := count vote_participation in
  let prevoted := sql_sum ((fun p => case_when (0 <? p.1)) <$> vote_participation) in
  let precommitted := sql_sum ((fun p => case_when (0 <? p.2)) <$> vote_participation) in
  mkParticipationRow (VInt total) (VInt (default 0 prevoted)) (VInt (default 0 precommitted))
    (VFloat (percentage prevoted total)) (VFloat (percentage precommitted total)).

(** The CTE [block_sequence], before its row number. *)
Record SequenceRow := mkSequenceRow { sq_height : Z; sq_block_time : option Z; sq_missed : bool }.
Definition sequence_row (r : (Z * HeightRow) * option (VoteKey * VoteRow)) : SequenceRow :=
  mkSequenceRow r.1.1 (h_BlockTime r.1.2) (match r.2 with Some _ => false | None => true end).

Definition by_height (x y : SequenceRow) : Prop := sq_height x <= sq_height y.
#[export] Instance by_height_dec : RelDecision by_height := fun x y => Z_le_dec _ _.

Definition streak_row (g : Z * list (Z * SequenceRow)) : StreakRow :=
  let heights := (fun r => sq_height r.2) <$> g.2 in
  let times := omap (fun r => sq_block_time r.2) g.2 in
  mkStreakRow (count g.2) (default VNil (VInt <$> min_key heights)) (default VNil (VInt <$> max_key heights))
    (null_time (min_key times)) (null_time (max_key times)).

Definition longer (x y : StreakRow) : Prop := sr_ConsecutiveMisses y <= sr_ConsecutiveMisses x.
#[export] Instance longer_dec : RelDecision longer := fun x y => Z_le_dec _ _.

(** [rn - ROW_NUMBER()] of the missed rows of a numbered sequence. *)
Definition miss_groups (block_sequence : list (Z * SequenceRow)) : list (Z * SequenceRow) :=
  (fun q => (q.2.1 - q.1, q.2.2)) <$> row_number (filter (fun r => sq_missed r.2 = true) block_sequence).

Definition GetValidatorMissedBlockStreaks d addr start end_ : list StreakRow :=
  let block_sequence := row_number (merge_sort by_height (sequence_row <$> window_votes d addr start end_)) in
  merge_sort longer
    (filter (fun s => 0 < sr_ConsecutiveMisses s) (streak_row <$> group_by fst (miss_groups block_sequence))).

(** NULL sorts first, text by its bytes. *)
Definition bucket_le (x y : option string) : bool :=
  match x, y with None, _ => true | Some _, None => false | Some x, Some y => String.leb x y end.

Definition GetValidatorPerformanceTimeSeries d addr start end_ : list SeriesRow :=
  let time_buckets :=
    (fun g => (g.1, (count g.2, sumz ((fun r => case_when (bool_decide (is_Some r.2))) <$> g.2))))
    <$> group_by (fun r => t ← h_BlockTime r.1.2; sql_datetime t "start of hour")
          (window_votes d addr start end_) in
  (fun b => mkSeriesRow (null_text b.1) b.2.1 (f64_of_Z b.2.2) (VInt (b.2.1 - b.2.2))
              (VFloat (percentage (Some b.2.2) b.2.1)))
  <$> merge_sort (fun x y => Is_true (bucket_le x.1 y.1)) time_buckets.

(** ** All validators *)

Record AllValidatorsEfficiencyRow := mkAllEfficiencyRow {
  ae_HexAddress : string; ae_Moniker : option string; ae_TotalBlocks : Z; ae_BlocksSigned : option gofloat;
  ae_BlocksMissed : Z; ae_SigningEfficiency : gofloat }.

Definition GetAllValidatorsSigningEfficiency d start end_ : list AllValidatorsEfficiencyRow :=
  let validator_participation :=
    (fun p => ((p.1.1, val_Moniker p.1.2), case_when (existsb (votes_at p.1.1 p.2) (s_votes d))))
    <$> filter (fun p => time_in start end_ p.2 = true) (cross_join (s_validators d) (s_heights d)) in
  merge_sort (fun x y => Is_true (negb (f_lt (ae_SigningEfficiency x) (ae_SigningEfficiency y))))
    ((fun g =>
        let total := count g.2 in
        let signed := sql_sum g.2.*2 in
        mkAllEfficiencyRow g.1.1 g.1.2 total (f64_of_Z <$> signed) (total - default 0 signed) (percentage signed total))
     <$> group_by fst validator_participation).

(** The CTE [validator_metrics] of the two ranking queries, which differ in
    the condition on the heights. *)
Record ValidatorMetricsRow := mkMetricsRow {
  vm_hex_address : string; vm_moniker : option string; vm_total_blocks : Z; vm_blocks_signed : Z;
  vm_signing_efficiency : gofloat; vm_prevotes_cast : Z; vm_precommits_cast : Z; vm_voting_power : Z }.

(** One group of [GROUP BY vals.hex_address, vals.moniker]. *)
Definition metrics_row (g : (string * option string) * list MetricsJoin) : ValidatorMetricsRow :=
  let total := count_distinct ((fun r => r.1.1.2.1) <$> g.2) in
  let signed := count_distinct (omap (fun r => (fun _ => r.1.1.2.1) <$> r.1.2) g.2) in
  mkMetricsRow g.1.1 g.1.2 total signed (percentage (Some signed) total)
    (count (filter (fun r => vote_type_is 1 r.1.2 = true) g.2))
    (count (filter (fun r => vote_type_is 2 r.1.2 = true) g.2))
    (default 0 (max_key (omap (fun r => (fun s => sn_VotingPower s.2) <$> r.2) g.2))).

Definition vote_joins (p : (string * ValidatorRow) * (Z * HeightRow)) (v : VoteKey * VoteRow) : bool :=
  votes_at p.1.1 p.2 v.
Definition snapshot_joins (p : ((string * ValidatorRow) * (Z * HeightRow)) * option (VoteKey * VoteRow))
    (s : (Z * string) * SnapshotRow) : bool :=
  (s.1.1 =? p.1.2.1) && bool_decide (s.1.2 = p.1.1.1).

Definition validator_metrics d (inside : Z * HeightRow -> bool) : list ValidatorMetricsRow :=
  let joined :=
    left_join snapshot_joins
      (left_join vote_joins (cross_join (s_validators d) (s_heights d)) (s_votes d))
      (s_snapshots d) in
  metrics_row
  <$> group_by (fun r => (r.1.1.1.1, val_Moniker r.1.1.1.2)) (filter (fun r => inside r.1.1.2 = true) joined).

(** [ORDER BY signing_efficiency DESC, voting_power DESC]: the first comes strictly before. *)
Definition outranks (x y : ValidatorMetricsRow) : bool :=
  f_lt (vm_signing_efficiency y) (vm_signing_efficiency x)
  || negb (f_lt (vm_signing_efficiency x) (vm_signing_efficiency y)) && (vm_voting_power y <? vm_voting_power x).

Definition ranking_row (rank : sqlval) (m : ValidatorMetricsRow) : RankingRow :=
  mkRankingRow (vm_hex_address m) (vm_moniker m) (vm_total_blocks m) (vm_blocks_signed m)
    (vm_total_blocks m - vm_blocks_signed m) (VFloat (vm_signing_efficiency m)) (vm_prevotes_cast m)
    (vm_precommits_cast m) (VInt (vm_voting_power m)) rank.

(** [RANK()]: one more than the rows that come before. *)
Definition rank_of (ms : list ValidatorMetricsRow) (m : ValidatorMetricsRow) : Z :=
  1 + count (filter (fun x => outranks x m = true) ms).

Definition rank_le (x y : Z * ValidatorMetricsRow) : Prop := x.1 <= y.1.
#[export] Instance rank_le_dec : RelDecision rank_le := fun x y => Z_le_dec _ _.

Definition GetValidatorRanking d start end_ : list RankingRow :=
  let ms := validator_metrics d (time_in start end_) in
  (fun p => ranking_row (VInt p.1) p.2) <$> merge_sort rank_le ((fun m => (rank_of ms m, m)) <$> ms).

Definition GetValidatorRankingByHeight d minH maxH : list RankingRow :=
  ranking_row VNil
  <$> merge_sort (fun x y => Is_true (negb (f_lt (vm_signing_efficiency x) (vm_signing_efficiency y))))
        (validator_metrics d (fun h => height_in minH maxH h.1)).

Record ProposerPerformanceRow := mkProposerPerformanceRow {
  po_TotalProposingOpportunities : Z; po_BlocksProposedByValidator : Z; po_ProposalShareRate : gofloat }.

Definition GetProposerPerformance d addr start end_ : ProposerPerformanceRow :=
  let rows := filter (fun p => time_in start end_ p.2 = true)
                (inner_join (fun r h => r.1.1 =? h.1) (s_rounds d) (s_heights d)) in
  let proposed := count (filter (fun p => rd_ProposerAddress p.1.2 = Some addr) rows) in
  mkProposerPerformanceRow (count rows) proposed (percentage (Some proposed) (count rows)).

Definition GetProposerPerformanceByHeight d minH maxH : list ProposerRow :=
  (fun g => mkProposerRow g.1 (count g.2))
  <$> group_by (fun r => rd_ProposerAddress r.2)
        (filter (fun r => height_in minH maxH r.1.1 = true /\ is_Some (rd_ProposerAddress r.2)) (s_rounds d)).

(** [(julianday(v.timestamp) - julianday(r.start_time)) * 86400.0] *)
Definition arrival_secs (timestamp start_time : option Z) : option gofloat :=
  t ← timestamp ≫= sql_julianday; s ← start_time ≫= sql_julianday;
  Some (f64_mul (f64_sub t s) (Fin 86400)).

Definition GetVoteArrivalByHeight d minH maxH : list ArrivalRow :=
  let rows := filter (fun p => height_in minH maxH p.1.1.1.1.1 = true /\
                               is_Some (vt_Timestamp p.1.2) /\ is_Some (rd_StartTime p.2.2))
                (inner_join (fun v r => (v.1.1.1.1 =? r.1.1) && (v.1.1.1.2 =? r.1.2)) (s_votes d) (s_rounds d)) in
  (fun g =>
     let secs := omap (fun p => arrival_secs (vt_Timestamp p.1.2) (rd_StartTime p.2.2)) g.2 in
     mkArrivalRow g.1.1 g.1.2 (count g.2)
       (VFloat (match secs with [] => f64_zero | _ => sql_avg secs end)) (VFloat (default f64_zero (sql_fmax secs))))
  <$> group_by (fun p => (p.1.1.1.2, p.1.1.2)) rows.

(** ** The interface of [Analytics], discharged *)

Definition sqlite_queries d : AnalyticsQueries := {|
  q_SigningEfficiency addr start end_ := Ok (GetValidatorSigningEfficiency d addr start end_);
  q_ConsensusParticipation addr start end_ := Ok (GetValidatorConsensusParticipation d addr start end_);
  q_MissedBlockStreaks addr start end_ := Ok (GetValidatorMissedBlockStreaks d addr start end_);
  q_Uptime addr start end_ := Ok (GetValidatorUptime d addr start end_);
  q_Ranking start end_ := Ok (GetValidatorRanking d start end_);
  q_TimeSeries addr start end_ := Ok (GetValidatorPerformanceTimeSeries d addr start end_);
  q_MaxStoredHeight := Ok (VInt (Schema.GetMaxStoredHeight d));
  q_RankingByHeight minH maxH := Ok (GetValidatorRankingByHeight d minH maxH);
  q_VoteArrivalByHeight minH maxH := Ok (GetVoteArrivalByHeight d minH maxH);
  q_ProposerPerformanceByHeight minH maxH := Ok (GetProposerPerformanceByHeight d minH maxH) |}.
End Queries.

(** ** Heights in the window and their votes *)

Section Windows.
Implicit Types (d : Tables) (addr : string) (h : Z * HeightRow).

Definition windowed d start end_ : list (Z * HeightRow) :=
  filter (fun h => time_in start end_ h = true) (s_heights d).

(** The validator has a vote stored at the height, of any round and type. *)
Definition signed_at d addr h : bool := existsb (votes_at addr h) (s_votes d).
Definition missed_at d addr h : bool := negb (signed_at d addr h).

Lemma window_votes_bind d addr start end_ :
  window_votes d addr start end_ = windowed d start end_ ≫= left_rows (votes_at addr) (s_votes d).
Proof. unfold window_votes. by rewrite (filter_left_join _ _ (fun h => time_in start end_ h = true)). Qed.

Lemma windowed_nodup d start end_ : NoDup (windowed d start end_).*1.
Proof.
  unfold windowed, s_heights.
  apply (sublist_NoDup _ _ (NoDup_fst_map_to_list (t_heights d))). apply fmap_sublist, sublist_filter.
Qed.

Lemma left_rows_missed {A R} (on : A -> R -> bool) (r : list R) a :
  existsb (on a) r = false -> left_rows on r a = [(a, None)].
Proof.
  intros H. unfold left_rows. rewrite filter_none; [done|]. apply Forall_forall. intros b Hb E.
  rewrite <-not_true_iff_false, existsb_exists in H. apply H. exists b. by rewrite <-list_elem_of_In.
Qed.

Lemma left_rows_signed {A R} (on : A -> R -> bool) (r : list R) a :
  existsb (on a) r = true ->
  exists b bs, filter (fun b => on a b = true) r = b :: bs /\ left_rows on r a = (fun b => (a, Some b)) <$> b :: bs.
Proof.
  intros (b & Hb & E)%existsb_exists. unfold left_rows.
  assert (b ∈ filter (fun b => on a b = true) r) by (apply list_elem_of_filter; by rewrite list_elem_of_In).
  destruct (filter _ r) as [|b' bs]; [set_solver|]. by exists b', bs.
Qed.

(** Whether a height was missed is the same on each of its joined rows. *)
Lemma sequence_rows d addr h :
  sequence_row <$> left_rows (votes_at addr) (s_votes d) h =
  replicate (length (left_rows (votes_at addr) (s_votes d) h))
    (mkSequenceRow h.1 (h_BlockTime h.2) (missed_at d addr h)).
Proof.
  unfold missed_at, signed_at. destruct (existsb _ _) eqn:E.
  - apply left_rows_signed in E as (b & bs & _ & ->). rewrite length_fmap.
    induction (b :: bs) as [|x l IH]; [done|]. rewrite !fmap_cons, IH. done.
  - by rewrite left_rows_missed.
Qed.
End Windows.
