(* ===== verification/Streaks.v ===== *)
(** * The missed-block streaks ([GetValidatorMissedBlockStreaks])

    The statement finds the streaks by subtracting two row numbers; here the
    same rows are the maximal runs of missed heights, longest first. *)

From S2P Require Import Prelude GoNum GoText GoTime Analytics Schema Relational Queries.
Local Open Scope Z_scope.

(** ** Maximal runs *)

Section Runs.
Context {A : Type} (miss : A -> bool).
Implicit Types l run : list A.

Definition flush (run : list A) : list (list A) := match run with [] => [] | _ => [run] end.

(** The runs of [l], the current one being [run] so far. *)
Fixpoint runs_from (run l : list A) : list (list A) :=
  match l with
  | [] => flush run
  | a :: l => if miss a then runs_from (run ++ [a]) l else flush run ++ runs_from [] l
  end.
Definition miss_runs (l : list A) : list (list A) := runs_from [] l.

Definition hit (o : option A) : Prop := match o with Some a => miss a = false | None => True end.

(** A stretch of misses that neither neighbour extends. *)
Definition maximal_run l run : Prop := exists pre post,
  l = pre ++ run ++ post /\ run <> [] /\ Forall (fun a => miss a = true) run /\ hit (last pre) /\ hit (head post).

Lemma all_miss_last l : Forall (fun a => miss a = true) l -> hit (last l) -> l = [].
Proof.
  intros Hl Hh. destruct (last l) as [a|] eqn:E; [|by apply last_None].
  apply last_Some_elem_of in E. rewrite Forall_forall in Hl. apply Hl in E. cbn in Hh. congruence.
Qed.

Lemma all_miss_head l : Forall (fun a => miss a = true) l -> hit (head l) -> l = [].
Proof. destruct 1; cbn; congruence. Qed.

Lemma maximal_all run0 run : Forall (fun a => miss a = true) run0 ->
  maximal_run run0 run <-> run ∈ flush run0.
Proof.
  intros Hall. split.
  - intros (pre & post & -> & Hne & _ & Hpre & Hpost). apply Forall_app in Hall as [Ha1 [Ha2 Ha3]%Forall_app].
    apply all_miss_last in Hpre as ->; [|done]. apply all_miss_head in Hpost as ->; [|done].
    rewrite app_nil_r. cbn. destruct run; set_solver.
  - intros Hin. exists [], []. rewrite app_nil_r. destruct run0; [set_solver|].
    apply list_elem_of_singleton in Hin as ->. by cbn.
Qed.

(** A height that is not missed separates the runs before it from those after. *)
Lemma maximal_split l1 a l2 run : Forall (fun a => miss a = true) l1 -> miss a = false ->
  maximal_run (l1 ++ a :: l2) run <-> run ∈ flush l1 \/ maximal_run l2 run.
Proof.
  intros H1 Ha. split.
  - intros (pre & post & E & Hne & Hrun & Hpre & Hpost).
    apply app_eq_app in E as (k & [[-> Ek]|[-> Ek]]).
    + (* the run starts inside [l1] *)
      apply Forall_app in H1 as [Hp Hk]. apply all_miss_last in Hpre as ->; [|done]. left. cbn.
      apply app_eq_app in Ek as (k' & [[-> Ek]|[-> Ek]]).
      * destruct k' as [|b k']; cbn in Ek.
        { rewrite app_nil_r in *. destruct k; set_solver. }
        injection Ek as -> _. rewrite Forall_app, Forall_cons in Hrun. destruct Hrun as (_ & ? & _). congruence.
      * destruct k' as [|b k']; [rewrite app_nil_r; destruct run; set_solver|].
        rewrite Forall_app, Forall_cons in Hk. destruct Hk as (_ & Hb & _). rewrite Ek in Hpost. cbn in Hpost. congruence.
    + destruct k as [|b k]; cbn in Ek.
      * (* the run would start at [a] *)
        destruct run as [|c run]; [done|]. injection Ek as -> _. inversion Hrun; congruence.
      * injection Ek as -> Ek. right. exists k, post. split_and!; try done.
        destruct k as [|c k _] using rev_ind; [done|].
        by rewrite app_comm_cons, app_assoc, last_snoc in Hpre; rewrite last_snoc.
  - intros [Hin|(pre & post & -> & Hne & Hrun & Hpre & Hpost)].
    + assert (run = l1 /\ l1 <> []) as [-> Hne] by (destruct l1; set_solver). exists [], (a :: l2). by split_and!.
    + exists (l1 ++ a :: pre), post. rewrite <-app_assoc. split_and!; try done.
      destruct pre as [|c pre _] using rev_ind; [by rewrite last_snoc|].
      by rewrite app_comm_cons, app_assoc, last_snoc; rewrite last_snoc in Hpre.
Qed.

Lemma runs_from_maximal l run0 run : Forall (fun a => miss a = true) run0 ->
  run ∈ runs_from run0 l <-> maximal_run (run0 ++ l) run.
Proof.
  revert run0. induction l as [|a l IH]; intros run0 H0; cbn.
  - by rewrite app_nil_r, maximal_all.
  - destruct (miss a) eqn:Ea.
    + rewrite IH, <-app_assoc; [done|]. by apply Forall_app; auto.
    + by rewrite elem_of_app, IH, maximal_split.
Qed.

Lemma runs_from_concat l run0 : concat (runs_from run0 l) = run0 ++ filter (fun a => miss a = true) l.
Proof.
  assert (Hf : forall run, concat (flush run) = run) by (intros []; cbn; by rewrite ?app_nil_r).
  revert run0. induction l as [|a l IH]; intros run0; cbn [runs_from]; [by rewrite Hf, app_nil_r|].
  rewrite filter_cons. destruct (miss a).
  - rewrite IH, <-app_assoc, decide_True by done. done.
  - by rewrite concat_app, Hf, IH, decide_False.
Qed.

(** ** The labels the two row numbers give *)

(** A height contributes [w] joined rows; a missed one exactly one. *)
Context (w : A -> Z).

(** Each missed element with the number of rows of elements not missed before it. *)
Fixpoint labels (c : Z) (l : list A) : list (Z * A) :=
  match l with
  | [] => []
  | a :: l => if miss a then (c, a) :: labels c l else labels (c + w a) l
  end.

Hypothesis w_pos : forall a, 1 <= w a.

Lemma labels_ge c l p : p ∈ labels c l -> c <= p.1.
Proof.
  revert c. induction l as [|a l IH]; intros c Hp; cbn in Hp; [set_solver|]. destruct (miss a).
  - apply elem_of_cons in Hp as [->|Hp]; [cbn; lia|]. by apply IH.
  - apply IH in Hp. pose proof (w_pos a). lia.
Qed.

(** Grouped by label, the missed elements are the runs. *)
Lemma group_labels l c run : Forall (fun a => miss a = true) run ->
  (fun g : Z * list (Z * A) => g.2.*2) <$> group_by fst (((c,.) <$> run) ++ labels c l) = runs_from run l.
Proof.
  assert (Hrun : forall c run, (fun g : Z * list (Z * A) => g.2.*2) <$> group_by fst ((c,.) <$> run) = flush run).
  { intros c' [|a r]; [done|]. rewrite (group_by_const _ _ c'); [|done|by apply Forall_fmap, Forall_true].
    cbn. by rewrite <-list_fmap_compose, list_fmap_id. }
  revert c run. induction l as [|a l IH]; intros c run H0; cbn [labels runs_from].
  - by rewrite app_nil_r, Hrun.
  - destruct (miss a) eqn:Ea.
    + rewrite <-(IH c) by (apply Forall_app; auto). by rewrite fmap_app, <-app_assoc.
    + rewrite group_by_app, fmap_app, Hrun; [f_equal; apply (IH _ []); constructor|].
      intros x y (b & -> & _)%list_elem_of_fmap Hy%labels_ge. pose proof (w_pos a). cbn. lia.
Qed.
End Runs.

(** ** Row numbers *)

(** [ROW_NUMBER()], [n] rows having gone before. *)
Definition number {A} (n : Z) (l : list A) : list (Z * A) := imap (fun i a => (n + Z.of_nat i + 1, a)) l.

Lemma row_number_0 {A} (l : list A) : row_number l = number 0 l.
Proof. done. Qed.

Lemma number_cons {A} n a (l : list A) : number n (a :: l) = (n + 1, a) :: number (n + 1) l.
Proof.
  unfold number. rewrite imap_cons. f_equal; [f_equal; lia|]. apply imap_ext. intros i x _. cbn. f_equal. lia.
Qed.

Lemma number_app {A} n (l1 l2 : list A) : number n (l1 ++ l2) = number n l1 ++ number (n + Z.of_nat (length l1)) l2.
Proof.
  revert n. induction l1 as [|a l1 IH]; intros n; [by rewrite Z.add_0_r|].
  rewrite <-app_comm_cons, !number_cons, IH, <-app_comm_cons. do 3 f_equal. cbn [length]. lia.
Qed.

Lemma number_elem {A} n (l : list A) p : p ∈ number n l -> p.2 ∈ l.
Proof. unfold number. intros (i & a & -> & Hi)%elem_of_lookup_imap. by eapply list_elem_of_lookup_2. Qed.

Section Labels.
Context {A : Type} (miss : A -> bool) (w : A -> nat) (row : A -> SequenceRow).
Hypothesis row_missed : forall a, sq_missed (row a) = miss a.
Hypothesis w_missed : forall a, miss a = true -> w a = 1%nat.

Definition numbered_groups (m : Z) (seq : list (Z * SequenceRow)) : list (Z * SequenceRow) :=
  (fun q => (q.2.1 - q.1, q.2.2)) <$> number m (filter (fun r => sq_missed r.2 = true) seq).

Lemma numbered_groups_labels l m n :
  numbered_groups m (number n (l ≫= fun a => replicate (w a) (row a))) =
  prod_map id row <$> labels miss (fun a => Z.of_nat (w a)) (n - m) l.
Proof.
  unfold numbered_groups. revert m n. induction l as [|a l IH]; intros m n; [done|].
  rewrite bind_cons. cbn [labels]. destruct (miss a) eqn:Ea.
  - rewrite w_missed by done. cbn [replicate app].
    rewrite number_cons, filter_cons_True, number_cons, !fmap_cons by (cbn; congruence).
    f_equal; [unfold prod_map; cbn; f_equal; lia|]. rewrite IH. do 2 f_equal. lia.
  - rewrite number_app, filter_app, filter_none, app_nil_l, IH, length_replicate; [do 2 f_equal; lia|].
    apply Forall_forall. intros p Hp%number_elem%elem_of_replicate. destruct Hp as [-> _]. rewrite row_missed. congruence.
Qed.

(** The groups of the statement are the rows of the runs. *)
Lemma miss_groups_runs l : (forall a, (1 <= w a)%nat) ->
  (fun g : Z * list (Z * SequenceRow) => g.2.*2) <$> group_by fst (miss_groups (row_number (l ≫= fun a => replicate (w a) (row a)))) =
  fmap row <$> miss_runs miss l.
Proof.
  intros Hw. unfold miss_groups. rewrite row_number_0, row_number_0. fold (numbered_groups 0 (number 0 (l ≫= fun a => replicate (w a) (row a)))).
  rewrite numbered_groups_labels, Z.sub_diag. unfold miss_runs.
  rewrite <-(group_labels miss (fun a => Z.of_nat (w a)) ltac:(intros a; specialize (Hw a); lia) l 0 []) by constructor.
  cbn [fmap list_fmap app]. generalize (labels miss (fun a => Z.of_nat (w a)) 0 l). clear.
  intros ls. unfold group_by. rewrite <-!list_fmap_compose.
  rewrite (list_fmap_ext (fst ∘ prod_map id row) fst) by done.
  apply list_fmap_ext. intros _ k _. cbn. induction ls as [|[c a] ls IH]; [done|].
  cbn [fmap list_fmap prod_map]. rewrite !filter_cons. cbn [fst id]. destruct (decide (c = k)); [|done].
  rewrite !fmap_cons, IH. done.
Qed.
End Labels.

(** ** The streaks of a validator *)

Definition height_le (x y : Z * HeightRow) : Prop := x.1 <= y.1.
#[export] Instance height_le_dec : RelDecision height_le := fun x y => Z_le_dec _ _.

(** The heights of the window in order. *)
Definition sorted_window (d : Tables) (start end_ : Z) : list (Z * HeightRow) :=
  merge_sort height_le (windowed d start end_).

Section StreakRows.
Context `{F : SqlFunctions}.

(** What the query answers for one run of missed heights. *)
Definition run_row (run : list (Z * HeightRow)) : StreakRow :=
  let times := omap (fun h => h_BlockTime h.2) run in
  mkStreakRow (count run) (default VNil (VInt <$> min_key run.*1)) (default VNil (VInt <$> max_key run.*1))
    (null_time (min_key times)) (null_time (max_key times)).

#[local] Instance height_le_total : Total height_le.
Proof. intros x y. unfold height_le. lia. Qed.
#[local] Instance height_le_trans : Transitive height_le.
Proof. intros x y z. unfold height_le. lia. Qed.
#[local] Instance by_height_total : Total by_height.
Proof. intros x y. unfold by_height. lia. Qed.
#[local] Instance by_height_trans : Transitive by_height.
Proof. intros x y z. unfold by_height. lia. Qed.

Lemma sorted_replicate {A} (f : A -> Z) (row : A -> SequenceRow) (w : A -> nat) l :
  (forall a, sq_height (row a) = f a) -> StronglySorted (fun x y => f x <= f y) l ->
  StronglySorted by_height (l ≫= fun a => replicate (w a) (row a)).
Proof.
  intros Hf. induction 1 as [|a l _ IH Ha]; [constructor|]. rewrite bind_cons.
  induction (w a) as [|n IHn]; [done|]. cbn. constructor; [done|]. apply Forall_app. split.
  - apply Forall_forall. intros x [-> _]%elem_of_replicate. unfold by_height. lia.
  - apply Forall_forall. intros x (b & [-> _]%elem_of_replicate & Hb)%list_elem_of_bind.
    rewrite Forall_forall in Ha. unfold by_height. rewrite !Hf. by apply Ha.
Qed.

Definition rows_at d addr h : nat := length (left_rows (votes_at addr) (s_votes d) h).
Definition seq_row d addr (h : Z * HeightRow) : SequenceRow :=
  mkSequenceRow h.1 (h_BlockTime h.2) (missed_at d addr h).

Lemma joined_rows d addr l :
  sequence_row <$> (l ≫= left_rows (votes_at addr) (s_votes d)) =
  l ≫= fun h => replicate (rows_at d addr h) (seq_row d addr h).
Proof. induction l as [|h l IH]; [done|]. by rewrite !bind_cons, fmap_app, IH, sequence_rows. Qed.

(** The rows of the sequence, whatever order the ties come in. *)
Lemma sequence_sorted d addr start end_ :
  merge_sort by_height (sequence_row <$> window_votes d addr start end_) =
  sorted_window d start end_ ≫= fun h => replicate (rows_at d addr h) (seq_row d addr h).
Proof.
  assert (Hp : Permutation (sequence_row <$> window_votes d addr start end_)
                 (sorted_window d start end_ ≫= fun h => replicate (rows_at d addr h) (seq_row d addr h))).
  { unfold sorted_window. rewrite merge_sort_Permutation, window_votes_bind.
    by rewrite joined_rows. }
  apply (sorted_key_unique sq_height).
  - by rewrite merge_sort_Permutation.
  - apply (StronglySorted_merge_sort by_height).
  - apply (sorted_replicate fst); [done|]. apply (StronglySorted_merge_sort height_le).
  - intros x y Hx Hy Hxy. rewrite merge_sort_Permutation, Hp in Hx, Hy.
    apply list_elem_of_bind in Hx as (h1 & [-> _]%elem_of_replicate & H1), Hy as (h2 & [-> _]%elem_of_replicate & H2).
    f_equal. unfold sorted_window in H1, H2. rewrite merge_sort_Permutation in H1, H2. cbn in Hxy.
    pose proof (windowed_nodup d start end_) as Hnd. apply list_elem_of_lookup in H1 as [i Hi], H2 as [j Hj].
    assert (i = j); [|congruence]. apply (NoDup_lookup _ i j h1.1 Hnd); rewrite list_lookup_fmap, ?Hi, ?Hj; cbn; congruence.
Qed.

Lemma streak_rows d addr start end_ :
  streak_row <$> group_by fst (miss_groups (row_number
    (merge_sort by_height (sequence_row <$> window_votes d addr start end_)))) =
  run_row <$> miss_runs (missed_at d addr) (sorted_window d start end_).
Proof.
  rewrite sequence_sorted. pose proof (miss_groups_runs (missed_at d addr) (rows_at d addr) (seq_row d addr)
    ltac:(done)) as Hg.
  transitivity ((fun r => mkStreakRow (count r) (default VNil (VInt <$> min_key (sq_height <$> r)))
    (default VNil (VInt <$> max_key (sq_height <$> r))) (null_time (min_key (omap sq_block_time r)))
    (null_time (max_key (omap sq_block_time r)))) <$>
    (fmap (seq_row d addr) <$> miss_runs (missed_at d addr) (sorted_window d start end_))).
  - rewrite <-Hg.
    + rewrite <-list_fmap_compose. apply list_fmap_ext. intros _ [c rs] _. unfold streak_row. cbn.
      unfold count. rewrite length_fmap, <-list_fmap_compose, omap_fmap. done.
    + intros h Hm. unfold rows_at. rewrite left_rows_missed; [done|]. by apply negb_true_iff in Hm.
    + intros h. unfold rows_at. pose proof (left_rows_nonempty (votes_at addr) (s_votes d) h).
      destruct (left_rows _ _ h); [done|cbn; lia].
  - rewrite <-list_fmap_compose. apply list_fmap_ext. intros _ run _. unfold run_row. cbn.
    unfold count. by rewrite length_fmap, <-list_fmap_compose, omap_fmap.
Qed.

Lemma miss_runs_spec {A} (miss : A -> bool) l run : run ∈ miss_runs miss l <-> maximal_run miss l run.
Proof. unfold miss_runs. by rewrite runs_from_maximal. Qed.

Lemma streaks_of_runs d addr start end_ :
  GetValidatorMissedBlockStreaks d addr start end_ =
  merge_sort longer (run_row <$> miss_runs (missed_at d addr) (sorted_window d start end_)).
Proof.
  unfold GetValidatorMissedBlockStreaks. rewrite streak_rows. f_equal. apply filter_all.
  apply Forall_fmap, Forall_forall. intros run Hrun%miss_runs_spec. destruct Hrun as (_ & _ & _ & Hne & _).
  cbn. unfold count. destruct run; [done|cbn; lia].
Qed.

#[local] Instance longer_total : Total longer.
Proof. intros x y. unfold longer. lia. Qed.
#[local] Instance longer_trans : Transitive longer.
Proof. intros x y z. unfold longer. lia. Qed.

(** The first of the sorted rows is a longest one. *)
Lemma sorted_head l s rest : merge_sort longer l = s :: rest ->
  s ∈ l /\ forall x, x ∈ l -> sr_ConsecutiveMisses x <= sr_ConsecutiveMisses s.
Proof.
  intros E. assert (Hp : Permutation (s :: rest) l) by (rewrite <-E; apply merge_sort_Permutation).
  pose proof (StronglySorted_merge_sort longer l) as Hs. rewrite E in Hs. inversion Hs as [|? ? _ Hx]; subst.
  split; [rewrite <-Hp; set_solver|]. intros x Hin. rewrite <-Hp in Hin.
  apply elem_of_cons in Hin as [->|Hin]; [lia|]. rewrite Forall_forall in Hx. by apply Hx.
Qed.

Lemma no_runs d addr start end_ :
  miss_runs (missed_at d addr) (sorted_window d start end_) = [] <->
  forall h, h ∈ windowed d start end_ -> signed_at d addr h = true.
Proof.
  pose proof (runs_from_concat (missed_at d addr) (sorted_window d start end_) []) as Hc.
  fold (miss_runs (missed_at d addr) (sorted_window d start end_)) in Hc. cbn [app] in Hc.
  assert (Hiff : filter (fun h => missed_at d addr h = true) (sorted_window d start end_) = [] <->
    forall h, h ∈ windowed d start end_ -> signed_at d addr h = true).
  { unfold missed_at. split.
    - intros E h Hh. apply not_false_iff_true. intros Hs.
      assert (Hin : h ∈ filter (fun h => negb (signed_at d addr h) = true) (sorted_window d start end_)).
      { apply list_elem_of_filter. unfold sorted_window. by rewrite Hs, merge_sort_Permutation. }
      rewrite E in Hin. set_solver.
    - intros H. apply filter_none, Forall_forall. intros h Hh. unfold sorted_window in Hh.
      rewrite merge_sort_Permutation in Hh. by rewrite (H h Hh). }
  rewrite <-Hiff, <-Hc. split; [by intros ->|].
  destruct (miss_runs _ _) as [|run rs] eqn:E; [done|]. cbn. intros [-> _]%app_nil.
  assert (Hr : ([] : list (Z * HeightRow)) ∈ miss_runs (missed_at d addr) (sorted_window d start end_)) by (rewrite E; set_solver).
  apply miss_runs_spec in Hr as (_ & _ & _ & Hne & _). done.
Qed.

(** C17: The missed-block streaks are the maximal runs of consecutive heights of the
    window at which the validator has no vote stored, one row each with its length,
    first and last height and time, the longest first; a height with both a prevote
    and a precommit breaks a run once, like any other. *)
Theorem missed_streaks_runs d addr start end_ :
  let runs := miss_runs (missed_at d addr) (sorted_window d start end_) in
  GetValidatorMissedBlockStreaks d addr start end_ = merge_sort longer (run_row <$> runs) /\
  forall run, run ∈ runs <-> maximal_run (missed_at d addr) (sorted_window d start end_) run.
Proof.
  intros runs. split; [apply streaks_of_runs|intros run; apply miss_runs_spec].
Qed.

(** The longest miss streak of the performance report is the length of the longest
    run of missed heights, and zero exactly when the validator missed none. *)
Theorem longest_miss_streak d addr now window :
  let runs := miss_runs (missed_at d addr) (sorted_window d (tw_Start window) (tw_End window)) in
  exists m, GetSigningEfficiency (Q := sqlite_queries d) now addr window = Ok m /\
    (forall run, run ∈ runs -> count run <= pm_LongestMissStreak m) /\
    (pm_LongestMissStreak m = 0 <-> forall h, h ∈ windowed d (tw_Start window) (tw_End window) -> signed_at d addr h = true) /\
    (pm_LongestMissStreak m <> 0 -> exists run, run ∈ runs /\ count run = pm_LongestMissStreak m).
Proof.
  intros runs. unfold GetSigningEfficiency. cbn [q_SigningEfficiency q_ConsensusParticipation q_MissedBlockStreaks sqlite_queries mbind res_bind].
  eexists. split; [reflexivity|]. cbn [pm_LongestMissStreak].
  rewrite <-no_runs. rewrite streaks_of_runs. fold runs.
  assert (Hpos : forall run, run ∈ runs -> 0 < count run).
  { intros run (_ & _ & _ & Hne & _)%miss_runs_spec. unfold count. destruct run; [done|cbn; lia]. }
  destruct (merge_sort longer _) as [|s rest] eqn:E.
  - assert (En : run_row <$> runs = []) by (apply Permutation_nil_r; rewrite <-E, merge_sort_Permutation; done).
    apply fmap_nil_inv in En as ->. split_and!; [set_solver|done|done].
  - apply sorted_head in E as [(run & -> & Hrun)%list_elem_of_fmap Hmax]. cbn in *. specialize (Hpos run Hrun) as Hp.
    split_and!; [|split; [lia|]|by exists run].
    + intros r Hr. apply (Hmax (run_row r)). apply list_elem_of_fmap. by exists r.
    + intros En. rewrite En in Hrun. set_solver.
Qed.
End StreakRows.
