(* ===== verification/Efficiency.v ===== *)
(** * The efficiency queries agree ([pkg/db/sqlc/analytics.sql.go])

    Four statements compute the signing efficiency of a validator in four ways:
    grouping by height, counting distinct heights, an EXISTS per validator and
    height, and a cross join with every table.  All count the heights of the
    window and those with a vote.  The time series counts rows instead. *)

From S2P Require Import Prelude GoNum GoText GoTime Analytics Schema Relational Queries.
Local Open Scope Z_scope.

Lemma sumz_when {A} (p : A -> bool) (l : list A) :
  sumz ((fun a => case_when (p a)) <$> l) = count (filter (fun a => p a = true) l).
Proof.
  unfold count, case_when. induction l as [|a l IH]; [done|]. cbn [fmap list_fmap]. rewrite sumz_cons, IH, filter_cons.
  destruct (p a); [rewrite decide_True by done|rewrite decide_False by done]; cbn [length]; lia.
Qed.

Section Agreement.
Context `{F : SqlFunctions}.
Implicit Types (d : Tables) (addr : string) (h : Z * HeightRow).

(** ** The reference: heights of the window, and those with a vote *)

Definition heights_total (l : list (Z * HeightRow)) : Z := count l.
Definition heights_signed d addr (l : list (Z * HeightRow)) : Z := count (filter (fun h => signed_at d addr h = true) l).

(** Grouped by height: one flag per height. *)
Lemma participation_flags d addr start end_ :
  (fun g => case_when (0 <? count (omap snd g.2))) <$>
    group_by (fun r : (Z * HeightRow) * option (VoteKey * VoteRow) => (r.1.1, h_BlockTime r.1.2)) (window_votes d addr start end_) =
  (fun h => case_when (signed_at d addr h)) <$> windowed d start end_.
Proof.
  rewrite window_votes_bind, (group_by_bind _ _ (fun h => (h.1, h_BlockTime h.2))).
  - rewrite <-list_fmap_compose. apply list_fmap_ext. intros _ h _. cbn. unfold signed_at.
    destruct (existsb _ _) eqn:E.
    + apply left_rows_signed in E as (b & bs & _ & ->). by rewrite omap_fmap.
    + by rewrite left_rows_missed.
  - intros h _. split; [apply left_rows_nonempty|]. apply Forall_forall. intros x Hx%left_rows_fst. by rewrite Hx.
  - apply (NoDup_fmap_1 fst). rewrite <-list_fmap_compose. apply windowed_nodup.
Qed.

Lemma sql_sum_default l : default 0 (sql_sum l) = sumz l.
Proof. by destruct l. Qed.

Lemma sql_sum_missed l m : m = count l -> default 0 ((fun s => m - s) <$> sql_sum l) = m - sumz l.
Proof. intros ->. by destruct l. Qed.

Lemma percentage_sum l m : m = count l -> percentage (sql_sum l) m = percentage (Some (sumz l)) m.
Proof. intros ->. by destruct l. Qed.

Lemma signing_efficiency_counts d addr start end_ :
  let total := heights_total (windowed d start end_) in
  let signed := heights_signed d addr (windowed d start end_) in
  GetValidatorSigningEfficiency d addr start end_ =
  mkEfficiencyRow (VInt total) (VInt signed) (VInt (total - signed)) (VFloat (percentage (Some signed) total)).
Proof.
  intros total signed. unfold GetValidatorSigningEfficiency. rewrite participation_flags.
  by rewrite percentage_sum, sql_sum_missed, sql_sum_default, sumz_when, count_fmap by (by rewrite count_fmap).
Qed.

Lemma uptime_counts d addr start end_ :
  let total := heights_total (windowed d start end_) in
  let signed := heights_signed d addr (windowed d start end_) in
  let u := GetValidatorUptime d addr start end_ in
  ur_TotalBlocksInWindow u = total /\ ur_BlocksParticipated u = signed /\
  ur_BlocksMissed u = VInt (total - signed) /\ ur_UptimePercentage u = VFloat (percentage (Some signed) total).
Proof.
  intros total signed u.
  assert (H1 : count_distinct ((fun r => r.1.1) <$> window_votes d addr start end_) = total).
  { rewrite window_votes_bind, fmap_bind. apply (count_distinct_bind _ fst); [|apply windowed_nodup].
    intros h _. split; [intros E%fmap_nil_inv; by apply left_rows_nonempty in E|].
    apply Forall_fmap, Forall_forall. intros x Hx%left_rows_fst. cbn. by rewrite Hx. }
  assert (H2 : count_distinct (omap (fun r => (fun _ => r.1.1) <$> r.2) (window_votes d addr start end_)) = signed).
  { rewrite window_votes_bind, omap_bind, (bind_filter (signed_at d addr)).
    - apply (count_distinct_bind _ fst).
      + intros h [Hh _]%list_elem_of_filter. unfold signed_at in Hh. apply left_rows_signed in Hh as (b & bs & _ & ->).
        rewrite omap_fmap. split; [done|]. induction (b :: bs); constructor; auto.
      + apply (sublist_NoDup _ _ (windowed_nodup d start end_)), fmap_sublist, sublist_filter.
    - intros h _ Hh. by rewrite left_rows_missed. }
  subst u. unfold GetValidatorUptime. cbn [ur_TotalBlocksInWindow ur_BlocksParticipated ur_BlocksMissed ur_UptimePercentage].
  by rewrite H1, H2.
Qed.

(** ** The ranking: one group per validator *)

Definition inside_heights d (inside : Z * HeightRow -> bool) : list (Z * HeightRow) :=
  filter (fun h => inside h = true) (s_heights d).

Lemma inside_nodup d inside : NoDup (inside_heights d inside).*1.
Proof.
  apply (sublist_NoDup _ _ (NoDup_fst_map_to_list (t_heights d))). apply fmap_sublist, sublist_filter.
Qed.

(** The joined rows of one validator. *)
Definition block d (v : string * ValidatorRow) (l : list (Z * HeightRow)) : list MetricsJoin :=
  l ≫= fun h => left_rows vote_joins (s_votes d) (v, h) ≫= left_rows snapshot_joins (s_snapshots d).

Lemma joined_blocks d inside :
  filter (fun r : MetricsJoin => inside r.1.1.2 = true)
    (left_join snapshot_joins (left_join vote_joins (cross_join (s_validators d) (s_heights d)) (s_votes d)) (s_snapshots d)) =
  s_validators d ≫= fun v => block d v (inside_heights d inside).
Proof.
  rewrite (filter_left_join _ _ (fun p => inside p.1.2 = true)) by done.
  rewrite (filter_left_join _ _ (fun p => inside p.2 = true)) by done.
  unfold left_join, cross_join. rewrite filter_bind. rewrite !bind_assoc. apply bind_ext_in. intros v _.
  by rewrite filter_fmap_comp, bind_fmap.
Qed.

Lemma block_rows d v h x :
  x ∈ left_rows vote_joins (s_votes d) (v, h) ≫= left_rows snapshot_joins (s_snapshots d) -> x.1.1 = (v, h).
Proof. by intros (y & Hx%left_rows_fst & Hy%left_rows_fst)%list_elem_of_bind; rewrite Hx, Hy. Qed.

Lemma block_rows_nonempty d v h :
  left_rows vote_joins (s_votes d) (v, h) ≫= left_rows snapshot_joins (s_snapshots d) <> [].
Proof.
  pose proof (left_rows_nonempty vote_joins (s_votes d) (v, h)). destruct (left_rows _ _ _) as [|x xs]; [done|].
  rewrite bind_cons. intros [E _]%app_nil. by apply left_rows_nonempty in E.
Qed.

Lemma metrics_blocks d inside : inside_heights d inside <> [] ->
  validator_metrics d inside =
  (fun v => metrics_row ((v.1, val_Moniker v.2), block d v (inside_heights d inside))) <$> s_validators d.
Proof.
  intros Hne. unfold validator_metrics. rewrite joined_blocks.
  rewrite (group_by_bind _ _ (fun v => (v.1, val_Moniker v.2))).
  - by rewrite <-list_fmap_compose.
  - intros v _. split.
    + destruct (inside_heights d inside) as [|h l]; [done|]. unfold block. rewrite bind_cons.
      intros [E _]%app_nil. by apply block_rows_nonempty in E.
    + apply Forall_forall. intros x (h & Hx%block_rows & _)%list_elem_of_bind. by rewrite Hx.
  - apply (NoDup_fmap_1 fst). rewrite <-list_fmap_compose. apply (NoDup_fst_map_to_list (t_validators d)).
Qed.

Lemma metrics_empty d inside : inside_heights d inside = [] -> validator_metrics d inside = [].
Proof.
  intros E. unfold validator_metrics. rewrite joined_blocks, E. unfold block.
  by induction (s_validators d).
Qed.

(** A vote of the type, at one of the heights. *)
Definition cast_in d addr (t : Z) (l : list (Z * HeightRow)) : Z :=
  count (filter (fun v => (v.1.2 =? t) && existsb (fun h => votes_at addr h v) l = true) (s_votes d)).

(** A validator has at most one snapshot at a height. *)
Lemma snapshot_once d (p : ((string * ValidatorRow) * (Z * HeightRow)) * option (VoteKey * VoteRow)) :
  exists o, left_rows snapshot_joins (s_snapshots d) p = [(p, o)].
Proof.
  unfold left_rows. destruct (filter _ (s_snapshots d)) as [|s [|s' l]] eqn:E; [by exists None|by exists (Some s)|].
  exfalso. assert (Hs : s ∈ filter (fun b => snapshot_joins p b = true) (s_snapshots d)) by (rewrite E; set_solver).
  assert (Hs' : s' ∈ filter (fun b => snapshot_joins p b = true) (s_snapshots d)) by (rewrite E; set_solver).
  assert (Hnd : NoDup (filter (fun b => snapshot_joins p b = true) (s_snapshots d)).*1).
  { apply (sublist_NoDup _ _ (NoDup_fst_map_to_list (t_snapshots d))), fmap_sublist, sublist_filter. }
  rewrite E in Hnd. cbn in Hnd. apply NoDup_cons in Hnd as [Hn _]. apply Hn.
  assert (s.1 = s'.1) as ->; [|set_solver]. unfold snapshot_joins in Hs, Hs'.
  apply list_elem_of_filter in Hs as [Hs _], Hs' as [Hs' _].
  rewrite andb_true_iff, Z.eqb_eq, bool_decide_eq_true in Hs, Hs'.
  destruct s as [[] ?], s' as [[] ?]; cbn in *. destruct Hs, Hs'. congruence.
Qed.

(** The rows of one validator at one height: its votes there, or one without. *)
Lemma height_block d v h :
  (fun x : MetricsJoin => x.1.2) <$> (left_rows vote_joins (s_votes d) (v, h) ≫= left_rows snapshot_joins (s_snapshots d)) =
  snd <$> left_rows vote_joins (s_votes d) (v, h).
Proof.
  induction (left_rows vote_joins (s_votes d) (v, h)) as [|x l IH]; [done|].
  rewrite bind_cons, fmap_app, IH. by destruct (snapshot_once d x) as (o & ->).
Qed.

Lemma block_total d v l : NoDup l.*1 ->
  count_distinct ((fun r : MetricsJoin => r.1.1.2.1) <$> block d v l) = count l.
Proof.
  intros Hnd. unfold block. rewrite fmap_bind. apply (count_distinct_bind _ fst); [|done].
  intros h _. split; [intros E%fmap_nil_inv; by apply block_rows_nonempty in E|].
  apply Forall_fmap, Forall_forall. intros x Hx%block_rows. cbn. by rewrite Hx.
Qed.

Lemma block_signed d v l : NoDup l.*1 ->
  count_distinct (omap (fun r : MetricsJoin => (fun _ => r.1.1.2.1) <$> r.1.2) (block d v l)) = heights_signed d v.1 l.
Proof.
  intros Hnd. unfold block. rewrite omap_bind, (bind_filter (signed_at d v.1)).
  - apply (count_distinct_bind _ fst).
    2:{ apply (sublist_NoDup _ _ Hnd), fmap_sublist, sublist_filter. }
    intros h [Hh _]%list_elem_of_filter. split.
    + unfold signed_at in Hh. apply (left_rows_signed vote_joins _ (v, h)) in Hh as (b & bs & _ & ->).
      rewrite fmap_cons, bind_cons. destruct (snapshot_once d ((v, h), Some b)) as (o & ->). done.
    + apply Forall_forall. intros x (r & Hin & Hr)%list_elem_of_omap. apply block_rows in Hin.
      destruct r as [[p o] q]. cbn in *. subst p. by destruct o; simplify_eq/=.
  - intros h _ Hh. rewrite (left_rows_missed vote_joins _ (v, h)) by exact Hh. rewrite bind_cons.
    by destruct (snapshot_once d ((v, h), None)) as (o & ->).
Qed.

Lemma cast_perm d addr (p : VoteKey * VoteRow -> bool) l : NoDup l.*1 ->
  Permutation (l ≫= fun h => filter (fun v => p v && votes_at addr h v = true) (s_votes d))
    (filter (fun v => p v && existsb (fun h => votes_at addr h v) l = true) (s_votes d)).
Proof.
  intros Hnd. assert (Hs : NoDup (s_votes d)) by apply NoDup_map_to_list. apply list.NoDup_Permutation.
  - apply NoDup_bind; [|by intros; apply NoDup_filter|by apply (NoDup_fmap_1 fst)].
    intros x1 x2 v H1 H2 [E1 _]%list_elem_of_filter [E2 _]%list_elem_of_filter. unfold votes_at in *.
    rewrite !andb_true_iff, !Z.eqb_eq in E1, E2. apply list_elem_of_lookup in H1 as [i Hi], H2 as [j Hj].
    assert (i = j); [|congruence]. apply (NoDup_lookup _ i j x1.1 Hnd); rewrite list_lookup_fmap, ?Hi, ?Hj; [done|].
    cbn. f_equal. lia.
  - by apply NoDup_filter.
  - intros v. rewrite list_elem_of_bind, list_elem_of_filter. setoid_rewrite list_elem_of_filter.
    setoid_rewrite andb_true_iff. setoid_rewrite existsb_exists. setoid_rewrite <-list_elem_of_In. naive_solver.
Qed.

Lemma block_cast d v t l : NoDup l.*1 ->
  count (filter (fun r : MetricsJoin => vote_type_is t r.1.2 = true) (block d v l)) = cast_in d v.1 t l.
Proof.
  intros Hnd. unfold cast_in. rewrite <-(count_perm _ _ (cast_perm d v.1 (fun x => x.1.2 =? t) l Hnd)). unfold block.
  rewrite filter_bind. clear Hnd. induction l as [|h l IH]; [done|]. rewrite !bind_cons, !count_app, IH. f_equal. clear IH.
  transitivity (count (filter (fun o => vote_type_is t o = true) (snd <$> left_rows vote_joins (s_votes d) (v, h)))).
  - by rewrite <-height_block, filter_fmap_comp, count_fmap.
  - unfold left_rows. rewrite (filter_ext_in (fun b => (b.1.2 =? t) && votes_at v.1 h b = true)
      (fun b => b.1.2 =? t = true /\ vote_joins (v, h) b = true)) by (intros b _; by rewrite andb_true_iff).
    rewrite <-list_filter_filter. destruct (filter (fun b => vote_joins (v, h) b = true) (s_votes d)) as [|b bs]; [done|].
    by rewrite <-list_fmap_compose, filter_fmap_comp, count_fmap.
Qed.

(** What the CTE answers for a validator. *)
Definition metrics_of d inside (m : ValidatorMetricsRow) : Prop := exists v,
  t_validators d !! vm_hex_address m = Some v /\ vm_moniker m = val_Moniker v /\
  let l := inside_heights d inside in
  vm_total_blocks m = heights_total l /\ vm_blocks_signed m = heights_signed d (vm_hex_address m) l /\
  vm_signing_efficiency m = percentage (Some (heights_signed d (vm_hex_address m) l)) (heights_total l) /\
  vm_prevotes_cast m = cast_in d (vm_hex_address m) 1 l /\ vm_precommits_cast m = cast_in d (vm_hex_address m) 2 l.

Lemma metrics_counts d inside m : m ∈ validator_metrics d inside -> metrics_of d inside m.
Proof.
  destruct (decide (inside_heights d inside = [])) as [E|E]; [rewrite metrics_empty by done; set_solver|].
  rewrite metrics_blocks by done. intros ([a v] & -> & Hv%elem_of_map_to_list)%list_elem_of_fmap. exists v.
  pose proof (inside_nodup d inside) as Hnd. unfold metrics_row. cbn -[count_distinct block filter].
  rewrite block_total, block_signed, !block_cast by done. by split_and!.
Qed.

Lemma metrics_addresses d inside : inside_heights d inside <> [] ->
  vm_hex_address <$> validator_metrics d inside = (s_validators d).*1.
Proof. intros E. rewrite metrics_blocks, <-list_fmap_compose by done. done. Qed.

(** ** The time series counts joined rows *)

(** The votes a validator has at some of the heights. *)
Definition votes_in d addr (l : list (Z * HeightRow)) : Z :=
  count (filter (fun v => existsb (fun h => votes_at addr h v) l = true) (s_votes d)).

Lemma window_votes_split d addr start end_ :
  let l := windowed d start end_ in
  count (window_votes d addr start end_) = (heights_total l - heights_signed d addr l) + votes_in d addr l /\
  sumz ((fun r => case_when (bool_decide (is_Some r.2))) <$> window_votes d addr start end_) = votes_in d addr l.
Proof.
  intros l.
  assert (Hv : votes_in d addr l = count (l ≫= fun h => filter (fun v => votes_at addr h v = true) (s_votes d))).
  { exact (eq_sym (count_perm _ _ (cast_perm d addr (fun _ => true) l (windowed_nodup d start end_)))). }
  rewrite window_votes_bind, Hv. fold l. clear Hv. induction l as [|h l [IH1 IH2]]; [done|].
  assert (Hh : count (left_rows (votes_at addr) (s_votes d) h) = case_when (missed_at d addr h) + count (filter (fun v => votes_at addr h v = true) (s_votes d)) /\
    sumz ((fun r => case_when (bool_decide (is_Some r.2))) <$> left_rows (votes_at addr) (s_votes d) h) = count (filter (fun v => votes_at addr h v = true) (s_votes d))).
  { unfold missed_at, signed_at. destruct (existsb _ _) eqn:E.
    - apply left_rows_signed in E as (b & bs & -> & ->). rewrite count_fmap, <-list_fmap_compose. split; [done|].
      induction (b :: bs) as [|x xs IH]; [done|]. rewrite fmap_cons, sumz_cons, IH. unfold count. cbn. lia.
    - rewrite left_rows_missed by done. rewrite filter_none; [done|]. apply Forall_forall. intros v Hv Hat.
      rewrite <-not_true_iff_false, existsb_exists in E. apply E. exists v. by rewrite <-list_elem_of_In. }
  destruct Hh as [Hh1 Hh2]. rewrite !bind_cons, !count_app, fmap_app, sumz_app, IH1, IH2, Hh1, Hh2. split; [|done].
  unfold heights_total, heights_signed, missed_at, case_when. rewrite filter_cons. unfold count. cbn [length].
  destruct (signed_at d addr h); [rewrite decide_True by done|rewrite decide_False by done]; cbn [length negb]; lia.
Qed.

(** The hourly time series is not hourly and counts rows, not blocks: since SQLite's
    [datetime] answers NULL for the modifier 'start of hour', which it does not
    have, the report has at most one point, at the zero time, and in it a height
    with a prevote and a precommit counts twice, both as a block and as a signed one. *)
Theorem time_series_counts_rows d addr window points
  (Hmodifier : forall t, sql_datetime t "start of hour" = None)
  (Hpoints : GetPerformanceTimeSeries (Q := sqlite_queries d) addr window = Ok points)
  (Hsmall : votes_in d addr (windowed d (tw_Start window) (tw_End window)) <= 2 ^ 53) :
  let l := windowed d (tw_Start window) (tw_End window) in
  let missed := heights_total l - heights_signed d addr l in
  (points = [] <-> l = []) /\ (length points <= 1)%nat /\
  forall p, p ∈ points ->
    ts_TimeBucket p = 0 /\ ts_BlocksInBucket p = missed + votes_in d addr l /\
    ts_BlocksSigned p = votes_in d addr l /\ ts_BlocksMissed p = missed.
Proof.
  intros l missed. pose proof (window_votes_split d addr (tw_Start window) (tw_End window)) as [Hc Hs].
  fold l in Hc, Hs, Hsmall. fold missed in Hc.
  assert (Hz : forall r : (Z * HeightRow) * option (VoteKey * VoteRow),
    (t ← h_BlockTime r.1.2; sql_datetime t "start of hour") = None) by (intros r; destruct (h_BlockTime r.1.2); cbn; auto).
  unfold GetPerformanceTimeSeries in Hpoints. cbn [q_TimeSeries sqlite_queries mbind res_bind] in Hpoints. injection Hpoints as <-.
  unfold GetValidatorPerformanceTimeSeries.
  assert (Hl : window_votes d addr (tw_Start window) (tw_End window) = [] <-> l = []).
  { rewrite window_votes_bind. fold l. destruct l as [|h l']; [done|]. split; [|done]. rewrite bind_cons.
    intros [E _]%app_nil. by apply left_rows_nonempty in E. }
  destruct (decide (window_votes d addr (tw_Start window) (tw_End window) = [])) as [E|E].
  - rewrite E. cbn. split_and!; [tauto|lia|set_solver].
  - rewrite (group_by_const _ _ None) by (try done; by apply Forall_true). cbn -[percentage window_votes].
    split_and!; [split; [done|by intros ?%Hl]|lia|]. intros p ->%list_elem_of_singleton.
    unfold point_of_row. cbn -[percentage window_votes]. rewrite Hc, Hs. split_and!; try done; [|lia].
    apply f_is_int64; [apply f64_of_Z_exact; unfold votes_in, count in *; lia|unfold votes_in, count in *; go_lia].
Qed.

(** ** The four statements *)

Lemma all_rows d start end_ : windowed d start end_ <> [] ->
  Permutation (GetAllValidatorsSigningEfficiency d start end_)
    ((fun v => let total := heights_total (windowed d start end_) in
               let signed := heights_signed d v.1 (windowed d start end_) in
               mkAllEfficiencyRow v.1 (val_Moniker v.2) total (Some (f64_of_Z signed)) (total - signed)
                 (percentage (Some signed) total)) <$> s_validators d).
Proof.
  intros Hne. unfold GetAllValidatorsSigningEfficiency. rewrite merge_sort_Permutation.
  unfold cross_join. rewrite filter_bind, fmap_bind.
  rewrite (group_by_bind _ _ (fun v => (v.1, val_Moniker v.2))).
  - rewrite <-list_fmap_compose. erewrite list_fmap_ext; [reflexivity|]. intros _ v _. cbn -[percentage].
    rewrite filter_fmap_comp, <-!list_fmap_compose, count_fmap. cbn -[percentage].
    rewrite percentage_sum, sql_sum_default by (by rewrite count_fmap).
    assert (Hsum : sumz ((fun h => case_when (signed_at d v.1 h)) <$> windowed d start end_) = heights_signed d v.1 (windowed d start end_))
      by apply sumz_when.
    match goal with |- context [sumz ?x] => change x with ((fun h => case_when (signed_at d v.1 h)) <$> windowed d start end_) end.
    rewrite Hsum. fold (windowed d start end_). f_equal.
    destruct (windowed d start end_) as [|h l]; [done|]. by rewrite <-Hsum.
  - intros v _. split.
    + rewrite filter_fmap_comp. intros E%fmap_nil_inv%fmap_nil_inv. by apply Hne.
    + rewrite filter_fmap_comp, <-list_fmap_compose. apply Forall_fmap. by apply Forall_true.
  - apply (NoDup_fmap_1 fst). rewrite <-list_fmap_compose. apply (NoDup_fst_map_to_list (t_validators d)).
Qed.

Lemma ranking_rows d start end_ r : r ∈ GetValidatorRanking d start end_ ->
  exists m k, m ∈ validator_metrics d (time_in start end_) /\ r = ranking_row (VInt k) m.
Proof.
  unfold GetValidatorRanking. intros ([k m] & -> & Hm)%list_elem_of_fmap. rewrite merge_sort_Permutation in Hm.
  apply list_elem_of_fmap in Hm as (m' & [= -> ->] & Hm). by exists m', (rank_of (validator_metrics d (time_in start end_)) m').
Qed.

(** C20: The four statements that compute a validator's signing efficiency over a window
    agree: each counts the heights of the window, those at which the validator has
    a vote of any kind, and the rest, and answers the same rounded percentage; a
    prevote and a precommit at one height count once in all of them. *)
Theorem efficiency_queries_agree d addr v start end_ (Hv : t_validators d !! addr = Some v) :
  let total := heights_total (windowed d start end_) in
  let signed := heights_signed d addr (windowed d start end_) in
  let rate := percentage (Some signed) total in
  GetValidatorSigningEfficiency d addr start end_ =
    mkEfficiencyRow (VInt total) (VInt signed) (VInt (total - signed)) (VFloat rate) /\
  (exists from to, GetValidatorUptime d addr start end_ = mkUptimeRow total signed (VInt (total - signed)) (VFloat rate) from to) /\
  (0 < total -> mkAllEfficiencyRow addr (val_Moniker v) total (Some (f64_of_Z signed)) (total - signed) rate
                  ∈ GetAllValidatorsSigningEfficiency d start end_) /\
  (0 < total -> exists rank power, mkRankingRow addr (val_Moniker v) total signed (total - signed) (VFloat rate)
                  (cast_in d addr 1 (windowed d start end_)) (cast_in d addr 2 (windowed d start end_)) power rank
                  ∈ GetValidatorRanking d start end_).
Proof.
  intros total signed rate. pose proof (signing_efficiency_counts d addr start end_) as H1.
  pose proof (uptime_counts d addr start end_) as (U1 & U2 & U3 & U4).
  assert (Hne : 0 < total -> windowed d start end_ <> []) by (intros Ht E; unfold total in Ht; by rewrite E in Ht).
  assert (Hin : (addr, v) ∈ s_validators d) by by apply elem_of_map_to_list.
  split_and!; [done| | |].
  - destruct (GetValidatorUptime d addr start end_); cbn in *. subst. by repeat eexists.
  - intros Ht%Hne. rewrite all_rows by done. apply list_elem_of_fmap. by exists (addr, v).
  - intros Ht%Hne. assert (Ha : addr ∈ vm_hex_address <$> validator_metrics d (time_in start end_)).
    { rewrite metrics_addresses by done. apply list_elem_of_fmap. by exists (addr, v). }
    apply list_elem_of_fmap in Ha as (m & -> & Hm). pose proof (metrics_counts _ _ _ Hm) as (v' & Hv' & Em & M1 & M2 & M3 & M4 & M5).
    exists (VInt (rank_of (validator_metrics d (time_in start end_)) m)), (VInt (vm_voting_power m)).
    unfold GetValidatorRanking. apply list_elem_of_fmap. exists (rank_of (validator_metrics d (time_in start end_)) m, m). split.
    + unfold ranking_row; cbn -[percentage]. rewrite Em, M1, M2, M3, M4, M5. by simplify_eq.
    + rewrite merge_sort_Permutation. apply list_elem_of_fmap. by exists m.
Qed.

(** ** The proposer shares over the store *)

(** The rounds of the window with a known proposer, and those of one validator. *)
Definition proposed_rounds d minH maxH : list ((Z * Z) * RoundRow) :=
  filter (fun r => height_in minH maxH r.1.1 = true /\ is_Some (rd_ProposerAddress r.2)) (s_rounds d).
Definition proposed_by d minH maxH (a : string) : Z :=
  count (filter (fun r => rd_ProposerAddress r.2 = Some a) (proposed_rounds d minH maxH)).

Lemma proposer_rows_elem d minH maxH r : r ∈ GetProposerPerformanceByHeight d minH maxH ->
  exists a, pp_HexAddress r = Some a /\ pp_BlocksProposed r = proposed_by d minH maxH a.
Proof.
  unfold GetProposerPerformanceByHeight. intros ([k rs] & -> & Hg%group_by_elem)%list_elem_of_fmap.
  cbn in Hg. destruct Hg as [-> (x & -> & Hx)%list_elem_of_fmap].
  apply list_elem_of_filter in Hx as [[_ [a Ha]] _]. exists a. cbn. by rewrite Ha.
Qed.

Lemma proposer_rows_positive d minH maxH r : r ∈ GetProposerPerformanceByHeight d minH maxH ->
  0 < proposed_by d minH maxH (default "" (pp_HexAddress r)).
Proof.
  unfold GetProposerPerformanceByHeight. intros ([k rs] & -> & Hg%group_by_elem)%list_elem_of_fmap.
  cbn in Hg. destruct Hg as [_ (x & -> & Hx)%list_elem_of_fmap]. cbn.
  pose proof Hx as [[_ [a Ha]] _]%list_elem_of_filter. rewrite Ha. cbn. unfold proposed_by, count.
  assert (Hin : x ∈ filter (fun r => rd_ProposerAddress r.2 = Some a) (proposed_rounds d minH maxH)) by (by apply list_elem_of_filter).
  apply list_elem_of_lookup in Hin as [i Hi%lookup_lt_Some]. lia.
Qed.

Lemma proposer_rows_nodup d minH maxH :
  NoDup ((fun r => default "" (pp_HexAddress r)) <$> GetProposerPerformanceByHeight d minH maxH).
Proof.
  pose proof (proposer_rows_elem d minH maxH) as He.
  assert (Hn : NoDup (pp_HexAddress <$> GetProposerPerformanceByHeight d minH maxH)).
  { unfold GetProposerPerformanceByHeight. rewrite <-list_fmap_compose. apply group_by_keys. }
  revert He Hn. induction (GetProposerPerformanceByHeight d minH maxH) as [|r rs IH]; intros He Hn; [constructor|].
  cbn in Hn |- *. apply NoDup_cons in Hn as [Hr Hn]. constructor; [|apply IH; [set_solver|done]].
  intros (x & E & Hx)%list_elem_of_fmap. apply Hr. destruct (He r) as (a & Ha & _); [set_solver|].
  destruct (He x) as (b & Hb & _); [set_solver|]. rewrite Ha, Hb in *. cbn in E. subst b.
  apply list_elem_of_fmap. by exists x.
Qed.

Lemma count_bind {A X} (f : A -> list X) (l : list A) : count (l ≫= f) = sumz ((fun a => count (f a)) <$> l).
Proof. induction l as [|a l IH]; [done|]. by rewrite bind_cons, count_app, fmap_cons, sumz_cons, IH. Qed.

Lemma proposer_rows_sum d minH maxH :
  sumz (pp_BlocksProposed <$> GetProposerPerformanceByHeight d minH maxH) = count (proposed_rounds d minH maxH).
Proof.
  unfold GetProposerPerformanceByHeight. fold (proposed_rounds d minH maxH). rewrite <-list_fmap_compose.
  rewrite <-(count_perm _ _ (group_by_rows (fun r => rd_ProposerAddress r.2) (proposed_rounds d minH maxH))).
  by rewrite count_bind.
Qed.

(** Over the store, the proposer share of a validator that proposed in a window of
    heights is the correctly rounded percentage of its rounds among the rounds with
    a known proposer, between 0 and 100; without any such round there is no share, and a validator
    that proposed none has none. *)
Theorem stored_proposer_share d minH maxH (Hmax : count (proposed_rounds d minH maxH) <= 2 ^ 46) :
  exists shares, GetProposerShareByHeight (Q := sqlite_queries d) minH maxH = Ok shares /\
    (proposed_rounds d minH maxH = [] -> shares = ∅) /\
    (forall a, proposed_by d minH maxH a = 0 -> shares !! a = None) /\
    forall a, 0 < proposed_by d minH maxH a -> exists p, shares !! a = Some (Fin p) /\
      (p == rnd (Some (-1074)%Z) (inject_Z (100 * proposed_by d minH maxH a)%Z / inject_Z (count (proposed_rounds d minH maxH))))%Q /\
      (0 <= p)%Q /\ (p <= 100)%Q.
Proof.
  destruct (proposer_shares (Q := sqlite_queries d) minH maxH (GetProposerPerformanceByHeight d minH maxH) eq_refl)
    as (shares & E & H0 & Hnone & H1).
  - apply proposer_rows_nodup.
  - apply Forall_forall. intros r (a & _ & ->)%proposer_rows_elem. unfold proposed_by, count. lia.
  - by rewrite proposer_rows_sum.
  - rewrite proposer_rows_sum in H0, H1. exists shares. split_and!; [done|by intros E0; apply H0; rewrite E0| |].
    { intros a Ha. apply Hnone. intros (r & -> & Hr)%list_elem_of_fmap. destruct (proposer_rows_elem _ _ _ _ Hr) as (b & Eb & _).
      rewrite Eb in Ha. cbn in Ha. pose proof (proposer_rows_positive _ _ _ _ Hr) as Hp. rewrite Eb in Hp. cbn in Hp. lia. }
    intros a Ha. assert (Hin : exists r, r ∈ GetProposerPerformanceByHeight d minH maxH /\ pp_HexAddress r = Some a).
    { assert (Hx : exists x, x ∈ filter (fun r => rd_ProposerAddress r.2 = Some a) (proposed_rounds d minH maxH)).
      { unfold proposed_by, count in Ha. destruct (filter _ _) as [|x l]; [cbn in Ha; lia|]. exists x. set_solver. }
      destruct Hx as [x [Hxa Hx]%list_elem_of_filter].
      exists (mkProposerRow (Some a) (proposed_by d minH maxH a)). split; [|done].
      unfold GetProposerPerformanceByHeight. fold (proposed_rounds d minH maxH). apply list_elem_of_fmap.
      exists (Some a, filter (fun r => rd_ProposerAddress r.2 = Some a) (proposed_rounds d minH maxH)). split; [done|].
      unfold group_by. apply list_elem_of_fmap. exists (Some a). split; [done|].
      apply elem_of_remove_dups, list_elem_of_fmap. by exists x. }
    destruct Hin as (r & Hr & Era). destruct (proposer_rows_elem _ _ _ _ Hr) as (b & Eb & Eq). rewrite Era in Eb. injection Eb as <-.
    assert (Hpos : 0 < count (proposed_rounds d minH maxH)).
    { unfold proposed_by, count in *. pose proof (length_filter (fun r => rd_ProposerAddress r.2 = Some a) (proposed_rounds d minH maxH)). lia. }
    specialize (H1 Hpos r Hr). rewrite Era, Eq in H1. exact H1.
Qed.
End Agreement.

(** ** A small store *)

Section EfficiencyExamples.
(** SQLite's functions on the values of the examples. *)
Definition demo_sql : SqlFunctions := {|
  sql_round x n := match x with Fin q => f64_div (f64_of_Z (rne (q * inject_Z (10 ^ n)))) (f64_of_Z (10 ^ n)) | _ => x end;
  sql_avg l := f64_div (foldl (fun a x => f64_add a x) f64_zero l) (f64_of_Z (count l));
  sql_time t := VTime t;
  sql_datetime t m := if bool_decide (m = "start of day") then Some (itoa (t / 86400)) else None;
  sql_julianday t := Some (f64_div (f64_of_Z t) (f64_of_Z 86400)) |}.
#[local] Existing Instance demo_sql.

Definition demo_height (t : Z) : HeightRow := mkHeightRow None (Some t) None (Some 1) t.
Definition demo_vote : VoteRow := mkVoteRow None None (Some 9).

(** Five heights, a validator that missed the second, third and fifth. *)
Definition demo_tables : Tables :=
  mkTables false {["AA" := mkValidatorRow "op" "pk" 5 (Some "moon")]}
    (list_to_map ((fun h => (h, demo_height (10 * h))) <$> [1; 2; 3; 4; 5]))
    {[(1, 0) := mkRoundRow None (Some 8) (Some "AA")]}
    (list_to_map [((1, 0, "AA", 1), demo_vote); ((1, 0, "AA", 2), demo_vote); ((4, 0, "AA", 1), demo_vote)])
    [] ∅.

Example demo_streaks : (fun s => (sr_ConsecutiveMisses s, sr_StartHeight s, sr_EndHeight s)) <$>
    GetValidatorMissedBlockStreaks demo_tables "AA" 0 100 = [(2, VInt 2, VInt 3); (1, VInt 5, VInt 5)].
Proof. vm_compute. reflexivity. Qed.

Lemma efficiency_queries_agree_witness :
  GetValidatorSigningEfficiency demo_tables "AA" 0 100 =
  mkEfficiencyRow (VInt 5) (VInt 2) (VInt 3) (VFloat (percentage (Some 2) 5)).
Proof.
  refine (eq_trans (proj1 (efficiency_queries_agree demo_tables "AA" (mkValidatorRow "op" "pk" 5 (Some "moon")) 0 100 eq_refl)) _).
  vm_compute. reflexivity.
Defined.

Lemma time_series_counts_rows_witness :
  exists points, GetPerformanceTimeSeries (Q := sqlite_queries demo_tables) "AA" (mkTimeWindow 0 100) = Ok points /\
    (length points <= 1)%nat.
Proof.
  eexists. split; [reflexivity|].
  apply (time_series_counts_rows (F := demo_sql) demo_tables "AA" (mkTimeWindow 0 100) _ ltac:(intros t; vm_compute; reflexivity) eq_refl).
  vm_compute. discriminate.
Defined.

Lemma stored_proposer_share_witness :
  exists shares, GetProposerShareByHeight (Q := sqlite_queries demo_tables) 1 5 = Ok shares.
Proof.
  destruct (stored_proposer_share demo_tables 1 5) as (shares & E & _); [vm_compute; discriminate|by exists shares].
Defined.

(** The validator signed two of the five heights; the series says three of six. *)
Example demo_series : map (fun p => (ts_TimeBucket p, ts_BlocksInBucket p, ts_BlocksSigned p)) <$>
    GetPerformanceTimeSeries (Q := sqlite_queries demo_tables) "AA" (mkTimeWindow 0 100) = Ok [(0, 6, 3)].
Proof. vm_compute. reflexivity. Qed.
End EfficiencyExamples.
