(* ===== verification/History.v ===== *)
(** * The health table over the store ([pkg/metrics], [pkg/db])

    The history columns of the validator table composed with the statements that feed
    them: what [enrichPerformance] writes in a row, in terms of the stored votes. *)

From S2P Require Import Prelude GoNum GoText Types MetricTypes Analytics Health Schema Relational Queries Efficiency.
Local Open Scope Z_scope.

(** ** Folds that write the row of a key *)

Section KeyedFold.
Context {A R : Type} (key : A -> string) (f : A -> R -> R) (idx : gmap string nat).

Definition keyed_step (rows : list R) (x : A) : list R :=
  match idx !! key x with None => rows | Some i => alter (f x) i rows end.

Lemma keyed_length l rows : length (foldl keyed_step rows l) = length rows.
Proof.
  revert rows. induction l as [|x l IH]; intros rows; [done|]. cbn. rewrite IH. unfold keyed_step.
  destruct (idx !! key x); [apply length_alter|done].
Qed.

Lemma keyed_skip l rows i : (forall x, x ∈ l -> idx !! key x <> Some i) -> foldl keyed_step rows l !! i = rows !! i.
Proof.
  revert rows. induction l as [|x l IH]; intros rows Hl; [done|]. cbn. rewrite IH by set_solver.
  unfold keyed_step. destruct (idx !! key x) as [j|] eqn:E; [|done].
  apply list_lookup_alter_ne. intros ->. apply (Hl x); [set_solver|done].
Qed.

Lemma keyed_hit l rows i x
    (Hidx : forall y, y ∈ l -> idx !! key y = Some i -> key y = key x)
    (Hnd : NoDup (key <$> l)) (Hx : x ∈ l) (Hi : idx !! key x = Some i) :
  foldl keyed_step rows l !! i = f x <$> rows !! i.
Proof.
  apply list_elem_of_split in Hx as (l1 & l2 & ->). rewrite fmap_app, fmap_cons in Hnd.
  apply NoDup_app in Hnd as (_ & H1 & H2). apply NoDup_cons in H2 as [H2 _].
  rewrite foldl_app. cbn [foldl]. rewrite keyed_skip.
  - unfold keyed_step at 1. rewrite Hi, list_lookup_alter_eq, keyed_skip; [done|].
    intros y Hy E. apply (H1 (key y)); [apply list_elem_of_fmap; by exists y|].
    rewrite (Hidx y) by (set_solver || done). set_solver.
  - intros y Hy E. apply H2. rewrite <-(Hidx y) by (set_solver || done). apply list_elem_of_fmap. by exists y.
Qed.
End KeyedFold.

(** ** The index of the rows *)

Section Index.
Implicit Types rows : list ValidatorHealthRow.

Lemma byAddr_snoc rows r : byAddr (rows ++ [r]) = <[row_Address r := length rows]> (byAddr rows).
Proof. unfold byAddr. rewrite imap_app, foldl_app. cbn. by rewrite Nat.add_0_r. Qed.

Lemma byAddr_spec rows a i : NoDup (row_Address <$> rows) ->
  byAddr rows !! a = Some i <-> exists r, rows !! i = Some r /\ row_Address r = a.
Proof.
  revert i. induction rows as [|r rows IH] using rev_ind; intros i Hnd.
  { cbn. rewrite lookup_empty. split; [done|by intros (r & Hr & _)]. }
  rewrite fmap_app in Hnd. apply NoDup_app in Hnd as (Hnd & Hdis & _).
  assert (Hfresh : forall j x, rows !! j = Some x -> row_Address x <> row_Address r).
  { intros j x Hx E. apply (Hdis (row_Address x)); [apply list_elem_of_fmap; exists x|rewrite E; set_solver].
    split; [done|]. by eapply list_elem_of_lookup_2. }
  rewrite byAddr_snoc. destruct (decide (row_Address r = a)) as [<-|Ha].
  - rewrite lookup_insert_eq. split.
    + intros [= <-]. exists r. split; [|done]. by rewrite lookup_app_r, Nat.sub_diag by done.
    + intros (x & Hx & E). apply lookup_app_Some in Hx as [Hx|[Hle Hx]]; [by destruct (Hfresh i x Hx)|].
      apply list_lookup_singleton_Some in Hx as [Hi _]. f_equal. lia.
  - rewrite lookup_insert_ne, IH by done. split; intros (x & Hx & E).
    + exists x. split; [|done]. by apply lookup_app_l_Some.
    + apply lookup_app_Some in Hx as [Hx|[_ Hx]]; [by exists x|].
      apply list_lookup_singleton_Some in Hx as [_ ->]. done.
Qed.
End Index.

(** ** The window of the columns *)

Section History.
Context `{F : SqlFunctions}.
Implicit Types (d : Tables) (rows : list ValidatorHealthRow).

Definition window_heights d minH maxH : list (Z * HeightRow) := inside_heights d (fun h => height_in minH maxH h.1).

Lemma foldl_max_elem l x : foldl Z.max x l = x \/ foldl Z.max x l ∈ l.
Proof.
  revert x. induction l as [|y l IH]; intros x; [by left|]. cbn. destruct (IH (Z.max x y)) as [->|H]; [|set_solver].
  destruct (Z.max_spec x y) as [[_ ->]|[_ ->]]; [right; set_solver|by left].
Qed.

Lemma max_stored d : Schema.GetMaxStoredHeight d <> 0 ->
  exists row, (Schema.GetMaxStoredHeight d, row) ∈ s_heights d.
Proof.
  unfold Schema.GetMaxStoredHeight, s_heights, max_key. destruct (map_to_list (t_heights d)).*1 as [|x l] eqn:E; [done|].
  cbn. intros _. assert (Hin : foldl Z.max x l ∈ (map_to_list (t_heights d)).*1).
  { rewrite E. destruct (foldl_max_elem l x) as [->|]; set_solver. }
  apply list_elem_of_fmap in Hin as ([h row] & -> & Hin). by exists row.
Qed.

Lemma window_reach maxH windowBlocks : 0 < maxH <= MaxInt64 -> 0 <= windowBlocks <= MaxInt64 ->
  1 <= window_min maxH windowBlocks <= maxH /\ maxH - window_min maxH windowBlocks <= windowBlocks.
Proof.
  intros Hm Hw. unfold window_min. assert (int64 (maxH - windowBlocks) = maxH - windowBlocks) as -> by (apply int64_id; go_lia).
  destruct (Z.ltb_spec (maxH - windowBlocks) 1); lia.
Qed.

Lemma interval_count (l : list Z) lo hi : lo <= hi + 1 -> NoDup l -> Forall (fun x => lo <= x <= hi) l -> count l <= hi - lo + 1.
Proof.
  intros Hb Hnd Hl. assert (Hsub : l ⊆+ seqZ lo (hi - lo + 1)).
  { apply NoDup_submseteq; [done|]. intros x Hx. apply elem_of_seqZ. rewrite Forall_forall in Hl. specialize (Hl x Hx). lia. }
  apply submseteq_length in Hsub. rewrite length_seqZ in Hsub. unfold count. lia.
Qed.

Lemma window_size d minH maxH : minH <= maxH -> heights_total (window_heights d minH maxH) <= maxH - minH + 1.
Proof.
  intros Hle. unfold heights_total. rewrite <-(count_fmap fst). apply interval_count; [lia|apply inside_nodup|].
  apply Forall_fmap, Forall_forall. intros h [Hh _]%list_elem_of_filter. unfold height_in in Hh. cbn. lia.
Qed.

(** ** The rows of the ranking *)

Lemma ranking_metrics d minH maxH r : r ∈ ranking_of_row false <$> GetValidatorRankingByHeight d minH maxH ->
  exists m, m ∈ validator_metrics d (fun h => height_in minH maxH h.1) /\ r = ranking_of_row false (ranking_row VNil m).
Proof.
  unfold GetValidatorRankingByHeight. intros (x & -> & (m & -> & Hm)%list_elem_of_fmap)%list_elem_of_fmap.
  rewrite merge_sort_Permutation in Hm. by exists m.
Qed.

Lemma ranking_addresses d minH maxH : window_heights d minH maxH <> [] ->
  Permutation (vr_HexAddress <$> (ranking_of_row false <$> GetValidatorRankingByHeight d minH maxH)) (s_validators d).*1.
Proof.
  intros Hne. unfold GetValidatorRankingByHeight. rewrite <-!list_fmap_compose, merge_sort_Permutation.
  by rewrite <-(metrics_addresses d (fun h => height_in minH maxH h.1) Hne).
Qed.

(** The columns of a stored validator. *)
Definition stored_rate d (l : list (Z * HeightRow)) (n : Z) : gofloat :=
  f64_div (f64_mul (Fin 100) (f64_of_Z n)) (f64_of_Z (heights_total l)).
Definition stored_history d (l : list (Z * HeightRow)) a (share : gofloat) : RowHistory :=
  mkRowHistory true (percentage (Some (heights_signed d a l)) (heights_total l)) (heights_total l - heights_signed d a l)
    (stored_rate d l (cast_in d a 1 l)) (stored_rate d l (cast_in d a 2 l)) share.

(** The share of the rounds with a known proposer that a validator proposed. *)
Definition is_share d minH maxH a (share : gofloat) : Prop :=
  let n := proposed_by d minH maxH a in let total := count (proposed_rounds d minH maxH) in
  if n =? 0 then share = f64_zero
  else exists p, share = Fin p /\ (p == rnd (Some (-1074)%Z) (inject_Z (100 * n)%Z / inject_Z total))%Q /\ (0 <= p)%Q /\ (p <= 100)%Q.

Lemma ranking_history d minH maxH share old m : window_heights d minH maxH <> [] ->
  m ∈ validator_metrics d (fun h => height_in minH maxH h.1) ->
  perf_history share old (ranking_of_row false (ranking_row VNil m)) =
  stored_history d (window_heights d minH maxH) (vm_hex_address m) (default f64_zero (share !! vm_hex_address m)).
Proof.
  intros Hne (v & _ & _ & E1 & E2 & E3 & E4 & E5)%metrics_counts. fold (window_heights d minH maxH) in *.
  assert (Hpos : 0 < heights_total (window_heights d minH maxH)).
  { unfold heights_total, count. destruct (window_heights d minH maxH); [done|cbn; lia]. }
  unfold perf_history, stored_history, stored_rate, ranking_of_row, ranking_row. cbn -[percentage].
  rewrite E1, E2, E3, E4, E5, (proj2 (Z.ltb_lt _ _) Hpos). done.
Qed.

(** C19: The history columns are the stored votes: over the store, the health table gets,
    for every validator with a row in the database, the share of the stored heights
    of the window at which it has a vote, the heights it missed, its vote rows per
    height and its share of the proposals; the window holds the highest stored height
    and at most [windowBlocks + 1] heights; a row without a database row is untouched. *)
Theorem history_over_store d windowBlocks rows
    (Hnd : NoDup (row_Address <$> rows)) (Hw : 0 <= windowBlocks <= MaxInt64)
    (Hmax : 0 < Schema.GetMaxStoredHeight d <= MaxInt64)
    (Hcount : count (s_rounds d) <= 2 ^ 46) :
  let maxH := Schema.GetMaxStoredHeight d in let minH := window_min maxH windowBlocks in
  let l := window_heights d minH maxH in
  0 < heights_total l <= windowBlocks + 1 /\
  exists rows', enrichPerformance (Some (sqlite_queries d)) windowBlocks rows = Ok rows' /\ length rows' = length rows /\
    forall i row, rows !! i = Some row ->
      if has_validator d (row_Address row)
      then exists share, rows' !! i = Some (with_history row (stored_history d l (row_Address row) share)) /\
             is_share d minH maxH (row_Address row) share
      else rows' !! i = Some row.
Proof.
  intros maxH minH l. destruct (window_reach maxH windowBlocks Hmax Hw) as [Hr Hd]. fold minH in Hr, Hd.
  destruct (max_stored d ltac:(lia)) as (top & Htop).
  assert (Hin : (maxH, top) ∈ l).
  { apply list_elem_of_filter. split; [|done]. unfold height_in. cbn. lia. }
  assert (Hne : l <> []) by (intros E; rewrite E in Hin; set_solver).
  split; [split; [unfold heights_total, count; destruct l; [done|cbn; lia]|]|].
  { pose proof (window_size d minH maxH ltac:(lia)). subst l. lia. }
  destruct (stored_proposer_share d minH maxH) as (shares & Es & _ & Hs0 & Hs1).
  { unfold proposed_rounds, count in *. pose proof (length_filter (fun r : (Z * Z) * RoundRow =>
      height_in minH maxH r.1.1 = true /\ is_Some (rd_ProposerAddress r.2)) (s_rounds d)). lia. }
  eexists. split.
  { unfold enrichPerformance, Analytics.GetMaxStoredHeight. cbn [q_MaxStoredHeight sqlite_queries mbind res_bind]. fold maxH.
    rewrite (proj2 (Z.eqb_neq _ _)) by lia. fold minH. rewrite Es. unfold GetRankingByHeight.
    cbn [q_RankingByHeight sqlite_queries mbind res_bind]. reflexivity. }
  change (foldl (perf_step (byAddr rows) shares)) with
    (foldl (keyed_step vr_HexAddress (fun r row => with_history row (perf_history shares (row_history row) r)) (byAddr rows))).
  split; [apply keyed_length|]. intros i row Hrow. pose proof (ranking_addresses d minH maxH Hne) as Haddr.
  assert (Hidx : forall a, byAddr rows !! a = Some i -> a = row_Address row).
  { intros a (r & Hr' & <-)%byAddr_spec; [|done]. congruence. }
  destruct (has_validator d (row_Address row)) eqn:Hv.
  - apply has_validator_true in Hv as [v Hv]. assert (Hx : row_Address row ∈ (s_validators d).*1).
    { apply list_elem_of_fmap. exists (row_Address row, v). split; [done|]. by apply elem_of_map_to_list. }
    rewrite <-Haddr in Hx. apply list_elem_of_fmap in Hx as (x & Ex & Hx).
    destruct (ranking_metrics _ _ _ _ Hx) as (m & Hm & ->). exists (default f64_zero (shares !! row_Address row)). split.
    + rewrite (keyed_hit _ _ _ _ _ i _ ltac:(intros y _ Hy; rewrite (Hidx _ Hy); exact Ex)) ; [|by rewrite Haddr; apply (NoDup_fst_map_to_list (t_validators d))|exact Hx|].
      * rewrite Hrow. cbn [fmap option_fmap option_map]. rewrite (ranking_history d minH maxH) by done. by rewrite Ex.
      * apply byAddr_spec; [done|]. exists row. by rewrite <-Ex.
    + unfold is_share. destruct (Z.eqb_spec (proposed_by d minH maxH (row_Address row)) 0).
      * rewrite Hs0 by lia. done.
      * destruct (Hs1 (row_Address row)) as (p & -> & Hp); [unfold proposed_by, count in *; lia|]. by exists p.
  - rewrite keyed_skip; [done|]. intros x Hx E. apply Hidx in E.
    assert (Hx' : row_Address row ∈ (s_validators d).*1).
    { rewrite <-Haddr, <-E. apply list_elem_of_fmap. by exists x. }
    apply list_elem_of_fmap in Hx' as ([a v] & Ea & Hx'%elem_of_map_to_list). cbn in Ea. subst a.
    apply not_true_iff_false in Hv. apply Hv, has_validator_true. by exists v.
Qed.

(** The latency columns: the statistics of the validator's rows of the arrival
    statement, untouched when it has none. *)
Theorem latency_over_store d windowBlocks rows
    (Hnd : NoDup (row_Address <$> rows)) (Hmax : Schema.GetMaxStoredHeight d <> 0) :
  let maxH := Schema.GetMaxStoredHeight d in
  let stats := Queries.GetVoteArrivalByHeight d (window_min maxH windowBlocks) maxH in
  exists rows', enrichLatency (Some (sqlite_queries d)) windowBlocks rows = Ok rows' /\ length rows' = length rows /\
    forall i row, rows !! i = Some row ->
      rows' !! i = Some (match arrival_of stats (row_Address row) with
                         | Some s => with_latency row (mkRowLatency true (AvgPrevote s) (AvgPrecommit s) (MaxPrecommit s))
                         | None => row
                         end).
Proof.
  intros maxH stats. destruct (vote_arrival_spec (Q := sqlite_queries d) (window_min maxH windowBlocks) maxH stats eq_refl) as (m & Em & Hm).
  eexists. split.
  { unfold enrichLatency, Analytics.GetMaxStoredHeight. cbn [q_MaxStoredHeight sqlite_queries mbind res_bind]. fold maxH.
    rewrite (proj2 (Z.eqb_neq _ _)) by done. rewrite Em. reflexivity. }
  change (foldl (latency_step (byAddr rows))) with
    (foldl (keyed_step (@fst string ArrivalStats) (fun p row => with_latency row
       (mkRowLatency true (AvgPrevote p.2) (AvgPrecommit p.2) (MaxPrecommit p.2))) (byAddr rows))).
  split; [apply keyed_length|]. intros i row Hrow.
  assert (Hidx : forall a, byAddr rows !! a = Some i -> a = row_Address row).
  { intros a (r & Hr' & <-)%byAddr_spec; [|done]. congruence. }
  rewrite <-Hm. destruct (m !! row_Address row) as [s|] eqn:Es.
  - rewrite (keyed_hit _ _ _ _ _ i (row_Address row, s)); [by rewrite Hrow|..].
    + intros y _ Hy. exact (Hidx _ Hy).
    + apply NoDup_fst_map_to_list.
    + by apply elem_of_map_to_list.
    + apply byAddr_spec; [done|]. by exists row.
  - rewrite keyed_skip; [done|]. intros [a s] Ha%elem_of_map_to_list E. apply Hidx in E. cbn in E. congruence.
Qed.
End History.

(** ** The small store *)

Section HistoryExamples.
#[local] Existing Instance demo_sql.

Definition demo_row (a : string) : ValidatorHealthRow :=
  mkRow a "moon" (Fin 100) zero_RowHistory zero_RowLatency true 0 "" false.

Lemma history_over_store_witness :
  exists rows' share, enrichPerformance (Some (sqlite_queries demo_tables)) 3 [demo_row "AA"; demo_row "BB"] = Ok rows' /\
    rows' !! 0%nat = Some (with_history (demo_row "AA") (stored_history demo_tables (window_heights demo_tables 2 5) "AA" share)) /\
    rows' !! 1%nat = Some (demo_row "BB").
Proof.
  destruct (history_over_store demo_tables 3 [demo_row "AA"; demo_row "BB"]) as (_ & rows' & E & _ & H).
  - cbn. repeat constructor; set_solver.
  - unfold MaxInt64. lia.
  - vm_compute. split; [reflexivity|discriminate].
  - vm_compute. discriminate.
  - pose proof (H 0%nat (demo_row "AA") eq_refl) as (share & H0 & _). pose proof (H 1%nat (demo_row "BB") eq_refl) as H1.
    exists rows', share. split; [exact E|]. split; [exact H0|exact H1].
Defined.

Lemma latency_over_store_witness :
  exists rows', enrichLatency (Some (sqlite_queries demo_tables)) 3 [demo_row "BB"] = Ok rows' /\ rows' !! 0%nat = Some (demo_row "BB").
Proof.
  destruct (latency_over_store demo_tables 3 [demo_row "BB"]) as (rows' & E & _ & H).
  - cbn. repeat constructor; set_solver.
  - vm_compute. discriminate.
  - exists rows'. split; [exact E|exact (H 0%nat (demo_row "BB") eq_refl)].
Defined.

(** The prevote rate counts vote rows: a validator that prevoted in two rounds of its
    only height has a rate of two hundred percent. *)
Example rate_above_hundred :
  stored_rate demo_tables [(1, demo_height 10)]
    (cast_in (set_votes demo_tables (list_to_map [((1, 0, "AA", 1), demo_vote); ((1, 1, "AA", 1), demo_vote)])) "AA" 1 [(1, demo_height 10)])
  = Fin 200.
Proof. vm_compute. reflexivity. Qed.

(** A window of three blocks reaches over four heights. *)
Example window_holds_one_more : heights_total (window_heights demo_tables (window_min 5 3) 5) = 4.
Proof. vm_compute. reflexivity. Qed.
End HistoryExamples.
