(* ===== verification/Debugger.v ===== *)
(** * The database debugger ([pkg/analytics/debug.go], [pkg/db/sqlc/debug.sql.go])

    The debugging queries, an interface the printing code is written against,
    and that code as the text it writes to standard output before it returns or
    fails.  [time.Format] in the machine's zone, and SQLite's LIKE and LOWER,
    are parameters. *)

From S2P Require Import Prelude GoNum GoText Analytics Schema Relational Queries.
Local Open Scope Z_scope.

(** ** Printing: what was written, and how the function ended *)

Definition Print (A : Type) : Type := string * res A.

#[export] Instance print_ret : MRet Print := fun A a => ("", Ok a).
#[export] Instance print_bind : MBind Print := fun A B f m =>
  match m.2 with
  | Ok a => let r := f a in (m.1 +:+ r.1, r.2)
  | Err e => (m.1, Err e)
  | Panic => (m.1, Panic)
  end.
Definition Printf (s : string) : Print unit := (s, Ok tt).
Definition fails {A} (r : res A) : Print A := ("", r).
(** [for _, x := range l { ... }] *)
Fixpoint print_all {A} (f : A -> Print unit) (l : list A) : Print unit :=
  match l with [] => mret tt | x :: l => f x ≫= fun _ => print_all f l end.
(** [if err := m; err != nil { fmt.Printf(h(err)) }] *)
Definition print_error (h : string -> string) (m : Print unit) : Print unit :=
  match m.2 with Err e => (m.1 +:+ h e, Ok tt) | _ => m end.

Notation "a ;; b" := (mbind (fun _ : unit => b) a) (at level 100, b at level 200, right associativity, only parsing).

(** ** The queries *)

Record SampleVote := mkSampleVote {
  sv_Height : Z; sv_RoundNumber : Z; sv_ValidatorHexAddress : string; sv_VoteType : Z;
  sv_Timestamp : option Z; sv_BlockTime : option Z }.

Class DebugQueries := {
  dq_CountValidators : res Z; dq_CountHeights : res Z; dq_CountRounds : res Z; dq_CountVotes : res Z;
  dq_CountConsensusEvents : res Z; dq_CountValidatorSnapshots : res Z;
  dq_CountHeightsInTimeWindow : Z -> Z -> res Z;
  dq_CountVotesForValidatorInTimeWindow : string -> Z -> Z -> res Z;
  dq_ListAllValidators : res (list (string * option string));
  dq_SampleHeights : res (list (Z * option Z * option string));
  dq_SampleValidators : res (list (string * option string * Z));
  dq_SampleVotes : res (list SampleVote);
  dq_SampleVotesForValidator : string -> Z -> res (list SampleVote);
  dq_SearchValidatorsByOperatorOrMoniker : string -> string -> res (list (string * option string * Z));
  dq_ValidatorExistsByOperator : string -> res Z }.

Section DebugSql.
Context (sql_like : string -> string -> bool) (sql_lower : string -> string).
Implicit Types d : Tables.

(** [LIMIT n]: a negative limit is none. *)
Definition limit {A} (n : Z) (l : list A) : list A := if n <? 0 then l else take (Z.to_nat n) l.

Definition CountValidators d : Z := count (s_validators d).
Definition CountHeights d : Z := count (s_heights d).
Definition CountRounds d : Z := count (s_rounds d).
Definition CountVotes d : Z := count (s_votes d).
Definition CountConsensusEvents d : Z := count (t_events d).
Definition CountValidatorSnapshots d : Z := count (s_snapshots d).

Definition CountHeightsInTimeWindow d start end_ : Z := count (filter (fun h => time_in start end_ h = true) (s_heights d)).

(** [votes v JOIN heights h JOIN validators val WHERE val.operator_address = ?] *)
Definition validator_votes d operator : list (((VoteKey * VoteRow) * (Z * HeightRow)) * (string * ValidatorRow)) :=
  filter (fun p => val_OperatorAddress p.2.2 = operator)
    (inner_join (fun p a => bool_decide (p.1.1.1.2 = a.1))
      (inner_join (fun v h => v.1.1.1.1 =? h.1) (s_votes d) (s_heights d)) (s_validators d)).

Definition CountVotesForValidatorInTimeWindow d operator start end_ : Z :=
  count (filter (fun p => time_in start end_ p.1.2 = true) (validator_votes d operator)).

Definition by_operator {A} (x y : string * A) : Prop := String.leb x.1 y.1 = true.
#[local] Instance by_operator_dec {A} : RelDecision (@by_operator A) := fun x y => decide (_ = true).
Definition by_operator3 {A B} (x y : string * A * B) : Prop := by_operator x.1 y.1.
#[local] Instance by_operator3_dec {A B} : RelDecision (@by_operator3 A B) := fun x y => decide (_ = true).

Definition ListAllValidators d : list (string * option string) :=
  merge_sort by_operator ((fun a => (val_OperatorAddress a.2, val_Moniker a.2)) <$> s_validators d).

Definition height_desc {A} (x y : Z * A) : Prop := y.1 <= x.1.
#[local] Instance height_desc_dec {A} : RelDecision (@height_desc A) := fun x y => Z_le_dec _ _.

Definition SampleHeights d : list (Z * option Z * option string) :=
  (fun h => (h.1, h_BlockTime h.2, h_ProposerAddress h.2)) <$> limit 5 (merge_sort height_desc (s_heights d)).

Definition SampleValidators d : list (string * option string * Z) :=
  (fun a => (val_OperatorAddress a.2, val_Moniker a.2, val_VotingPower a.2)) <$> limit 5 (s_validators d).

Definition SampleVotes d : list SampleVote :=
  (fun v => mkSampleVote v.1.1.1.1 v.1.1.1.2 v.1.1.2 v.1.2 (vt_Timestamp v.2) None) <$> limit 5 (s_votes d).

Definition SampleVotesForValidator d operator n : list SampleVote :=
  (fun p => p.2) <$> limit n (merge_sort height_desc
    ((fun p => (p.1.1.1.1.1.1, mkSampleVote p.1.1.1.1.1.1 p.1.1.1.1.1.2 p.1.1.1.1.2 p.1.1.1.2 (vt_Timestamp p.1.1.2)
                                 (h_BlockTime p.1.2.2))) <$> validator_votes d operator)).

Definition SearchValidatorsByOperatorOrMoniker d pattern lower : list (string * option string * Z) :=
  merge_sort by_operator3
    ((fun a => (val_OperatorAddress a.2, val_Moniker a.2, val_VotingPower a.2))
     <$> filter (fun a => sql_like pattern (val_OperatorAddress a.2) ||
                   match val_Moniker a.2 with Some m => sql_like (sql_lower lower) (sql_lower m) | None => false end = true)
           (s_validators d)).

Definition ValidatorExistsByOperator d operator : Z :=
  count (filter (fun a => val_OperatorAddress a.2 = operator) (s_validators d)).

Definition sqlite_debug d : DebugQueries := {|
  dq_CountValidators := Ok (CountValidators d); dq_CountHeights := Ok (CountHeights d);
  dq_CountRounds := Ok (CountRounds d); dq_CountVotes := Ok (CountVotes d);
  dq_CountConsensusEvents := Ok (CountConsensusEvents d); dq_CountValidatorSnapshots := Ok (CountValidatorSnapshots d);
  dq_CountHeightsInTimeWindow start end_ := Ok (CountHeightsInTimeWindow d start end_);
  dq_CountVotesForValidatorInTimeWindow a start end_ := Ok (CountVotesForValidatorInTimeWindow d a start end_);
  dq_ListAllValidators := Ok (ListAllValidators d); dq_SampleHeights := Ok (SampleHeights d);
  dq_SampleValidators := Ok (SampleValidators d); dq_SampleVotes := Ok (SampleVotes d);
  dq_SampleVotesForValidator a n := Ok (SampleVotesForValidator d a n);
  dq_SearchValidatorsByOperatorOrMoniker p l := Ok (SearchValidatorsByOperatorOrMoniker d p l);
  dq_ValidatorExistsByOperator a := Ok (ValidatorExistsByOperator d a) |}.
End DebugSql.

(** ** [DatabaseDebugger] *)

Section Debugger.
Context `{Q : DebugQueries} (time_format : string -> Z -> string).

Definition nullTimeStr (t : option Z) (layout : string) : string :=
  match t with Some t => time_format layout t | None => "NULL" end.
Definition nullStringStr (s : option string) : string := default "NULL" s.

Definition print_count (c : string * res Z) : Print unit :=
  match c.2 with
  | Ok n => Printf ("📊 " +:+ c.1 +:+ ": " +:+ itoa n +:+ " records" +:+ nl)
  | Err e => Printf ("❌ " +:+ c.1 +:+ ": ERROR - " +:+ e +:+ nl)
  | Panic => fails Panic
  end.

Definition printSampleValidators : Print unit :=
  rows ← fails (wrap_err "sampling validators" dq_SampleValidators);
  Printf ("👥 Sample Validators:" +:+ nl) ;;
  print_all (fun row => Printf ("   " +:+ row.1.1 +:+ " (" +:+ default "" row.1.2 +:+ ") - Power: " +:+ itoa row.2 +:+ nl)) rows.

Definition printSampleHeights : Print unit :=
  rows ← fails (wrap_err "sampling heights" dq_SampleHeights);
  Printf ("📏 Sample Heights (latest):" +:+ nl) ;;
  print_all (fun row => Printf ("   Height: " +:+ itoa row.1.1 +:+ ", Time: " +:+ nullTimeStr row.1.2 "2006-01-02 15:04:05" +:+
    ", Proposer: " +:+ nullStringStr row.2 +:+ nl)) rows.

Definition printSampleVotes : Print unit :=
  rows ← fails (wrap_err "sampling votes" dq_SampleVotes);
  Printf ("🗳️  Sample Votes:" +:+ nl) ;;
  print_all (fun v => Printf ("   H:" +:+ itoa (sv_Height v) +:+ " R:" +:+ itoa (sv_RoundNumber v) +:+ " Validator:" +:+
    sv_ValidatorHexAddress v +:+ " Type:" +:+ itoa (sv_VoteType v) +:+ " Time:" +:+ nullTimeStr (sv_Timestamp v) "15:04:05" +:+ nl)) rows.

Definition PrintDatabaseSummary : Print unit :=
  Printf (nl +:+ "=== Database Summary ===" +:+ nl) ;;
  print_all print_count
    [("validators", dq_CountValidators); ("heights", dq_CountHeights); ("rounds", dq_CountRounds); ("votes", dq_CountVotes);
     ("consensus_events", dq_CountConsensusEvents); ("validator_snapshots", dq_CountValidatorSnapshots)] ;;
  Printf (nl +:+ "=== Sample Data ===" +:+ nl) ;;
  print_error (fun e => "❌ Error getting validators: " +:+ e +:+ nl) printSampleValidators ;;
  print_error (fun e => "❌ Error getting heights: " +:+ e +:+ nl) printSampleHeights ;;
  print_error (fun e => "❌ Error getting votes: " +:+ e +:+ nl) printSampleVotes.

(** A numbered list of validators, [suffix] ending each line. *)
Fixpoint print_numbered {A} (line : A -> string) (i : Z) (l : list A) : Print unit :=
  match l with
  | [] => mret tt
  | x :: l => Printf ("   " +:+ itoa i +:+ ". " +:+ line x +:+ nl) ;; print_numbered line (i + 1) l
  end.

(** The operator address, with the moniker when there is one. *)
Definition named (operator : string) (moniker : option string) : string :=
  if bool_decide (default "" moniker = "") then operator else operator +:+ " (" +:+ default "" moniker +:+ ")".

Definition printAllValidators : Print unit :=
  totalCount ← fails (wrap_err "counting validators" dq_CountValidators);
  Printf ("   Total validators in database: " +:+ itoa totalCount +:+ nl) ;;
  rows ← fails (wrap_err "listing validators" dq_ListAllValidators);
  Printf ("   All validators:" +:+ nl) ;;
  print_numbered (fun row => named row.1 row.2) 1 rows.

Definition printSampleValidatorVotes (validatorAddr : string) (n : Z) : Print unit :=
  rows ← fails (wrap_err "sampling votes for validator" (dq_SampleVotesForValidator validatorAddr n));
  Printf ("🔍 Sample votes for validator " +:+ validatorAddr +:+ ":" +:+ nl) ;;
  print_all (fun v => Printf ("   H:" +:+ itoa (sv_Height v) +:+ " R:" +:+ itoa (sv_RoundNumber v) +:+ " Type:" +:+
    itoa (sv_VoteType v) +:+ " VoteTime:" +:+ nullTimeStr (sv_Timestamp v) "15:04:05" +:+ " BlockTime:" +:+
    nullTimeStr (sv_BlockTime v) "15:04:05" +:+ nl)) rows ;;
  match rows with [] => Printf ("   No votes found for this validator" +:+ nl) | _ => mret tt end.

Definition DiagnoseValidatorData (validatorAddr : string) (window : TimeWindow) : Print unit :=
  Printf (nl +:+ "=== Validator Diagnosis ===" +:+ nl) ;;
  Printf ("Validator: " +:+ validatorAddr +:+ nl) ;;
  Printf ("Time Window: " +:+ time_format "2006-01-02 15:04:05" (tw_Start window) +:+ " to " +:+
    time_format "2006-01-02 15:04:05" (tw_End window) +:+ nl) ;;
  Printf ("==========================" +:+ nl +:+ nl) ;;
  n ← fails (wrap_err "checking validator existence" (dq_ValidatorExistsByOperator validatorAddr));
  (if 0 <? n then Printf ("✅ Validator found in validators table" +:+ nl)
   else
     Printf ("❌ Validator NOT found in validators table" +:+ nl) ;;
     Printf ("💡 Available validators:" +:+ nl) ;;
     print_error (fun e => "   Error listing validators: " +:+ e +:+ nl) printAllValidators) ;;
  heightCount ← fails (wrap_err "counting heights in window" (dq_CountHeightsInTimeWindow (tw_Start window) (tw_End window)));
  Printf ("📊 Heights in time window: " +:+ itoa heightCount +:+ nl) ;;
  voteCount ← fails (wrap_err "counting votes for validator in window"
    (dq_CountVotesForValidatorInTimeWindow validatorAddr (tw_Start window) (tw_End window)));
  Printf ("🗳️  Votes for validator in time window: " +:+ itoa voteCount +:+ nl) ;;
  print_error (fun e => "❌ Error getting sample votes: " +:+ e +:+ nl) (printSampleValidatorVotes validatorAddr 5).

Definition SearchValidators (searchTerm : string) : Print unit :=
  Printf (nl +:+ "=== Validator Search ===" +:+ nl) ;;
  Printf ("Search term: " +:+ searchTerm +:+ nl) ;;
  Printf ("=======================" +:+ nl +:+ nl) ;;
  let pattern := "%" +:+ searchTerm +:+ "%" in
  rows ← fails (wrap_err "searching validators" (dq_SearchValidatorsByOperatorOrMoniker pattern pattern));
  Printf ("🔍 Matching validators:" +:+ nl) ;;
  print_numbered (fun row => named row.1.1 row.1.2 +:+ " - Power: " +:+ itoa row.2) 1 rows ;;
  match rows with
  | [] =>
      Printf ("   No validators found matching '" +:+ searchTerm +:+ "'" +:+ nl) ;;
      Printf (nl +:+ "💡 Try:" +:+ nl) ;;
      Printf ("   - Use a shorter search term" +:+ nl) ;;
      Printf ("   - Check the exact validator address format" +:+ nl) ;;
      Printf ("   - Run the 'debug' command to see all available validators" +:+ nl)
  | _ => Printf (nl +:+ "Found " +:+ itoa (count rows) +:+ " matching validator(s)" +:+ nl)
  end.
End Debugger.
