(* ===== verification/Reports.v ===== *)
(** * The analytics command line ([pkg/analytics/cli.go], [run.go])

    Every report is the text it prints; [Run] dispatches the command and gives
    what the process wrote to its two outputs and its exit code. *)

From S2P Require Import Prelude GoNum GoText GoTime Config Analytics Schema Store Relational Queries Debugger.
Local Open Scope Z_scope.

Section Reports.
Context `{Q : AnalyticsQueries} (time_format : string -> Z -> string).

Definition percent_cell (f : gofloat) : string := fmt_fixed 2 f +:+ "%".

(** [%-<w>s] cells separated by spaces. *)
Definition columns (cells : list (nat * string)) : string := join " " ((fun c => pad_right c.1 c.2) <$> cells) +:+ nl.

Definition seconds_layout : string := "2006-01-02 15:04:05".
Definition window_line (durationStr : string) (window : TimeWindow) : string :=
  "Time Window: " +:+ durationStr +:+ " (" +:+ time_format seconds_layout (tw_Start window) +:+ " to " +:+
  time_format seconds_layout (tw_End window) +:+ ")" +:+ nl.

Definition no_data (validatorAddr : string) : string :=
  "📊 No data found for validator " +:+ validatorAddr +:+ " in the specified time window." +:+ nl +:+
  "💡 This could mean:" +:+ nl +:+
  "   • The database is empty (tmtop hasn't been running long enough)" +:+ nl +:+
  "   • The validator address is incorrect" +:+ nl +:+
  "   • The time window doesn't contain any recorded blocks" +:+ nl +:+
  nl +:+ "💭 Try:" +:+ nl +:+
  "   • Run tmtop in normal mode first to collect data" +:+ nl +:+
  "   • Use a different time window (e.g., --analytics-time-window 1h)" +:+ nl +:+
  "   • Check if the validator address is correct" +:+ nl.

Definition performance_header (validatorAddr durationStr : string) (window : TimeWindow) : string :=
  nl +:+ "=== Validator Performance Analysis ===" +:+ nl +:+
  "Validator: " +:+ validatorAddr +:+ nl +:+ window_line durationStr window +:+
  "=======================================" +:+ nl +:+ nl.

(** The top five streaks; an error leaves them out. *)
Definition print_streaks (validatorAddr : string) (window : TimeWindow) : Print unit :=
  match GetMissedBlockStreaks validatorAddr window with
  | Ok (s :: rest) =>
      Printf ("  Recent Miss Streaks:" +:+ nl) ;;
      print_all (fun s => Printf ("    - " +:+ itoa (ms_ConsecutiveMisses s) +:+ " blocks (heights " +:+
        itoa (ms_StreakStartHeight s) +:+ "-" +:+ itoa (ms_StreakEndHeight s) +:+ ")" +:+ nl)) (take 5 (s :: rest))
  | Ok [] | Err _ => mret tt
  | Panic => fails Panic
  end.

Definition PrintValidatorPerformance (now : Z) (validatorAddr durationStr : string) : Print unit :=
  window ← fails (wrap_err "invalid time window" (ParseTimeWindow now durationStr));
  Printf (performance_header validatorAddr durationStr window) ;;
  metrics ← fails (wrap_err "failed to get performance metrics" (GetSigningEfficiency now validatorAddr window));
  if pm_TotalBlocks metrics =? 0 then Printf (no_data validatorAddr)
  else
    Printf ("📊 Block Signing Performance:" +:+ nl) ;;
    Printf ("  Total Blocks:       " +:+ itoa (pm_TotalBlocks metrics) +:+ nl) ;;
    Printf ("  Blocks Signed:      " +:+ itoa (pm_BlocksSigned metrics) +:+ nl) ;;
    Printf ("  Blocks Missed:      " +:+ itoa (pm_BlocksMissed metrics) +:+ nl) ;;
    Printf ("  Signing Efficiency: " +:+ percent_cell (pm_SigningEfficiency metrics) +:+ nl +:+ nl) ;;
    Printf ("🗳️  Consensus Participation:" +:+ nl) ;;
    Printf ("  Total Rounds:       " +:+ itoa (pm_TotalRounds metrics) +:+ nl) ;;
    Printf ("  Prevote Rate:       " +:+ percent_cell (pm_PrevoteRate metrics) +:+ nl) ;;
    Printf ("  Precommit Rate:     " +:+ percent_cell (pm_PrecommitRate metrics) +:+ nl +:+ nl) ;;
    Printf ("⚠️  Miss Analysis:" +:+ nl) ;;
    Printf ("  Longest Miss Streak: " +:+ itoa (pm_LongestMissStreak metrics) +:+ " blocks" +:+ nl) ;;
    (if 0 <? pm_LongestMissStreak metrics then print_streaks validatorAddr window else mret tt) ;;
    Printf nl ;;
    match Analytics.GetValidatorUptime validatorAddr window with
    | Ok uptime =>
        Printf ("⏱️  Uptime Metrics:" +:+ nl) ;;
        Printf ("  Uptime Percentage:  " +:+ percent_cell (um_UptimePercentage uptime) +:+ nl) ;;
        Printf ("  Blocks Participated: " +:+ itoa (um_BlocksParticipated uptime) +:+ "/" +:+ itoa (um_TotalBlocksInWindow uptime) +:+ nl)
    | Err _ => mret tt
    | Panic => fails Panic
    end.

(** The name column: at most twenty bytes, the address without a moniker. *)
Definition ranking_name (v : ValidatorRanking) : string :=
  let moniker := if (20 <? slen (vr_Moniker v))%nat then stake 17 (vr_Moniker v) +:+ "..." else vr_Moniker v in
  if bool_decide (moniker = "") then
    if (12 <? slen (vr_HexAddress v))%nat then stake 12 (vr_HexAddress v) +:+ "..." else vr_HexAddress v
  else moniker.

Definition ranking_line (v : ValidatorRanking) : string :=
  columns [(4%nat, itoa (vr_EfficiencyRank v)); (20%nat, ranking_name v);
           (12%nat, itoa (vr_BlocksSigned v) +:+ "/" +:+ itoa (vr_TotalBlocks v)); (12%nat, percent_cell (vr_SigningEfficiency v));
           (12%nat, itoa (vr_VotingPower v)); (8%nat, itoa (vr_PrevotesCast v)); (12%nat, itoa (vr_PrecommitsCast v))].

Definition rankings_header (durationStr : string) (window : TimeWindow) : string :=
  nl +:+ "=== Validator Performance Rankings ===" +:+ nl +:+ window_line durationStr window +:+
  "======================================" +:+ nl +:+ nl.

Definition rankings_columns : string :=
  columns [(4%nat, "Rank"); (20%nat, "Moniker"); (12%nat, "Blocks Signed"); (12%nat, "Efficiency"); (12%nat, "Voting Power");
           (8%nat, "Prevotes"); (12%nat, "Precommits")] +:+
  columns [(4%nat, "----"); (20%nat, "--------------------"); (12%nat, "------------"); (12%nat, "------------");
           (12%nat, "------------"); (8%nat, "--------"); (12%nat, "------------")].

Definition PrintValidatorRankings (now : Z) (durationStr : string) (limit : nat) : Print unit :=
  window ← fails (wrap_err "invalid time window" (ParseTimeWindow now durationStr));
  Printf (rankings_header durationStr window) ;;
  rankings ← fails (wrap_err "failed to get validator rankings" (GetAllValidatorMetrics window));
  match rankings with
  | [] => Printf ("No validator data found for the specified time window." +:+ nl)
  | _ =>
      Printf rankings_columns ;;
      print_all (fun v => Printf (ranking_line v)) (take (Nat.min limit (length rankings)) rankings) ;;
      if (limit <? length rankings)%nat
      then Printf (nl +:+ "... and " +:+ itoa (Z.of_nat (length rankings) - Z.of_nat limit) +:+ " more validators" +:+ nl)
      else mret tt
  end.

Definition series_header (validatorAddr durationStr : string) : string :=
  nl +:+ "=== Validator Performance Time Series ===" +:+ nl +:+
  "Validator: " +:+ validatorAddr +:+ nl +:+
  "Time Window: " +:+ durationStr +:+ " (hourly buckets)" +:+ nl +:+
  "=========================================" +:+ nl +:+ nl.

Definition PrintPerformanceTimeSeries (now : Z) (validatorAddr durationStr : string) : Print unit :=
  window ← fails (wrap_err "invalid time window" (ParseTimeWindow now durationStr));
  Printf (series_header validatorAddr durationStr) ;;
  series ← fails (wrap_err "failed to get performance time series" (GetPerformanceTimeSeries validatorAddr window));
  match series with
  | [] => Printf ("No time series data found for the specified time window." +:+ nl)
  | _ =>
      Printf (columns [(20%nat, "Time"); (12%nat, "Blocks"); (12%nat, "Signed"); (12%nat, "Efficiency")] +:+
              columns [(20%nat, "--------------------"); (12%nat, "------------"); (12%nat, "------------"); (12%nat, "------------")]) ;;
      print_all (fun p => Printf (columns [(20%nat, time_format "2006-01-02 15:04" (ts_TimeBucket p)); (12%nat, itoa (ts_BlocksInBucket p));
                                           (12%nat, itoa (ts_BlocksSigned p)); (12%nat, percent_cell (ts_SigningEfficiency p))])) series
  end.

Definition DiagnoseValidator `{DQ : DebugQueries} (now : Z) (validatorAddr durationStr : string) : Print unit :=
  window ← fails (wrap_err "invalid time window" (ParseTimeWindow now durationStr));
  DiagnoseValidatorData time_format validatorAddr window.

(** ** [Run] *)

(** What the process leaves behind when it ends. *)
Record Process := mkProcess { p_stdout : string; p_stderr : string; p_exit : Z }.

Definition requires_validator (what : string) : Process :=
  mkProcess "" ("Error: --analytics-validator is required for " +:+ what +:+ nl) 1.

(** A command and [fatal]; a panic exits with 2. *)
Definition command (what : string) (m : Print unit) : Process :=
  match m.2 with
  | Ok _ => mkProcess m.1 "" 0
  | Err e => mkProcess m.1 ("Error running " +:+ what +:+ ": " +:+ e +:+ nl) 1
  | Panic => mkProcess m.1 "" 2
  end.

(** [requireValidator], then the command. *)
Definition for_validator (cfg : Options) (need what : string) (m : string -> Print unit) : Process :=
  if bool_decide (AnalyticsValidator cfg = "") then requires_validator need
  else command what (m (AnalyticsValidator cfg)).

Definition Run `{DQ : DebugQueries} (now : Z) (cfg : Options) : Process :=
  let cmd := AnalyticsCommand cfg in
  if bool_decide (cmd = "performance") then
    for_validator cfg "performance analysis" "performance analysis" (fun v => PrintValidatorPerformance now v (AnalyticsTimeWindow cfg))
  else if bool_decide (cmd = "rankings") then
    command "rankings analysis" (PrintValidatorRankings now (AnalyticsTimeWindow cfg) 20)
  else if bool_decide (cmd = "timeseries") then
    for_validator cfg "time series analysis" "time series analysis" (fun v => PrintPerformanceTimeSeries now v (AnalyticsTimeWindow cfg))
  else if bool_decide (cmd = "debug") then command "database debug" (PrintDatabaseSummary time_format)
  else if bool_decide (cmd = "diagnose") then
    for_validator cfg "validator diagnosis" "validator diagnosis" (fun v => DiagnoseValidator now v (AnalyticsTimeWindow cfg))
  else if bool_decide (cmd = "search") then
    for_validator cfg "validator search (use --analytics-validator as search term)" "validator search" SearchValidators
  else mkProcess "" ("Error: unknown analytics command " +:+ dquote +:+ cmd +:+ dquote +:+
    ". Available: performance, rankings, timeseries, debug, diagnose, search" +:+ nl) 1.
End Reports.

Definition no_database : Process := mkProcess ""
  ("Error: analytics mode requires database to be enabled (--database-path or a non-zero retention)." +:+ nl) 1.

(** [analytics.Run]: the queries of the open database, or none. *)
Definition analytics_Run (time_format : string -> Z -> string) (now : Z) (cfg : Options)
    (database : option (AnalyticsQueries * DebugQueries)) : Process :=
  match database with
  | None => no_database
  | Some (q, dq) => Run (Q := q) (DQ := dq) time_format now cfg
  end.

(** ** [FormatDuration] *)

Definition Minute : Z := 60 * Second.

(** [Duration.Minutes] and [Duration.Hours]. *)
Definition duration_in (unit_ d : Z) : gofloat :=
  f64_add (f64_of_Z (go_div d unit_)) (f64_div (f64_of_Z (go_rem d unit_)) (f64_of_Z unit_)).

Definition FormatDuration (d : Z) : string :=
  if d <? Minute then fmt_fixed 0 (Seconds d) +:+ "s"
  else if d <? Hour then fmt_fixed 1 (duration_in Minute d) +:+ "m"
  else if d <? 24 * Hour then fmt_fixed 1 (duration_in Hour d) +:+ "h"
  else fmt_fixed 1 (f64_div (duration_in Hour d) (f64_of_Z 24)) +:+ "d".
