(* ===== verification/ReportFacts.v ===== *)
(** * What the analytics command prints

    The exit codes of [Run], and the reports over the databases the program
    itself writes: no height there has a block time, so no report has data. *)

From S2P Require Import Prelude GoNum GoText GoTime Config Deps Rounds Types Analytics Schema Store Relational Queries Efficiency Debugger Reports.
Local Open Scope Z_scope.

(** ** Printing that cannot fail *)

Definition print_ok (m : Print unit) : Prop := m.2 = Ok tt.

Section PrintFacts.
Lemma ok_Printf s : print_ok (Printf s).
Proof. done. Qed.
Lemma ok_ret : print_ok (mret tt).
Proof. done. Qed.
Lemma ok_seq m k : print_ok m -> print_ok k -> print_ok (m ;; k).
Proof. destruct m as [o r]. unfold print_ok. intros Hm Hk. cbn in *. by subst r. Qed.
Lemma ok_given {A} (a : A) (f : A -> Print unit) : print_ok (f a) -> print_ok (fails (Ok a) ≫= f).
Proof. done. Qed.
Lemma ok_all {A} (f : A -> Print unit) l : (forall x, print_ok (f x)) -> print_ok (print_all f l).
Proof. intros Hf. induction l as [|x l IH]; [done|]. by apply ok_seq. Qed.
Lemma ok_numbered {A} (line : A -> string) i l : print_ok (print_numbered line i l).
Proof. revert i. induction l as [|x l IH]; intros i; [done|]. by apply ok_seq. Qed.
Lemma ok_error h m : m.2 <> Panic -> print_ok (print_error h m).
Proof. unfold print_ok, print_error. destruct m as [o [[]| |]]; cbn; done. Qed.
Lemma ok_error_ok h m : print_ok m -> print_ok (print_error h m).
Proof. intros Hm. apply ok_error. by rewrite Hm. Qed.

Lemma given {A} c (a : A) (f : A -> Print unit) : fails (wrap_err c (Ok a)) ≫= f = f a.
Proof. cbn. by destruct (f a). Qed.

(** A text before the rest. *)
Lemma print_text s (m : Print unit) : ((Printf s ;; m) : Print unit) = (s +:+ m.1, m.2).
Proof. done. Qed.
End PrintFacts.

Create HintDb print.
#[export] Hint Resolve ok_Printf ok_ret ok_seq ok_given ok_all ok_numbered ok_error_ok : print.

(** ** The program writes no block time *)

Definition timeless (d : Tables) : Prop := forall h r, t_heights d !! h = Some r -> h_BlockTime r = None.

Section Timeless.
Context `{B : Butils} `{C : Comet}.
Implicit Types d : Tables.

Lemma timeless_same d d' : timeless d -> t_heights d' = t_heights d -> timeless d'.
Proof. unfold timeless. by intros H ->. Qed.

Lemma timeless_sub d d' : timeless d -> t_heights d' ⊆ t_heights d -> timeless d'.
Proof. intros H Hs h r Hr. eapply H, lookup_weaken; eauto. Qed.

(** A statement that keeps the heights. *)
Lemma timeless_exec f : (forall d d', f d = Ok d' -> t_heights d' = t_heights d) -> preserves timeless (exec f).
Proof. intros Hf. apply preserves_exec. intros d d' Hd E. eapply timeless_same; eauto. Qed.

Lemma checked_Ok b d d' : checked b d = Ok d' -> d' = d.
Proof. unfold checked. destruct b; [by intros [= <-]|done]. Qed.

Lemma timeless_UpsertHeight now h hash proposer total :
  preserves timeless (exec (fun d => UpsertHeight d now h hash None proposer total)).
Proof.
  apply preserves_exec. unfold UpsertHeight. intros d d' Hd ->%checked_Ok h' r. cbn.
  destruct (decide (h = h')) as [->|]; rewrite ?lookup_insert_eq, ?lookup_insert_ne by done; [by intros [= <-]|apply Hd].
Qed.

Lemma timeless_event now h r ty data : preserves timeless (StoreConsensusEvent now h r ty data).
Proof. apply preserves_wrap, timeless_exec. unfold CreateConsensusEvent. by intros d d' ->%checked_Ok. Qed.

Lemma timeless_step config d d' : store_step config d d' -> timeless d -> timeless d'.
Proof.
  intros Hst Hd. destruct Hst as [d now clock h r rd _ _|d now h vs|d clock evs|d now].
  - revert d Hd. apply preserves_tx, preserves_seq.
    + apply preserves_wrap, timeless_exec. unfold UpsertRound. by intros d d' ->%checked_Ok.
    + apply preserves_for. intros [[a t] b] _. apply preserves_log, timeless_exec. unfold UpsertVote. by intros d d' ->%checked_Ok.
  - revert d Hd. apply preserves_tx, preserves_seq; [apply preserves_wrap, timeless_UpsertHeight|].
    apply preserves_for. intros v _. unfold store_validator. apply preserves_bind; [apply preserves_lift|].
    intros [cv key] d Hd. destruct (UpsertValidator d _ _) as [d'| |] eqn:E; cbn; [|done..].
    apply preserves_log.
    + apply timeless_exec. unfold UpsertValidatorSnapshot. by intros ? ? ->%checked_Ok.
    + unfold UpsertValidator in E. destruct (operator_taken _ _ _); [done|]. injection E as <-. done.
  - revert d Hd. apply preserves_for. intros [h r p|[x|]|h r s|] _; unfold store_event.
    + apply preserves_seq; apply preserves_log; [apply timeless_event|].
      apply preserves_seq; apply timeless_exec; by intros d d' [= <-].
    + apply preserves_log, timeless_event.
    + by intros d Hd.
    + apply preserves_ret.
    + apply preserves_ret.
  - destruct (computeCutoffHeight config now d) as [cutoff|e|] eqn:E.
    + rewrite (CleanupOldData_prunes config now d cutoff E). cbn. destruct (cutoff <=? 0); [done|].
      eapply timeless_sub; [exact Hd|]. cbn. apply map_filter_subseteq.
    + unfold CleanupOldData, db_bind, db_lift. by rewrite E.
    + unfold CleanupOldData, db_bind, db_lift. by rewrite E.
Qed.

Lemma reachable_timeless config u d : store_reachable config u d -> timeless d.
Proof.
  apply rtc_invariant; [|intros h r; cbn; by rewrite lookup_empty]. intros a b Ha Hst. by eapply timeless_step.
Qed.

Lemma timeless_window d start end_ : timeless d -> windowed d start end_ = [].
Proof.
  intros Hd. apply filter_none, Forall_forall. intros [h r] Hh%elem_of_map_to_list. unfold time_in. cbn.
  by rewrite (Hd h r Hh).
Qed.
End Timeless.

(** ** Over a database the queries do not fail *)

Section ReportFacts.
Context `{F : SqlFunctions} (sql_like : string -> string -> bool) (sql_lower : string -> string).
Context (time_format : string -> Z -> string).
Implicit Types (d : Tables) (cfg : Options).

Definition run_sqlite d now cfg : Process :=
  analytics_Run time_format now cfg (Some (sqlite_queries d, sqlite_debug sql_like sql_lower d)).

#[local] Hint Extern 1 (print_ok (if ?b then _ else _)) => destruct b : print.
#[local] Hint Extern 1 (print_ok (match ?l with [] => _ | _ :: _ => _ end)) => destruct l : print.

Lemma performance_ok d now v w : print_ok (PrintValidatorPerformance (Q := sqlite_queries d) time_format now v w) <->
  exists window, ParseTimeWindow now w = Ok window.
Proof.
  unfold PrintValidatorPerformance. destruct (ParseTimeWindow now w) as [window|e|].
  2-3: split; [done|by intros []].
  split; [by exists window|]. intros _. cbn [wrap_err]. apply ok_given, ok_seq; [done|].
  unfold GetSigningEfficiency. cbn [q_SigningEfficiency q_ConsensusParticipation q_MissedBlockStreaks sqlite_queries mbind res_bind wrap_err].
  apply ok_given. destruct (_ =? 0); [done|]. repeat (apply ok_seq; [by auto with print|]).
  unfold print_streaks, GetMissedBlockStreaks, Analytics.GetValidatorUptime.
  cbn [q_MissedBlockStreaks q_Uptime sqlite_queries mbind res_bind].
  apply ok_seq; [|auto with print]. destruct (0 <? _); [|done]. destruct (map _ _); auto with print.
Qed.

Lemma rankings_ok d now w n : print_ok (PrintValidatorRankings (Q := sqlite_queries d) time_format now w n) <->
  exists window, ParseTimeWindow now w = Ok window.
Proof.
  unfold PrintValidatorRankings. destruct (ParseTimeWindow now w) as [window|e|].
  2-3: split; [done|by intros []].
  split; [by exists window|]. intros _. cbn [wrap_err]. apply ok_given, ok_seq; [done|].
  unfold GetAllValidatorMetrics. cbn [q_Ranking sqlite_queries mbind res_bind wrap_err]. apply ok_given.
  destruct (map _ _); auto with print.
Qed.

Lemma series_ok d now v w : print_ok (PrintPerformanceTimeSeries (Q := sqlite_queries d) time_format now v w) <->
  exists window, ParseTimeWindow now w = Ok window.
Proof.
  unfold PrintPerformanceTimeSeries. destruct (ParseTimeWindow now w) as [window|e|].
  2-3: split; [done|by intros []].
  split; [by exists window|]. intros _. cbn [wrap_err]. apply ok_given, ok_seq; [done|].
  unfold GetPerformanceTimeSeries. cbn [q_TimeSeries sqlite_queries mbind res_bind wrap_err]. apply ok_given.
  destruct (map _ _); auto with print.
Qed.

Lemma diagnose_ok d now v w :
  print_ok (DiagnoseValidator (DQ := sqlite_debug sql_like sql_lower d) time_format now v w) <->
  exists window, ParseTimeWindow now w = Ok window.
Proof.
  unfold DiagnoseValidator. destruct (ParseTimeWindow now w) as [window|e|].
  2-3: split; [done|by intros []].
  split; [by exists window|]. intros _. cbn [wrap_err]. apply ok_given.
  unfold DiagnoseValidatorData, printAllValidators, printSampleValidatorVotes.
  cbn [dq_ValidatorExistsByOperator dq_CountHeightsInTimeWindow dq_CountVotesForValidatorInTimeWindow
       dq_SampleVotesForValidator dq_CountValidators dq_ListAllValidators sqlite_debug wrap_err].
  auto 20 with print.
Qed.

Lemma search_ok d v : print_ok (SearchValidators (Q := sqlite_debug sql_like sql_lower d) v).
Proof.
  unfold SearchValidators. cbn [dq_SearchValidatorsByOperatorOrMoniker sqlite_debug wrap_err]. auto 20 with print.
Qed.

Lemma summary_ok d : print_ok (PrintDatabaseSummary (Q := sqlite_debug sql_like sql_lower d) time_format).
Proof.
  unfold PrintDatabaseSummary, printSampleValidators, printSampleHeights, printSampleVotes, print_count.
  cbn [dq_CountValidators dq_CountHeights dq_CountRounds dq_CountVotes dq_CountConsensusEvents dq_CountValidatorSnapshots
       dq_SampleValidators dq_SampleHeights dq_SampleVotes sqlite_debug wrap_err].
  apply ok_seq; [done|]. apply ok_seq; [|auto 20 with print]. repeat (apply ok_seq; [done|]). done.
Qed.

(** The commands, what they need, and whether they read the time window. *)
Inductive Command := CPerformance | CRankings | CTimeseries | CDebug | CDiagnose | CSearch.
Definition command_name (c : Command) : string :=
  match c with
  | CPerformance => "performance" | CRankings => "rankings" | CTimeseries => "timeseries"
  | CDebug => "debug" | CDiagnose => "diagnose" | CSearch => "search"
  end.
Definition needs_validator (c : Command) : bool := match c with CRankings | CDebug => false | _ => true end.
Definition needs_window (c : Command) : bool := match c with CDebug | CSearch => false | _ => true end.

Lemma command_exit what m : p_exit (command what m) = 0 <-> print_ok m.
Proof. unfold command, print_ok. by destruct m as [o [[]| |]]. Qed.

Lemma for_validator_exit cfg need what m :
  p_exit (for_validator cfg need what m) = 0 <-> AnalyticsValidator cfg <> "" /\ print_ok (m (AnalyticsValidator cfg)).
Proof. unfold for_validator. case_bool_decide; [split; [done|by intros []]|]. rewrite command_exit. tauto. Qed.

Lemma bool_decide_string (a b : string) : bool_decide (a = b) = String.eqb a b.
Proof. case_bool_decide as E; [by subst; rewrite String.eqb_refl|]. symmetry. by apply String.eqb_neq. Qed.

Lemma unknown_command d now cfg : (forall c, AnalyticsCommand cfg <> command_name c) -> p_exit (run_sqlite d now cfg) = 1.
Proof.
  intros H. unfold run_sqlite, analytics_Run, Run.
  rewrite (bool_decide_eq_false_2 _ (H CPerformance)), (bool_decide_eq_false_2 _ (H CRankings)),
    (bool_decide_eq_false_2 _ (H CTimeseries)), (bool_decide_eq_false_2 _ (H CDebug)),
    (bool_decide_eq_false_2 _ (H CDiagnose)), (bool_decide_eq_false_2 _ (H CSearch)). done.
Qed.

(** The command line's name selects the command. *)
Lemma known_exit d now cfg c : AnalyticsCommand cfg = command_name c ->
  (p_exit (run_sqlite d now cfg) = 0 <->
   (needs_validator c = true -> AnalyticsValidator cfg <> "") /\
   (needs_window c = true -> exists window, ParseTimeWindow now (AnalyticsTimeWindow cfg) = Ok window)) /\
  (needs_validator c = true -> AnalyticsValidator cfg = "" -> p_stdout (run_sqlite d now cfg) = "").
Proof.
  intros E. unfold run_sqlite, analytics_Run, Run. rewrite E, !bool_decide_string.
  destruct c; cbn -[for_validator command]; (split; [rewrite ?for_validator_exit, ?command_exit, ?performance_ok, ?rankings_ok,
      ?series_ok, ?diagnose_ok|intros H Hv; try done; unfold for_validator; by rewrite Hv]).
  - split; [by intros [? ?]|]. by intros [H1 H2]; auto.
  - split; [done|]. by intros [_ H]; apply H.
  - split; [by intros [? ?]|]. by intros [H1 H2]; auto.
  - split; [done|]. intros _. apply summary_ok.
  - split; [by intros [? ?]|]. by intros [H1 H2]; auto.
  - split; [by intros [? ?]|]. intros [H _]. split; [by apply H|apply search_ok].
Qed.

(** The analytics process succeeds exactly when the database is open, the command is
    one of the six, the ones about a validator were given one, and the ones over a
    window can parse it; without a validator nothing is printed to standard output. *)
Theorem analytics_exit_code d now cfg :
  (p_exit (run_sqlite d now cfg) = 0 <-> exists c, AnalyticsCommand cfg = command_name c /\
     (needs_validator c = true -> AnalyticsValidator cfg <> "") /\
     (needs_window c = true -> exists window, ParseTimeWindow now (AnalyticsTimeWindow cfg) = Ok window)) /\
  (forall c, AnalyticsCommand cfg = command_name c -> needs_validator c = true -> AnalyticsValidator cfg = "" ->
     p_stdout (run_sqlite d now cfg) = "") /\
  p_exit (analytics_Run time_format now cfg None) = 1.
Proof.
  split_and!; [split| |done].
  - intros H0. destruct (decide (Exists (fun c => AnalyticsCommand cfg = command_name c)
      [CPerformance; CRankings; CTimeseries; CDebug; CDiagnose; CSearch])) as [He|He].
    + apply Exists_exists in He as (c & _ & E). exists c. split; [done|]. by apply (known_exit d now cfg c E).
    + rewrite unknown_command in H0; [done|]. intros c E. apply He, Exists_exists. exists c. split; [|done].
      destruct c; set_solver.
  - intros (c & E & H). by apply (known_exit d now cfg c E).
  - intros c E. by apply (known_exit d now cfg c E).
Qed.

Lemma efficiency_total d now v window : exists m,
  GetSigningEfficiency (Q := sqlite_queries d) now v window = Ok m /\
  pm_TotalBlocks m = heights_total (windowed d (tw_Start window) (tw_End window)).
Proof.
  unfold GetSigningEfficiency. cbn [q_SigningEfficiency q_ConsensusParticipation q_MissedBlockStreaks sqlite_queries mbind res_bind].
  eexists. split; [reflexivity|]. cbn [pm_TotalBlocks]. by rewrite signing_efficiency_counts.
Qed.

(** C16: Every report over a time window is empty: in any database the program itself can
    have written, no height has a block time, so the performance report of any
    validator says there is no data, the rankings list no validator and the time
    series has no point, whatever was recorded and whatever the window. *)
Theorem analytics_always_empty `{B : Butils} `{C : Comet} config u d now cfg window
  (Hd : store_reachable config u d) (Hw : ParseTimeWindow now (AnalyticsTimeWindow cfg) = Ok window) :
  let v := AnalyticsValidator cfg in let w := AnalyticsTimeWindow cfg in
  (AnalyticsCommand cfg = "performance" -> v <> "" ->
     run_sqlite d now cfg = mkProcess (performance_header time_format v w window +:+ no_data v) "" 0) /\
  (AnalyticsCommand cfg = "rankings" ->
     run_sqlite d now cfg = mkProcess (rankings_header time_format w window +:+
       "No validator data found for the specified time window." +:+ nl) "" 0) /\
  (AnalyticsCommand cfg = "timeseries" -> v <> "" ->
     run_sqlite d now cfg = mkProcess (series_header v w +:+
       "No time series data found for the specified time window." +:+ nl) "" 0).
Proof.
  intros v w. pose proof (timeless_window d (tw_Start window) (tw_End window) (reachable_timeless _ _ _ Hd)) as Hempty.
  assert (Hn : forall s, v <> "" -> forall need what m, for_validator cfg need what m = s <-> command what (m v) = s).
  { intros s Hv need what m. unfold for_validator. by rewrite bool_decide_eq_false_2. }
  unfold run_sqlite, analytics_Run, Run. rewrite !bool_decide_string. split_and!.
  - intros -> Hv. cbn -[for_validator]. apply Hn; [done|]. unfold PrintValidatorPerformance. rewrite Hw, given.
    destruct (efficiency_total d now v window) as (m & -> & Hm). rewrite given, Hm, Hempty. done.
  - intros ->. cbn -[command]. unfold PrintValidatorRankings. rewrite Hw, given, print_text. unfold GetAllValidatorMetrics.
    cbn [q_Ranking sqlite_queries mbind res_bind]. unfold GetValidatorRanking.
    rewrite metrics_empty by exact Hempty. done.
  - intros -> Hv. cbn -[for_validator]. apply Hn; [done|]. unfold PrintPerformanceTimeSeries. rewrite Hw, given, print_text.
    unfold GetPerformanceTimeSeries. cbn [q_TimeSeries sqlite_queries mbind res_bind]. unfold GetValidatorPerformanceTimeSeries.
    rewrite window_votes_bind, Hempty. done.
Qed.
End ReportFacts.

(** ** A run over a database the program wrote *)

Section ReportExamples.
Definition demo_time (layout : string) (t : Z) : string := itoa (t / Second).

Definition demo_options (cmd v w : string) : Options :=
  mkOptions "" "" "" 0 0 0 0 0 false false "" 0 1000 "" false "" "" 10 0 true v w cmd 0 0 "".

Lemma analytics_always_empty_witness :
  run_sqlite (F := demo_sql) String.eqb (fun s => s) demo_time (w_fill [5]) (5000 * Hour) (demo_options "performance" "78" "1h") =
  mkProcess (performance_header demo_time "78" "1h" (mkTimeWindow (4999 * Hour) (5000 * Hour)) +:+ no_data "78") "" 0.
Proof.
  exact (proj1 (analytics_always_empty (F := demo_sql) (B := ref_butils) (C := ref_comet) String.eqb (fun s => s) demo_time w_config false
    (w_fill [5]) (5000 * Hour) (demo_options "performance" "78" "1h") (mkTimeWindow (4999 * Hour) (5000 * Hour))
    (w_fill_reachable [5]) eq_refl) eq_refl ltac:(discriminate)).
Defined.

(** The other reports over the small store of the examples: a window in the past, a
    missing validator, an unknown command. *)
Example demo_exit_codes :
  (fun o => p_exit (run_sqlite (F := demo_sql) String.eqb (fun s => s) demo_time demo_tables 100 o)) <$>
  [demo_options "rankings" "" "1h"; demo_options "search" "" ""; demo_options "rankings" "" "-1h";
   demo_options "debug" "" ""; demo_options "rank" "" "1h"] = [0; 1; 1; 0; 1].
Proof. vm_compute. reflexivity. Qed.

(** One flag, two meanings: the performance report takes the consensus address, the
    diagnosis the operator's. *)
Example one_validator_two_names :
  (fun v => p_stdout (run_sqlite (F := demo_sql) String.eqb (fun s => s) demo_time demo_tables 100 (demo_options "diagnose" v "1h")))
    <$> ["AA"; "op"] =
  (fun p => nl +:+ "=== Validator Diagnosis ===" +:+ nl +:+ "Validator: " +:+ p.1 +:+ nl +:+ "Time Window: -3600 to 0" +:+ nl +:+
     "==========================" +:+ nl +:+ nl +:+ p.2) <$>
  [("AA", "❌ Validator NOT found in validators table" +:+ nl +:+ "💡 Available validators:" +:+ nl +:+
     "   Total validators in database: 1" +:+ nl +:+ "   All validators:" +:+ nl +:+ "   1. op (moon)" +:+ nl +:+
     "📊 Heights in time window: 5" +:+ nl +:+ "🗳️  Votes for validator in time window: 0" +:+ nl +:+
     "🔍 Sample votes for validator AA:" +:+ nl +:+ "   No votes found for this validator" +:+ nl);
   ("op", "✅ Validator found in validators table" +:+ nl +:+
     "📊 Heights in time window: 5" +:+ nl +:+ "🗳️  Votes for validator in time window: 3" +:+ nl +:+
     "🔍 Sample votes for validator op:" +:+ nl +:+ "   H:4 R:0 Type:1 VoteTime:0 BlockTime:0" +:+ nl +:+
     "   H:1 R:0 Type:2 VoteTime:0 BlockTime:0" +:+ nl +:+ "   H:1 R:0 Type:1 VoteTime:0 BlockTime:0" +:+ nl)].
Proof. vm_compute. reflexivity. Qed.
End ReportExamples.
