(* ===== verification/Latency.v ===== *)
(** * What the vote arrival latency measures ([analytics_live.sql.go], [pkg/db/consensus_store.go])

    The query subtracts the start of the round from the time of the vote; both
    columns are clock readings of the store that last wrote the round. *)

From S2P Require Import Prelude GoNum GoText Deps Rounds Types Analytics Schema Store Relational Queries.
Local Open Scope Z_scope.

Section Latency.
Context `{F : SqlFunctions} `{BL : ButilsLaws} `{CL : CometLaws}.
Implicit Types (d : Tables) (rd : RoundData).

(** The seconds between the store's clock readings for a round and for one of its votes. *)
Definition write_elapsed (now : Z) (clock : string -> Z -> Z) (a : string) (t : Z) : option gofloat :=
  arrival_secs (Some (clock a t)) (Some now).

Lemma arrival_group d minH maxH row : row ∈ GetVoteArrivalByHeight d minH maxH ->
  exists ps : list ((VoteKey * VoteRow) * ((Z * Z) * RoundRow)), ps <> [] /\
    (forall p, p ∈ ps -> p.1 ∈ s_votes d /\ p.2 ∈ s_rounds d /\ height_in minH maxH p.1.1.1.1.1 = true /\
       p.1.1.1.1.1 = p.2.1.1 /\ p.1.1.1.1.2 = p.2.1.2 /\ p.1.1.1.2 = ar_HexAddress row /\ p.1.1.2 = ar_VoteType row) /\
    ar_Samples row = count ps /\
    let secs := omap (fun p => arrival_secs (vt_Timestamp p.1.2) (rd_StartTime p.2.2)) ps in
    ar_AvgSecs row = VFloat (match secs with [] => f64_zero | _ => sql_avg secs end) /\
    ar_MaxSecs row = VFloat (default f64_zero (sql_fmax secs)).
Proof.
  unfold GetVoteArrivalByHeight. intros ([[a t] ps] & -> & [Hps Hk]%group_by_elem)%list_elem_of_fmap.
  cbn [fst snd] in Hps, Hk. exists ps. split_and!; try done.
  - apply list_elem_of_fmap in Hk as (p & E & Hp). intros ->. symmetry in Hps.
    assert (Hin : p ∈ []) by (rewrite <-Hps; by apply list_elem_of_filter). set_solver.
  - intros p Hp. rewrite Hps in Hp. apply list_elem_of_filter in Hp as [[= <- <-] Hp].
    apply list_elem_of_filter in Hp as [(Hh & _) Hp].
    apply list_elem_of_bind in Hp as (v & (r & -> & Hr)%list_elem_of_fmap & Hv).
    apply list_elem_of_filter in Hr as [Hj Hr]. apply andb_true_iff in Hj as [H1%Z.eqb_eq H2%Z.eqb_eq]. by split_and!.
Qed.

Lemma sql_fmax_same (l : list gofloat) x : Forall (fun y => y = x) l -> l <> [] -> sql_fmax l = Some x.
Proof.
  intros Hl Hne. destruct Hl as [|y l -> Hl]; [done|]. cbn. f_equal. clear Hne. induction Hl as [|y l -> _ IH]; [done|].
  cbn. assert (f_max x x = x) as -> by (unfold f_max; by destruct (f_lt x x)). exact IH.
Qed.

Lemma omap_same {A X} (f : A -> option X) o l : Forall (fun a => f a = o) l ->
  omap f l = match o with Some x => replicate (length l) x | None => [] end.
Proof. induction 1 as [|a l Ha _ IH]; [by destruct o|]. cbn. rewrite Ha, IH. by destruct o. Qed.

(** The arrival latency of a stored vote is the time the store took to write: after
    any successful [StoreRoundData] every sample of a validator's vote of that height is
    the time from the clock reading the store took for the round to the one it took
    for the vote, whatever was in the database and whenever the vote was seen. *)
Theorem arrival_measures_the_writer d now clock h r rd a t b row
    (Hh : has_height d h = true) (Hp : has_validator_opt d (head (set_range (Proposers rd))) = true)
    (Ha : has_validator d a = true) (Hb : rd_vote rd a t = Some b)
    (Hother : forall r', r' <> r -> t_votes d !! (h, r', a, t) = None)
    (Hrow : row ∈ GetVoteArrivalByHeight (StoreRoundData now clock h r rd d).2 h h)
    (Hra : ar_HexAddress row = a) (Hrt : ar_VoteType row = t) :
  let elapsed := write_elapsed now clock a t in
  0 < ar_Samples row /\ ar_MaxSecs row = VFloat (default f64_zero elapsed) /\
  ar_AvgSecs row = VFloat (match elapsed with Some s => sql_avg (replicate (Z.to_nat (ar_Samples row)) s) | None => f64_zero end).
Proof.
  intros elapsed. pose proof (StoreRoundData_effect now clock h r rd d) as He. rewrite Hh, Hp in He. cbn [andb] in He.
  destruct He as (d' & He & Hd' & Hlook). rewrite He in Hrow. cbn [snd] in Hrow.
  destruct (arrival_group _ _ _ _ Hrow) as (ps & Hne & Hps & Hn & Havg & Hmax).
  assert (Hsame : Forall (fun p => arrival_secs (vt_Timestamp p.1.2) (rd_StartTime p.2.2) = elapsed) ps).
  { apply Forall_forall. intros [[[[[vh vr] va] vt] vrow] [[rh rr] rrow]] Hp'. specialize (Hps _ Hp'). cbn in Hps.
    destruct Hps as (Hv & Hr & Hin & E1 & E2 & E3 & E4). unfold height_in in Hin.
    assert (vh = h) as -> by lia. subst rh rr va vt. rewrite Hra, Hrt in *.
    apply elem_of_map_to_list in Hv, Hr. rewrite Hlook, Ha, Hb in Hv.
    destruct (decide (vr = r)) as [->|Hne'].
    - rewrite bool_decide_eq_true_2 in Hv by done. cbn in Hv. injection Hv as <-.
      rewrite Hd' in Hr. cbn in Hr. rewrite lookup_insert_eq in Hr. injection Hr as <-. done.
    - rewrite bool_decide_eq_false_2 in Hv by naive_solver. cbn in Hv. by rewrite Hother in Hv. }
  rewrite (omap_same _ _ _ Hsame) in Havg, Hmax. rewrite Hn, Hmax, Havg. unfold count.
  rewrite Nat2Z.id. destruct ps as [|p ps]; [done|]. destruct elapsed as [s|]; [|split_and!; [cbn; lia|done|done]].
  split_and!; [cbn; lia| |done]. rewrite (sql_fmax_same _ s); [done| |done].
  apply Forall_forall. by intros x [-> _]%elem_of_replicate.
Qed.
End Latency.

(** ** A vote stored one second after its round *)

Section LatencyExamples.
#[local] Instance plain_sql : SqlFunctions := {|
  sql_round x _ := x; sql_avg l := default f64_zero (head l); sql_time t := VTime t;
  sql_datetime _ _ := None; sql_julianday t := Some (f64_of_Z t) |}.

Lemma arrival_measures_the_writer_witness : exists row,
  row ∈ GetVoteArrivalByHeight (StoreRoundData (B := ref_butils) (C := ref_comet) 200 (fun _ _ => 201) 5 0 w_round (w_fill [5])).2 5 5 /\
  ar_MaxSecs row = VFloat (Fin (86400 # 1)).
Proof.
  eexists. split; [|refine (eq_trans (proj1 (proj2 (arrival_measures_the_writer (BL := ref_butils_laws) (CL := ref_comet_laws)
    (w_fill [5]) 200 (fun _ _ => 201) 5 0 w_round "78" 2 w_block (mkArrivalRow "78" 2 1 (VFloat (Fin (86400 # 1))) (VFloat (Fin (86400 # 1))))
    eq_refl eq_refl eq_refl eq_refl _ _ eq_refl eq_refl))) _)].
  - vm_compute. left.
  - intros r' _. vm_compute. reflexivity.
  - vm_compute. left.
  - vm_compute. reflexivity.
Defined.
End LatencyExamples.
