(* ===== verification/Lifecycle.v ===== *)
(** * Starting and stopping ([pkg/app.go], [cmd/tmtop.go])

    [Start] spawns the tracked goroutines and blocks in the display; [Stop] closes
    the stop channel, the websocket and the HTTP server, waits for the goroutines
    or for its context, and closes the store.  Three parties run [Stop]: [Start]
    itself once the user quits, the handler of SIGINT and SIGTERM, and a goroutine
    that recovers a panic.  A step is one statement of one of them; the
    goroutines' own work is interleaved freely and calls out of the program return. *)

From S2P Require Import Prelude Config.
Local Open Scope Z_scope.

(** ** The goroutines of [Start] *)

Inductive Refresh := RefConsensus | RefCometNodeInfo | RefUpgrade | RefBlockTime | RefMempool | RefNetInfo | RefHealth.
#[export] Instance refresh_eq_dec : EqDecision Refresh.
Proof. solve_decision. Defined.

Inductive Task := TServeTopology | TCrawler | TRefresher (r : Refresh) | TSubscribe | TDisplayLogs | TCleanup.
#[export] Instance task_eq_dec : EqDecision Task.
Proof. solve_decision. Defined.

Definition refresher_name (r : Refresh) : string :=
  match r with
  | RefConsensus => "consensus" | RefCometNodeInfo => "comet-node-info" | RefUpgrade => "upgrade"
  | RefBlockTime => "block-time" | RefMempool => "mempool" | RefNetInfo => "net-info" | RefHealth => "health"
  end.
Definition refresher_interval (cfg : Options) (r : Refresh) : Z :=
  match r with
  | RefConsensus | RefNetInfo => RefreshRate cfg
  | RefCometNodeInfo => ChainInfoRefreshRate cfg
  | RefUpgrade => UpgradeRefreshRate cfg
  | RefBlockTime | RefMempool => BlockTimeRefreshRate cfg
  | RefHealth => HealthRefreshRate cfg
  end.

(** What [Start] spawns, in order; in analytics mode it runs the command instead. *)
Definition Start_tasks (cfg : Options) : list Task :=
  (if WithTopologyAPI cfg then [TServeTopology] else []) ++
  [TCrawler; TRefresher RefConsensus; TRefresher RefCometNodeInfo; TRefresher RefUpgrade; TRefresher RefBlockTime;
   TRefresher RefMempool; TRefresher RefNetInfo; TRefresher RefHealth; TSubscribe; TDisplayLogs; TCleanup].

(** The goroutines that write the consensus store. *)
Definition writes_store (t : Task) : bool :=
  match t with TRefresher RefConsensus | TSubscribe | TCleanup => true | _ => false end.
(** The goroutines that defer [HandlePanic]. *)
Definition handles_panic (t : Task) : bool :=
  match t with TRefresher _ | TSubscribe => true | _ => false end.

(** ** The state of the process *)

(** The statement of [Stop] a caller is at; [SDisplay] is [shutdown]'s own first
    call.  Past the wait: whether it ended on the context. *)
Inductive StopPc :=
  | SDisplay | SCloseStop | SFetcher | STopology | SWait
  | SStore (timed_out : bool) | SDone (timed_out : bool).

Inductive Stopper := ByMain | BySignal | ByPanic (t : Task).
#[export] Instance stopper_eq_dec : EqDecision Stopper.
Proof. solve_decision. Defined.

Inductive DisplayPc := NotStarted | Running | Exited.
#[export] Instance display_eq_dec : EqDecision DisplayPc.
Proof. solve_decision. Defined.

Record Life := mkLife {
  l_todo : list Task;           (** what [Start] has yet to spawn *)
  l_running : list Task;        (** the counter of [wgDone] is its length *)
  l_chStop : bool;              (** closed *)
  l_server_down : bool;
  l_display : DisplayPc;
  l_stops : list (Stopper * StopPc);   (** the calls of [Stop] in progress or over, one per caller *)
  l_store_closed : bool;
  l_late_write : bool;          (** a goroutine wrote the store after it was closed *)
  l_overtaken : bool;           (** a wait ended before [Start] had spawned everything *)
  l_crashed : bool }.

Definition initial (cfg : Options) : Life := mkLife (Start_tasks cfg) [] false false NotStarted [] false false false false.

Fixpoint pc_of (x : Stopper) (l : list (Stopper * StopPc)) : option StopPc :=
  match l with [] => None | (y, pc) :: l => if decide (x = y) then Some pc else pc_of x l end.
Definition at_pc (s : Life) (x : Stopper) : option StopPc := pc_of x (l_stops s).
Fixpoint put_pc (x : Stopper) (pc : StopPc) (l : list (Stopper * StopPc)) : list (Stopper * StopPc) :=
  match l with
  | [] => [(x, pc)]
  | (y, pc') :: l => if decide (x = y) then (x, pc) :: l else (y, pc') :: put_pc x pc l
  end.

Definition set_running r s := mkLife (l_todo s) r (l_chStop s) (l_server_down s) (l_display s) (l_stops s) (l_store_closed s) (l_late_write s) (l_overtaken s) (l_crashed s).
Definition spawned todo r s := mkLife todo r (l_chStop s) (l_server_down s) (l_display s) (l_stops s) (l_store_closed s) (l_late_write s) (l_overtaken s) (l_crashed s).
Definition set_display d s := mkLife (l_todo s) (l_running s) (l_chStop s) (l_server_down s) d (l_stops s) (l_store_closed s) (l_late_write s) (l_overtaken s) (l_crashed s).
Definition move x pc s := mkLife (l_todo s) (l_running s) (l_chStop s) (l_server_down s) (l_display s) (put_pc x pc (l_stops s)) (l_store_closed s) (l_late_write s) (l_overtaken s) (l_crashed s).
Definition close_chStop s := mkLife (l_todo s) (l_running s) true (l_server_down s) (l_display s) (l_stops s) (l_store_closed s) (l_late_write s) (l_overtaken s) (l_crashed s).
Definition server_shutdown s := mkLife (l_todo s) (l_running s) (l_chStop s) true (l_display s) (l_stops s) (l_store_closed s) (l_late_write s) (l_overtaken s) (l_crashed s).
Definition close_store s := mkLife (l_todo s) (l_running s) (l_chStop s) (l_server_down s) (l_display s) (l_stops s) true (l_late_write s) (l_overtaken s) (l_crashed s).
Definition wrote s := mkLife (l_todo s) (l_running s) (l_chStop s) (l_server_down s) (l_display s) (l_stops s) (l_store_closed s) (l_late_write s || l_store_closed s) (l_overtaken s) (l_crashed s).
Definition overtake s := mkLife (l_todo s) (l_running s) (l_chStop s) (l_server_down s) (l_display s) (l_stops s) (l_store_closed s) (l_late_write s) (l_overtaken s || negb (bool_decide (l_todo s = []))) (l_crashed s).
Definition crash s := mkLife (l_todo s) (l_running s) (l_chStop s) (l_server_down s) (l_display s) (l_stops s) (l_store_closed s) (l_late_write s) (l_overtaken s) true.

Definition remove (t : Task) (l : list Task) : list Task := filter (fun u => u <> t) l.

(** [a.topologyServer != nil]: it is built before anything is spawned. *)
Definition server_built (cfg : Options) (s : Life) : bool := WithTopologyAPI cfg && negb (bool_decide (TServeTopology ∈ l_todo s)).

(** When a goroutine returns: on the stop channel; the server's when it is shut down or
    fails to listen; a refresher also at once when its interval is not positive. *)
Definition may_return (cfg : Options) (s : Life) (t : Task) : Prop :=
  match t with
  | TServeTopology => True
  | TRefresher r => l_chStop s = true \/ refresher_interval cfg r <= 0
  | _ => l_chStop s = true
  end.

(** Stopping a display that does not run has no effect. *)
Definition stopped_display (d : DisplayPc) : DisplayPc := match d with Running => Exited | d => d end.

(** ** Steps *)

Inductive Label := LSpawn | LWork | LReturn | LPanic | LCrash | LDisplay | LQuit | LSignal | LMain | LStop | LTimeout.

Section Steps.
Context (cfg : Options).

(** One statement of [Stop]. *)
Inductive stop_step (x : Stopper) : Label -> Life -> Life -> Prop :=
  | st_display s : at_pc s x = Some SDisplay -> stop_step x LStop s (move x SCloseStop (set_display (stopped_display (l_display s)) s))
  | st_close s : at_pc s x = Some SCloseStop -> stop_step x LStop s (move x SFetcher (close_chStop s))
  | st_fetcher s : at_pc s x = Some SFetcher -> stop_step x LStop s (move x STopology s)
  | st_topology s : at_pc s x = Some STopology ->
      stop_step x LStop s (move x SWait (if server_built cfg s then server_shutdown s else s))
  | st_done s : at_pc s x = Some SWait -> l_running s = [] -> stop_step x LStop s (move x (SStore false) (overtake s))
  | st_timeout s : at_pc s x = Some SWait -> stop_step x LTimeout s (move x (SStore true) (overtake s))
  | st_store b s : at_pc s x = Some (SStore b) -> stop_step x LStop s (move x (SDone b) (close_store s)).

(** A panicking goroutine is inside [HandlePanic] and does nothing else. *)
Definition working (s : Life) (t : Task) : Prop := t ∈ l_running s /\ at_pc s (ByPanic t) = None.

(** The process is over when it crashed or [Start] has returned. *)
Definition alive (s : Life) : Prop := l_crashed s = false /\ forall b, at_pc s ByMain <> Some (SDone b).

Inductive life_step : Label -> Life -> Life -> Prop :=
  | ls_spawn s t todo : alive s -> l_todo s = t :: todo -> life_step LSpawn s (spawned todo (l_running s ++ [t]) s)
  | ls_work s t : alive s -> working s t -> writes_store t = true -> life_step LWork s (wrote s)
  | ls_return s t : alive s -> working s t -> may_return cfg s t -> life_step LReturn s (set_running (remove t (l_running s)) s)
  | ls_panic s t : alive s -> working s t -> handles_panic t = true -> life_step LPanic s (move (ByPanic t) SDisplay s)
  | ls_crash s t : alive s -> working s t -> handles_panic t = false -> life_step LCrash s (crash s)
  | ls_repanic s t b : alive s -> at_pc s (ByPanic t) = Some (SDone b) -> life_step LCrash s (crash s)
  | ls_display s : alive s -> l_todo s = [] -> l_display s = NotStarted -> life_step LDisplay s (set_display Running s)
  | ls_quit s : alive s -> l_display s = Running -> life_step LQuit s (set_display Exited s)
  | ls_signal s : alive s -> at_pc s BySignal = None -> life_step LSignal s (move BySignal SCloseStop s)
  | ls_main s : alive s -> l_todo s = [] -> l_display s = Exited -> at_pc s ByMain = None -> life_step LMain s (move ByMain SCloseStop s)
  | ls_stop s x l s' : alive s -> stop_step x l s s' -> life_step l s s'.

(** Steps with a label the predicate allows. *)
Definition step_where (P : Label -> Prop) (s s' : Life) : Prop := exists l, P l /\ life_step l s s'.
Definition life_reachable : Life -> Prop := rtc (step_where (fun _ => True)) (initial cfg).
End Steps.

(** ** Facts *)

Section LifeFacts.
Context (cfg : Options).
Implicit Types s : Life.

Lemma pc_of_put x y pc l : pc_of x (put_pc y pc l) = if decide (x = y) then Some pc else pc_of x l.
Proof.
  induction l as [|[z pc'] l IH]; cbn.
  - by destruct (decide (x = y)).
  - destruct (decide (y = z)) as [->|Hyz]; cbn.
    + by destruct (decide (x = z)).
    + rewrite IH. destruct (decide (x = z)) as [->|]; [by rewrite decide_False by congruence|done].
Qed.

Lemma at_move s x y pc : at_pc (move y pc s) x = if decide (x = y) then Some pc else at_pc s x.
Proof. apply pc_of_put. Qed.

Lemma remove_elem t u l : t ∈ remove u l <-> t <> u /\ t ∈ l.
Proof. unfold remove. by rewrite list_elem_of_filter. Qed.

(** A step of a caller of [Stop] changes no other caller's place. *)
Lemma stop_other x l s s' y : stop_step cfg x l s s' -> y <> x -> at_pc s' y = at_pc s y.
Proof. intros Hst Hne. destruct Hst; rewrite at_move, decide_False by done; try done. by destruct (server_built cfg s). Qed.

Lemma stop_running x l s s' : stop_step cfg x l s s' -> l_running s' = l_running s /\ l_todo s' = l_todo s.
Proof. destruct 1; cbn; try done. by destruct (server_built cfg s). Qed.

Definition waited (pc : StopPc) : option bool := match pc with SStore b | SDone b => Some b | _ => None end.
Definition timed_out s : Prop := exists x pc, at_pc s x = Some pc /\ waited pc = Some true.

(** How a step of [Stop] gets past the wait. *)
Lemma stop_waited x l s s' pc : stop_step cfg x l s s' -> at_pc s' x = Some pc ->
  match waited pc with
  | None => True
  | Some b => (exists pc0, at_pc s x = Some pc0 /\ waited pc0 = Some b) \/ (b = false -> l_running s = [])
  end.
Proof.
  destruct 1 as [s H|s H|s H|s H|s H Hr|s H|b s H]; rewrite at_move, decide_True by done; intros [= <-]; cbn; try done.
  - by right.
  - by right.
  - left. by exists (SStore b).
Qed.

(** *** A panicking goroutine waits for itself *)

Definition panic_inv s : Prop := forall t pc, at_pc s (ByPanic t) = Some pc ->
  t ∈ l_running s /\ waited pc <> Some false.

Lemma panic_inv_step s s' : panic_inv s -> step_where cfg (fun _ => True) s s' -> panic_inv s'.
Proof.
  intros Hi (l & _ & Hst). destruct Hst as [s t todo _ E|s t _ _ _|s t _ [Ht Hn] _|s t _ [Ht Hn] _|s t _ _ _|s t b _ _|s _ _ _|s _ _|s _ Hn|s _ _ _ Hn|s x l s' _ Hst]; intros u pc Hu.
  - apply Hi in Hu as [Hu Hw]. cbn. set_solver.
  - by apply Hi in Hu.
  - assert (u <> t) by (intros ->; cbn in Hu; unfold at_pc in *; cbn in Hu; congruence).
    apply Hi in Hu as [Hu Hw]. split; [|done]. cbn. by apply remove_elem.
  - rewrite at_move in Hu. case_decide as E; [injection E as ->; injection Hu as <-; by cbn|]. by apply Hi in Hu.
  - by apply Hi in Hu.
  - by apply Hi in Hu.
  - by apply Hi in Hu.
  - by apply Hi in Hu.
  - rewrite at_move, decide_False in Hu by done. by apply Hi in Hu.
  - rewrite at_move, decide_False in Hu by done. by apply Hi in Hu.
  - destruct (stop_running _ _ _ _ Hst) as [-> _]. destruct (decide (ByPanic u = x)) as [<-|Hne].
    + pose proof (stop_waited _ _ _ _ _ Hst Hu) as Hw.
      assert (Hin : u ∈ l_running s) by (destruct Hst as [? H|? H|? H|? H|? H ?|? H|? ? H]; by apply Hi in H as [? _]).
      split; [done|]. intros E. rewrite E in Hw. destruct Hw as [(pc0 & H0 & H1)|Hr].
      * by apply Hi in H0 as [_ ?].
      * rewrite Hr in Hin by done. set_solver.
    + rewrite (stop_other _ _ _ _ _ Hst) in Hu by done. by apply Hi in Hu.
Qed.

Lemma initial_panic_inv : panic_inv (initial cfg).
Proof. by intros t pc. Qed.

(** *** The store closes last *)

(** Everything the wait was for is over. *)
Definition quiet s : Prop := l_running s = [] /\ l_todo s = [].

Definition store_inv s : Prop := timed_out s \/ l_overtaken s = true \/
  (l_late_write s = false /\
   ((l_store_closed s = true \/ exists x pc, at_pc s x = Some pc /\ waited pc = Some false) -> quiet s)).

Lemma timed_out_move s s' : (forall x pc, at_pc s x = Some pc -> waited pc = Some true -> exists pc', at_pc s' x = Some pc' /\ waited pc' = Some true) ->
  timed_out s -> timed_out s'.
Proof. intros H (x & pc & Hx & Hw). destruct (H x pc Hx Hw) as (pc' & ? & ?). by exists x, pc'. Qed.

Lemma stop_timed_out x l s s' : stop_step cfg x l s s' -> timed_out s -> timed_out s'.
Proof.
  intros Hst. apply timed_out_move. intros y pc Hy Hw. destruct (decide (y = x)) as [->|Hne].
  - destruct Hst as [? H|? H|? H|? H|? H ?|? H|b ? H]; rewrite H in Hy; injection Hy as <-; try done.
    exists (SDone b). by rewrite at_move, decide_True.
  - exists pc. by rewrite (stop_other _ _ _ _ _ Hst).
Qed.

Lemma step_timed_out s s' l : life_step cfg l s s' -> timed_out s -> timed_out s'.
Proof.
  intros Hst. destruct Hst as [s t todo|s t|s t|s t _ [_ Hn]|s t|s t b|s|s|s _ Hn|s _ _ _ Hn|s x l s' _ Hst];
    try (apply timed_out_move; intros y pc Hy Hw; by exists pc).
  - apply timed_out_move. intros y pc Hy Hw. exists pc. rewrite at_move, decide_False by congruence. done.
  - apply timed_out_move. intros y pc Hy Hw. exists pc. rewrite at_move, decide_False by congruence. done.
  - apply timed_out_move. intros y pc Hy Hw. exists pc. rewrite at_move, decide_False by congruence. done.
  - by eapply stop_timed_out.
Qed.

Lemma step_overtaken s s' l : life_step cfg l s s' -> l_overtaken s = true -> l_overtaken s' = true.
Proof.
  intros Hst Ho. destruct Hst as [| | | | | | | | | |s x l s' _ Hst]; try done. destruct Hst; cbn; try done.
  - by destruct (server_built cfg s).
  - by rewrite Ho.
  - by rewrite Ho.
Qed.

(** A wait that ended properly, when everything had been spawned. *)
Lemma store_inv_stop x l s s' : stop_step cfg x l s s' -> store_inv s -> store_inv s'.
Proof.
  intros Hst [Ht|[Ho|[Hl Hq]]]; [left; by eapply stop_timed_out|right; left|].
  { destruct Hst; cbn; try done; [by destruct (server_built cfg s)|by rewrite Ho..]. }
  assert (Hearly : forall pc0 pc', waited pc0 = None -> waited pc' = None -> at_pc s x = Some pc0 ->
    l_store_closed s' = l_store_closed s -> l_late_write s' = l_late_write s -> l_running s' = l_running s -> l_todo s' = l_todo s ->
    (forall y, at_pc s' y = if decide (y = x) then Some pc' else at_pc s y) -> store_inv s').
  { intros pc0 pc' H0 H' Hx E1 E2 E3 E4 Hat. right; right. rewrite E1, E2. split; [done|].
    intros Hc. unfold quiet. rewrite E3, E4. apply Hq. destruct Hc as [Hc|(y & pc & Hy & Hw)]; [by left|]. right.
    rewrite Hat in Hy. destruct (decide (y = x)); [simplify_eq; congruence|by exists y, pc]. }
  destruct Hst as [s H|s H|s H|s H|s H Hr|s H|b s H].
  - apply (Hearly SDisplay SCloseStop); try done. intros y. by rewrite at_move.
  - apply (Hearly SCloseStop SFetcher); try done. intros y. by rewrite at_move.
  - apply (Hearly SFetcher STopology); try done. intros y. by rewrite at_move.
  - apply (Hearly STopology SWait); try done; try (by destruct (server_built cfg s)).
    intros y. rewrite at_move. by destruct (server_built cfg s).
  - destruct (decide (l_todo s = [])) as [E|E].
    + right; right. split; [done|]. by intros _.
    + right; left. cbn. rewrite bool_decide_eq_false_2 by done. by destruct (l_overtaken s).
  - left. exists x, (SStore true). by rewrite at_move, decide_True.
  - destruct b; [left; exists x, (SDone true); by rewrite at_move, decide_True|].
    right; right. split; [done|]. intros _. apply Hq. right. by exists x, (SStore false).
Qed.

Lemma store_inv_step s s' : store_inv s -> step_where cfg (fun _ => True) s s' -> store_inv s'.
Proof.
  intros Hi (l & _ & Hst).
  assert (Hkeep : l_store_closed s' = l_store_closed s -> l_late_write s' = l_late_write s ->
    (forall x pc, at_pc s' x = Some pc -> waited pc = Some false -> at_pc s x = Some pc) ->
    (quiet s -> quiet s') -> store_inv s').
  { intros E1 E2 Hat Hq. destruct Hi as [Ht|[Ho|[Hl Hi]]]; [left; by eapply step_timed_out|right; left; by eapply step_overtaken|].
    right; right. rewrite E1, E2. split; [done|]. intros Hc. apply Hq, Hi. destruct Hc as [Hc|(x & pc & Hx & Hw)]; [by left|]. right. exists x, pc. by split; [apply Hat|]. }
  destruct Hst as [s t todo _ E|s t _ [Ht _] _|s t _ _ _|s t _ _ _|s t _ _ _|s t b _ _|s _ _ _|s _ _|s _ Hn|s _ _ _ Hn|s x l s' _ Hst].
  - apply Hkeep; try done. intros [_ Hq]. by rewrite E in Hq.
  - destruct Hi as [Hi|[Ho|[Hl Hi]]]; [by left|by right; left|]. right; right.
    destruct (l_store_closed s) eqn:Ec; [destruct (Hi (or_introl eq_refl)) as [Hq _]; rewrite Hq in Ht; set_solver|].
    cbn. rewrite Hl, Ec. by split.
  - apply Hkeep; try done. intros [Hr Hq]. split; [|done]. cbn. by rewrite Hr.
  - apply Hkeep; try done. intros x pc. rewrite at_move. case_decide; [by intros [= <-]|done].
  - by apply Hkeep.
  - by apply Hkeep.
  - by apply Hkeep.
  - by apply Hkeep.
  - apply Hkeep; try done. intros x pc. rewrite at_move. case_decide; [by intros [= <-]|done].
  - apply Hkeep; try done. intros x pc. rewrite at_move. case_decide; [by intros [= <-]|done].
  - by eapply store_inv_stop.
Qed.

Lemma initial_store_inv : store_inv (initial cfg).
Proof. right; right. split; [done|]. intros [H|(x & pc & H & _)]; done. Qed.

(** C15: The store outlives its writers: in every interleaving, a goroutine writes the store
    after it was closed only when some [Stop] gave up waiting on its context, or one
    ran while [Start] was still spawning; otherwise once the store is closed every
    goroutine has returned. *)
Theorem store_closed_last s (Hs : life_reachable cfg s) :
  (l_late_write s = true -> timed_out s \/ l_overtaken s = true) /\
  (l_store_closed s = true -> timed_out s \/ l_overtaken s = true \/ (l_running s = [] /\ l_todo s = [])).
Proof.
  assert (Hi : store_inv s) by (revert Hs; apply rtc_invariant; [intros; by eapply store_inv_step|apply initial_store_inv]).
  destruct Hi as [Ht|[Ho|[Hl Hq]]]; [by split; auto|by split; auto|]. split; [congruence|]. intros Hc. right; right. apply Hq. by left.
Qed.

(** A panic never shuts down in an orderly way: a goroutine that recovers a panic
    waits, in [Stop], for a counter that includes itself, so its wait only ends by
    the two-second context, and the store is closed with the goroutine, and any
    other that is still running, not yet returned. *)
Theorem panic_waits_for_itself s t pc (Hs : life_reachable cfg s) (Hpc : at_pc s (ByPanic t) = Some pc) :
  t ∈ l_running s /\ waited pc <> Some false.
Proof.
  assert (Hi : panic_inv s) by (revert Hs; apply rtc_invariant; [intros; by eapply panic_inv_step|apply initial_panic_inv]).
  by apply Hi.
Qed.

(** *** Orderly runs *)

Definition no_panic s : Prop := forall t, at_pc s (ByPanic t) = None.
Definition orderly (l : Label) : Prop := l = LStop \/ l = LReturn.

Lemma drain P s : P LReturn -> alive s -> no_panic s -> l_chStop s = true ->
  rtc (step_where cfg P) s (set_running [] s).
Proof.
  intros HP. remember (length (l_running s)) as n eqn:En. revert s En. induction n as [n IH] using lt_wf_ind.
  intros s -> Ha Hn Hc. destruct (l_running s) as [|t l] eqn:El.
  - assert (set_running [] s = s) as -> by (destruct s; cbn in *; by subst). done.
  - eapply rtc_l.
    + exists LReturn. split; [done|]. apply (ls_return _ s t); [done| |].
      * split; [rewrite El; set_solver|apply Hn].
      * destruct t; cbn; auto.
    + change (set_running [] s) with (set_running [] (set_running (remove t (l_running s)) s)).
      eapply (IH (length (remove t (l_running s)))); [|reflexivity|done|done|done].
      rewrite El. cbn [l_running set_running length]. unfold remove. rewrite filter_cons_False by tauto.
      pose proof (length_filter (fun u => u <> t) l). lia.
Qed.

(** What is left after a whole [Stop] by [x]. *)
Definition after_stop (x : Stopper) s s' : Prop :=
  at_pc s' x = Some (SDone false) /\ l_running s' = [] /\ l_store_closed s' = true /\ l_display s' = l_display s /\
  l_todo s' = l_todo s /\ l_crashed s' = false /\ forall y, y <> x -> at_pc s' y = at_pc s y.

Lemma whole_stop P x s : P LStop -> P LReturn -> alive s -> no_panic s -> at_pc s x = Some SCloseStop ->
  exists s', rtc (step_where cfg P) s s' /\ after_stop x s s'.
Proof.
  intros HP1 HP2 Ha Hn Hx.
  assert (Hne : forall t, ByPanic t <> x) by (intros t <-; by rewrite Hn in Hx).
  assert (Hstep : forall l s1 s2, P l -> alive s1 -> stop_step cfg x l s1 s2 -> step_where cfg P s1 s2).
  { intros l s1 s2 Hl Ha1 Hst. exists l. split; [done|]. by eapply ls_stop. }
  assert (Hmove : forall pc s0, l_crashed s0 = l_crashed s -> (forall y, y <> x -> at_pc s0 y = at_pc s y) -> waited pc <> Some false -> waited pc <> Some true -> alive (move x pc s0)).
  { intros pc s0 E Hat H1 H2. split; [cbn; rewrite E; apply Ha|]. intros b. rewrite at_move. case_decide as Ex.
    - intros [= ->]. destruct b; cbn in *; congruence.
    - rewrite Hat by congruence. apply Ha. }
  set (s1 := move x SFetcher (close_chStop s)). set (s2 := move x STopology s1).
  set (s3 := move x SWait (if server_built cfg s2 then server_shutdown s2 else s2)).
  assert (Hat1 : forall y, y <> x -> at_pc s1 y = at_pc s y) by (intros y Hy; unfold s1; rewrite at_move, decide_False; done).
  assert (Hat2 : forall y, y <> x -> at_pc s2 y = at_pc s y) by (intros y Hy; unfold s2; rewrite at_move, decide_False by done; by apply Hat1).
  assert (Hat3 : forall y, y <> x -> at_pc s3 y = at_pc s y)
    by (intros y Hy; unfold s3; rewrite at_move, decide_False by done; destruct (server_built cfg s2); by apply Hat2).
  assert (Ha1 : alive s1) by (by apply Hmove).
  assert (Ha2 : alive s2) by (by apply Hmove).
  assert (Ha3 : alive s3) by (apply Hmove; try done; [by destruct (server_built cfg s2)|]; intros y Hy; destruct (server_built cfg s2); by apply Hat2).
  assert (Hn3 : no_panic s3) by (intros t; by rewrite Hat3).
  set (s4 := set_running [] s3). set (s5 := move x (SStore false) (overtake s4)).
  exists (move x (SDone false) (close_store s5)). split.
  - eapply rtc_l; [eapply (Hstep LStop s s1); [done..|by apply st_close]|].
    eapply rtc_l; [eapply (Hstep LStop s1 s2); [done..|apply st_fetcher; unfold s1; by rewrite at_move, decide_True]|].
    eapply rtc_l; [eapply (Hstep LStop s2 s3); [done..|apply st_topology; unfold s2; by rewrite at_move, decide_True]|].
    assert (Hx3 : at_pc s3 x = Some SWait) by (unfold s3; by rewrite at_move, decide_True).
    assert (Hx5 : at_pc s5 x = Some (SStore false)) by (unfold s5; by rewrite at_move, decide_True).
    assert (Ha5 : alive s5).
    { split; [by apply Ha3|]. intros b. unfold s5. rewrite at_move. case_decide; [done|]. apply Ha3. }
    etransitivity; [apply (drain P s3); try done; unfold s3; by destruct (server_built cfg s2)|].
    eapply rtc_l; [eapply (Hstep LStop s4 s5); [done|exact Ha3|by apply st_done]|].
    apply rtc_once. eapply (Hstep LStop s5); [done|done|by apply st_store].
  - split_and!; try done.
    + by rewrite at_move, decide_True.
    + unfold s5, s4, s3. by destruct (server_built cfg s2).
    + unfold s5, s4, s3. by destruct (server_built cfg s2).
    + cbn. unfold s3. destruct Ha as [Ha _]. by destruct (server_built cfg s2).
    + intros y Hy. rewrite at_move, decide_False by done. transitivity (at_pc s5 y); [done|]. unfold s5.
      rewrite at_move, decide_False by done. transitivity (at_pc s3 y); [done|]. by apply Hat3.
Qed.

(** C25: Quitting shuts down: once the display has exited, with no goroutine panicking,
    the process can go on to the end of [Start] with every goroutine returned before
    the store is closed, no wait having timed out in it. *)
Theorem quit_shuts_down s
    (Ha : alive s) (Hn : no_panic s) (Htodo : l_todo s = []) (Hd : l_display s = Exited) (Hm : at_pc s ByMain = None) :
  exists s', rtc (step_where cfg (fun l => l = LMain \/ orderly l)) s s' /\
    at_pc s' ByMain = Some (SDone false) /\ l_running s' = [] /\ l_store_closed s' = true /\ ~ alive s'.
Proof.
  set (s1 := move ByMain SCloseStop s).
  assert (Ha1 : alive s1) by (split; [apply Ha|]; intros b; unfold s1; by rewrite at_move, decide_True).
  destruct (whole_stop (fun l => l = LMain \/ orderly l) ByMain s1) as (s' & Hs' & H1 & H2 & H3 & _); unfold orderly; auto.
  - intros t. unfold s1. by rewrite at_move, decide_False.
  - unfold s1. by rewrite at_move, decide_True.
  - exists s'. split_and!; try done.
    + eapply rtc_l; [|exact Hs']. exists LMain. split; [by left|]. by apply ls_main.
    + intros [_ Hb]. by apply (Hb false).
Qed.

(** Neither the user nor a panic. *)
Definition unattended (l : Label) : Prop := l <> LQuit /\ l <> LPanic /\ l <> LCrash.

Definition display_inv s : Prop := forall x, at_pc s x = Some SDisplay -> exists t, x = ByPanic t.

Lemma display_inv_step s s' : display_inv s -> step_where cfg (fun _ => True) s s' -> display_inv s'.
Proof.
  intros Hi (l & _ & Hst) y. destruct Hst as [s t todo|s t|s t|s t|s t|s t b|s|s|s|s|s x l s' _ Hst]; try apply Hi.
  - rewrite at_move. case_decide as E; [by exists t|apply Hi].
  - rewrite at_move. case_decide; [done|apply Hi].
  - rewrite at_move. case_decide; [done|apply Hi].
  - destruct (decide (y = x)) as [->|Hne]; [|rewrite (stop_other _ _ _ _ _ Hst) by done; apply Hi].
    destruct Hst; rewrite at_move, decide_True; done.
Qed.

(** Only the display's end lets [Start] go on. *)
Definition showing s : Prop := l_display s = Running /\ at_pc s ByMain = None /\ l_crashed s = false /\ no_panic s /\ display_inv s.

Lemma showing_step s s' : showing s -> step_where cfg unattended s s' -> showing s'.
Proof.
  intros (Hd & Hm & Hc & Hn & Hi) (l & (Hl1 & Hl2 & Hl3) & Hst).
  assert (Hi' : display_inv s') by (apply (display_inv_step s); [done|by exists l]).
  unfold showing. destruct Hst as [s t todo|s t|s t|s t|s t|s t b|s _ _ H|s|s|s _ _ H|s x l s' _ Hst]; try done; try (by split_and!).
  - split_and!; [done|by rewrite at_move, decide_False|done| |done]. intros t. rewrite at_move, decide_False by done. apply Hn.
  - congruence.
  - assert (Hxm : x <> ByMain) by (intros ->; destruct Hst; congruence).
    assert (Hxp : forall t, ByPanic t <> x) by (intros t <-; destruct Hst; by rewrite Hn in *).
    split_and!; [|by rewrite (stop_other _ _ _ _ _ Hst)| |intros t; by rewrite (stop_other _ _ _ _ _ Hst)|done].
    + destruct Hst as [s H|s H|s H|s H|s H Hr|s H|b s H]; try done; [|by cbn; destruct (server_built cfg s)].
      apply Hi in H as [t ->]. by destruct (Hxp t).
    + destruct Hst as [s H|s H|s H|s H|s H Hr|s H|b s H]; try done. cbn. by destruct (server_built cfg s).
Qed.

(** SIGTERM stops everything but the process: while the display runs, no sequence of
    steps without a keystroke or a panic ends it or lets [Start] return; the handler's
    [Stop] can run to its end, and then every goroutine has returned, the store is
    closed, and nothing can happen until the user quits the frozen display. *)
Theorem sigterm_does_not_end s (Hs : life_reachable cfg s) (Ha : alive s) (Hd : l_display s = Running)
    (Htodo : l_todo s = []) (Hm : at_pc s ByMain = None) (Hn : no_panic s) (Hsig : at_pc s BySignal = None) :
  (forall s', rtc (step_where cfg unattended) s s' -> l_display s' = Running /\ at_pc s' ByMain = None /\ alive s') /\
  exists s', rtc (step_where cfg unattended) s s' /\ at_pc s' BySignal = Some (SDone false) /\
    l_running s' = [] /\ l_store_closed s' = true /\ forall l s'', life_step cfg l s' s'' -> l = LQuit.
Proof.
  assert (Hi : display_inv s) by (revert Hs; apply rtc_invariant; [intros; by eapply display_inv_step|done]).
  assert (Hsh : showing s) by (split_and!; try done; apply Ha).
  assert (Hrun : forall s', rtc (step_where cfg unattended) s s' -> showing s').
  { intros s' Hr. revert Hr. apply rtc_invariant; [apply showing_step|done]. }
  split.
  { intros s' (H1 & H2 & H3 & _)%Hrun. split_and!; [done..|]. split; [done|]. intros b. congruence. }
  set (s1 := move BySignal SCloseStop s).
  destruct (whole_stop unattended BySignal s1) as (s' & Hs' & H1 & H2 & H3 & H4 & H5 & H6 & H7); try (unfold unattended; by split_and!).
  - split; [apply Ha|]. intros b. unfold s1. rewrite at_move, decide_False by done. apply Ha.
  - intros t. unfold s1. rewrite at_move, decide_False by done. apply Hn.
  - unfold s1. by rewrite at_move, decide_True.
  - assert (Hr : rtc (step_where cfg unattended) s s').
    { eapply rtc_l; [|exact Hs']. exists LSignal. split; [by unfold unattended|]. by apply ls_signal. }
    exists s'. split_and!; try done. destruct (Hrun s' Hr) as (Hd' & Hm' & Hc' & Hn' & Hi').
    assert (Htodo' : l_todo s' = []) by (by rewrite H5).
    intros l s'' Hst. destruct Hst as [s0 t todo _ E|? t _ [Ht _]|? t _ [Ht _]|? t _ [Ht _]|? t _ [Ht _]|? t b _ H|? _ _ H|?|? _ H|? _ _ H|s0 x l s'' _ Hst];
      try done; try (rewrite H2 in Ht; set_solver); try congruence.
    exfalso. assert (Hx : at_pc s0 x = None \/ at_pc s0 x = Some (SDone false)) by (destruct x; auto).
    destruct Hst; destruct Hx; congruence.
Qed.

(** *** Runs from the start *)

Lemma spawn_all P s : P LSpawn -> alive s -> rtc (step_where cfg P) s (spawned [] (l_running s ++ l_todo s) s).
Proof.
  intros HP. remember (l_todo s) as todo eqn:E. revert s E. induction todo as [|t todo IH]; intros s E Ha.
  - rewrite app_nil_r. by destruct s; cbn in *; subst.
  - eapply rtc_l; [exists LSpawn; split; [done|by apply (ls_spawn _ s t todo)]|].
    specialize (IH (spawned todo (l_running s ++ [t]) s) eq_refl Ha). cbn in IH. by rewrite <-app_assoc in IH.
Qed.

(** Everything spawned, the display on. *)
Definition ready : Life := set_display Running (spawned [] (Start_tasks cfg) (initial cfg)).

Lemma ready_reachable : life_reachable cfg ready.
Proof.
  eapply rtc_r; [apply (spawn_all (fun _ => True) (initial cfg)); by split|].
  exists LDisplay. split; [done|]. by apply ls_display.
Qed.

(** A signal that arrives first: its [Stop] finds nothing to wait for. *)
Lemma overtaking_run : exists s, life_reachable cfg s /\ l_late_write s = true /\ ~ timed_out s.
Proof.
  set (s1 := move BySignal SCloseStop (initial cfg)).
  assert (H1 : rtc (step_where cfg (fun _ => True)) (initial cfg) s1).
  { apply rtc_once. exists LSignal. split; [done|]. by apply ls_signal. }
  destruct (whole_stop (fun _ => True) BySignal s1) as (s2 & H2 & Hpc & Hr & Hc & _ & Htodo & Hcr & Hother); try done.
  assert (Ha2 : alive s2) by (split; [done|]; intros b; by rewrite Hother).
  pose proof (spawn_all (fun _ => True) s2 I Ha2) as H3. rewrite Hr, Htodo in H3.
  exists (wrote (spawned [] ([] ++ l_todo s1) s2)). split_and!.
  - eapply rtc_r; [etransitivity; [exact H1|etransitivity; [exact H2|exact H3]]|].
    exists LWork. split; [done|]. apply (ls_work _ _ (TRefresher RefConsensus)); [done| |done].
    split; [|exact (Hother (ByPanic (TRefresher RefConsensus)) ltac:(done))].
    cbn. unfold Start_tasks. destruct (WithTopologyAPI cfg); set_solver.
  - cbn. by rewrite Hc, orb_true_r.
  - intros (x & pc & Hx & Hw). cbn in Hx. change (at_pc s2 x = Some pc) in Hx. destruct (decide (x = BySignal)) as [->|Hne].
    + rewrite Hpc in Hx. injection Hx as <-. done.
    + rewrite Hother in Hx by done. unfold s1 in Hx. rewrite at_move, decide_False in Hx by done. done.
Qed.

(** A signal during start-up closes the store under the writers: a run exists in which
    no wait times out and yet a goroutine writes the store after it was closed,
    because [Stop] counts the goroutines spawned so far only. *)
Theorem signal_can_overtake_start : exists s, life_reachable cfg s /\ l_late_write s = true /\ ~ timed_out s.
Proof. exact overtaking_run. Qed.
End LifeFacts.

(** ** Witnesses *)

Section LifeExamples.
Definition life_options : Options :=
  mkOptions "" "" "" 1 1 1 1 1 false false "" 0 1000 "" true "" "" 10 7 false "" "" "" 5 100 "".

Lemma store_closed_last_witness : exists s, life_reachable life_options s /\ l_late_write s = true /\
  (timed_out s \/ l_overtaken s = true).
Proof.
  destruct (overtaking_run life_options) as (s & Hs & Hl & _). exists s. split_and!; [done|done|].
  exact (proj1 (store_closed_last life_options s Hs) Hl).
Defined.

Lemma panic_waits_for_itself_witness :
  TRefresher RefHealth ∈ l_running (move (ByPanic (TRefresher RefHealth)) SDisplay (ready life_options)).
Proof.
  refine (proj1 (panic_waits_for_itself life_options
    (move (ByPanic (TRefresher RefHealth)) SDisplay (ready life_options)) (TRefresher RefHealth) SDisplay _ eq_refl)).
  eapply rtc_r; [apply ready_reachable|]. exists LPanic. split; [done|]. apply ls_panic; [by split|split; [set_solver|done]|done].
Defined.

Lemma quit_shuts_down_witness :
  exists s', rtc (step_where life_options (fun l => l = LMain \/ orderly l)) (set_display Exited (ready life_options)) s' /\
    at_pc s' ByMain = Some (SDone false).
Proof.
  destruct (quit_shuts_down life_options (set_display Exited (ready life_options))) as (s' & H & Hpc & _); [by split|done..|].
  by exists s'.
Defined.

Lemma sigterm_does_not_end_witness :
  exists s', rtc (step_where life_options unattended) (ready life_options) s' /\ at_pc s' BySignal = Some (SDone false).
Proof.
  destruct (sigterm_does_not_end life_options (ready life_options) (ready_reachable life_options))
    as (_ & s' & H & Hpc & _); [by split|done..|]. by exists s'.
Defined.
End LifeExamples.
