(* ===== verification/Main.v ===== *)
(** * The command line ([cmd/tmtop.go]) and what [NewApp] opens ([pkg/app.go])

    The flags with their defaults, the configuration file and the environment as
    [viper] gives them, the RPC host, and the database the options select.
    [viper] and the file system are parameters. *)

From S2P Require Import Prelude GoNum GoText Config.
Local Open Scope Z_scope.

(** [viper]: whether a key is set, by the environment or by the file, and its value.
    [ReadInConfig] fails for good unless the file was not found. *)
Record Viper := mkViper {
  IsSet : string -> bool;
  GetString : string -> string;
  GetDuration : string -> Z;
  GetBool : string -> bool;
  GetInt64 : string -> Z;
  GetUint64 : string -> Z;
  GetInt : string -> Z;
  ReadInConfig : option string;
  ConfigFileNotFound : bool;
  ConfigFileUsed : string }.

(** The defaults of the flags; the RPC host is an argument. *)
Definition flag_defaults : InputConfig :=
  mkInputConfig
    (mkOptions "" "" "" Second (60 * Second) (5 * 60 * Second) (30 * 60 * Second) (30 * Second) false false "" 0 1000 ""
       false "0.0.0.0:8080" "" 10000 7 false "" "24h" "performance" (5 * Second) 1000 "")
    "cosmos-rpc" "".

Section Load.
Context (v : Viper).

Definition from {A} (key : string) (get : string -> A) (old : A) : A := if IsSet v key then get key else old.

(** The assignments at the end of [loadConfigFile]. *)
Definition map_values (c : InputConfig) : InputConfig :=
  let o := in_Options c in
  mkInputConfig
    (mkOptions
       (from "rpc-host" (GetString v) (RPCHost o))
       (from "provider-rpc-host" (GetString v) (ProviderRPCHost o))
       (from "consumer-id" (GetString v) (ConsumerID o))
       (from "refresh-rate" (GetDuration v) (RefreshRate o))
       (from "validators-refresh-rate" (GetDuration v) (ValidatorsRefreshRate o))
       (from "chain-info-refresh-rate" (GetDuration v) (ChainInfoRefreshRate o))
       (from "upgrade-refresh-rate" (GetDuration v) (UpgradeRefreshRate o))
       (from "block-time-refresh-rate" (GetDuration v) (BlockTimeRefreshRate o))
       (from "verbose" (GetBool v) (Verbose o))
       (from "disable-emojis" (GetBool v) (DisableEmojis o))
       (from "debug-file" (GetString v) (DebugFile o))
       (from "halt-height" (GetInt64 v) (HaltHeight o))
       (from "blocks-behind" (GetUint64 v) (BlocksBehind o))
       (from "lcd-host" (GetString v) (LCDHost o))
       (from "with-topology-api" (GetBool v) (WithTopologyAPI o))
       (from "topology-listen-addr" (GetString v) (TopologyListenAddr o))
       (from "database-path" (GetString v) (DatabasePath o))
       (from "max-retain-blocks" (GetInt64 v) (MaxRetainBlocks o))
       (from "max-retain-days" (GetInt v) (MaxRetainDays o))
       (AnalyticsMode o) (AnalyticsValidator o) (AnalyticsTimeWindow o) (AnalyticsCommand o)
       (from "health-refresh-rate" (GetDuration v) (HealthRefreshRate o))
       (from "health-window-blocks" (GetInt64 v) (HealthWindowBlocks o))
       (from "asn-database-path" (GetString v) (ASNDatabasePath o)))
    (from "chain-type" (GetString v) (in_ChainType c))
    (from "timezone" (GetString v) (in_Timezone c)).

(** [home] is [os.UserHomeDir], asked only without an explicit file. *)
Definition loadConfigFile (home : res string) (configFile : string) (c : InputConfig) : res InputConfig :=
  _ ← (if bool_decide (configFile = "") then wrap_err "locating user home directory" home else Ok configFile);
  match ReadInConfig v with
  | Some e => if ConfigFileNotFound v then Ok (map_values c)
              else Err ("reading config file " +:+ ConfigFileUsed v +:+ ": " +:+ e)
  | None => Ok (map_values c)
  end.

(** The host: the argument, or what the file and the environment say, or the local node. *)
Definition with_RPCHost (host : string) (c : InputConfig) : InputConfig :=
  let o := in_Options c in
  mkInputConfig
    (mkOptions host (ProviderRPCHost o) (ConsumerID o) (RefreshRate o) (ValidatorsRefreshRate o) (ChainInfoRefreshRate o)
       (UpgradeRefreshRate o) (BlockTimeRefreshRate o) (Verbose o) (DisableEmojis o) (DebugFile o) (HaltHeight o) (BlocksBehind o)
       (LCDHost o) (WithTopologyAPI o) (TopologyListenAddr o) (DatabasePath o) (MaxRetainBlocks o) (MaxRetainDays o)
       (AnalyticsMode o) (AnalyticsValidator o) (AnalyticsTimeWindow o) (AnalyticsCommand o) (HealthRefreshRate o)
       (HealthWindowBlocks o) (ASNDatabasePath o))
    (in_ChainType c) (in_Timezone c).

Definition choose_host (args : list string) (c : InputConfig) : InputConfig :=
  let configured :=
    if bool_decide (RPCHost (in_Options c) = "") then with_RPCHost "http://localhost:26657" c else c in
  match args with
  | a :: _ => if bool_decide (a = "") then configured else with_RPCHost a c
  | [] => configured
  end.

(** How the process goes on after its configuration: it logs a fatal error and exits,
    it panics, or it runs the application. *)
Inductive Outcome (A : Type) := Fatal (msg err : string) | Panicked (err : string) | Runs (a : A).
Arguments Fatal {_} _ _.
Arguments Panicked {_} _.
Arguments Runs {_} _.

Definition Execute {Location} (Local_tz : Location) (LoadLocation : string -> res Location) (home : res string)
    (input : InputConfig) (args : list string) (configFile : string) : Outcome (Config Location) :=
  match loadConfigFile home configFile input with
  | Err e => Fatal "Could not load configuration file" e
  | Panic => Panicked ""
  | Ok input =>
      match ParseAndValidateConfig Local_tz LoadLocation (choose_host args input) with
      | Ok config => Runs config
      | Err e => Panicked e
      | Panic => Panicked ""
      end
  end.
End Load.
Arguments Fatal {_} _ _.
Arguments Panicked {_} _.
Arguments Runs {_} _.

(** ** The database [NewApp] opens *)

Definition default_database (home : res string) : string :=
  match home with Ok h => path_Join [h; ".config"; "tmtop"; "tmtop.db"] | _ => "tmtop.db" end.

(** None: the store is [NopConsensusStore]. *)
Definition database_path (home : res string) (o : Options) : option string :=
  if (0 <? MaxRetainBlocks o) || (0 <? MaxRetainDays o)
  then Some (if bool_decide (DatabasePath o = "") then default_database home else DatabasePath o)
  else None.

(** ** The log writer ([pkg/logger]) *)

(** The mailbox delivers every message; the debug file, when there is one, gets the
    same bytes.  The answer is the length of the message, or the panic of a failed write. *)
Section Logger.
Context {Mailbox File : Type} (Deliver : Mailbox -> string -> Mailbox) (Append : File -> string -> res File).

Record Writer := mkWriter { w_Mailbox : Mailbox; w_DebugFile : option File }.

Definition NewWriter (open : string -> res File) (mb : Mailbox) (o : Options) : res Writer :=
  if bool_decide (DebugFile o = "") then Ok (mkWriter mb None)
  else match open (DebugFile o) with Ok f => Ok (mkWriter mb (Some f)) | _ => Panic end.

Definition Writer_Write (w : Writer) (msg : string) : res Z * Writer :=
  let w := mkWriter (Deliver (w_Mailbox w) msg) (w_DebugFile w) in
  match w_DebugFile w with
  | None => (Ok (Z.of_nat (slen msg)), w)
  | Some f =>
      match Append f msg with
      | Ok f => (Ok (Z.of_nat (slen msg)), mkWriter (w_Mailbox w) (Some f))
      | _ => (Panic, w)
      end
  end.
End Logger.

(** ** Properties *)

(** The options a key of the file or of the environment can set, and those only a flag can. *)
Definition analytics_flags (o : Options) : bool * string * string * string :=
  (AnalyticsMode o, AnalyticsValidator o, AnalyticsTimeWindow o, AnalyticsCommand o).

Section MainFacts.
Context (v : Viper).

Lemma load_Ok home configFile c c' : loadConfigFile v home configFile c = Ok c' -> c' = map_values v c.
Proof.
  unfold loadConfigFile. destruct (if bool_decide _ then _ else _) as [x| |]; cbn; [|done..].
  destruct (ReadInConfig v); [destruct (ConfigFileNotFound v)|]; congruence.
Qed.

(** The order of precedence of the options: a key set in the environment or the file
    wins over the flag, given or defaulted, and a key set in neither leaves the
    flag's value; only the argument wins over the configured RPC host; the analytics
    flags cannot be configured; and a file that exists but cannot be read, or an
    unknown home directory without an explicit file, stops the program. *)
Theorem option_precedence {Location} (Local_tz : Location) LoadLocation home input args configFile config
  (Hrun : Execute v Local_tz LoadLocation home input args configFile = Runs config) :
  let o := cfg_Options config in let flags := in_Options input in
  RPCHost o = match args with
              | a :: _ => if bool_decide (a = "") then
                  (if bool_decide (from v "rpc-host" (GetString v) (RPCHost flags) = "") then "http://localhost:26657"
                   else from v "rpc-host" (GetString v) (RPCHost flags)) else a
              | [] => if bool_decide (from v "rpc-host" (GetString v) (RPCHost flags) = "") then "http://localhost:26657"
                      else from v "rpc-host" (GetString v) (RPCHost flags)
              end /\
  RefreshRate o = (if IsSet v "refresh-rate" then GetDuration v "refresh-rate" else RefreshRate flags) /\
  DatabasePath o = (if IsSet v "database-path" then GetString v "database-path" else DatabasePath flags) /\
  MaxRetainBlocks o = (if IsSet v "max-retain-blocks" then GetInt64 v "max-retain-blocks" else MaxRetainBlocks flags) /\
  MaxRetainDays o = (if IsSet v "max-retain-days" then GetInt v "max-retain-days" else MaxRetainDays flags) /\
  analytics_flags o = analytics_flags flags /\
  (ReadInConfig v <> None -> ConfigFileNotFound v = true) /\ (configFile = "" -> exists h, home = Ok h).
Proof.
  unfold Execute in Hrun. destruct (loadConfigFile v home configFile input) as [c| |] eqn:El; [|done..].
  assert (Hguard : (ReadInConfig v <> None -> ConfigFileNotFound v = true) /\ (configFile = "" -> exists h, home = Ok h)).
  { unfold loadConfigFile in El. case_bool_decide as Ec.
    - destruct home as [h| |]; [|done..]. cbn in El. split; [|by exists h].
      destruct (ReadInConfig v); [destruct (ConfigFileNotFound v)|]; done.
    - cbn in El. split; [|done]. destruct (ReadInConfig v); [destruct (ConfigFileNotFound v)|]; done. }
  apply load_Ok in El as ->.
  destruct (ParseAndValidateConfig _ _ _) as [config'| |] eqn:Ep; [|done..]. injection Hrun as ->.
  assert (Ho : cfg_Options config = in_Options (choose_host args (map_values v input))).
  { unfold ParseAndValidateConfig in Ep. destruct (ParseChainType _); cbn in Ep; [|done..].
    destruct (_ && _); [done|]. destruct (_ && _); [done|]. destruct (_ <=? 0); [done|].
    destruct (if negb _ then _ else _); cbn in Ep; [|done..]. by injection Ep as <-. }
  cbn zeta. rewrite Ho. unfold choose_host. destruct Hguard as [Hg1 Hg2]. clear Ep Ho.
  destruct args as [|a args]; [|destruct (bool_decide (a = ""))];
    (destruct (bool_decide (RPCHost (in_Options (map_values v input)) = "")) eqn:E; cbn in E |- *; rewrite ?E; by split_and!).
Qed.
End MainFacts.

Section MainExamples.
Definition w_viper : Viper :=
  mkViper (fun k => bool_decide (k = "refresh-rate")) (fun _ => "") (fun _ => 7) (fun _ => false) (fun _ => 0) (fun _ => 0) (fun _ => 0)
    (Some "none") true "".

(** The flag asked for three nanoseconds, the environment for seven. *)
Definition w_flags : InputConfig :=
  mkInputConfig (mkOptions "" "" "" 3 1 1 1 1 false false "" 0 1000 "" false "" "" 10 7 false "" "24h" "performance" 5 1000 "") "" "".

Lemma option_precedence_witness : exists config,
  Execute w_viper tt (fun _ => Ok tt) (Ok "/root") w_flags ["http://node"] "" = Runs config /\ RefreshRate (cfg_Options config) = 7.
Proof.
  eexists. split; [vm_compute; reflexivity|].
  refine (proj1 (proj2 (option_precedence w_viper tt (fun _ => Ok tt) (Ok "/root") w_flags ["http://node"] "" _ _))).
  vm_compute. reflexivity.
Defined.

(** The defaults are accepted, and select the database of the home directory. *)
Example defaults_accepted :
  (match Execute (mkViper (fun _ => false) (fun _ => "") (fun _ => 0) (fun _ => false) (fun _ => 0) (fun _ => 0) (fun _ => 0) (Some "none") true "")
           tt (fun _ => Ok tt) (Ok "/root") flag_defaults [] "" with
   | Runs c => Some (RPCHost (cfg_Options c), database_path (Ok "/root") (cfg_Options c))
   | _ => None end) = Some ("http://localhost:26657", Some "/root/.config/tmtop/tmtop.db").
Proof. vm_compute. reflexivity. Qed.
End MainExamples.
