(* ===== verification/Startup.v ===== *)
(** * Start-up: from the command line to a running application ([cmd/tmtop.go], [pkg/app.go], [pkg/db/db.go])

    [Execute] followed by [NewApp]: the log file, the database with its migrations and
    the ASN dataset, each of which can stop the program, then the data fetcher, whose
    websocket is dialled before [Start] is reached. *)

From S2P Require Import Prelude GoNum GoText Config Asn Store Migrations Websocket WsLife Main.
Local Open Scope Z_scope.

Section Startup.
Context (home : res string).
(** The file system and the driver: creating the directory of a path, opening a database,
    a statement on it; the log file; the ASN dataset as its error or its lines. *)
Context (MkdirDir : string -> res unit) (Open : string -> res Conn) (Exec : string -> string -> res unit).
Context {Mailbox File : Type} (OpenFile : string -> res File) (mb : Mailbox).
Context (sort_by_start : list asnRange -> list asnRange) (read_asn : string -> (string + list string) * option string).

(** [db.New] *)
Definition open_database (c : Store.Config) : res Conn :=
  let path := Store.DatabasePath c in
  Migrations.New (MkdirDir path) (Open path) (Exec path "PRAGMA journal_mode=WAL") (Exec path "PRAGMA synchronous=NORMAL")
    (Exec path "PRAGMA foreign_keys=ON").

(** None: the store that does nothing, and no analytics. *)
Definition app_database (o : Options) : res (option (Store.Config * Conn)) :=
  match database_path home o with
  | None => Ok None
  | Some path =>
      let c := Store.mkConfig path (Config.MaxRetainDays o) (Config.MaxRetainBlocks o) in
      k ← open_database c; Ok (Some (c, k))
  end.

(** A dataset that does not load is only logged. *)
Definition app_asn (o : Options) : option Lookup :=
  if bool_decide (ASNDatabasePath o = "") then None
  else match Load sort_by_start (ASNDatabasePath o) (read_asn (ASNDatabasePath o)).1 (read_asn (ASNDatabasePath o)).2 with
       | Ok l => Some l | _ => None end.

(** What the application is built from. *)
Record AppParts := mkAppParts {
  ap_options : Options; ap_writer : Writer (Mailbox := Mailbox) (File := File);
  ap_database : option (Store.Config * Conn); ap_asn : option Lookup }.

Definition NewApp_parts (o : Options) : Outcome AppParts :=
  match NewWriter OpenFile mb o with
  | Ok w =>
      match app_database o with
      | Ok database => Runs (mkAppParts o w database (app_asn o))
      | Err e => Fatal "failed to initialize database" e
      | Panic => Panicked ""
      end
  | _ => Panicked ""
  end.

(** [Execute] up to [app.Start]. *)
Definition start_up {Location} (v : Viper) (Local_tz : Location) (LoadLocation : string -> res Location)
    (input : InputConfig) (args : list string) (configFile : string) : Outcome AppParts :=
  match Execute v Local_tz LoadLocation home input args configFile with
  | Runs config => NewApp_parts (cfg_Options config)
  | Fatal msg e => Fatal msg e
  | Panicked e => Panicked e
  end.

(** [NewDataFetcher] comes last in [NewApp] and constructs the websocket; [Start]
    runs the report or the monitor.  [es] is what has happened to the websocket so
    far. *)
Inductive Launch :=
  | Exits (o : Outcome AppParts)
  | Dialing (p : AppParts)
  | RunsAnalytics (p : AppParts)
  | RunsMonitor (p : AppParts).

Definition launch (o : Outcome AppParts) (es : list event) : option Launch :=
  match o with
  | Runs p =>
      s ← run_events es life0;
      Some (if started (lf_pc s)
            then if AnalyticsMode (ap_options p) then RunsAnalytics p else RunsMonitor p
            else Dialing p)
  | _ => Some (Exits o)
  end.
End Startup.

(** ** Facts *)

Section StartupFacts.
Context (home : res string) (MkdirDir : string -> res unit) (Open : string -> res Conn) (Exec : string -> string -> res unit).
Context {Mailbox File : Type} (OpenFile : string -> res File) (mb : Mailbox).
Context (sort_by_start : list asnRange -> list asnRange) (read_asn : string -> (string + list string) * option string).
Context {Location : Type} (v : Viper) (Local_tz : Location) (LoadLocation : string -> res Location).


(** Opening a database without version 002 fails, whatever comes before the migrations. *)
Lemma New_unapplied mkdir k0 wal synchronous foreign_keys
    (Hs : saved k0 = None) (Hno : "002_drop_operator_unique" ∉ cat_applied (cat k0)) :
  (exists e, Migrations.New mkdir (Ok k0) wal synchronous foreign_keys = Err e) \/
  mkdir = Panic \/ wal = Panic \/ synchronous = Panic \/ foreign_keys = Panic.
Proof.
  destruct (migrate_unapplied k0 Hs Hno) as [(e & He) _]. unfold Migrations.New. destruct (migrate k0) as [r k'] eqn:Em. cbn in He. subst r.
  destruct mkdir as [[]| |]; [|left; by eauto|tauto]. destruct wal as [[]| |]; [|left; by eauto|tauto].
  destruct synchronous as [[]| |]; [|left; by eauto|tauto]. destruct foreign_keys as [[]| |]; [|left; by eauto|tauto].
  left. cbn. rewrite Em. by eexists.
Qed.

Lemma panicked_not_Ok mkdir k0 wal synchronous foreign_keys k :
  mkdir = Panic \/ wal = Panic \/ synchronous = Panic \/ foreign_keys = Panic ->
  Migrations.New mkdir (Ok k0) wal synchronous foreign_keys <> Ok k.
Proof.
  intros H E. unfold Migrations.New in E. cbn in E. destruct mkdir as [[]| |], wal as [[]| |], synchronous as [[]| |], foreign_keys as [[]| |];
    try done; by destruct H as [H|[H|[H|H]]].
Qed.

Lemma open_database_unmigrated c k0 : Open (Store.DatabasePath c) = Ok k0 -> saved k0 = None ->
  "002_drop_operator_unique" ∉ cat_applied (cat k0) ->
  (exists e, open_database MkdirDir Open Exec c = Err e) \/ MkdirDir (Store.DatabasePath c) = Panic \/
  exists s, Exec (Store.DatabasePath c) s = Panic.
Proof.
  intros Hopen Hs Hno. unfold open_database. rewrite Hopen.
  destruct (New_unapplied (MkdirDir (Store.DatabasePath c)) k0 (Exec (Store.DatabasePath c) "PRAGMA journal_mode=WAL")
    (Exec (Store.DatabasePath c) "PRAGMA synchronous=NORMAL") (Exec (Store.DatabasePath c) "PRAGMA foreign_keys=ON") Hs Hno)
    as [H|[H|[H|[H|H]]]]; eauto.
Qed.

(** A database that opens had migration 002 before. *)
Lemma open_database_migrated c k : open_database MkdirDir Open Exec c = Ok k ->
  exists k0, Open (Store.DatabasePath c) = Ok k0 /\ (saved k0 = None -> "002_drop_operator_unique" ∈ cat_applied (cat k0)).
Proof.
  unfold open_database. destruct (Open (Store.DatabasePath c)) as [k0|e|] eqn:Ho.
  2-3: unfold Migrations.New; by destruct (MkdirDir _).
  intros Hk. exists k0. split; [done|]. intros Hs. apply dec_stable. intros Hno.
  destruct (New_unapplied (MkdirDir (Store.DatabasePath c)) k0 (Exec (Store.DatabasePath c) "PRAGMA journal_mode=WAL")
    (Exec (Store.DatabasePath c) "PRAGMA synchronous=NORMAL") (Exec (Store.DatabasePath c) "PRAGMA foreign_keys=ON") Hs Hno)
    as [[e H]|H]; [congruence|]. apply (panicked_not_Ok _ k0 _ _ _ k H Hk).
Qed.

Lemma database_path_None o :
  database_path home o = None <-> Config.MaxRetainBlocks o <= 0 /\ Config.MaxRetainDays o <= 0.
Proof.
  unfold database_path. destruct (Z.ltb_spec 0 (Config.MaxRetainBlocks o)), (Z.ltb_spec 0 (Config.MaxRetainDays o)); cbn;
    (split; [try done; lia|intros []; try done; lia]).
Qed.

(** A database that has both migrations opens unchanged, but for the migrations table. *)
Lemma open_database_applied c k0 : Open (Store.DatabasePath c) = Ok k0 -> MkdirDir (Store.DatabasePath c) = Ok tt ->
  (forall s, Exec (Store.DatabasePath c) s = Ok tt) ->
  "001_initial" ∈ cat_applied (cat k0) -> "002_drop_operator_unique" ∈ cat_applied (cat k0) ->
  exists k, open_database MkdirDir Open Exec c = Ok k /\ cat_applied (cat k) = cat_applied (cat k0).
Proof.
  intros Ho Hd He H1 H2. unfold open_database, Migrations.New. rewrite Ho, Hd, !He. cbn [mbind res_bind wrap_err].
  assert (Hm : exists k, migrate k0 = (Ok tt, k) /\ cat_applied (cat k) = cat_applied (cat k0)).
  { unfold migrate. cbn [exec_stmt]. destruct (has_table "migrations" (cat k0)); eexists; (split;
      [unfold migrations, run_migrations; cbn [version cat add_table cat_applied]; by rewrite !bool_decide_eq_true_2 by done|done]). }
  destruct Hm as (k & -> & Hk). by exists k.
Qed.

(** C18: What the program runs with.  Whenever it gets past start-up it has a
    database exactly when one of the retention options is positive, and that
    database had recorded migration 002 before this program opened it.  When the
    arguments, the log file, the directory, the file and its three pragmas are in order:
    without retention it starts, without a database; with retention and a database
    that has not recorded migration 002, as on a fresh machine with the defaults, it
    stops, the failed initialization being its fatal error; and with one that has
    recorded both migrations it starts with that database. *)
Theorem starts_only_migrated input args configFile :
  let started := start_up home MkdirDir Open Exec OpenFile mb sort_by_start read_asn v Local_tz LoadLocation input args configFile in
  (forall parts, started = Runs parts ->
     (ap_database parts = None <-> Config.MaxRetainBlocks (ap_options parts) <= 0 /\ Config.MaxRetainDays (ap_options parts) <= 0) /\
     forall c k, ap_database parts = Some (c, k) -> exists k0, Open (Store.DatabasePath c) = Ok k0 /\
       (saved k0 = None -> "002_drop_operator_unique" ∈ cat_applied (cat k0))) /\
  (forall config w k0, Execute v Local_tz LoadLocation home input args configFile = Runs config ->
     NewWriter OpenFile mb (cfg_Options config) = Ok w -> saved k0 = None ->
     (forall p, Open p = Ok k0 /\ MkdirDir p = Ok tt /\ forall s, Exec p s = Ok tt) ->
     let retention := 0 < Config.MaxRetainBlocks (cfg_Options config) \/ 0 < Config.MaxRetainDays (cfg_Options config) in
     (~ retention -> exists parts, started = Runs parts /\ ap_options parts = cfg_Options config /\ ap_database parts = None) /\
     (retention -> "002_drop_operator_unique" ∉ cat_applied (cat k0) ->
        exists e, started = Fatal "failed to initialize database" e) /\
     (retention -> "001_initial" ∈ cat_applied (cat k0) -> "002_drop_operator_unique" ∈ cat_applied (cat k0) ->
        exists parts c k, started = Runs parts /\ ap_options parts = cfg_Options config /\ ap_database parts = Some (c, k) /\
          cat_applied (cat k) = cat_applied (cat k0))).
Proof.
  cbv zeta. unfold start_up. destruct (Execute v Local_tz LoadLocation home input args configFile) as [msg e|e|config]; [by split|by split|].
  unfold NewApp_parts. set (o := cfg_Options config). split.
  - intros parts. destruct (NewWriter _ _ _) as [w| |]; [|done..].
    destruct (app_database _ _ _ _ _) as [db| |] eqn:Ed; [|done..]. intros [= <-]. cbn [ap_database ap_options].
    unfold app_database in Ed. destruct (database_path home o) as [path|] eqn:Ep.
    + destruct (open_database _ _ _ _) as [k| |] eqn:Ek; [|done..]. injection Ed as <-. split.
      * split; [done|]. intros Hr%database_path_None. congruence.
      * intros c k' [= <- <-]. by apply open_database_migrated in Ek.
    + injection Ed as <-. split; [|done]. split; [|done]. intros _. by apply database_path_None.
  - intros config' w k0 [= <-] Hw Hs Hfs. fold o in Hw |- *. rewrite Hw. unfold app_database. pose proof (database_path_None o) as Hnone.
    destruct (database_path home o) as [path|] eqn:Ep.
    + set (c := Store.mkConfig path _ _). destruct (Hfs path) as (Hopen & Hdir & Hexec).
      assert (Hret : ~ ~ (0 < Config.MaxRetainBlocks o \/ 0 < Config.MaxRetainDays o)) by (intros H; by assert (Some path = None) by (apply Hnone; lia)).
      split_and!; [intros H; by destruct (Hret H)|intros _ Hno|intros _ H1 H2].
      * destruct (open_database_unmigrated c k0 Hopen Hs Hno) as [[e ->]|[Hk|[s Hk]]]; [by exists e|cbn in Hk; congruence..].
      * destruct (open_database_applied c k0 Hopen Hdir Hexec H1 H2) as (k & -> & Hk). cbn. by eexists _, c, k.
    + destruct (proj1 Hnone eq_refl). split_and!; [intros _; by eexists|intros [|]; lia..].
Qed.

(** Whatever the program was started for, it goes on only once a websocket
    dial has succeeded: the reports of the analytics mode, which read the database
    alone, wait for the node like the monitor, as long as every dial fails the program
    neither reports nor ends, and after the first success it goes on. *)
Theorem launch_needs_the_node input args configFile parts es s
    (Hstart : start_up home MkdirDir Open Exec OpenFile mb sort_by_start read_asn v Local_tz LoadLocation input args configFile
                = Runs parts)
    (Hrun : run_events es life0 = Some s) :
  let state := launch (start_up home MkdirDir Open Exec OpenFile mb sort_by_start read_asn v Local_tz LoadLocation input args configFile) es in
  (EvDial true ∉ es -> state = Some (Dialing parts)) /\
  (EvDial true ∈ es -> state = Some (Dialing parts) ->
     exists s', life_exec EvMgr s = Some s' /\ started (lf_pc s') = true) /\
  (started (lf_pc s) = true ->
     state = Some (if AnalyticsMode (ap_options parts) then RunsAnalytics parts else RunsMonitor parts)).
Proof.
  cbv zeta. rewrite Hstart. unfold launch. rewrite Hrun. cbn. destruct (constructor_needs_a_dial es s Hrun) as [Hd1 Hd2]. split_and!.
  - intros Hn. destruct (started (lf_pc s)); [|done]. by destruct Hn; apply Hd1.
  - intros Hin. destruct (started (lf_pc s)); [by destruct (AnalyticsMode _)|]. intros _. by destruct (Hd2 Hin).
  - by intros ->.
Qed.
End StartupFacts.

(** ** The defaults on a fresh machine, and without retention *)

Section StartupExamples.
Definition demo_viper : Viper :=
  mkViper (fun _ => false) (fun _ => "") (fun _ => 0) (fun _ => false) (fun _ => 0) (fun _ => 0) (fun _ => 0) (Some "none") true "".

Definition demo_start (open : string -> res Conn) (input : InputConfig) :=
  start_up (Ok "/root") (fun _ => Ok tt) open (fun _ _ => Ok tt) (fun _ => Ok tt) tt (fun l => l)
    (fun _ => (inr [], None)) demo_viper tt (fun _ => Ok tt) input [] "".

(** A first run with the default flags never gets past its database. *)
Example defaults_never_start : demo_start (fun _ => Ok empty_conn) flag_defaults =
  Fatal "failed to initialize database"
    ("failed to run migrations: applying migration 002_drop_operator_unique: " +:+ nested_tx_error).
Proof. vm_compute. reflexivity. Qed.

Lemma starts_only_migrated_witness :
  exists e, demo_start (fun _ => Ok empty_conn) flag_defaults = Fatal "failed to initialize database" e.
Proof.
  destruct (starts_only_migrated (Ok "/root") (fun _ => Ok tt) (fun _ => Ok empty_conn) (fun _ _ => Ok tt) (fun _ => Ok tt) tt (fun l => l)
    (fun _ => (inr [], None)) demo_viper tt (fun _ => Ok tt) flag_defaults [] "") as [_ H].
  destruct (Execute demo_viper tt (fun _ => Ok tt) (Ok "/root") flag_defaults [] "") as [| |config] eqn:E; [vm_compute in E; discriminate..|].
  destruct (NewWriter (fun _ => Ok tt) tt (cfg_Options config)) as [w| |] eqn:Ew;
    [|vm_compute in E; injection E as <-; vm_compute in Ew; discriminate..].
  destruct (H config w empty_conn eq_refl Ew eq_refl) as (_ & H1 & _); [done|]. apply H1; [|set_solver].
  vm_compute in E. injection E as <-. by left.
Defined.

(** A database migrated elsewhere opens, and without retention there is none. *)
Example migrated_starts :
  (match demo_start (fun _ => Ok (mkConn (mkCatalog {["migrations"]} ∅ ["001_initial"; "002_drop_operator_unique"]) None)) flag_defaults with
   | Runs p => option_map (fun d => Store.DatabasePath d.1) (ap_database p) | _ => None end) = Some "/root/.config/tmtop/tmtop.db".
Proof. vm_compute. reflexivity. Qed.

(** [tmtop --analytics-mode] on such a database, with a node that refuses two dials. *)
Definition report_flags : InputConfig :=
  mkInputConfig
    (mkOptions "" "" "" Second (60 * Second) (5 * 60 * Second) (30 * 60 * Second) (30 * Second) false false "" 0 1000 ""
       false "0.0.0.0:8080" "" 10000 7 true "" "24h" "performance" (5 * Second) 1000 "")
    "cosmos-rpc" "".
Definition migrated (path : string) : res Conn :=
  Ok (mkConn (mkCatalog {["migrations"]} ∅ ["001_initial"; "002_drop_operator_unique"]) None).
Definition refused : list event := [EvMgr; EvDial false; EvTimer; EvTick; EvDial false].

Lemma launch_needs_the_node_witness :
  exists parts, demo_start migrated report_flags = Runs parts /\ AnalyticsMode (ap_options parts) = true /\
    launch (demo_start migrated report_flags) refused = Some (Dialing parts).
Proof.
  destruct (demo_start migrated report_flags) as [m e|e|parts] eqn:E; [vm_compute in E; discriminate..|].
  exists parts. split; [reflexivity|]. split; [vm_compute in E; injection E as <-; reflexivity|]. rewrite <-E.
  destruct (run_events refused life0) as [s|] eqn:Er; [|vm_compute in Er; discriminate].
  apply (launch_needs_the_node (Ok "/root") (fun _ => Ok tt) migrated (fun _ _ => Ok tt) (fun _ => Ok tt) tt (fun l => l)
    (fun _ => (inr [], None)) demo_viper tt (fun _ => Ok tt) report_flags [] "" parts refused s E Er).
  unfold refused. rewrite !not_elem_of_cons. split_and!; try discriminate. apply not_elem_of_nil.
Defined.
End StartupExamples.
