(* ===== verification/Http.v ===== *)
(** * HTTP ([pkg/http], [pkg/topology/http.go])

    The client's URLs and error texts, the server's options, serving and shutting
    down as steps, and the topology handlers as responses with their status.
    [url.Parse], the transport, the JSON
    codecs and the DOT encoder are parameters. *)

From S2P Require Import Prelude GoNum GoText Deps Types Rounds State Topology.
From Stdlib Require Import Ascii.
Local Open Scope Z_scope.

(** ** The client *)

(** A parsed URL: the parts the client sets, and the rest. *)
Record Url := mkUrl { u_Rest : string; u_Path : string; u_RawQuery : string; u_Fragment : string }.

Section Client.
(** [url.Parse], a nil pointer on an error; [URL.String]; the exchange of a GET request, which
    answers the body whatever the status; the reading of a body; its closing. *)
Context (url_Parse : string -> option Url) (url_String : Url -> string).
Context {Body : Type} (round_trip : string -> res Body) (ReadAll : Body -> res bytes) (Close : Body -> res unit).

(** The parse errors are dropped, so a bad host or path is a nil dereference. *)
Definition client_join (host rest : string) : res string :=
  base ← deref (url_Parse host);
  ref ← deref (url_Parse rest);
  Ok (url_String (mkUrl (u_Rest base) (path_Join [u_Path base; u_Path ref]) (u_RawQuery ref) (u_Fragment ref))).

Definition GetInternal (host relativeURL : string) : res Body :=
  fullURL ← client_join host relativeURL;
  round_trip fullURL.

Definition Get {A} (decode : Body -> res A) (host relativeURL : string) : res A :=
  fullURL ← client_join host relativeURL;
  body ← wrap_err ("GET " +:+ fullURL) (GetInternal host relativeURL);
  wrap_err ("decoding JSON from " +:+ fullURL) (decode body).

Definition GetPlain (host relativeURL : string) : res bytes :=
  fullURL ← client_join host relativeURL;
  body ← wrap_err ("GET " +:+ fullURL) (GetInternal host relativeURL);
  b ← wrap_err ("reading body from " +:+ fullURL) (ReadAll body);
  _ ← wrap_err ("closing body from " +:+ fullURL) (Close body);
  Ok b.
End Client.

(** ** The server *)

(** A response: the status of the first write, the content type, what was written. *)
Record Response := mkResponse { r_Status : Z; r_ContentType : string; r_Body : string }.

(** [http.Error]: after a first write the status stays, and the text is appended. *)
Definition http_Error (written : option Response) (msg : string) (code : Z) : Response :=
  match written with
  | None => mkResponse code "text/plain; charset=utf-8" (msg +:+ nl)
  | Some r => mkResponse (r_Status r) (r_ContentType r) (r_Body r +:+ msg +:+ nl)
  end.

Section Server.
Context {Request : Type}.
Definition Handler := Request -> Response.

(** The parts of [http.Server] and of [mux.Router] the options touch. *)
Record HttpServer := mkHttpServer { hs_Addr : string; hs_ReadHeaderTimeout : Z }.
Record Router := mkRouter { rt_Routes : list (string * string * Handler); rt_NotFound : option Handler }.
Record Server := mkServer { srv_server : HttpServer; srv_router : Router }.

Definition Option_ := Server -> Server.
Definition WithOptions (opts : list Option_) : Option_ := fun s => foldl (fun s opt => opt s) s opts.
Definition WithRouterOption (opt : Router -> Router) : Option_ := fun s => mkServer (srv_server s) (opt (srv_router s)).
Definition WithServerOption (opt : HttpServer -> HttpServer) : Option_ := fun s => mkServer (opt (srv_server s)) (srv_router s).
Definition NewServer (addr : string) (opts : list Option_) : Server :=
  WithOptions opts (mkServer (mkHttpServer addr (5 * Second)) (mkRouter [] None)).
Definition WithRoute (method path : string) (handler : Handler) : Option_ :=
  WithRouterOption (fun r => mkRouter (rt_Routes r ++ [(method, path, handler)]) (rt_NotFound r)).
End Server.
Arguments Router : clear implicits.
Arguments Server : clear implicits.
Arguments Handler : clear implicits.
Arguments Option_ : clear implicits.

(** ** Serving and shutting down

    What [net/http] documents of [ListenAndServe] and [Shutdown]: the first returns only
    with an error, which is [ErrServerClosed] from the moment the second was called. *)

Definition ErrServerClosed : string := "http: Server closed".
Inductive Phase := NotYet | Listening | Returned (err : string).
Record Serving := mkServing { sv_Phase : Phase; sv_inShutdown : bool }.
#[global] Instance Phase_eq_dec : EqDecision Phase. Proof. solve_decision. Defined.

(** What happens to a server: [Serve] gets on (its listen or its accept may fail), or
    [Shutdown] is called. *)
Inductive ServeEvent := EListen (failure : option string) | EAccept (failure : string) | EShutdown.

Definition Serve (ev : ServeEvent) (s : Serving) : option Serving :=
  match ev, sv_Phase s with
  | EListen failure, NotYet =>
      Some (mkServing
        (if sv_inShutdown s then Returned ErrServerClosed else match failure with Some e => Returned e | None => Listening end)
        (sv_inShutdown s))
  | EAccept failure, Listening =>
      Some (mkServing (Returned (if sv_inShutdown s then ErrServerClosed else failure)) (sv_inShutdown s))
  | _, _ => None
  end.
Definition Shutdown (s : Serving) : Serving := mkServing (sv_Phase s) true.

Inductive serve_step : Serving -> Serving -> Prop :=
| ss_serve ev s s' : Serve ev s = Some s' -> serve_step s s'
| ss_shutdown s : serve_step s (Shutdown s).

(** What [App.ServeTopology] logs: the message and the error, unless the server was closed. *)
Definition ServeTopology (err : string) : list string :=
  if negb (bool_decide (err = ErrServerClosed)) then ["topology server error: " +:+ err] else [].

(** ** The topology API; the state is the shared one as a request finds it *)

Section TopologyApi.
Context `{B : Butils} `{C : Comet} {Request : Type}.
Context (UnmarshalHTTPRequest : Request -> res ComputeTopologyRequest).
(** The library's headers around a handler, and the static assets. *)
Context (UnrestrictedCors : Handler Request -> Handler Request) (assets : Handler Request).
Context (encode_graph : Graph -> res string) (encode_peers : list RPC -> res string) (encode_validators : list TMValidator -> res string).
(** The DOT encoder: its text, or its failure. *)
Context (new_id : nat -> Z) (path_between : DOTGraph -> Z -> Z -> option (list Z)) (dot_Marshal : DOTGraph -> res string).
(** [net/http] answers a panicking handler by closing the connection. *)
Context (aborted : Response).

Definition json_type : string := "application/json".
Definition dot_type : string := "text/vnd.graphviz".

(** [RenderTopologyDOT] writes the whole text or nothing. *)
Definition RenderTopologyDOT (g : DOTGraph) : res string := wrap_err "marshalling DOT graph" (dot_Marshal g).

Definition topology_handler (state : State) (r : Request) : Response :=
  match UnmarshalHTTPRequest r with
  | Err e => http_Error None ("bad request: " +:+ e) 400
  | Panic => aborted
  | Ok req =>
      if bool_decide (Format req = "dot") then
        match ComputeTopologyDOT new_id path_between (ComputeTopology state req) req with
        | Err e => http_Error None ("could not convert topology to dot: " +:+ e) 500
        | Panic => aborted
        | Ok g =>
            match RenderTopologyDOT g with
            | Ok text => mkResponse 200 dot_type text
            | Err e => http_Error None ("could not marshal dot: " +:+ e) 500
            | Panic => aborted
            end
        end
      else
        match encode_graph (ComputeTopology state req) with
        | Ok text => mkResponse 200 json_type (text +:+ nl)
        | Err e => http_Error None ("could not marshal json: " +:+ e) 500
        | Panic => aborted
        end
  end.

(** The encoding error is dropped: the answer is then empty. *)
Definition encoded (text : res string) : Response :=
  match text with Ok t => mkResponse 200 "" (t +:+ nl) | Err _ => mkResponse 200 "" "" | Panic => aborted end.

Definition WithHTTPTopologyAPI (state : State) : Option_ Request :=
  WithRoute "GET" "/topology" (UnrestrictedCors (topology_handler state)).
Definition WithHTTPPeersAPI (state : State) : Option_ Request :=
  WithRoute "GET" "/peers" (UnrestrictedCors (fun _ => encoded (encode_peers ((om_entries (KnownRPCs state)).*2)))).
Definition WithHTTPDebugAPI (state : State) : Option_ Request :=
  WithRoute "GET" "/debug" (UnrestrictedCors (fun _ => encoded (encode_validators (GetTMValidators state)))).
Definition WithFrontendStaticAssets : Option_ Request := WithRouterOption (fun r => mkRouter (rt_Routes r) (Some assets)).

(** The server [Start] builds. *)
Definition topology_server (addr : string) (state : State) : Server Request :=
  NewServer addr [WithHTTPTopologyAPI state; WithHTTPPeersAPI state; WithHTTPDebugAPI state; WithFrontendStaticAssets].
End TopologyApi.

(** ** Facts *)

Section HttpFacts.
(** The shutdown is remembered, and an end that was reached stays. *)
Lemma serve_step_ends s s' : serve_step s s' ->
  (sv_inShutdown s = true -> sv_inShutdown s' = true) /\ (forall e, sv_Phase s = Returned e -> sv_Phase s' = Returned e) /\
  (forall e, sv_inShutdown s = true -> sv_Phase s' = Returned e -> sv_Phase s = Returned e \/ e = ErrServerClosed).
Proof.
  intros [ev [ph d] s1 H|[ph d]]; [|naive_solver]. unfold Serve in H; cbn in *.
  destruct ev, ph; simplify_eq/=; split_and!; intros; simplify_eq/=; auto; by destruct d.
Qed.

(** Once [Shutdown] was called, [Serve] can end with [ErrServerClosed] only, which
    [ServeTopology] does not report, and it can always reach that end. *)
Theorem shutdown_ends_serving s s' (Hdown : sv_inShutdown s = true) (Hrun : forall e, sv_Phase s <> Returned e) (Hreach : rtc serve_step s s') :
  (forall e, sv_Phase s' = Returned e -> e = ErrServerClosed /\ ServeTopology e = []) /\
  (exists s'', rtc serve_step s' s'' /\ sv_Phase s'' = Returned ErrServerClosed).
Proof.
  assert (sv_inShutdown s' = true /\ forall e, sv_Phase s' = Returned e -> e = ErrServerClosed) as [Hd He].
  { revert Hdown. assert (forall e, sv_Phase s = Returned e -> e = ErrServerClosed) as Hs by (intros e He; by destruct (Hrun e)).
    clear Hrun. revert Hs. induction Hreach as [s|s s1 s2 H1 H2 IH]; intros Hs Hd; [done|].
    destruct (serve_step_ends _ _ H1) as (Hk & _ & He). apply IH; [|auto]. intros e H. destruct (He e Hd H); auto. }
  split; [intros e ->%He; by vm_compute|].
  destruct s' as [[| |e] d]; cbn in *; subst d.
  - eexists. split; [apply rtc_once, (ss_serve (EListen None)); reflexivity|done].
  - eexists. split; [apply rtc_once, (ss_serve (EAccept "")); reflexivity|done].
  - eexists. split; [apply rtc_refl|]. by rewrite (He e).
Qed.

Lemma shutdown_ends_serving_witness : rtc serve_step (mkServing Listening true) (mkServing (Returned ErrServerClosed) true) /\
  ServeTopology ErrServerClosed = [].
Proof.
  assert (rtc serve_step (mkServing Listening true) (mkServing (Returned ErrServerClosed) true)) as H
    by (apply rtc_once, (ss_serve (EAccept "use of closed network connection")); reflexivity).
  split; [exact H|].
  exact (proj2 (proj1 (shutdown_ends_serving (mkServing Listening true) (mkServing (Returned ErrServerClosed) true)
    eq_refl (fun e => ltac:(discriminate)) H) ErrServerClosed eq_refl)).
Defined.

(** The request of a relative URL keeps the host's scheme and address, joins the two
    paths, and takes its query and fragment from the relative URL; a host or a path
    that does not parse panics instead of failing. *)
Theorem client_join_spec (url_Parse : string -> option Url) (url_String : Url -> string) host rest :
  client_join url_Parse url_String host rest =
  match url_Parse host, url_Parse rest with
  | Some base, Some ref => Ok (url_String (mkUrl (u_Rest base) (path_Join [u_Path base; u_Path ref]) (u_RawQuery ref) (u_Fragment ref)))
  | _, _ => Panic
  end.
Proof. unfold client_join, deref. by destruct (url_Parse host), (url_Parse rest). Qed.

Context `{B : Butils} `{C : Comet} {Request : Type}.
Context (unmarshal : Request -> res ComputeTopologyRequest) (encode_graph : Graph -> res string)
  (new_id : nat -> Z) (path_between : DOTGraph -> Z -> Z -> option (list Z)) (dot_Marshal : DOTGraph -> res string) (aborted : Response).

(** The topology endpoint answers 400 exactly when the request cannot be read (the
    connection being aborted aside), 500 when the answer cannot be encoded or drawn,
    and otherwise 200 with the graph of the shared state in the format asked for. *)
Theorem topology_handler_status state r (Haborted : r_Status aborted = 0) :
  let answer := topology_handler unmarshal encode_graph new_id path_between dot_Marshal aborted state r in
  (r_Status answer = 400 <-> exists e, unmarshal r = Err e) /\
  (forall req, unmarshal r = Ok req ->
     if bool_decide (Format req = "dot") then
       r_Status answer = 200 <-> exists g text, ComputeTopologyDOT new_id path_between (ComputeTopology state req) req = Ok g /\
         dot_Marshal g = Ok text /\ answer = mkResponse 200 dot_type text
     else
       r_Status answer = 200 <-> exists text, encode_graph (ComputeTopology state req) = Ok text /\
         answer = mkResponse 200 json_type (text +:+ nl)) /\
  r_Status answer ∈ [200; 400; 500; 0].
Proof.
  unfold topology_handler, RenderTopologyDOT. destruct (unmarshal r) as [req|e|].
  2:{ split_and!; [|done|set_solver]. split; [by exists e|done]. }
  2:{ split_and!; [|done|set_solver]. split; [congruence|by intros []]. }
  case_bool_decide as Ef.
  - destruct (ComputeTopologyDOT _ _ _ _) as [g| |] eqn:Eg; [destruct (dot_Marshal g) as [t| |] eqn:Et|..]; cbn;
      (split_and!; [split; [congruence|by intros []]|intros ? [= <-]; rewrite bool_decide_eq_true_2 by done|set_solver]);
      try (split; [congruence|intros (g' & t' & Hg & Ht & _); congruence]).
    split; [|done]. intros _. by exists g, t.
  - destruct (encode_graph _) as [t| |] eqn:Et; cbn;
      (split_and!; [split; [congruence|by intros []]|intros ? [= <-]; rewrite bool_decide_eq_false_2 by done|set_solver]);
      try (split; [congruence|intros (t' & Ht & _); congruence]).
    split; [|done]. intros _. by exists t.
Qed.
End HttpFacts.
