(* ===== verification/Statements.v ===== *)
(** * The statements the program does not run ([pkg/db/sqlc])

    The generated methods no caller uses: plain inserts, updates and deletions,
    point lookups and listings.  Inserts fail on a taken key where the upserts of
    [Schema] overwrite; a single-row query without a row is [sql.ErrNoRows]. *)

From S2P Require Import Prelude GoNum GoText Schema Store Relational Queries Efficiency.
From Stdlib Require Import Ascii.
Local Open Scope Z_scope.

Section Statements.
Implicit Types d : Tables.

Definition taken_error (columns : string) : string := "constraint failed: UNIQUE constraint failed: " +:+ columns +:+ " (2067)".

(** An INSERT: the UNIQUE key is checked with the row, the references when the statement ends. *)
Definition insert_row (taken : bool) (columns : string) (checked_ : res Tables) : res Tables :=
  if taken then Err (taken_error columns) else checked_.

Definition row_of {A} (o : option A) : res A := match o with Some a => Ok a | None => Err ErrNoRows end.

(** ** Votes *)

Definition CreateVote d (height round : Z) (validator : string) (voteType : Z) (row : VoteRow) : res Tables :=
  insert_row (bool_decide (is_Some (t_votes d !! (height, round, validator, voteType))))
    "votes.height, votes.round_number, votes.validator_hex_address, votes.vote_type"
    (UpsertVote d height round validator voteType row).

Definition GetVote d (height round : Z) (validator : string) (voteType : Z) : res VoteRow :=
  row_of (t_votes d !! (height, round, validator, voteType)).

Definition text_le (x y : string) : bool := String.leb x y.

(** [ORDER BY] of some columns: the first that differs decides. *)
Definition then_by (lt_ eq_ rest : bool) : bool := lt_ || (eq_ && rest).

Definition GetVotesByType d (height round voteType : Z) : list (VoteKey * VoteRow) :=
  merge_sort (fun x y => Is_true (text_le x.1.1.2 y.1.1.2))
    (filter (fun v => v.1.1.1.1 = height /\ v.1.1.1.2 = round /\ v.1.2 = voteType) (s_votes d)).

Definition GetVotesForHeight d (height : Z) : list (VoteKey * VoteRow) :=
  merge_sort (fun x y => Is_true (then_by (x.1.1.1.2 <? y.1.1.1.2) (x.1.1.1.2 =? y.1.1.1.2)
                                   (then_by (x.1.2 <? y.1.2) (x.1.2 =? y.1.2) (text_le x.1.1.2 y.1.1.2))))
    (filter (fun v => v.1.1.1.1 = height) (s_votes d)).

Definition GetVotesForValidator d (validator : string) (height : Z) : list (VoteKey * VoteRow) :=
  merge_sort (fun x y => Is_true (then_by (y.1.1.1.1 <? x.1.1.1.1) (x.1.1.1.1 =? y.1.1.1.1) (y.1.1.1.2 <=? x.1.1.1.2)))
    (filter (fun v => v.1.1.2 = validator /\ height <= v.1.1.1.1) (s_votes d)).

Record VotingPowerRow := mkVotingPowerRow { vp_prevote : option Z; vp_precommit : option Z; vp_total : Z }.

(** The snapshot of the voter at the height of the vote. *)
Definition same_voter (v : VoteKey * VoteRow) (s : (Z * string) * SnapshotRow) : bool :=
  bool_decide (v.1.1.2 = s.1.2) && (v.1.1.1.1 =? s.1.1).

Definition power_of_type (t : Z) (p : (VoteKey * VoteRow) * ((Z * string) * SnapshotRow)) : Z :=
  if (p.1.1.2 =? t) && bool_decide (is_Some (vt_BlockHash p.1.2)) then sn_VotingPower p.2.2 else 0.

Definition GetVotingPowerForRound d (height round : Z) : VotingPowerRow :=
  let rows := filter (fun p => p.1.1.1.1.1 = height /\ p.1.1.1.1.2 = round)
                (inner_join same_voter (s_votes d) (s_snapshots d)) in
  mkVotingPowerRow (sql_sum (power_of_type 1 <$> rows)) (sql_sum (power_of_type 2 <$> rows))
    (default 0 (sql_sum ((fun s => sn_VotingPower s.2) <$> filter (fun s => s.1.1 = height) (s_snapshots d)))).

(** ** Rounds *)

Definition CreateRound d (height round : Z) (row : RoundRow) : res Tables :=
  insert_row (bool_decide (is_Some (t_rounds d !! (height, round)))) "rounds.height, rounds.round_number" (UpsertRound d height round row).

Definition GetRound d (height round : Z) : res RoundRow := row_of (t_rounds d !! (height, round)).

Definition GetRoundsForHeight d (height : Z) : list ((Z * Z) * RoundRow) :=
  merge_sort (fun x y => Is_true (x.1.2 <=? y.1.2)) (filter (fun r => r.1.1 = height) (s_rounds d)).

Definition UpdateRoundStep d (step : option Z) (height round : Z) : res Tables :=
  row ← row_of (t_rounds d !! (height, round));
  Ok (set_rounds d (<[(height, round) := mkRoundRow step (rd_StartTime row) (rd_ProposerAddress row)]> (t_rounds d))).

(** ** Heights *)

Definition CreateHeight d (now height : Z) (hash : option string) (time : option Z) (proposer : option string) (total : option Z) : res Tables :=
  insert_row (bool_decide (is_Some (t_heights d !! height))) "heights.height" (UpsertHeight d now height hash time proposer total).

Definition GetHeight d (height : Z) : res HeightRow := row_of (t_heights d !! height).

Definition GetHeights d (limit : Z) : list (Z * HeightRow) :=
  let rows := merge_sort (fun x y => Is_true (y.1 <=? x.1)) (s_heights d) in
  if limit <? 0 then rows else take (Z.to_nat limit) rows.

(** ** Validators *)

Definition CreateValidator d (hex : string) (row : ValidatorRow) : res Tables :=
  insert_row (has_validator d hex) "validators.hex_address" (UpsertValidator d hex row).

Definition referenced (a : string) d : bool :=
  existsb (fun h => bool_decide (h_ProposerAddress h.2 = Some a)) (s_heights d) ||
  existsb (fun r => bool_decide (rd_ProposerAddress r.2 = Some a)) (s_rounds d) ||
  existsb (fun v => bool_decide (v.1.1.2 = a)) (s_votes d) ||
  existsb (fun s => bool_decide (s.1.2 = a)) (s_snapshots d).

Definition DeleteValidator d (hex : string) : res Tables :=
  checked (negb (has_validator d hex && referenced hex d)) (set_validators d (delete hex (t_validators d))).

Definition GetValidator d (hex : string) : res ValidatorRow := row_of (t_validators d !! hex).

Definition GetValidators d : list (string * ValidatorRow) :=
  merge_sort (fun x y => Is_true (val_VotingPower y.2 <=? val_VotingPower x.2)) (s_validators d).

Definition UpdateValidator d (hex : string) (row : ValidatorRow) : res Tables :=
  _ ← row_of (t_validators d !! hex);
  UpsertValidator d hex row.

(** ** Snapshots *)

Definition CreateValidatorSnapshot d (height : Z) (validator : string) (row : SnapshotRow) : res Tables :=
  insert_row (bool_decide (is_Some (t_snapshots d !! (height, validator))))
    "validator_snapshots.height, validator_snapshots.validator_hex_address" (UpsertValidatorSnapshot d height validator row).

(** The same statement, its row not returned. *)
Definition BatchCreateValidatorSnapshots d height validator row : res Tables := CreateValidatorSnapshot d height validator row.

Definition GetValidatorSnapshot d (height : Z) (validator : string) : res SnapshotRow := row_of (t_snapshots d !! (height, validator)).

Definition GetValidatorSnapshotsForHeight d (height : Z) : list ((Z * string) * SnapshotRow) :=
  merge_sort (fun x y => Is_true (sn_VotingPower y.2 <=? sn_VotingPower x.2)) (filter (fun s => s.1.1 = height) (s_snapshots d)).

Definition GetValidatorSnapshotsForValidator d (validator : string) (height : Z) : list ((Z * string) * SnapshotRow) :=
  merge_sort (fun x y => Is_true (y.1.1 <=? x.1.1)) (filter (fun s => s.1.2 = validator /\ height <= s.1.1) (s_snapshots d)).

(** The two updates [updateProposerInSnapshots] sends itself. *)
Definition clear_proposer_flags d (height : Z) : Tables :=
  set_snapshots d (map_imap (fun k r => Some (if k.1 =? height then flag false r else r)) (t_snapshots d)).
Definition set_proposer_flag d (height : Z) (proposer : string) : Tables :=
  set_snapshots d (alter (flag true) (height, proposer) (t_snapshots d)).

(** ** Events *)

Definition GetConsensusEventsByType d (height : Z) (ty : string) : list EventRow :=
  merge_sort (fun x y => Is_true (then_by (ev_Height y <? ev_Height x) (ev_Height x =? ev_Height y)
                                   (then_by (ev_Round y <? ev_Round x) (ev_Round x =? ev_Round y) (ev_Timestamp y <=? ev_Timestamp x))))
    (filter (fun e => height <= ev_Height e /\ ev_Type e = ty) (t_events d)).

Definition GetConsensusEventsForHeight d (height : Z) : list EventRow :=
  merge_sort (fun x y => Is_true (then_by (ev_Round x <? ev_Round y) (ev_Round x =? ev_Round y) (ev_Timestamp x <=? ev_Timestamp y)))
    (filter (fun e => ev_Height e = height) (t_events d)).

Definition GetConsensusEventsForRound d (height round : Z) : list EventRow :=
  merge_sort (fun x y => Is_true (ev_Timestamp x <=? ev_Timestamp y)) (filter (fun e => ev_Height e = height /\ ev_Round e = round) (t_events d)).

Definition GetRecentConsensusEvents d (limit : Z) : list EventRow :=
  let rows := merge_sort (fun x y => Is_true (ev_Timestamp y <=? ev_Timestamp x)) (t_events d) in
  if limit <? 0 then rows else take (Z.to_nat limit) rows.
End Statements.

(** ** Facts *)

Section StatementFacts.
Implicit Types d : Tables.

Lemma sql_sum_bound l m : sumz l <= m -> 0 <= m -> default 0 (sql_sum l) <= m.
Proof. intros H1 H2. destruct l; [done|exact H1]. Qed.

Lemma sumz_fmap_le {A} (f g : A -> Z) l : (forall a, a ∈ l -> f a <= g a) -> sumz (f <$> l) <= sumz (g <$> l).
Proof.
  induction l as [|a l IH]; intros H; [done|]. rewrite !fmap_cons, !sumz_cons.
  pose proof (H a ltac:(set_solver)). pose proof (IH ltac:(set_solver)). lia.
Qed.

(** Dropping the zero terms. *)
Lemma sumz_filter {A} (P : A -> Prop) `{!forall a, Decision (P a)} (f : A -> Z) l :
  (forall a, ~ P a -> f a = 0) -> sumz (f <$> filter P l) = sumz (f <$> l).
Proof.
  intros Hz. induction l as [|a l IH]; [done|]. rewrite filter_cons, fmap_cons, sumz_cons, <-IH.
  destruct (decide (P a)); [by rewrite fmap_cons, sumz_cons|]. by rewrite Hz.
Qed.

Lemma sumz_perm l1 l2 : Permutation l1 l2 -> sumz l1 = sumz l2.
Proof. induction 1; rewrite ?sumz_cons in *; lia. Qed.

(** A sub-collection of non-negative terms. *)
Lemma sumz_submseteq (l1 l2 : list Z) : Forall (fun x => 0 <= x) l2 -> l1 ⊆+ l2 -> sumz l1 <= sumz l2.
Proof.
  intros H [k Hk]%submseteq_Permutation. rewrite (sumz_perm _ _ Hk), sumz_app. rewrite Hk in H.
  apply Forall_app in H as [_ Hk']. pose proof (sumz_nonneg k Hk'). lia.
Qed.

Lemma NoDup_joined d : NoDup (inner_join same_voter (s_votes d) (s_snapshots d)).
Proof.
  apply NoDup_bind; [| |apply NoDup_map_to_list].
  - intros x1 x2 p _ _ (s1 & -> & _)%list_elem_of_fmap (s2 & E & _)%list_elem_of_fmap. congruence.
  - intros v _. apply NoDup_fmap_2; [intros x y; congruence|]. apply NoDup_filter, NoDup_map_to_list.
Qed.

(** The key of a vote is determined by its snapshot, its round and its type. *)
Lemma voter_once d height round t p :
  p ∈ filter (fun p => p.1.1.2 = t) (filter (fun p => p.1.1.1.1.1 = height /\ p.1.1.1.1.2 = round)
        (inner_join same_voter (s_votes d) (s_snapshots d))) ->
  p.1.1 = (height, round, p.2.1.2, t) /\ p.1 ∈ s_votes d.
Proof.
  intros [Ht [[Hh Hr] Hp]%list_elem_of_filter]%list_elem_of_filter.
  apply list_elem_of_bind in Hp as (v & (s & -> & Hs)%list_elem_of_fmap & Hv).
  apply list_elem_of_filter in Hs as [Hj _]. unfold same_voter in Hj. apply andb_true_iff in Hj as [Hj%bool_decide_eq_true _].
  cbn in *. destruct v as [[[[? ?] ?] ?] ?]. cbn in *. subst. done.
Qed.

(** The voting power counted for one kind of vote in a round. *)
Lemma round_power d height round t
    (Hpos : forall k r, t_snapshots d !! k = Some r -> 0 <= sn_VotingPower r) :
  sumz (power_of_type t <$> filter (fun p => p.1.1.1.1.1 = height /\ p.1.1.1.1.2 = round)
                (inner_join same_voter (s_votes d) (s_snapshots d))) <=
  sumz ((fun s => sn_VotingPower s.2) <$> filter (fun s => s.1.1 = height) (s_snapshots d)).
Proof.
  set (rows := filter _ (inner_join same_voter _ _)).
  set (counted := filter (fun p => p.1.1.2 = t) rows).
  transitivity (sumz ((fun s => sn_VotingPower s.2) <$> (snd <$> counted))).
  - unfold counted. rewrite <-list_fmap_compose.
    rewrite <-(sumz_filter (fun p => p.1.1.2 = t) (power_of_type t)).
    + apply sumz_fmap_le. intros p Hp. unfold power_of_type. cbn. destruct (_ && _); [lia|].
      apply list_elem_of_filter in Hp as [_ Hp]. apply list_elem_of_filter in Hp as [_ Hp].
      apply list_elem_of_bind in Hp as (v & (s & -> & Hs)%list_elem_of_fmap & _).
      apply list_elem_of_filter in Hs as [_ Hs]. destruct s as [k r]. apply elem_of_map_to_list in Hs. by eapply Hpos.
    + intros p Hp. unfold power_of_type. destruct (Z.eqb_spec p.1.1.2 t); [done|]. done.
  - apply sumz_submseteq.
    { apply Forall_fmap, Forall_forall. intros [k r] [_ Hs%elem_of_map_to_list]%list_elem_of_filter. by eapply Hpos. }
    apply fmap_submseteq, NoDup_submseteq.
    + apply NoDup_fmap_2_strong; [|apply NoDup_filter, NoDup_filter, NoDup_joined].
      intros [v1 s1] [v2 s2] H1 H2 E. cbn in E. subst s2. f_equal. apply voter_once in H1 as (K1 & V1), H2 as (K2 & V2).
      destruct v1 as [k1 r1], v2 as [k2 r2]. cbn in *. apply elem_of_map_to_list in V1, V2. congruence.
    + intros s (p & -> & Hp)%list_elem_of_fmap. apply list_elem_of_filter in Hp as [_ [[Hh _] Hp]%list_elem_of_filter].
      apply list_elem_of_bind in Hp as (v & (s & -> & Hs)%list_elem_of_fmap & _).
      apply list_elem_of_filter in Hs as [Hj Hs]. apply list_elem_of_filter. split; [|done].
      unfold same_voter in Hj. cbn in *. apply andb_true_iff in Hj as [_ Hj%Z.eqb_eq]. congruence.
Qed.

(** The voting power a round has gathered, of prevotes and of precommits for a block,
    never exceeds the total power of the validators stored at its height, whatever
    the votes: each snapshot is counted at most once per kind of vote. *)
Theorem voting_power_bounded d height round
    (Hpos : forall k r, t_snapshots d !! k = Some r -> 0 <= sn_VotingPower r) :
  let row := GetVotingPowerForRound d height round in
  default 0 (vp_prevote row) <= vp_total row /\ default 0 (vp_precommit row) <= vp_total row.
Proof.
  cbn zeta. unfold GetVotingPowerForRound. cbn [vp_prevote vp_precommit vp_total].
  rewrite !sql_sum_default. by split; apply round_power.
Qed.

(** An insert succeeds on a free key exactly when the upsert does, with its effect. *)
Lemma CreateVote_spec d h r a t row :
  CreateVote d h r a t row =
  match t_votes d !! (h, r, a, t) with
  | Some _ => Err (taken_error "votes.height, votes.round_number, votes.validator_hex_address, votes.vote_type")
  | None => UpsertVote d h r a t row
  end.
Proof. unfold CreateVote, insert_row. by destruct (t_votes d !! _). Qed.

Lemma existsb_false {X} (f : X -> bool) l x : existsb f l = false -> x ∈ l -> f x = false.
Proof.
  intros Hl Hin. apply not_true_iff_false. intros Hf. rewrite <-not_true_iff_false, existsb_exists in Hl.
  apply Hl. exists x. by rewrite <-list_elem_of_In.
Qed.

Lemma referenced_spec d a : referenced a d = false ->
  (forall h r, t_heights d !! h = Some r -> h_ProposerAddress r <> Some a) /\
  (forall k r, t_rounds d !! k = Some r -> rd_ProposerAddress r <> Some a) /\
  (forall k r, t_votes d !! k = Some r -> k.1.2 <> a) /\
  (forall k r, t_snapshots d !! k = Some r -> k.2 <> a).
Proof.
  unfold referenced. rewrite !orb_false_iff. intros [[[H1 H2] H3] H4].
  split_and!; intros k r Hk%elem_of_map_to_list.
  - by apply (existsb_false _ _ _ H1), bool_decide_eq_false in Hk.
  - by apply (existsb_false _ _ _ H2), bool_decide_eq_false in Hk.
  - by apply (existsb_false _ _ _ H3), bool_decide_eq_false in Hk.
  - by apply (existsb_false _ _ _ H4), bool_decide_eq_false in Hk.
Qed.

Lemma DeleteValidator_integrity d d' a : integrity d -> DeleteValidator d a = Ok d' -> integrity d'.
Proof.
  unfold DeleteValidator, checked. intros Hd. destruct (negb _) eqn:E; [|done]. intros [= <-].
  apply negb_true_iff, andb_false_iff in E as [E|E].
  - assert (set_validators d (delete a (t_validators d)) = d) as ->; [|done].
    rewrite delete_id; [by destruct d|]. destruct (t_validators d !! a) eqn:Ea; [|done].
    unfold has_validator in E. rewrite Ea in E. by rewrite bool_decide_eq_true_2 in E.
  - apply referenced_spec in E as (R1 & R2 & R3 & R4). destruct Hd as [H1 H2 H3 H4 H5].
    assert (Hopt : forall o, opt_known d o -> o <> Some a -> opt_known (set_validators d (delete a (t_validators d))) o).
    { intros [b|] Hb Hne; [|done]. cbn in *. by rewrite lookup_delete_ne by congruence. }
    split; cbn.
    + intros h r Hr. apply Hopt; eauto.
    + intros k r Hr. destruct (H2 k r Hr). split; [done|]. apply Hopt; eauto.
    + intros k r Hr. destruct (H3 k r Hr). split; [done|]. rewrite lookup_delete_ne; [done|]. intros E. by apply (R3 k r Hr).
    + done.
    + intros k r Hr. destruct (H5 k r Hr). split; [done|]. rewrite lookup_delete_ne; [done|]. intros E. by apply (R4 k r Hr).
Qed.

Lemma UpdateRoundStep_integrity d d' step h r : integrity d -> UpdateRoundStep d step h r = Ok d' -> integrity d'.
Proof.
  unfold UpdateRoundStep. intros [H1 H2 H3 H4 H5]. destruct (t_rounds d !! (h, r)) as [row|] eqn:E; [|done]. intros [= <-].
  split; cbn; eauto. intros k r'. destruct (decide ((h, r) = k)) as [<-|]; rewrite ?lookup_insert_eq, ?lookup_insert_ne by done; [|eauto].
  intros [= <-]. destruct (H2 (h, r) row E) as [Ha Hb]. split; [exact Ha|exact Hb].
Qed.

(** Deletions below a height. *)
Lemma delete_children_integrity d d' h :
  integrity d ->
  DeleteConsensusEventsOlderThan d h = Ok d' \/ DeleteVotesOlderThan d h = Ok d' \/
  DeleteValidatorSnapshotsOlderThan d h = Ok d' \/ DeleteRoundsOlderThan d h = Ok d' -> integrity d'.
Proof.
  intros [H1 H2 H3 H4 H5] [E|[E|[E|E]]]; injection E as <-; split; cbn; eauto.
  - intros e [_ He]%list_elem_of_filter. eauto.
  - intros k r [Hk _]%map_lookup_filter_Some. eauto.
  - intros k r [Hk _]%map_lookup_filter_Some. eauto.
  - intros k r [Hk _]%map_lookup_filter_Some. eauto.
Qed.

(** No row refers to a height that is deleted. *)
Lemma references_below_spec d h : references_below d h = false ->
  (forall k r, t_rounds d !! k = Some r -> is_Some (t_heights d !! k.1) -> h <= k.1) /\
  (forall k r, t_votes d !! k = Some r -> is_Some (t_heights d !! k.1.1.1) -> h <= k.1.1.1) /\
  (forall e, e ∈ t_events d -> is_Some (t_heights d !! ev_Height e) -> h <= ev_Height e) /\
  (forall k r, t_snapshots d !! k = Some r -> is_Some (t_heights d !! k.1) -> h <= k.1).
Proof.
  unfold references_below. rewrite !orb_false_iff. intros [[[H1 H2] H3] H4].
  assert (Hx : forall x, (x <? h) && has_height d x = false -> is_Some (t_heights d !! x) -> h <= x).
  { intros x Hb Hh. rewrite (proj2 (has_height_true d x) Hh), andb_true_r in Hb. lia. }
  split_and!.
  - intros k r Hk%elem_of_map_to_list. apply Hx. exact (existsb_false _ _ _ H1 Hk).
  - intros k r Hk%elem_of_map_to_list. apply Hx. exact (existsb_false _ _ _ H2 Hk).
  - intros e He. apply Hx. exact (existsb_false _ _ _ H3 He).
  - intros k r Hk%elem_of_map_to_list. apply Hx. exact (existsb_false _ _ _ H4 Hk).
Qed.

Lemma DeleteHeightsOlderThan_integrity d d' h : integrity d -> DeleteHeightsOlderThan d h = Ok d' -> integrity d'.
Proof.
  unfold DeleteHeightsOlderThan, checked. intros [H1 H2 H3 H4 H5]. destruct (negb _) eqn:E; [|done]. intros [= <-].
  apply negb_true_iff, references_below_spec in E as (R2 & R3 & R4 & R5).
  assert (Hkeep : forall x, is_Some (t_heights d !! x) -> h <= x ->
    is_Some (filter (fun p : Z * HeightRow => h <= p.1) (t_heights d) !! x)).
  { intros x [r Hr] Hle. exists r. by apply map_lookup_filter_Some. }
  split; cbn.
  - intros x r [Hr _]%map_lookup_filter_Some. exact (H1 x r Hr).
  - intros k r Hr. destruct (H2 k r Hr). eauto.
  - intros k r Hr. destruct (H3 k r Hr). eauto.
  - eauto.
  - intros k r Hr. destruct (H5 k r Hr). eauto.
Qed.

(** *** Every write of the data layer *)

Inductive statement : Tables -> Tables -> Prop :=
  | st_UpsertValidator d d' a row : UpsertValidator d a row = Ok d' -> statement d d'
  | st_CreateValidator d d' a row : CreateValidator d a row = Ok d' -> statement d d'
  | st_UpdateValidator d d' a row : UpdateValidator d a row = Ok d' -> statement d d'
  | st_DeleteValidator d d' a : DeleteValidator d a = Ok d' -> statement d d'
  | st_UpsertHeight d d' now h hash time p n : UpsertHeight d now h hash time p n = Ok d' -> statement d d'
  | st_CreateHeight d d' now h hash time p n : CreateHeight d now h hash time p n = Ok d' -> statement d d'
  | st_DeleteHeights d d' h : DeleteHeightsOlderThan d h = Ok d' -> statement d d'
  | st_UpsertRound d d' h r row : UpsertRound d h r row = Ok d' -> statement d d'
  | st_CreateRound d d' h r row : CreateRound d h r row = Ok d' -> statement d d'
  | st_UpdateRoundStep d d' step h r : UpdateRoundStep d step h r = Ok d' -> statement d d'
  | st_DeleteRounds d d' h : DeleteRoundsOlderThan d h = Ok d' -> statement d d'
  | st_UpsertVote d d' h r a t row : UpsertVote d h r a t row = Ok d' -> statement d d'
  | st_CreateVote d d' h r a t row : CreateVote d h r a t row = Ok d' -> statement d d'
  | st_DeleteVotes d d' h : DeleteVotesOlderThan d h = Ok d' -> statement d d'
  | st_UpsertSnapshot d d' h a row : UpsertValidatorSnapshot d h a row = Ok d' -> statement d d'
  | st_CreateSnapshot d d' h a row : CreateValidatorSnapshot d h a row = Ok d' -> statement d d'
  | st_DeleteSnapshots d d' h : DeleteValidatorSnapshotsOlderThan d h = Ok d' -> statement d d'
  | st_CreateEvent d d' row : CreateConsensusEvent d row = Ok d' -> statement d d'
  | st_DeleteEvents d d' h : DeleteConsensusEventsOlderThan d h = Ok d' -> statement d d'
  | st_ClearFlags d h : statement d (clear_proposer_flags d h)
  | st_SetFlag d h a : statement d (set_proposer_flag d h a).

Lemma insert_row_Ok taken columns r d' : insert_row taken columns r = Ok d' -> r = Ok d'.
Proof. unfold insert_row. by destruct taken. Qed.

Lemma UpdateValidator_Ok d d' a row : UpdateValidator d a row = Ok d' -> UpsertValidator d a row = Ok d'.
Proof. unfold UpdateValidator. by destruct (t_validators d !! a). Qed.

(** A create or an update that succeeds is the upsert. *)
Ltac statement_cases Hst :=
  destruct Hst as [d d' a row He|d d' a row He%insert_row_Ok|d d' a row He%UpdateValidator_Ok|d d' a He|d d' now h hash time p n He|d d' now h hash time p n He%insert_row_Ok
    |d d' h He|d d' h r row He|d d' h r row He%insert_row_Ok|d d' step h r He|d d' h He|d d' h r a t row He|d d' h r a t row He%insert_row_Ok
    |d d' h He|d d' h a row He|d d' h a row He%insert_row_Ok|d d' h He|d d' row He|d d' h He|d h|d h a].

Lemma snapshots_integrity d m :
  integrity d -> (forall k r, m !! k = Some r -> is_Some (t_snapshots d !! k)) -> integrity (set_snapshots d m).
Proof. intros [H1 H2 H3 H4 H5] Hm. split; cbn; eauto. intros k r [r' Hr]%Hm. by eapply H5. Qed.

Lemma statement_integrity d d' : statement d d' -> integrity d -> integrity d'.
Proof.
  intros Hst Hd. statement_cases Hst.
  1-3: exact (UpsertValidator_integrity _ _ _ _ Hd He).
  1: exact (DeleteValidator_integrity _ _ _ Hd He).
  1-2: exact (UpsertHeight_integrity _ _ _ _ _ _ _ _ Hd He).
  1: exact (DeleteHeightsOlderThan_integrity _ _ _ Hd He).
  1-2: exact (UpsertRound_integrity _ _ _ _ _ Hd He).
  1: exact (UpdateRoundStep_integrity _ _ _ _ _ Hd He).
  2-3: exact (UpsertVote_integrity _ _ _ _ _ _ _ Hd He).
  3-4: exact (UpsertValidatorSnapshot_integrity _ _ _ _ _ Hd He).
  4: exact (CreateConsensusEvent_integrity _ _ _ Hd He).
  5-6: apply snapshots_integrity; [done|intros k r].
  5: unfold clear_proposer_flags; rewrite map_lookup_imap; by destruct (t_snapshots d !! k).
  5: unfold set_proposer_flag; rewrite lookup_alter; case_decide; [|done]; subst k; by destruct (t_snapshots d !! (h, a)).
  all: apply (delete_children_integrity d d' h Hd); tauto.
Qed.

(** Migration 001's UNIQUE operator address. *)
Definition operators_distinct d : Prop := operator_unique d = true ->
  forall a b va vb, t_validators d !! a = Some va -> t_validators d !! b = Some vb ->
    val_OperatorAddress va = val_OperatorAddress vb -> a = b.

Lemma operators_frame d d' :
  operator_unique d' = operator_unique d -> t_validators d' = t_validators d -> operators_distinct d -> operators_distinct d'.
Proof. intros Hu Hv. unfold operators_distinct. by rewrite Hu, Hv. Qed.

Lemma UpsertValidator_operators d d' a row :
  UpsertValidator d a row = Ok d' -> operators_distinct d -> operators_distinct d'.
Proof.
  unfold UpsertValidator. destruct (operator_taken _ _ _) eqn:E; [done|]. intros [= <-] Hd Hu x y vx vy. cbn in Hu |- *.
  unfold operator_taken in E. rewrite Hu in E. cbn [andb] in E.
  assert (Hfree : forall b vb, b <> a -> t_validators d !! b = Some vb -> val_OperatorAddress vb <> val_OperatorAddress row).
  { intros b vb Hb Hvb%elem_of_map_to_list. pose proof (existsb_false _ _ _ E Hvb) as H. cbn in H.
    rewrite bool_decide_eq_false_2 in H by done. by apply bool_decide_eq_false in H. }
  destruct (decide (a = x)) as [<-|Hx], (decide (a = y)) as [<-|Hy];
    rewrite ?lookup_insert_eq, ?lookup_insert_ne by done; [done| | |by apply Hd].
  - intros [= <-] Hvy He. by destruct (Hfree y vy ltac:(done) Hvy).
  - intros Hvx [= <-] He. by destruct (Hfree x vx ltac:(done) Hvx).
Qed.

Lemma statement_operators d d' : statement d d' -> operators_distinct d -> operators_distinct d'.
Proof.
  intros Hst. statement_cases Hst.
  1-3: by eapply UpsertValidator_operators.
  - unfold DeleteValidator, checked in He. destruct (negb _); [|done]. injection He as <-. intros Hd Hu x y vx vy. cbn.
    intros [_ Hx]%lookup_delete_Some [_ Hy]%lookup_delete_Some. by eapply Hd.
  - unfold UpsertHeight, checked in He. destruct (has_validator_opt _ _); [|done]. by injection He as <-.
  - unfold UpsertHeight, checked in He. destruct (has_validator_opt _ _); [|done]. by injection He as <-.
  - unfold DeleteHeightsOlderThan, checked in He. destruct (negb _); [|done]. by injection He as <-.
  - unfold UpsertRound, checked in He. destruct (_ && _); [|done]. by injection He as <-.
  - unfold UpsertRound, checked in He. destruct (_ && _); [|done]. by injection He as <-.
  - unfold UpdateRoundStep in He. destruct (t_rounds d !! (h, r)); [|done]. by injection He as <-.
  - by injection He as <-.
  - unfold UpsertVote, checked in He. destruct (_ && _); [|done]. by injection He as <-.
  - unfold UpsertVote, checked in He. destruct (_ && _); [|done]. by injection He as <-.
  - by injection He as <-.
  - unfold UpsertValidatorSnapshot, checked in He. destruct (_ && _); [|done]. by injection He as <-.
  - unfold UpsertValidatorSnapshot, checked in He. destruct (_ && _); [|done]. by injection He as <-.
  - by injection He as <-.
  - unfold CreateConsensusEvent, checked in He. destruct (has_height _ _); [|done]. by injection He as <-.
  - by injection He as <-.
  - done.
  - done.
Qed.

(** Whatever statements of the data layer run, in any order and with any arguments,
    from an empty database and on a connection that checks foreign keys, every
    reference of every row leads to a stored height or validator and, before
    migration 002, no two validators share an operator address. *)
Theorem schema_well_formed u d (Hrun : rtc statement (empty_tables u) d) : integrity d /\ operators_distinct d.
Proof.
  assert (H0 : integrity (empty_tables u) /\ operators_distinct (empty_tables u)).
  { split; [apply empty_integrity|]. intros _ a b va vb Ha. cbn in Ha. by rewrite lookup_empty in Ha. }
  revert H0. induction Hrun as [d|d d1 d2 Hst _ IH]; [done|]. intros [Hi Ho]. apply IH.
  split; [by eapply statement_integrity|by eapply statement_operators].
Qed.
End StatementFacts.

Section StatementExamples.
Definition stmt_tables : Tables :=
  mkTables false {["AA" := mkValidatorRow "op" "pk" 5 None]} {[7 := mkHeightRow None None None None 0]} ∅
    {[(7, 0, "AA", 1) := mkVoteRow (Some "h") None None]} [] {[(7, "AA") := mkSnapshotRow 5 None None]}.

Lemma voting_power_bounded_witness : default 0 (vp_prevote (GetVotingPowerForRound stmt_tables 7 0)) <= 5.
Proof.
  refine (proj1 (voting_power_bounded stmt_tables 7 0 _)).
  intros k r. cbn. intros [_ <-]%lookup_singleton_Some. cbn. lia.
Defined.

Example voting_power_ex : GetVotingPowerForRound stmt_tables 7 0 = mkVotingPowerRow (Some 5) (Some 0) 5 /\
  GetVotingPowerForRound stmt_tables 7 1 = mkVotingPowerRow None None 5.
Proof. vm_compute. done. Qed.

Lemma schema_well_formed_witness : exists d, rtc statement (empty_tables true) d /\ has_height d 7 = true /\ integrity d /\
  operators_distinct d.
Proof.
  set (d1 := set_validators (empty_tables true) {["AA" := mkValidatorRow "op" "pk" 5 None]}).
  assert (Hr : rtc statement (empty_tables true) (set_heights d1 {[7 := mkHeightRow None None (Some "AA") None 0]})).
  { eapply rtc_l; [apply (st_CreateValidator _ d1 "AA" (mkValidatorRow "op" "pk" 5 None)); vm_compute; reflexivity|].
    apply rtc_once, (st_UpsertHeight _ _ 0 7 None None (Some "AA") None). vm_compute. reflexivity. }
  eexists. split; [exact Hr|]. split; [vm_compute; reflexivity|]. exact (schema_well_formed true _ Hr).
Defined.
End StatementExamples.
