(* ===== verification/Pool.v ===== *)
(** * The connections behind the store ([db.New] of [pkg/db/db.go])

    [sql.Open] makes a pool: whoever needs the database takes an idle connection
    and opens a new one when none is idle, as [New] sets no limit.  [PRAGMA
    foreign_keys=ON] runs once, on the one connection that exists then, and SQLite
    keeps that setting per connection.  [Schema] and [Store] describe a connection
    that checks foreign keys; here every statement says which connection runs it.
    SQLite serialises writers, so a statement or transaction is one step. *)

From S2P Require Import Prelude GoNum GoText Deps Rounds Types Schema Store Relational Queries Efficiency Statements.
From Stdlib Require Import Ascii.
Local Open Scope Z_scope.

(** ** Statements with the setting of their connection *)

(** The statements of the store, one constructor each. *)
Inductive db_stmt : Type :=
| S_validator (hex : string) (row : ValidatorRow)
| S_height (now height : Z) (hash : option string) (time : option Z) (proposer : option string) (total : option Z)
| S_round (height round : Z) (row : RoundRow)
| S_vote (height round : Z) (validator : string) (voteType : Z) (row : VoteRow)
| S_snapshot (height : Z) (validator : string) (row : SnapshotRow)
| S_event (row : EventRow)
| S_delete_events (height : Z)
| S_delete_votes (height : Z)
| S_delete_snapshots (height : Z)
| S_delete_rounds (height : Z)
| S_delete_heights (height : Z).

(** The tables a statement writes, and whether its references hold there. *)
Definition effect (s : db_stmt) (d : Tables) : bool * Tables :=
  match s with
  | S_validator hex row => (true, set_validators d (<[hex := row]> (t_validators d)))
  | S_height now height hash time proposer total =>
      let created := match t_heights d !! height with Some r => h_CreatedAt r | None => now end in
      (has_validator_opt d proposer,
       set_heights d (<[height := mkHeightRow hash time proposer total created]> (t_heights d)))
  | S_round height round row =>
      (has_height d height && has_validator_opt d (rd_ProposerAddress row),
       set_rounds d (<[(height, round) := row]> (t_rounds d)))
  | S_vote height round validator voteType row =>
      (has_height d height && has_validator d validator,
       set_votes d (<[(height, round, validator, voteType) := row]> (t_votes d)))
  | S_snapshot height validator row =>
      (has_height d height && has_validator d validator,
       set_snapshots d (<[(height, validator) := row]> (t_snapshots d)))
  | S_event row => (has_height d (ev_Height row), set_events d (t_events d ++ [row]))
  | S_delete_events height => (true, set_events d (filter (fun e => height <= ev_Height e) (t_events d)))
  | S_delete_votes height => (true, set_votes d (filter (fun p => height <= p.1.1.1.1) (t_votes d)))
  | S_delete_snapshots height => (true, set_snapshots d (filter (fun p => height <= p.1.1) (t_snapshots d)))
  | S_delete_rounds height => (true, set_rounds d (filter (fun p => height <= p.1.1) (t_rounds d)))
  | S_delete_heights height =>
      (negb (references_below d height), set_heights d (filter (fun p => height <= p.1) (t_heights d)))
  end.

(** UNIQUE constraints hold on every connection. *)
Definition unique_ok (s : db_stmt) (d : Tables) : bool :=
  match s with S_validator hex row => negb (operator_taken d hex (val_OperatorAddress row)) | _ => true end.

(** [fk]: the connection's [foreign_keys] setting. *)
Definition run_stmt (fk : bool) (s : db_stmt) (d : Tables) : res Tables :=
  if unique_ok s d then checked (negb fk || (effect s d).1) (effect s d).2 else Err unique_error.

(** [Schema]'s statements are those of a connection that checks. *)
Definition schema_stmt (s : db_stmt) (d : Tables) : res Tables :=
  match s with
  | S_validator hex row => UpsertValidator d hex row
  | S_height now height hash time proposer total => UpsertHeight d now height hash time proposer total
  | S_round height round row => UpsertRound d height round row
  | S_vote height round validator voteType row => UpsertVote d height round validator voteType row
  | S_snapshot height validator row => UpsertValidatorSnapshot d height validator row
  | S_event row => CreateConsensusEvent d row
  | S_delete_events height => DeleteConsensusEventsOlderThan d height
  | S_delete_votes height => DeleteVotesOlderThan d height
  | S_delete_snapshots height => DeleteValidatorSnapshotsOlderThan d height
  | S_delete_rounds height => DeleteRoundsOlderThan d height
  | S_delete_heights height => DeleteHeightsOlderThan d height
  end.

Lemma run_stmt_checked s d : run_stmt true s d = schema_stmt s d.
Proof.
  destruct s; try reflexivity. unfold run_stmt, schema_stmt, UpsertValidator, unique_ok.
  by destruct (operator_taken d hex (val_OperatorAddress row)).
Qed.

Section Pool.
Context `{B : Butils} `{C : Comet}.
(** The setting of a freshly opened connection. *)
Context (default_fk : bool).

(** ** Operations: one statement, or the transaction of [StoreRoundData] *)

Definition StoreRoundData_on (fk : bool) (now : Z) (clock : string -> Z -> Z) (height round : Z)
    (roundData : RoundData) : DbOp unit :=
  WithTx
    (db_seq
      (db_wrap "failed to store round"
        (exec (run_stmt fk (S_round height round
           (mkRoundRow None (Some now) (head (set_range (Proposers roundData))))))))
      (db_for (fun v => let '(a, t, b) := v in
         db_log (exec (run_stmt fk (S_vote height round a t (vote_row (clock a t) b)))))
        (round_votes roundData))).

Inductive op : Type :=
| O_stmt (s : db_stmt)
| O_round (now : Z) (clock : string -> Z -> Z) (height round : Z) (rd : RoundData).

Definition run_op (fk : bool) (o : op) (d : Tables) : Tables :=
  match o with
  | O_stmt s => (exec (run_stmt fk s) d).2
  | O_round now clock height round rd => (StoreRoundData_on fk now clock height round rd d).2
  end.

(** The same operation in [Schema] and [Store]. *)
Definition store_op (o : op) (d : Tables) : Tables :=
  match o with
  | O_stmt s => (exec (schema_stmt s) d).2
  | O_round now clock height round rd => (StoreRoundData now clock height round rd d).2
  end.

(** ** The pool *)

(** The settings of the idle connections and of those in use, by user. *)
Record Pool := mkPool { p_idle : list bool; p_busy : gmap nat bool }.

(** [sql.Open] connects to nothing. *)
Definition sql_Open : Pool := mkPool [] ∅.

(** [conn]: an idle connection, the [i]-th in the order they were given back, or a
    new one when none is idle. *)
Definition take (w i : nat) (p : Pool) : option Pool :=
  match p_idle p with
  | [] => Some (mkPool [] (<[w := default_fk]> (p_busy p)))
  | idle => (fun fk => mkPool (delete i idle) (<[w := fk]> (p_busy p))) <$> idle !! i
  end.

(** [putConn]: at most [defaultMaxIdleConns] = 2 stay open. *)
Definition give (w : nat) (p : Pool) : Pool :=
  match p_busy p !! w with
  | Some fk => mkPool (if (length (p_idle p) <? 2)%nat then fk :: p_idle p else p_idle p) (delete w (p_busy p))
  | None => p
  end.

(** [PRAGMA foreign_keys=ON] on the connection [w] holds. *)
Definition pragma_foreign_keys (w : nat) (p : Pool) : Pool := mkPool (p_idle p) (<[w := true]> (p_busy p)).

(** [New]: each [db.Exec] takes a connection and gives it back. *)
Definition exec_pragma (f : Pool -> Pool) (p : Pool) : option Pool := (fun p => give 0 (f p)) <$> take 0 0 p.
Definition New_pool : option Pool :=
  p ← exec_pragma id sql_Open; p ← exec_pragma id p; exec_pragma (pragma_foreign_keys 0) p.

Record Sys := mkSys { tables : Tables; pool : Pool }.

(** A user takes a connection, runs operations on it and gives it back; a query is
    a hold without an operation. *)
Inductive pool_event : Type := Take (w i : nat) | Run (w : nat) (o : op) | Give (w : nat).

Definition pool_step (e : pool_event) (s : Sys) : option Sys :=
  match e with
  | Take w i => if p_busy (pool s) !! w then None else mkSys (tables s) <$> take w i (pool s)
  | Run w o => (fun fk => mkSys (run_op fk o (tables s)) (pool s)) <$> p_busy (pool s) !! w
  | Give w => if p_busy (pool s) !! w then Some (mkSys (tables s) (give w (pool s))) else None
  end.

Fixpoint pool_run (es : list pool_event) (s : Sys) : option Sys :=
  match es with [] => Some s | e :: es' => s' ← pool_step e s; pool_run es' s' end.

(** Nobody takes a connection while another one is in use. *)
Fixpoint one_at_a_time (es : list pool_event) (s : Sys) : Prop :=
  match es with
  | [] => True
  | e :: es' =>
      match e with Take _ _ => p_busy (pool s) = ∅ | _ => True end /\
      forall s', pool_step e s = Some s' -> one_at_a_time es' s'
  end.

Definition opened (u : bool) : option Sys := mkSys (empty_tables u) <$> New_pool.

(** ** Facts *)

Lemma StoreRoundData_on_checked now clock h r rd d :
  StoreRoundData_on true now clock h r rd d = StoreRoundData now clock h r rd d.
Proof.
  unfold StoreRoundData_on, StoreRoundData, WithTx, db_seq, db_bind.
  change (exec (run_stmt true (S_round h r (mkRoundRow None (Some now) (head (set_range (Proposers rd)))))))
    with (exec (fun d => UpsertRound d h r (mkRoundRow None (Some now) (head (set_range (Proposers rd)))))).
  destruct (db_wrap _ _ d) as [[[]| |] d1]; [|done..].
  assert (E : forall l d, db_for (fun v => let '(a, t, b) := v in
     db_log (exec (run_stmt true (S_vote h r a t (vote_row (clock a t) b))))) l d = db_for (store_vote clock h r) l d).
  { induction l as [|[[a t] b] l IH]; intros d'; [done|]. cbn [db_for]. unfold db_seq, db_bind.
    change (db_log (exec (run_stmt true (S_vote h r a t (vote_row (clock a t) b)))) d')
      with (store_vote clock h r (a, t, b) d').
    destruct (store_vote clock h r (a, t, b) d') as [[[]| |] d2]; [apply IH|done..]. }
  by rewrite E.
Qed.

Lemma run_op_checked o d : run_op true o d = store_op o d.
Proof.
  destruct o as [s|now clock h r rd]; cbn.
  - unfold exec. by rewrite run_stmt_checked.
  - by rewrite StoreRoundData_on_checked.
Qed.

Lemma schema_stmt_integrity s d d' : integrity d -> schema_stmt s d = Ok d' -> integrity d'.
Proof.
  intros Hi Hs. apply (statement_integrity d d'); [|done].
  destruct s; [eapply st_UpsertValidator|eapply st_UpsertHeight|eapply st_UpsertRound|eapply st_UpsertVote
    |eapply st_UpsertSnapshot|eapply st_CreateEvent|eapply st_DeleteEvents|eapply st_DeleteVotes
    |eapply st_DeleteSnapshots|eapply st_DeleteRounds|eapply st_DeleteHeights]; exact Hs.
Qed.

Lemma run_stmt_integrity s : preserves integrity (exec (run_stmt true s)).
Proof. apply preserves_exec. intros d d' Hd. rewrite run_stmt_checked. by apply schema_stmt_integrity. Qed.

Lemma run_op_integrity o d : integrity d -> integrity (run_op true o d).
Proof.
  revert d. destruct o as [s|now clock h r rd]; [apply run_stmt_integrity|]. cbn [run_op].
  change (preserves integrity (StoreRoundData_on true now clock h r rd)).
  apply preserves_tx, preserves_seq; [apply preserves_wrap, run_stmt_integrity|].
  apply preserves_for. intros [[a t] b] _. apply preserves_log, run_stmt_integrity.
Qed.

(** Everybody who holds a connection, and every idle one, checks foreign keys;
    while nothing is held the one connection is idle. *)
Definition pool_ok (p : Pool) : Prop :=
  (exists w, p_idle p = [] /\ p_busy p = {[w := true]}) \/ (p_idle p = [true] /\ p_busy p = ∅).

Lemma New_pool_ok : exists p, New_pool = Some p /\ pool_ok p.
Proof. eexists. split; [reflexivity|]. by right. Qed.

Lemma pool_step_ok e s s' :
  match e with Take _ _ => p_busy (pool s) = ∅ | _ => True end ->
  pool_step e s = Some s' -> pool_ok (pool s) /\ integrity (tables s) -> pool_ok (pool s') /\ integrity (tables s').
Proof.
  destruct s as [d [idle busy]]. intros Hone Hs [Hp Hi]. unfold pool_ok in Hp. cbn in *. unfold pool_step in Hs. cbn in Hs.
  destruct e as [w i|w o|w].
  - subst busy. rewrite lookup_empty in Hs. destruct Hp as [(w' & _ & Hb)|[-> _]].
    + by apply (f_equal (lookup w')) in Hb; cbn in Hb; rewrite lookup_empty, lookup_singleton_eq in Hb.
    + destruct i as [|[|i]]; cbn in Hs; [|done..]. injection Hs as <-. split; [|done]. left. by exists w.
  - destruct (busy !! w) as [fk|] eqn:Ew; [|done]. injection Hs as <-. split; [exact Hp|]. cbn.
    destruct Hp as [(w' & _ & ->)|[_ ->]]; [|by rewrite lookup_empty in Ew].
    apply lookup_singleton_Some in Ew as [_ <-]. by apply run_op_integrity.
  - destruct (busy !! w) as [fk|] eqn:Ew; [|done]. injection Hs as <-. split; [|done]. cbn.
    destruct Hp as [(w' & -> & ->)|[_ ->]]; [|by rewrite lookup_empty in Ew].
    pose proof Ew as [-> _]%lookup_singleton_Some. right. unfold give. cbn.
    rewrite lookup_singleton_eq. cbn. by rewrite delete_singleton_eq.
Qed.

Lemma pool_run_ok es s s' :
  one_at_a_time es s -> pool_run es s = Some s' ->
  pool_ok (pool s) /\ integrity (tables s) -> pool_ok (pool s') /\ integrity (tables s').
Proof.
  revert s. induction es as [|e es IH]; intros s; cbn; [by intros _ [= ->]|].
  intros [H1 H2] (s1 & E1 & Hr)%bind_Some Hs. apply (IH s1); [by apply H2|done|by eapply pool_step_ok].
Qed.
End Pool.

(** ** What the single pragma is worth *)

Section PoolTheorem.
Context `{B : Butils} `{C : Comet}.

(** A round of an unknown height, stored on a connection that does not check. *)
Lemma unchecked_round now clock h r rd d : t_heights d = ∅ ->
  let d' := run_op false (O_round now clock h r rd) d in
  t_heights d' = ∅ /\ is_Some (t_rounds d' !! (h, r)) /\ ~ integrity d'.
Proof.
  intros Hd. set (row := mkRoundRow None (Some now) (head (set_range (Proposers rd)))).
  set (d1 := set_rounds d (<[(h, r) := row]> (t_rounds d))).
  set (store := fun v : string * Z * BlockID => let '(a, t, b) := v in
    db_log (exec (run_stmt false (S_vote h r a t (vote_row (clock a t) b))))).
  set (votes := db_for store (round_votes rd)).
  pose (P := fun e : Tables => t_heights e = ∅ /\ t_rounds e = t_rounds d1).
  assert (Hv : preserves P votes).
  { apply preserves_for. intros [[a t] b] _. apply preserves_log, preserves_exec.
    intros e e' He [= <-]. exact He. }
  assert (Ht : forall l e, (db_for store l e).1 = Ok tt).
  { induction l as [|[[a t] b] l IH]; intros e; [done|]. apply IH. }
  assert (E : run_op false (O_round now clock h r rd) d = (votes d1).2).
  { change (run_op false (O_round now clock h r rd) d) with (WithTx (fun _ => votes d1) d).2.
    unfold WithTx. specialize (Ht (round_votes rd) d1). fold votes in Ht. by destruct (votes d1) as [[[]| |] e]. }
  cbn zeta. rewrite E. destruct (Hv d1 (conj Hd eq_refl)) as [Hh Hr].
  assert (Hrow : t_rounds (votes d1).2 !! (h, r) = Some row) by (rewrite Hr; apply lookup_insert_eq).
  split; [exact Hh|]. split; [by exists row|]. intros Hi. destruct (int_rounds _ Hi _ _ Hrow) as [[x Hx] _].
  cbn in Hx. by rewrite Hh, lookup_empty in Hx.
Qed.

(** C22: [New] turns foreign keys on for one connection of a pool without a limit.
    As long as nobody takes a connection while another is in use, that connection
    serves everybody, whatever a new one's setting: whoever holds it runs every
    operation as [Schema] and [Store] describe, and every reference resolves.
    Where a new connection does not check, SQLite's default, two overlapping
    queries are enough to leave an unchecked connection in the pool, on which a
    [StoreRoundData] that runs alone stores a round of a height the database does
    not have. *)
Theorem foreign_keys_on_one_connection u now clock h r rd :
  (forall default es s s', opened default u = Some s -> one_at_a_time default es s ->
     pool_run default es s = Some s' ->
     integrity (tables s') /\
     forall w o, is_Some (p_busy (pool s') !! w) ->
       pool_step default (Run w o) s' = Some (mkSys (store_op o (tables s')) (pool s'))) /\
  exists s', opened false u ≫= pool_run false
      [Take 0 0; Take 1 0; Give 0; Give 1; Take 2 0; Run 2 (O_round now clock h r rd); Give 2] = Some s' /\
    t_heights (tables s') = ∅ /\ is_Some (t_rounds (tables s') !! (h, r)) /\ ~ integrity (tables s').
Proof.
  split.
  - intros default es s s' Ho H1 Hr. destruct (New_pool_ok default) as (p & Ep & Hp).
    unfold opened in Ho. rewrite Ep in Ho. injection Ho as <-.
    destruct (pool_run_ok default es _ s' H1 Hr (conj Hp (empty_integrity u))) as [Hok Hi]. split; [exact Hi|].
    intros w o Hw. unfold pool_step. destruct Hok as [(w' & _ & Hb)|[_ Hb]]; rewrite Hb in Hw |- *.
    + destruct (decide (w' = w)) as [->|Hne]; [|rewrite lookup_singleton_ne in Hw by done; by destruct Hw].
      rewrite lookup_singleton_eq. cbn. by rewrite run_op_checked.
    + rewrite lookup_empty in Hw. by destruct Hw.
  - exists (mkSys (run_op false (O_round now clock h r rd) (empty_tables u)) (mkPool [false; true] ∅)).
    split; [reflexivity|]. by apply unchecked_round.
Qed.
End PoolTheorem.

(** One user stores a height and gives its connection back. *)
Definition w_events : list pool_event :=
  [Take 0 0; Run 0 (O_stmt (S_height 1 5 None None None None)); Give 0; Take 1 0].

Lemma foreign_keys_on_one_connection_witness :
  (exists s s', opened false true = Some s /\
    pool_run (B := ref_butils) (C := ref_comet) false w_events s = Some s' /\
    is_Some (t_heights (tables s') !! 5) /\ integrity (tables s')) /\
  exists s', opened false true ≫= pool_run (B := ref_butils) (C := ref_comet) false
      [Take 0 0; Take 1 0; Give 0; Give 1; Take 2 0; Run 2 (O_round 200 (fun _ _ => 201) 7 0 w_round); Give 2] = Some s' /\
    ~ integrity (tables s').
Proof.
  destruct (foreign_keys_on_one_connection (B := ref_butils) (C := ref_comet) true 200 (fun _ _ => 201) 7 0 w_round)
    as [Hseq (s' & Hrun & _ & _ & Hbad)].
  split; [|by exists s'].
  assert (Ho : opened false true = Some (mkSys (empty_tables true) (mkPool [true] ∅)))
    by reflexivity.
  eexists _, _. split; [exact Ho|]. split; [reflexivity|]. split; [by eexists|].
  refine (proj1 (Hseq false w_events _ _ Ho _ eq_refl)).
  split; [done|]. intros s1 [= <-]. split; [done|]. intros s2 [= <-]. split; [done|]. intros s3 [= <-].
  split; [reflexivity|]. by intros s4 [= <-].
Defined.
