(* ===== verification/Faults.v ===== *)
(** * A database that fails ([pkg/db/db.go], [pkg/db/consensus_store.go])

    [Store] says what the statements do when the database accepts them.  Here every
    request to it (a statement, a query, [BeginTx], [Commit]) may be refused: the
    disk is full, another process holds the lock, the context was cancelled.  Each
    operation is restated with every error path it has, and the application is run
    over it. *)

From S2P Require Import Prelude GoNum GoText Deps Rounds Types MetricTypes State Equivocation Asn Timing Health Builder Schema Store Relational Queries Efficiency Statements CometRPC Cosmos Fetcher Crawler App Interleave Persistence.
Local Open Scope Z_scope.

(** ** The driver *)

(** The outcome of each request to come, an error or none; beyond the end the
    database accepts everything.  A refused request has no effect. *)
Record Driver := mkDriver { dr_script : list (option string); dr_tables : Tables }.

Definition FOp : Type -> Type := Op Driver.

Definition outcome (script : list (option string)) : option string := mjoin (head script).

Definition request {A} (m : DbOp A) : FOp A := fun D =>
  match outcome (dr_script D) with
  | Some e => (Err e, mkDriver (tail (dr_script D)) (dr_tables D))
  | None => let '(r, d) := m (dr_tables D) in (r, mkDriver (tail (dr_script D)) d)
  end.

Definition f_exec (f : Tables -> res Tables) : FOp unit := request (exec f).
Definition f_query {A} (q : Tables -> res A) : FOp A := request (fun d => (q d, d)).

(** [tx.Rollback]: the tables as they were at [BeginTx]. *)
Definition rollback (d : Tables) (D : Driver) : Driver := mkDriver (dr_script D) d.

(** [Commit] either keeps everything or, refused, nothing. *)
Definition f_WithTx (fn : FOp unit) : FOp unit :=
  db_seq (db_wrap "beginning tx" (request (db_ret tt))) (fun D =>
    match db_wrap "running tx body" fn D with
    | (Ok tt, D') =>
        match db_wrap "committing tx" (request (db_ret tt)) D' with
        | (Ok tt, D') => (Ok tt, D')
        | (r, D') => (r, rollback (dr_tables D) D')
        end
    | (r, D') => (r, rollback (dr_tables D) D')
    end).

(** ** Retention *)

Definition days_cutoff (h : option Z) : list Z :=
  match h with Some h => if 0 <? h then [h - 1] else [] | None => [] end.

Definition largest (cutoffs : list Z) : Z :=
  match cutoffs with [] => 0 | c :: cs => foldl (fun m c => if m <? c then c else m) c cs end.

(** The day window and the choice of the larger cutoff; the [err != sql.ErrNoRows]
    of the query leaves its value NULL. *)
Definition f_days_cutoff (config : Config) (now : Z) (cutoffs : list Z) : FOp Z := fun D =>
  if 0 <? MaxRetainDays config then
    match f_query (fun d => Ok (GetMinHeightAfterTime d (time_Add now (- (MaxRetainDays config * Day))))) D with
    | (Ok raw, D') => (Ok (largest (cutoffs ++ days_cutoff raw)), D')
    | (Err e, D') =>
        if bool_decide (e = ErrNoRows) then (Ok (largest cutoffs), D')
        else (Err ("failed to get height for time cutoff: " +:+ e), D')
    | (Panic, D') => (Panic, D')
    end
  else (Ok (largest cutoffs), D).

Definition f_computeCutoffHeight (config : Config) (now : Z) : FOp Z := fun D =>
  if 0 <? MaxRetainBlocks config then
    match f_query GetLatestHeight D with
    | (Ok latest, D') => f_days_cutoff config now [int64 (latest - MaxRetainBlocks config)] D'
    | (Err e, D') =>
        if bool_decide (e = ErrNoRows) then (Ok 0, D') else (Err ("failed to get latest height: " +:+ e), D')
    | (Panic, D') => (Panic, D')
    end
  else f_days_cutoff config now [] D.

(** The five deletions are not in a transaction. *)
Definition deletions (cutoff : Z) : FOp unit :=
  db_seq (db_wrap "failed to delete old consensus events" (f_exec (fun d => DeleteConsensusEventsOlderThan d cutoff)))
 (db_seq (db_wrap "failed to delete old votes" (f_exec (fun d => DeleteVotesOlderThan d cutoff)))
 (db_seq (db_wrap "failed to delete old validator snapshots" (f_exec (fun d => DeleteValidatorSnapshotsOlderThan d cutoff)))
 (db_seq (db_wrap "failed to delete old rounds" (f_exec (fun d => DeleteRoundsOlderThan d cutoff)))
         (db_wrap "failed to delete old heights" (f_exec (fun d => DeleteHeightsOlderThan d cutoff)))))).

Definition f_CleanupOldData (config : Config) (now : Z) : FOp unit :=
  db_bind (f_computeCutoffHeight config now) (fun cutoff =>
    if cutoff <=? 0 then db_ret tt else deletions cutoff).

(** ** The consensus store *)

Section Faults.
Context `{B : Butils} `{C : Comet}.

Definition f_store_vote (clock : string -> Z -> Z) (height round : Z) (v : string * Z * BlockID) : FOp unit :=
  let '(validatorAddr, voteType, blockID) := v in
  db_log (f_exec (fun d => UpsertVote d height round validatorAddr voteType (vote_row (clock validatorAddr voteType) blockID))).

Definition f_StoreRoundData (now : Z) (clock : string -> Z -> Z) (height round : Z) (roundData : RoundData) : FOp unit :=
  f_WithTx
    (db_seq
      (db_wrap "failed to store round"
        (f_exec (fun d => UpsertRound d height round
           (mkRoundRow None (Some now) (head (set_range (Proposers roundData)))))))
      (db_for (f_store_vote clock height round) (round_votes roundData))).

(** A validator that was refused has no snapshot either ([continue]). *)
Definition f_store_validator (height : Z) (v : TMValidator) : FOp unit :=
  db_bind (db_lift (cv ← deref (tv_Comet v); key ← deref (cv_PubKey cv); Ok (cv, key))) (fun '(cv, key) =>
    db_log (db_seq
      (f_exec (fun d => UpsertValidator d (GetDisplayAddress v)
        (mkValidatorRow (operator_or_hex v) (hex_encode false key) (cv_VotingPower cv) (moniker_param v))))
      (f_exec (fun d => UpsertValidatorSnapshot d height (GetDisplayAddress v)
        (mkSnapshotRow (cv_VotingPower cv) (Some (snapshot_percent v)) None))))).

Definition f_StoreValidators (now height : Z) (validators : list TMValidator) : FOp unit :=
  f_WithTx
    (db_seq
      (db_wrap "failed to store height"
        (f_exec (fun d => UpsertHeight d now height None None None (Some (Z.of_nat (length validators))))))
      (db_for (f_store_validator height) validators)).

Definition f_StoreConsensusEvent (now height round : Z) (eventType : string)
    (eventData : option (list (string * string))) : FOp unit :=
  db_wrap "failed to store consensus event"
    (f_exec (fun d => CreateConsensusEvent d (mkEventRow height round eventType (json_object <$> eventData) now))).

Definition f_updateProposerInSnapshots (height : Z) (proposerAddr : string) : FOp unit :=
  db_seq
    (db_wrap "failed to clear proposer flags" (f_exec (fun d => Ok (set_snapshots d
      (map_imap (fun k r => Some (if k.1 =? height then flag false r else r)) (t_snapshots d))))))
    (db_wrap "failed to set proposer flag" (f_exec (fun d => Ok (set_snapshots d
      (alter (flag true) (height, proposerAddr) (t_snapshots d)))))).

Definition f_store_event (now : Z) (e : TMEventData) : FOp unit :=
  match e with
  | EventDataNewRound height round proposer =>
      db_seq
        (db_log (f_StoreConsensusEvent now height round "new_round" (Some [("proposer", HexBytes_String proposer)])))
        (db_log (f_updateProposerInSnapshots height (HexBytes_String proposer)))
  | EventDataVote None => fun D => (Panic, D)
  | EventDataVote (Some x) =>
      let voteType := if v_Type x =? PrecommitType then "precommit" else "prevote" in
      db_log (f_StoreConsensusEvent now (v_Height x) (v_Round x) voteType
        (Some [("block_id", HexBytes_String (bid_Hash (v_BlockID x)));
               ("validator", HexBytes_String (v_ValidatorAddress x))]))
  | _ => db_ret tt
  end.

Definition f_StoreCometBFTEvents (clock : TMEventData -> Z) (evs : list TMEventData) : FOp unit :=
  db_for (fun e => f_store_event (clock e) e) evs.

(** A round whose votes cannot be read is left out, its proposer too. *)
Definition f_load_round (m : RoundDataMap) (p : (Z * Z) * RoundRow) : FOp RoundDataMap := fun D =>
  match f_query (fun d => Ok (GetVotesForRound d p.1.1 p.1.2)) D with
  | (Ok votes, D') =>
      let m := match rd_ProposerAddress p.2 with Some a => AddProposer m p.1.1 (int32 p.1.2) a | None => m end in
      (Ok (foldl (fun m v => AddVote m p.1.1 (int32 p.1.2) v.1.1 (int32 v.1.2) (loaded_block v.2)) m votes), D')
  | (Err _, D') => (Ok m, D')
  | (Panic, D') => (Panic, D')
  end.

Fixpoint f_load_rounds (m : RoundDataMap) (rounds : list ((Z * Z) * RoundRow)) : FOp RoundDataMap :=
  match rounds with
  | [] => db_ret m
  | p :: rounds' => db_bind (f_load_round m p) (fun m => f_load_rounds m rounds')
  end.

Definition f_LoadRoundDataMap (fromHeight toHeight : Z) : FOp RoundDataMap :=
  db_bind (db_wrap "failed to get rounds" (f_query (fun d => Ok (GetRoundsInRange d fromHeight toHeight))))
    (f_load_rounds NewRoundDataMap).

Definition faulty_storer (config : Config) : ConsensusStorer Driver := {|
  storer_StoreRoundData := f_StoreRoundData;
  storer_StoreValidators := f_StoreValidators;
  storer_StoreCometBFTEvents := f_StoreCometBFTEvents;
  storer_CleanupOldData := f_CleanupOldData config |}.

(** *** What gets through *)

(** Of a list handled one request each, the elements whose request is accepted. *)
Fixpoint undisturbed {A} (script : list (option string)) (l : list A) : list A :=
  match l with
  | [] => []
  | x :: l' =>
      match outcome script with
      | None => x :: undisturbed (tail script) l'
      | Some _ => undisturbed (tail script) l'
      end
  end.

(** From here on the database accepts everything. *)
Definition calm (D : Driver) : Prop := Forall (eq None) (dr_script D).

(** On a calm database the operation is the one of [Store]. *)
Definition follows {A} (m : FOp A) (m0 : DbOp A) : Prop := forall D, calm D ->
  calm (m D).2 /\ ((m D).1, dr_tables (m D).2) = m0 (dr_tables D).
End Faults.

(** ** Facts *)

(** An invariant of the tables, of the driver. *)
Notation on_tables P := (fun D : Driver => P (dr_tables D)).

Lemma drop_tail {A} n (l : list A) : drop n (tail l) = drop (S n) l.
Proof. destruct l; cbn; [by rewrite drop_nil|done]. Qed.

Lemma undisturbed_sublist {A} script (l : list A) : undisturbed script l `sublist_of` l.
Proof.
  revert script. induction l as [|x l IH]; intros script; cbn; [constructor|].
  destruct (outcome script); [by apply sublist_cons|by apply sublist_skip].
Qed.

Lemma undisturbed_calm {A} script (l : list A) : Forall (eq None) script -> undisturbed script l = l.
Proof.
  revert script. induction l as [|x l IH]; intros script Hs; cbn; [done|].
  destruct Hs as [|o s <- Hs]; cbn; by rewrite IH.
Qed.

Lemma preserves_request {A} (P : Tables -> Prop) (m : DbOp A) :
  preserves P m -> preserves (on_tables P) (request m).
Proof.
  intros Hm D HD. unfold request. destruct (outcome _); [exact HD|].
  specialize (Hm (dr_tables D) HD). by destruct (m (dr_tables D)).
Qed.

Lemma preserves_query {A} (P : Tables -> Prop) (q : Tables -> res A) : preserves (on_tables P) (f_query q).
Proof. apply preserves_request. by intros d Hd. Qed.

Lemma preserves_f_exec (P : Tables -> Prop) f :
  (forall d d', P d -> f d = Ok d' -> P d') -> preserves (on_tables P) (f_exec f).
Proof. intros H. apply preserves_request. by apply preserves_exec. Qed.

Lemma preserves_f_tx (P : Tables -> Prop) m : preserves (on_tables P) m -> preserves (on_tables P) (f_WithTx m).
Proof.
  intros Hm. apply preserves_seq; [apply preserves_wrap, preserves_request, preserves_ret|].
  intros D HD. pose proof (preserves_wrap _ "running tx body" m Hm D HD) as Hb.
  destruct (db_wrap "running tx body" m D) as [[[]|e|] D']; [|exact HD..].
  pose proof (preserves_wrap _ "committing tx" (request (db_ret tt))
    (preserves_request P _ (preserves_ret P tt)) D' Hb) as Hc.
  by destruct (db_wrap "committing tx" (request (db_ret tt)) D') as [[[]|e|] D''].
Qed.

#[export] Hint Resolve preserves_request preserves_query preserves_f_exec preserves_f_tx : dbop.

(** *** A calm database *)

Lemma db_wrap_eq {St A} ctx (m : Op St A) d : db_wrap ctx m d = (wrap_err ctx (m d).1, (m d).2).
Proof. unfold db_wrap. by destruct (m d). Qed.

Lemma follows_request {A} (m : DbOp A) : follows (request m) m.
Proof.
  intros [script d] Hc. unfold request, calm in *; cbn in *.
  destruct Hc as [|o s <- Hs]; cbn; destruct (m d); (split; [|done]); [constructor|done].
Qed.
Lemma follows_ret {A} (a : A) : follows (db_ret a) (db_ret a).
Proof. by intros D Hc. Qed.
Lemma follows_lift {A} (r : res A) : follows (db_lift r) (db_lift r).
Proof. by intros D Hc. Qed.
Lemma follows_bind {A A'} (m : FOp A) m0 (f : A -> FOp A') f0 :
  follows m m0 -> (forall a, follows (f a) (f0 a)) -> follows (db_bind m f) (db_bind m0 f0).
Proof.
  intros Hm Hf D Hc. destruct (Hm D Hc) as [Hc' E]. unfold db_bind. rewrite <-E.
  destruct (m D) as [[a|e|] D']; cbn in *; [by apply Hf|done..].
Qed.
Lemma follows_seq m m0 k k0 : follows m m0 -> follows k k0 -> follows (db_seq m k) (db_seq m0 k0).
Proof. intros. by apply follows_bind. Qed.
Lemma follows_wrap {A} ctx (m : FOp A) m0 : follows m m0 -> follows (db_wrap ctx m) (db_wrap ctx m0).
Proof. intros Hm D Hc. destruct (Hm D Hc) as [Hc' E]. unfold db_wrap. rewrite <-E. by destruct (m D). Qed.
Lemma follows_log m m0 : follows m m0 -> follows (db_log m) (db_log m0).
Proof.
  intros Hm D Hc. destruct (Hm D Hc) as [Hc' E]. unfold db_log. rewrite <-E. by destruct (m D) as [[[]| |]].
Qed.
Lemma follows_for {A} (f : A -> FOp unit) f0 l :
  (forall x, follows (f x) (f0 x)) -> follows (db_for f l) (db_for f0 l).
Proof. intros Hf. induction l; cbn; [apply follows_ret|by apply follows_seq]. Qed.
Lemma follows_tx m m0 : follows m m0 -> follows (f_WithTx m) (WithTx m0).
Proof.
  intros Hm D Hc. unfold f_WithTx, db_seq, db_bind.
  destruct (follows_wrap "beginning tx" _ _ (follows_request (db_ret tt)) D Hc) as [Hc1 E1].
  destruct (db_wrap "beginning tx" _ D) as [r1 D1]. cbn in E1. injection E1 as -> E1. cbn in Hc1.
  destruct (Hm D1 Hc1) as [Hc2 E2]. rewrite !(db_wrap_eq _ m). unfold WithTx. rewrite <-E1, <-E2.
  destruct (m D1) as [[[]|e|] D2]; cbn in Hc2 |- *; [|done..].
  destruct (follows_wrap "committing tx" _ _ (follows_request (db_ret tt)) D2 Hc2) as [Hc3 E3].
  destruct (db_wrap "committing tx" _ D2) as [r3 D3]. cbn in E3, Hc3. injection E3 as -> E3.
  split; [done|]. cbn. by rewrite E3.
Qed.

Create HintDb calm.
#[export] Hint Resolve follows_request follows_ret follows_lift follows_bind follows_seq follows_wrap
  follows_log follows_for follows_tx : calm.

Section FaultFacts.
Context `{BL : ButilsLaws} `{CL : CometLaws}.

Lemma cutoff_eq config now d :
  computeCutoffHeight config now d =
  (let by_days := if 0 <? MaxRetainDays config
     then days_cutoff (GetMinHeightAfterTime d (time_Add now (- (MaxRetainDays config * Day)))) else [] in
   if 0 <? MaxRetainBlocks config then
     match GetLatestHeight d with
     | Ok latest => Ok (largest (int64 (latest - MaxRetainBlocks config) :: by_days))
     | Err e => if bool_decide (e = ErrNoRows) then Ok 0 else Err ("failed to get latest height: " +:+ e)
     | Panic => Panic
     end
   else Ok (largest by_days)).
Proof.
  unfold computeCutoffHeight, days_cutoff. cbv zeta.
  destruct (0 <? MaxRetainDays config), (GetMinHeightAfterTime d (time_Add now (- (MaxRetainDays config * Day)))) as [h|], (0 <? MaxRetainBlocks config), (GetLatestHeight d);
    try destruct (0 <? h); reflexivity.
Qed.

Lemma query_calm {A} (q : Tables -> res A) D : calm D ->
  exists D', f_query q D = (q (dr_tables D), D') /\ calm D' /\ dr_tables D' = dr_tables D.
Proof.
  intros H0. destruct (follows_request (fun d => (q d, d)) D H0) as [H1 H2].
  unfold f_query. destruct (request _ D) as [r D']. cbn in *. injection H2 as -> E. eauto.
Qed.

Lemma follows_days config now cs :
  follows (f_days_cutoff config now cs) (fun d => (Ok (largest (cs ++ if 0 <? MaxRetainDays config
    then days_cutoff (GetMinHeightAfterTime d (time_Add now (- (MaxRetainDays config * Day)))) else [])), d)).
Proof.
  intros D Hc. unfold f_days_cutoff. destruct (0 <? MaxRetainDays config); [|by rewrite app_nil_r].
  match goal with |- context [f_query ?q D] => destruct (query_calm q D Hc) as (D' & -> & H1 & H2) end.
  cbn. by rewrite H2.
Qed.

Lemma follows_cutoff config now :
  follows (f_computeCutoffHeight config now) (fun d => (computeCutoffHeight config now d, d)).
Proof.
  intros D Hc. rewrite cutoff_eq. unfold f_computeCutoffHeight. cbv zeta.
  destruct (0 <? MaxRetainBlocks config); [|by apply follows_days].
  destruct (query_calm GetLatestHeight D Hc) as (D' & -> & H1 & H2). rewrite <-H2.
  destruct (GetLatestHeight (dr_tables D')) as [latest|e|]; [by apply follows_days|by destruct (bool_decide _)|done].
Qed.

Lemma follows_cleanup config now : follows (f_CleanupOldData config now) (CleanupOldData config now).
Proof.
  assert (H : follows (f_CleanupOldData config now)
    (db_bind (fun d => (computeCutoffHeight config now d, d)) (fun c => if c <=? 0 then db_ret tt else
      db_seq (db_wrap "failed to delete old consensus events" (exec (fun d => DeleteConsensusEventsOlderThan d c)))
     (db_seq (db_wrap "failed to delete old votes" (exec (fun d => DeleteVotesOlderThan d c)))
     (db_seq (db_wrap "failed to delete old validator snapshots" (exec (fun d => DeleteValidatorSnapshotsOlderThan d c)))
     (db_seq (db_wrap "failed to delete old rounds" (exec (fun d => DeleteRoundsOlderThan d c)))
             (db_wrap "failed to delete old heights" (exec (fun d => DeleteHeightsOlderThan d c))))))))).
  { apply follows_bind; [apply follows_cutoff|]. intros c. destruct (c <=? 0); [apply follows_ret|].
    unfold deletions, f_exec. auto 12 with calm. }
  intros D Hc. exact (H D Hc).
Qed.

Lemma follows_round now clock h r rd : follows (f_StoreRoundData now clock h r rd) (StoreRoundData now clock h r rd).
Proof.
  apply follows_tx, follows_seq; [apply follows_wrap, follows_request|].
  apply follows_for. intros [[a t] b]. apply follows_log, follows_request.
Qed.

Lemma follows_validators now h vs : follows (f_StoreValidators now h vs) (StoreValidators now h vs).
Proof.
  apply follows_tx, follows_seq; [apply follows_wrap, follows_request|].
  apply follows_for. intros v. apply follows_bind; [apply follows_lift|]. intros [cv key] D Hc.
  match goal with |- context [db_log (db_seq (f_exec ?u) (f_exec ?s)) D] =>
    destruct (follows_log _ _ (follows_seq _ _ _ _ (follows_request (exec u)) (follows_request (exec s))) D Hc) as [H1 H2] end.
  split; [exact H1|]. unfold f_exec. rewrite H2. unfold db_log, db_seq, db_bind, exec.
  by destruct (UpsertValidator _ _ _).
Qed.

Lemma follows_events clock evs : follows (f_StoreCometBFTEvents clock evs) (StoreCometBFTEvents clock evs).
Proof.
  apply follows_for. intros [h r p|[x|]|h r s|]; unfold f_store_event, store_event.
  - apply follows_seq; apply follows_log; [apply follows_wrap, follows_request|].
    apply follows_seq; intros D Hc;
      match goal with |- context [db_wrap ?c (f_exec ?f) D] =>
        destruct (follows_wrap c _ _ (follows_request (exec f)) D Hc) as [H1 H2] end;
      unfold f_exec; by rewrite H2.
  - apply follows_log, follows_wrap, follows_request.
  - by intros D Hc.
  - apply follows_ret.
  - apply follows_ret.
Qed.

(** *** Invariants *)

Lemma query_tables {A} (q : Tables -> res A) D : dr_tables (f_query q D).2 = dr_tables D.
Proof. unfold f_query, request. by destruct (outcome _). Qed.

Lemma f_days_tables config now cs D : dr_tables (f_days_cutoff config now cs D).2 = dr_tables D.
Proof.
  unfold f_days_cutoff. destruct (0 <? MaxRetainDays config); [|done].
  match goal with |- context [f_query ?q D] => pose proof (query_tables q D) as H; destruct (f_query q D) as [[raw|e|] D'] end;
    cbn in H; [done| |done]. by destruct (bool_decide _).
Qed.

Lemma f_cutoff_tables config now D : dr_tables (f_computeCutoffHeight config now D).2 = dr_tables D.
Proof.
  unfold f_computeCutoffHeight. destruct (0 <? MaxRetainBlocks config); [|apply f_days_tables].
  pose proof (query_tables GetLatestHeight D) as H. destruct (f_query GetLatestHeight D) as [[latest|e|] D'];
    cbn in H; rewrite <-H; [apply f_days_tables|by destruct (bool_decide _)|done].
Qed.

Lemma f_StoreRoundData_wf now clock h r rd :
  is_int32 r -> types_int32 rd -> preserves (on_tables store_wf) (f_StoreRoundData now clock h r rd).
Proof.
  intros Hr Ht. apply preserves_f_tx, preserves_seq.
  - apply preserves_wrap, preserves_f_exec. intros d d' Hd He. eapply UpsertRound_wf; eauto.
  - apply preserves_for. intros [[a t] b] Hin%round_votes_elem. apply preserves_log, preserves_f_exec.
    intros d d' Hd He. eapply UpsertVote_wf; [exact Hr|by eapply Ht|exact Hd|exact He].
Qed.

Lemma f_StoreValidators_wf now h vs : preserves (on_tables store_wf) (f_StoreValidators now h vs).
Proof.
  apply preserves_f_tx, preserves_seq.
  - apply preserves_wrap, preserves_f_exec. eauto with schema.
  - apply preserves_for. intros v _. apply preserves_bind; [apply preserves_lift|]. intros [cv key].
    apply preserves_log, preserves_seq; apply preserves_f_exec; eauto with schema.
Qed.

Lemma f_StoreCometBFTEvents_wf clock evs : preserves (on_tables store_wf) (f_StoreCometBFTEvents clock evs).
Proof.
  apply preserves_for. intros [h r p|[x|]|h r s|] _; unfold f_store_event.
  - apply preserves_seq; apply preserves_log.
    + apply preserves_wrap, preserves_f_exec. eauto with schema.
    + apply preserves_seq; apply preserves_wrap, preserves_f_exec; intros d d' Hd [= <-];
        [by apply clear_flags_wf|by apply set_flag_wf].
  - apply preserves_log, preserves_wrap, preserves_f_exec. eauto with schema.
  - by intros D HD.
  - apply preserves_ret.
  - apply preserves_ret.
Qed.

Lemma shrink_wf d d' :
  integrity d' -> (forall k r, t_rounds d' !! k = Some r -> t_rounds d !! k = Some r) ->
  (forall k r, t_votes d' !! k = Some r -> t_votes d !! k = Some r) -> store_wf d -> store_wf d'.
Proof. intros Hi Hr Hv [_ H1 H2]. split; [done| |]; eauto. Qed.

Lemma deletions_wf c : preserves (on_tables store_wf) (deletions c).
Proof.
  unfold deletions. repeat apply preserves_seq; apply preserves_wrap, preserves_f_exec; intros d d' Hd He;
    (eapply shrink_wf; [|..|exact Hd]);
    try (eapply delete_children_integrity; [apply (wf_integrity _ Hd)|]; eauto; fail);
    try (eapply DeleteHeightsOlderThan_integrity; [apply (wf_integrity _ Hd)|done]);
    try (unfold DeleteHeightsOlderThan, checked in He; case_match; [|done]);
    injection He as <-; intros k r; cbn; try done; by intros [? _]%map_lookup_filter_Some.
Qed.

Lemma f_CleanupOldData_wf config now : preserves (on_tables store_wf) (f_CleanupOldData config now).
Proof.
  intros D HD. unfold f_CleanupOldData, db_bind. pose proof (f_cutoff_tables config now D) as Ht.
  destruct (f_computeCutoffHeight config now D) as [[c|e|] D']; cbn in Ht |- *; rewrite <-Ht in HD; [|done..].
  destruct (c <=? 0); [exact HD|by apply deletions_wf].
Qed.

(** *** Which statements of [StoreRoundData] run *)

Lemma f_store_votes clock h r l D :
  db_for (f_store_vote clock h r) l D =
  (Ok tt, mkDriver (drop (length l) (dr_script D)) (foldl (put_vote clock h r) (dr_tables D) (undisturbed (dr_script D) l))).
Proof.
  revert D. induction l as [|[[a t] b] l IH]; intros [script d]; cbn [db_for]; [by rewrite drop_0|].
  unfold db_seq, db_bind, f_store_vote, db_log, f_exec, request. cbn [dr_script dr_tables undisturbed length].
  rewrite <-drop_tail. destruct (outcome script); [by rewrite IH|].
  cbn [foldl]. unfold put_vote at 2, exec. cbn [fst snd].
  destruct (UpsertVote d h r a t _) eqn:E; rewrite ?IH; try done.
  unfold UpsertVote, checked in E. by destruct (_ && _).
Qed.

(** The rounds [LoadRoundDataMap] reports. *)
Lemma f_load_rounds_eq d rounds m script :
  f_load_rounds m rounds (mkDriver script d) =
  (Ok (foldl (load_round d) m (undisturbed script rounds)), mkDriver (drop (length rounds) script) d).
Proof.
  revert m script. induction rounds as [|p rounds IH]; intros m script; cbn [f_load_rounds undisturbed length];
    [by rewrite drop_0|]. rewrite <-drop_tail.
  unfold db_bind, f_load_round, f_query, request. cbn [dr_script dr_tables].
  destruct (outcome script); rewrite IH; reflexivity.
Qed.

(** *** Cleanup, statement by statement *)

(** [database/sql] keeps [sql.ErrNoRows] for a query that found no row. *)
Definition honest (script : list (option string)) : Prop := Some ErrNoRows ∉ script.

Lemma query_honest {A} (q : Tables -> res A) D a D' : f_query q D = (Ok a, D') ->
  q (dr_tables D) = Ok a /\ dr_tables D' = dr_tables D /\ dr_script D' = tail (dr_script D).
Proof. unfold f_query, request. destruct (outcome _); [done|]. by intros [= <- <-]. Qed.

Lemma query_error {A} (q : Tables -> res A) D e D' :
  honest (dr_script D) -> f_query q D = (Err e, D') -> e = ErrNoRows -> q (dr_tables D) = Err e.
Proof.
  intros Hh. unfold f_query, request. destruct (outcome _) as [e'|] eqn:Eo; [|by intros [= <- <-]].
  intros [= -> <-] ->. unfold honest, outcome in *. destruct (dr_script D) as [|[o|] script]; [done| |done].
  cbn in Eo. injection Eo as ->. set_solver.
Qed.

Lemma honest_tail script : honest script -> honest (tail script).
Proof. unfold honest. destruct script; set_solver. Qed.

(** Whatever failed, a cutoff that was computed is the right one. *)
Lemma f_cutoff_honest config now D c D' :
  honest (dr_script D) -> f_computeCutoffHeight config now D = (Ok c, D') ->
  computeCutoffHeight config now (dr_tables D) = Ok c.
Proof.
  intros Hh. rewrite cutoff_eq. unfold f_computeCutoffHeight. cbv zeta.
  assert (Hdays : forall cs D, honest (dr_script D) -> f_days_cutoff config now cs D = (Ok c, D') ->
    largest (cs ++ if 0 <? MaxRetainDays config
      then days_cutoff (GetMinHeightAfterTime (dr_tables D) (time_Add now (- (MaxRetainDays config * Day)))) else []) = c).
  { intros cs D0 H0. unfold f_days_cutoff. destruct (0 <? MaxRetainDays config); [|rewrite app_nil_r; by intros [= -> _]].
    match goal with |- context [f_query ?q D0] => destruct (f_query q D0) as [[raw|e|] D1] eqn:Eq end; [| |done].
    - apply query_honest in Eq as ([= ->] & _ & _). by intros [= -> _].
    - case_bool_decide as He; [|done]. by pose proof (query_error _ _ _ _ H0 Eq He). }
  destruct (0 <? MaxRetainBlocks config); [|intros Hd; f_equal; by eapply (Hdays [])].
  destruct (f_query GetLatestHeight D) as [[latest|e|] D1] eqn:Eq; [| |done].
  - apply query_honest in Eq as (-> & Ht & Hs). intros Hd. f_equal. rewrite <-Ht.
    apply (Hdays [_] D1); [|exact Hd]. rewrite Hs. by apply honest_tail.
  - case_bool_decide as He; [|done]. rewrite (query_error _ _ _ _ Hh Eq He). intros [= <- _].
    by rewrite bool_decide_eq_true_2.
Qed.

Lemma seq_ok {St} (m k : Op St unit) d d' :
  db_seq m k d = (Ok tt, d') -> exists d1, m d = (Ok tt, d1) /\ k d1 = (Ok tt, d').
Proof. unfold db_seq, db_bind. destruct (m d) as [[[]| |] d1]; [eauto|done..]. Qed.

Lemma statement_ok ctx f D D' : db_wrap ctx (f_exec f) D = (Ok tt, D') -> f (dr_tables D) = Ok (dr_tables D').
Proof.
  unfold db_wrap, f_exec, request. destruct (outcome _); [done|]. unfold exec.
  destruct (f (dr_tables D)); [|done..]. by intros [= <-].
Qed.

(** Deletions that went through pruned everything below the cutoff. *)
Lemma deletions_ok c D D' : deletions c D = (Ok tt, D') -> dr_tables D' = prune c (dr_tables D).
Proof.
  unfold deletions.
  intros (D1 & H1%statement_ok & (D2 & H2%statement_ok & (D3 & H3%statement_ok & (D4 & H4%statement_ok & H5%statement_ok)%seq_ok)%seq_ok)%seq_ok)%seq_ok.
  injection H1 as H1. injection H2 as H2. injection H3 as H3. injection H4 as H4.
  unfold DeleteHeightsOlderThan, checked in H5. destruct (negb _); [|done]. injection H5 as <-.
  rewrite <-H4, <-H3, <-H2, <-H1. reflexivity.
Qed.

(** What is still to be pruned comes to the same. *)
Definition pending (c : Z) (d d1 : Tables) : Prop := t_heights d1 = t_heights d /\ prune c d1 = prune c d.

Lemma filter_twice {A} (f : A -> Z) c c' (l : list A) : c' <= c ->
  filter (fun x => c <= f x) (filter (fun x => c' <= f x) l) = filter (fun x => c <= f x) l.
Proof. intros Hc. rewrite list_filter_filter. apply list_filter_iff. intros x. lia. Qed.

Lemma map_filter_twice {K} `{Countable K} {V} (f : K -> Z) c c' (m : gmap K V) : c' <= c ->
  filter (fun p => c <= f p.1) (filter (fun p => c' <= f p.1) m) = filter (fun p => c <= f p.1) m.
Proof. intros Hc. rewrite map_filter_filter. apply map_filter_ext. intros k x _. cbn. lia. Qed.

(** A deletion at an earlier cutoff leaves as much to prune. *)
Lemma deletion_pending c c' d0 : c' <= c ->
  preserves (on_tables (pending c d0)) (f_exec (fun d => DeleteConsensusEventsOlderThan d c')) /\
  preserves (on_tables (pending c d0)) (f_exec (fun d => DeleteVotesOlderThan d c')) /\
  preserves (on_tables (pending c d0)) (f_exec (fun d => DeleteValidatorSnapshotsOlderThan d c')) /\
  preserves (on_tables (pending c d0)) (f_exec (fun d => DeleteRoundsOlderThan d c')).
Proof.
  intros Hc. split_and!; apply preserves_f_exec; intros d d' [Hh Hp] [= <-]; split; [exact Hh| |exact Hh| |exact Hh| |exact Hh|];
    rewrite <-Hp; unfold prune; cbn; f_equal.
  - by apply (filter_twice ev_Height).
  - by apply (map_filter_twice (fun k => k.1.1.1)).
  - by apply (map_filter_twice fst).
  - by apply (map_filter_twice fst).
Qed.

Lemma deletions_pending c c' D e D' : c' <= c -> deletions c' D = (Err e, D') -> pending c (dr_tables D) (dr_tables D').
Proof.
  intros Hc. destruct (deletion_pending c c' (dr_tables D) Hc) as (He & Hv & Hs & Hr).
  unfold deletions, db_seq, db_bind.
  assert (H0 : on_tables (pending c (dr_tables D)) D) by done. revert H0. generalize D at 2 3 as D0. intros D0 H0.
  repeat match goal with
  | Hp : preserves _ ?m |- context [db_wrap ?ctx ?m ?X] =>
      let Hn := fresh in
      pose proof (preserves_wrap _ ctx m Hp X ltac:(eassumption)) as Hn; clear Hp;
      destruct (db_wrap ctx m X) as [[[]|e1|] ?D1]; [cbn in Hn|intros [= _ <-]; exact Hn|done]
  end.
  rewrite db_wrap_eq. unfold f_exec, request, exec, DeleteHeightsOlderThan, checked.
  destruct (outcome _); cbn; [by intros [= _ <-]|]. destruct (negb _); cbn; [done|]. by intros [= _ <-].
Qed.

Lemma cutoff_heights config now d d' :
  t_heights d' = t_heights d -> computeCutoffHeight config now d' = computeCutoffHeight config now d.
Proof. intros Hh. unfold computeCutoffHeight, GetMinHeightAfterTime, GetLatestHeight. by rewrite Hh. Qed.

(** A cleanup that failed, at a time whose cutoff is no later than [c]. *)
Inductive failed_cleanup (config : Config) (c : Z) (d : Tables) : Tables -> Prop :=
  | failed_at now script e D' :
      (forall c', computeCutoffHeight config now d = Ok c' -> c' <= c) -> honest script ->
      f_CleanupOldData config now (mkDriver script d) = (Err e, D') -> failed_cleanup config c d (dr_tables D').

Lemma failed_pending config c d d1 : failed_cleanup config c d d1 -> pending c d d1.
Proof.
  intros [now script e D' Hc Hh Hf]. revert Hf. unfold f_CleanupOldData, db_bind.
  pose proof (f_cutoff_tables config now (mkDriver script d)) as Ht. cbn in Ht.
  destruct (f_computeCutoffHeight config now (mkDriver script d)) as [[c'|e'|] D1] eqn:Ec; cbn in Ht; [| |done].
  - apply f_cutoff_honest, Hc in Ec; [|done]. destruct (c' <=? 0); [done|]. rewrite <-Ht. by apply deletions_pending.
  - intros [= _ <-]. by rewrite Ht.
Qed.

Lemma failed_many config c d d1 : rtc (failed_cleanup config c) d d1 -> pending c d d1.
Proof.
  induction 1 as [d|d d2 d1 H%failed_pending _ [IH1 IH2]]; [done|]. destruct H as [H1 H2].
  split; congruence.
Qed.

(** With the block window alone the clock does not matter. *)
Lemma cutoff_blocks config now now' d :
  MaxRetainDays config <= 0 -> computeCutoffHeight config now' d = computeCutoffHeight config now d.
Proof. intros Hd. unfold computeCutoffHeight. by rewrite (proj2 (Z.ltb_ge _ _) Hd). Qed.
End FaultFacts.

#[export] Instance faulty_laws `{BL : ButilsLaws} `{CL : CometLaws} (config : Config) :
  StorerLaws (ST := faulty_storer config) Driver (on_tables store_wf).
Proof.
  split; cbn; intros.
  - by apply f_StoreRoundData_wf.
  - by apply f_StoreValidators_wf.
  - by apply f_StoreCometBFTEvents_wf.
  - by apply f_CleanupOldData_wf.
Qed.

(** ** The application over a calm database is the one over [Store] *)

Section CalmApp.
Context `{BL : ButilsLaws} `{CL : CometLaws} (config : Config).
#[local] Instance with_failures : ConsensusStorer Driver := faulty_storer config.
#[local] Instance without_failures : ConsensusStorer Tables := db_storer config.

Definition undriven (a : App Driver) : App Tables :=
  mkApp (a_State a) (dr_tables (a_Store a)) (a_Builder a) (a_IsPaused a) (a_draws a).

Lemma follows_log_store m m0 D D' : follows m m0 -> calm D ->
  log_store (m D) = Ok D' -> calm D' /\ log_store (m0 (dr_tables D)) = Ok (dr_tables D').
Proof.
  intros Hm Hc. destruct (Hm D Hc) as [Hc' E]. unfold log_store. rewrite <-E.
  destruct (m D) as [[[]| |] D1]; cbn in *; try done; by intros [= <-].
Qed.

Lemma calm_persist clk l D D' : calm D ->
  yield_all (persist_round clk) (Ok D) l = Ok D' ->
  calm D' /\ yield_all (persist_round clk) (Ok (dr_tables D)) l = Ok (dr_tables D').
Proof.
  revert D. induction l as [|p l IH]; intros D Hc; cbn -[log_store]; [by intros [= <-]|].
  destruct (log_store _) as [D1| |] eqn:E; [|by destruct l..].
  apply follows_log_store with (m0 := StoreRoundData (clk_round clk p.1) (clk_vote clk) (hr_Height p.1) (hr_Round p.1) p.2)
    in E as [Hc1 ->]; [|apply follows_round|done]. by apply IH.
Qed.

Lemma calm_on_consensus clk c vals a a' : calm (a_Store a) -> on_consensus clk c vals a = Ok a' ->
  calm (a_Store a') /\ on_consensus clk c vals (undriven a) = Ok (undriven a').
Proof.
  intros Hc. unfold on_consensus. cbn -[log_store Iter].
  destruct (log_store (f_StoreValidators _ _ _ _)) as [D1| |] eqn:E1; [|done..].
  apply (follows_log_store _ (StoreValidators (clk_validators clk) (rs_Height c) vals)) in E1 as [Hc1 ->];
    [|apply follows_validators|done].
  cbn -[log_store Iter]. unfold Iter. destruct (yield_all _ _ _) as [D2| |] eqn:E2; [|done..].
  apply calm_persist in E2 as [Hc2 ->]; [|done]. by intros [= <-].
Qed.

Lemma calm_refresh clk f a a' : calm (a_Store a) -> RefreshConsensus clk f a = Ok a' ->
  calm (a_Store a') /\ RefreshConsensus clk f (undriven a) = Ok (undriven a').
Proof.
  intros Hc. unfold RefreshConsensus. cbn [undriven a_IsPaused]. destruct (a_IsPaused a); [by intros [= <-]|].
  destruct (fetch_ConsensusState f) as [[c|]|e|], (fetch_Validators f) as [vals|e'|]; cbn -[on_consensus];
    try done; try (intros [= <-]; done).
  destruct (on_consensus clk c vals _) as [a1| |] eqn:E; [|done..].
  apply calm_on_consensus in E as [Hc1 E]; [|done]. intros [= <-]. split; [done|].
  change (on_consensus clk c vals (with_State (SetConsensusStateError None) (with_State (SetTMValidators vals) (undriven a))))
    with (on_consensus clk c vals (undriven (with_State (SetConsensusStateError None) (with_State (SetTMValidators vals) a)))).
  by rewrite E.
Qed.

Lemma calm_cleanup now a a' : calm (a_Store a) -> cleanup now a = Ok a' ->
  calm (a_Store a') /\ cleanup now (undriven a) = Ok (undriven a').
Proof.
  intros Hc. unfold cleanup. cbn -[log_store CleanupOldData f_CleanupOldData]. destruct (log_store _) as [D1| |] eqn:E; [|done..].
  apply (follows_log_store _ (CleanupOldData config now)) in E as [Hc1 ->]; [|apply follows_cleanup|done].
  by intros [= <-].
Qed.

Lemma calm_events clock events a a' : calm (a_Store a) -> on_events clock events a = Ok a' ->
  calm (a_Store a') /\ on_events clock events (undriven a) = Ok (undriven a').
Proof.
  intros Hc. unfold on_events. cbn [undriven a_State]. destruct (AddCometBFTEvents _ _) as [s| |]; cbn -[log_store StoreCometBFTEvents f_StoreCometBFTEvents]; [|done..].
  destruct events as [|p events]; cbn -[log_store StoreCometBFTEvents f_StoreCometBFTEvents]; [by intros [= <-]|].
  destruct (log_store _) as [D1| |] eqn:E; [|done..].
  apply (follows_log_store _ (StoreCometBFTEvents clock (p.1 :: (fst <$> events)))) in E as [Hc1 ->]; [|apply follows_events|done].
  by intros [= <-].
Qed.

(** A handler that leaves the store alone. *)
Tactic Notation "storeless" uconstr(handler) uconstr(step) :=
  match goal with He : _ = Ok ?a' |- calm (a_Store ?a') /\ quiet_step (undriven ?a) _ =>
    let H := fresh in
    assert (H : calm (a_Store a') /\ handler (undriven a) = Ok (undriven a'));
    [unfold RefreshCometNodeInfo, RefreshUpgrade, RefreshBlockTime, RefreshMempool, RefreshNetInfo, RefreshHealthMetrics in *;
     cbn in *; repeat case_match; by simplify_eq
    |destruct H; split; [done|by apply step]]
  end.

Lemma calm_quiet_step a a' : calm (a_Store a) -> quiet_step a a' ->
  calm (a_Store a') /\ quiet_step (undriven a) (undriven a').
Proof.
  intros Hc Hq. destruct Hq as [clk f a a' Ht He|f a a' He|h f a a' He|f a a' He|f a a' He|f a a' He|env a a' He|now a a' He|a|f url a|url a].
  - apply calm_refresh in He as [H He]; [|done]. split; [done|]. by apply (as_consensus clk f).
  - storeless (RefreshCometNodeInfo f) (as_node_info f).
  - storeless (RefreshUpgrade h f) (as_upgrade h f).
  - storeless (RefreshBlockTime f) (as_block_time f).
  - storeless (RefreshMempool f) (as_mempool f).
  - storeless (RefreshNetInfo f) (as_net_info f).
  - revert He. unfold RefreshHealthMetrics. destruct (a_IsPaused a) eqn:Ep.
    { intros [= <-]. split; [done|]. apply (as_health env). unfold RefreshHealthMetrics. cbn. by rewrite Ep. }
    destruct (Build _ _ _ _ _ _) as [[b [nh rows]]| |] eqn:Eb; cbn; [|done..]. intros [= <-]. split; [done|].
    apply (as_health env). unfold RefreshHealthMetrics. cbn -[Build]. by rewrite Ep, Eb.
  - apply calm_cleanup in He as [H He]; [|done]. split; [done|]. by apply (as_cleanup now).
  - split; [done|]. apply (as_pause (undriven a)).
  - split; [done|]. by apply (as_probe f url (undriven a)).
  - split; [done|]. apply (as_select url (undriven a)).
Qed.

Lemma calm_step a a' : calm (a_Store a) -> app_step a a' -> calm (a_Store a') /\ app_step (undriven a) (undriven a').
Proof.
  intros Hc Hs. destruct Hs as [a a' Hq|clock events a a' Ht He].
  - apply calm_quiet_step in Hq as [H1 H2]; [|done]. split; [done|by apply as_quiet].
  - apply calm_events in He as [H1 H2]; [|done]. split; [done|by apply (as_events clock events)].
Qed.
End CalmApp.

(** ** Properties *)

Lemma request_eq {A} (m : DbOp A) script d :
  request m (mkDriver script d) =
  match outcome script with
  | Some e => (Err e, mkDriver (tail script) d)
  | None => ((m d).1, mkDriver (tail script) (m d).2)
  end.
Proof. unfold request. cbn. by destruct (m d). Qed.

Lemma tail_drop {A} n (l : list A) : tail (drop n l) = drop (S n) l.
Proof. revert l. induction n as [|n IH]; intros [|x l]; try done. apply (IH l). Qed.

Lemma undisturbed_fmap {A A'} (f : A -> A') script l : undisturbed script (f <$> l) = f <$> undisturbed script l.
Proof. revert script. induction l as [|x l IH]; intros script; [done|]. cbn. destruct (outcome script); cbn; by rewrite <-IH. Qed.

(** A transaction, branch by branch. *)
Lemma f_WithTx_eq fn script d :
  f_WithTx fn (mkDriver script d) =
  match outcome script with
  | Some e => (Err ("beginning tx: " +:+ e), mkDriver (tail script) d)
  | None =>
      match fn (mkDriver (tail script) d) with
      | (Ok tt, D) =>
          match outcome (dr_script D) with
          | Some e => (Err ("committing tx: " +:+ e), mkDriver (tail (dr_script D)) d)
          | None => (Ok tt, mkDriver (tail (dr_script D)) (dr_tables D))
          end
      | (Err e, D) => (Err ("running tx body: " +:+ e), mkDriver (dr_script D) d)
      | (Panic, D) => (Panic, mkDriver (dr_script D) d)
      end
  end.
Proof.
  unfold f_WithTx, db_seq, db_bind. rewrite db_wrap_eq, request_eq.
  destruct (outcome script); [done|]. cbn [db_ret fst snd wrap_err]. rewrite db_wrap_eq.
  destruct (fn _) as [[[]|e|] [script' d']]; cbn [fst snd wrap_err]; [|done..].
  rewrite db_wrap_eq, request_eq. cbn. by destruct (outcome script').
Qed.

Section FaultProperties.
Context `{BL : ButilsLaws} `{CL : CometLaws}.

#[export] Instance honest_dec script : Decision (honest script).
Proof. unfold honest. apply _. Defined.

(** The tables after the transaction of [StoreRoundData] whose votes had these
    outcomes. *)
Definition round_stored (now : Z) (clock : string -> Z -> Z) (h r : Z) (rd : RoundData)
    (votes : list (option string)) (d : Tables) : Tables :=
  foldl (put_vote clock h r)
    (set_rounds d (<[(h, r) := mkRoundRow None (Some now) (head (set_range (Proposers rd)))]> (t_rounds d)))
    (undisturbed votes (round_votes rd)).

(** C14: What [StoreRoundData] leaves behind whatever the database refuses. It reports
    the first of: a refused [BeginTx], a refused round, an unknown height or
    proposer, a refused [Commit]; then the database is as it was. A refused vote is
    not reported: the call succeeds and, besides the round, exactly the votes of
    known validators whose own statement was accepted are written, each other slot
    keeps its row. *)
Theorem StoreRoundData_under_failures now clock h r rd script d :
  let n := length (round_votes rd) in
  let stored := round_stored now clock h r rd (drop 2 script) d in
  f_StoreRoundData now clock h r rd (mkDriver script d) =
    match outcome script, outcome (drop 1 script) with
    | Some e, _ => (Err ("beginning tx: " +:+ e), mkDriver (drop 1 script) d)
    | None, Some e => (Err ("running tx body: failed to store round: " +:+ e), mkDriver (drop 2 script) d)
    | None, None =>
        if storable d h rd then
          match outcome (drop (2 + n) script) with
          | Some e => (Err ("committing tx: " +:+ e), mkDriver (drop (3 + n) script) d)
          | None => (Ok tt, mkDriver (drop (3 + n) script) stored)
          end
        else (Err ("running tx body: failed to store round: " +:+ fk_error), mkDriver (drop 2 script) d)
    end /\
  (storable d h rd = true -> forall h' r' a t, t_votes stored !! (h', r', a, t) =
    if bool_decide (h = h' /\ r = r') && has_validator d a then
      match list_find (fun v => v.1 = (a, t)) (undisturbed (drop 2 script) (round_votes rd)) with
      | Some (_, v) => Some (vote_row (clock a t) v.2)
      | None => t_votes d !! (h', r', a, t)
      end
    else t_votes d !! (h', r', a, t)).
Proof.
  cbv zeta. split.
  - unfold f_StoreRoundData. rewrite f_WithTx_eq, <-!drop_tail, !drop_0. destruct (outcome script) as [e|]; [done|].
    unfold db_seq at 1, db_bind. rewrite db_wrap_eq. unfold f_exec. rewrite request_eq.
    destruct (outcome (tail script)) as [e|]; [done|]. unfold exec, UpsertRound, checked, storable.
    cbn [rd_ProposerAddress]. destruct (_ && _); [|done]. cbn [fst snd wrap_err].
    rewrite f_store_votes. cbn [dr_script dr_tables].
    unfold round_stored. rewrite !tail_drop, !drop_tail. reflexivity.
  - intros Hst h' r' a t. unfold round_stored. rewrite put_votes_lookup; [done| |].
    + unfold storable in Hst. by apply andb_true_iff in Hst as [Hst _].
    + rewrite <-undisturbed_fmap. eapply sublist_NoDup; [apply (round_votes_nodup rd)|apply undisturbed_sublist].
Qed.

(** C13: A cleanup cut short loses nothing and blocks nothing. However many cleanups
    failed, each at any of its seven requests, as long as none aimed above the
    cutoff [c], the next one that succeeds, whatever its own cutoff was computed
    over, leaves exactly what a single undisturbed cleanup would have left; and on a
    database that accepts everything it does succeed. *)
Theorem cleanup_resumes config now c d d1
    (Hfailed : rtc (failed_cleanup config c) d d1)
    (Hc : computeCutoffHeight config now d = Ok c) (Hpos : 0 < c) :
  (forall script D', honest script -> f_CleanupOldData config now (mkDriver script d1) = (Ok tt, D') ->
    dr_tables D' = prune c d) /\
  (f_CleanupOldData config now (mkDriver [] d1)).1 = Ok tt /\ (CleanupOldData config now d).2 = prune c d.
Proof.
  apply failed_many in Hfailed as [Hh Hp].
  assert (Hc1 : computeCutoffHeight config now d1 = Ok c) by (by rewrite (cutoff_heights config now d d1 Hh)).
  split_and!.
  - intros script D' Hhon. unfold f_CleanupOldData, db_bind.
    pose proof (f_cutoff_tables config now (mkDriver script d1)) as Ht.
    destruct (f_computeCutoffHeight config now (mkDriver script d1)) as [[c1|e|] D1] eqn:Ec; [|done..].
    apply f_cutoff_honest in Ec; [|done]. cbn in Ec, Ht. assert (c1 = c) as -> by congruence.
    destruct (Z.leb_spec c 0); [lia|]. intros Hd%deletions_ok. by rewrite Hd, Ht.
  - destruct (follows_cleanup config now (mkDriver [] d1)) as [_ E]; [constructor|].
    cbn [dr_tables] in E. rewrite (CleanupOldData_prunes _ _ _ c Hc1) in E. by injection E.
  - rewrite (CleanupOldData_prunes _ _ _ c Hc). cbn. by destruct (Z.leb_spec c 0); [lia|].
Qed.

(** The two UPDATEs of [updateProposerInSnapshots] are not in a transaction: when
    the second is refused the height is left without a proposer, and
    [StoreCometBFTEvents] reports success. *)
Theorem proposer_lost clock h r p o e script d :
  let D' := f_StoreCometBFTEvents clock [EventDataNewRound h r p] (mkDriver (o :: None :: Some e :: script) d) in
  D'.1 = Ok tt /\
  forall a row, t_snapshots (dr_tables D'.2) !! (h, a) = Some row -> sn_IsProposer row = Some false.
Proof.
  assert (Hev : exists d1, db_log (f_StoreConsensusEvent (clock (EventDataNewRound h r p)) h r "new_round"
    (Some [("proposer", HexBytes_String p)])) (mkDriver (o :: None :: Some e :: script) d) =
    (Ok tt, mkDriver (None :: Some e :: script) d1)).
  { unfold db_log, f_StoreConsensusEvent. rewrite db_wrap_eq. unfold f_exec. rewrite request_eq.
    destruct o as [e'|]; cbn; [eauto|]. unfold exec, CreateConsensusEvent, checked. destruct (has_height _ _); cbn; eauto. }
  destruct Hev as [d1 Hev]. cbv zeta. unfold f_StoreCometBFTEvents. cbn [db_for f_store_event].
  unfold db_seq, db_bind. rewrite !Hev.
  unfold db_log, f_updateProposerInSnapshots, db_seq, db_bind, db_wrap, f_exec, request, exec.
  cbn -[map_imap alter flag HexBytes_String]. split; [done|].
  intros a row. rewrite map_lookup_imap. destruct (t_snapshots d1 !! (h, a)); cbn; [|done].
  rewrite Z.eqb_refl. by intros [= <-].
Qed.

Section Run.
Context (config : Config).
#[local] Instance failing : ConsensusStorer Driver := faulty_storer config.

(** C10: The store heals itself: whatever the database refused in a run so far, the
    first consensus refresh once it accepts requests again, if it is not paused and
    its two requests are answered, leaves every round in memory whose height and
    proposer the database knows loadable with the state the memory has of every vote
    cast by a validator the database knows (a block other than the zero block having
    a hash), rounds and votes whose writes were refused before included. *)
Theorem refresh_heals host now script d0 builder a a' clk f c vals from to h r rd x t b
    (Hd0 : store_wf d0) (Hrun : rtc (app_step (T := Driver)) (NewApp host now (mkDriver script d0) builder) a)
    (Hcalm : calm (a_Store a)) (Hpause : a_IsPaused a = false) (Hty : fetcher_typed f)
    (Hc : fetch_ConsensusState f = Ok (Some c)) (Hvals : fetch_Validators f = Ok vals)
    (Hrefresh : RefreshConsensus clk f a = Ok a')
    (Hrd : lookup_round (VotesByRound (a_State a')) h r = Some rd) (Hrange : from <= h <= to)
    (Hst : storable (dr_tables (a_Store a')) h rd = true) (Hx : has_validator (dr_tables (a_Store a')) x = true)
    (Hb : rd_vote rd x t = Some b) (Hhash : BlockID_IsZero b = false -> bid_Hash b <> "") :
  Rounds.GetVote (LoadRoundDataMap (dr_tables (a_Store a')) from to) h r x t = Rounds.GetVote (VotesByRound (a_State a')) h r x t.
Proof.
  assert (Hok : app_ok (I := on_tables store_wf) a).
  { revert Hrun. apply rtc_invariant; [|by apply NewApp_ok]. intros y z Hy Hyz. by eapply app_step_ok. }
  apply (calm_refresh config) in Hrefresh as [_ Hrefresh]; [|done].
  exact (refresh_loads config (undriven a) (undriven a') clk f c vals from to h r rd x t b
    Hok Hpause Hty Hc Hvals Hrefresh Hrd Hrange Hst Hx Hb Hhash).
Qed.

(** However the handlers' accesses interleave and whatever the database refuses, it
    stays well formed: every reference resolves and every stored round and vote type
    fits its 32 bits.  A call of the store is one access here, and its statements run
    on a connection that checks foreign keys; see [Pool] for those that do not. *)
Theorem failing_store_safe host now script d0 builder s (Hd0 : store_wf d0)
    (Hrun : rtc (sys_step task_typed) (at_rest (NewApp host now (mkDriver script d0) builder)) s) :
  store_wf (dr_tables (a_Store (y_app s))).
Proof. by destruct (reachable_sys_ok (I := on_tables store_wf) host now (mkDriver script d0) builder s Hd0 Hrun) as [[_ H] _ _ _ _]. Qed.

(** A run over a database that accepts everything is a run over [Store]. *)
Lemma calm_run host now script d0 builder a
    (Hs : Forall (eq None) script) (Hrun : rtc (app_step (T := Driver)) (NewApp host now (mkDriver script d0) builder) a) :
  rtc (app_step (ST := db_storer config) (T := Tables)) (NewApp host now d0 builder) (undriven a).
Proof.
  assert (H : calm (a_Store a) /\ rtc (app_step (ST := db_storer config) (T := Tables)) (NewApp host now d0 builder) (undriven a)); [|apply H].
  revert Hrun. apply (rtc_ind_r (fun a => calm (a_Store a) /\ rtc _ _ (undriven a))); [by split|].
  intros y z _ Hyz [Hcy IH]. apply (calm_step config) in Hyz as [H1 H2]; [|done]. split; [done|]. by eapply rtc_r.
Qed.
End Run.
End FaultProperties.

(** ** Witnesses *)

Section FaultWitnesses.
#[local] Instance demo_failing : ConsensusStorer Driver := faulty_storer demo_config.
#[local] Instance demo_plain : ConsensusStorer Tables := db_storer demo_config.

(** The vote's statement is refused: the call succeeds, the round is there, the
    vote is not. *)
Lemma StoreRoundData_under_failures_witness :
  exists D', f_StoreRoundData (B := ref_butils) (C := ref_comet) 200 (fun _ _ => 201) 5 0 w_round
    (mkDriver [None; None; Some "database is locked"] (w_fill [5])) = (Ok tt, D') /\
  is_Some (t_rounds (dr_tables D') !! (5, 0)) /\ t_votes (dr_tables D') !! (5, 0, "78", 2) = None.
Proof.
  destruct (StoreRoundData_under_failures (B := ref_butils) (C := ref_comet) 200 (fun _ _ => 201) 5 0 w_round
    [None; None; Some "database is locked"] (w_fill [5])) as [E H].
  eexists. split; [exact E|]. split; [vm_compute; eauto|]. cbn [dr_tables]. rewrite H by reflexivity. reflexivity.
Defined.

(** The second deletion was refused: the next cleanup finishes the work. *)
Lemma cleanup_resumes_witness :
  exists d1, failed_cleanup w_config 3 (w_fill [1; 2; 3; 4; 5]) d1 /\ t_heights d1 = t_heights (w_fill [1; 2; 3; 4; 5]) /\
  forall D', f_CleanupOldData w_config 400 (mkDriver [] d1) = (Ok tt, D') -> dr_tables D' = prune 3 (w_fill [1; 2; 3; 4; 5]).
Proof.
  assert (Hf : exists D', f_CleanupOldData w_config 300 (mkDriver [None; None; Some "disk I/O error"] (w_fill [1; 2; 3; 4; 5])) =
    (Err "failed to delete old votes: disk I/O error", D')) by (eexists; vm_compute; reflexivity).
  destruct Hf as [D' Hf].
  assert (Hfc : failed_cleanup w_config 3 (w_fill [1; 2; 3; 4; 5]) (dr_tables D')).
  { eapply failed_at; [|exact (bool_decide_unpack (honest [None; None; Some "disk I/O error"]) I)|exact Hf].
    intros c'. vm_compute. intros [= <-]. discriminate. }
  exists (dr_tables D'). split; [exact Hfc|]. split; [exact (proj1 (failed_pending _ _ _ _ Hfc))|].
  intros D2 H2. refine (proj1 (cleanup_resumes w_config 400 3 (w_fill [1; 2; 3; 4; 5]) (dr_tables D')
    (rtc_once _ _ Hfc) _ _) [] D2 _ H2); [vm_compute; reflexivity|lia|exact (bool_decide_unpack (honest []) I)].
Defined.

Definition demo_driver : Driver := mkDriver (replicate 2 (Some "database is locked")) (empty_tables false).
Definition faulty_demo : App Driver := NewApp "http://node" 0 demo_driver (NewBuilder None None 100).
Definition faulty_seen : App Driver := match on_events (fun _ => 3) [demo_event] faulty_demo with Ok a => a | _ => faulty_demo end.
(** The first refresh has its height refused, and with it the round; the second is undisturbed. *)
Definition faulty_once : App Driver := match RefreshConsensus demo_clk demo_fetcher faulty_seen with Ok a => a | _ => faulty_demo end.
Definition faulty_twice : App Driver := match RefreshConsensus demo_clk demo_fetcher faulty_once with Ok a => a | _ => faulty_demo end.

Lemma faulty_run : rtc (app_step (T := Driver)) faulty_demo faulty_once.
Proof.
  eapply rtc_l; [apply (as_events (fun _ => 3) [demo_event] faulty_demo faulty_seen)|].
  - constructor; [|done]. cbn. unfold PrevoteType. split; go_lia.
  - vm_compute. reflexivity.
  - apply rtc_once, as_quiet. eapply (as_consensus demo_clk demo_fetcher); [intros c [= <-]; cbn; go_lia|]. vm_compute. reflexivity.
Qed.

Lemma faulty_round : exists rd, lookup_round (VotesByRound (a_State faulty_twice)) 7 0 = Some rd /\
  rd_vote rd (HexBytes_String "A") PrevoteType = Some (mkBlockID "H" (mkPSH 1 "P")) /\
  storable (dr_tables (a_Store faulty_twice)) 7 rd = true.
Proof. vm_compute. eexists. split_and!; reflexivity. Qed.

Lemma refresh_heals_witness :
  t_votes (dr_tables (a_Store faulty_once)) = ∅ /\
  Rounds.GetVote (LoadRoundDataMap (dr_tables (a_Store faulty_twice)) 0 10) 7 0 (HexBytes_String "A") PrevoteType = VoteStateForBlock.
Proof.
  split; [vm_compute; reflexivity|]. destruct faulty_round as (rd & Hrd & Hvote & Hst).
  refine (eq_trans (refresh_heals demo_config "http://node" 0 (replicate 2 (Some "database is locked")) (empty_tables false)
    (NewBuilder None None 100) faulty_once faulty_twice demo_clk demo_fetcher (mkRoundState 7 0 1 0 (Some "A")) demo_vals 0 10 7 0 rd
    (HexBytes_String "A") PrevoteType (mkBlockID "H" (mkPSH 1 "P"))
    (empty_wf false) faulty_run _ _ _ _ _ _ Hrd _ Hst _ Hvote _) _).
  - vm_compute. repeat constructor.
  - vm_compute. reflexivity.
  - intros c [= <-]. cbn. go_lia.
  - reflexivity.
  - reflexivity.
  - vm_compute. reflexivity.
  - lia.
  - vm_compute. reflexivity.
  - discriminate.
  - vm_compute. reflexivity.
Defined.
End FaultWitnesses.
