(* ===== verification/Unseen.v ===== *)
(** * What the database cannot change on screen ([pkg/app.go], [pkg/db])

    The handlers log what the store returns and go on.  Two applications with
    different stores whose goroutines interleave in the same way therefore keep the
    same state, metrics builder, pause flag and redraws, whatever each store does:
    refuses requests, loses rows, or stores nothing at all.  The answers of the
    history queries, which [Build] asks, are a parameter of the builder and the same
    for both. *)

From S2P Require Import Prelude GoNum GoText Deps Rounds Types MetricTypes State Decentralization Equivocation Asn Timing Analytics Health Builder Schema Store CometRPC Cosmos Fetcher Crawler App Interleave Faults.
Local Open Scope Z_scope.

(** Everything but the store. *)
Definition visible `{B : Butils} `{C : Comet} {T} (a : App T) : State * Builder * bool * nat :=
  (a_State a, a_Builder a, a_IsPaused a, a_draws a).

Section TwoStores.
Context `{B : Butils} `{C : Comet} {T1 T2 : Type} `{ST1 : !ConsensusStorer T1} `{ST2 : !ConsensusStorer T2}.

(** The same accesses, but for what the calls of the store do. *)
Inductive same : prog (T := T1) -> prog (T := T2) -> Prop :=
  | same_done : same Done Done
  | same_crash : same Crash Crash
  | same_paused k1 k2 : (forall b, same (k1 b) (k2 b)) -> same (Paused k1) (Paused k2)
  | same_toggle k1 k2 : same k1 k2 -> same (Toggle k1) (Toggle k2)
  | same_get k1 k2 : (forall s, same (k1 s) (k2 s)) -> same (Get k1) (Get k2)
  | same_put set k1 k2 : same k1 k2 -> same (Put set k1) (Put set k2)
  | same_record op k1 k2 : same k1 k2 -> same (RecordOp op k1) (RecordOp op k2)
  | same_range body1 body2 k1 k2 : same k1 k2 -> same (Range body1 k1) (Range body2 k2)
  | same_ranging body1 body2 l k1 k2 : same k1 k2 -> same (Ranging body1 l k1) (Ranging body2 l k2)
  | same_store op1 op2 k1 k2 : same k1 k2 -> same (OnStore op1 k1) (OnStore op2 k2)
  | same_builder f k1 k2 : (forall x, same (k1 x) (k2 x)) -> same (OnBuilder f k1) (OnBuilder f k2)
  | same_redraw k1 k2 : same k1 k2 -> same (Redraw k1) (Redraw k2).

Create HintDb same.
#[local] Hint Constructors same : same.

Lemma same_add_events events k1 k2 : same k1 k2 -> same (p_add_events events k1) (p_add_events events k2).
Proof.
  intros Hk. induction events as [|e events IH]; cbn; [done|]. destruct (nil_vote e); [constructor|].
  destruct (event_op e); by auto with same.
Qed.

Lemma same_actions acts : forall lo, same (p_actions lo acts) (p_actions lo acts).
Proof. induction acts as [|[] acts IH]; intros lo; cbn; auto with same. Qed.

Lemma same_task t : same (task_prog t) (task_prog t).
Proof.
  destruct t as [clk f|f|h f|f|f|f|env|clock events|now| |f url|url]; cbn [task_prog];
    try (constructor; intros [|]; [by constructor|]); auto with same.
  - unfold p_seed. repeat case_match; simplify_eq; auto 10 with same.
  - constructor. intros s. destruct (fetch_CometNodeStatus f _); auto with same.
  - destruct (0 <? h); [auto with same|]. destruct (fetch_UpgradePlan f); auto with same.
  - destruct (fetch_BlockTime f); auto with same.
  - destruct (fetch_NumUnconfirmedTxs f) as [[]| |]; auto with same.
  - constructor. intros s. destruct (fetch_NetInfo f _); auto with same.
  - repeat (constructor; intros ?). destruct x as [[nh rows]|]; auto with same.
  - apply same_add_events. constructor. intros _. destruct events; auto with same.
  - by do 2 constructor.
  - destruct (fetch_actions f url); [apply same_actions|constructor..].
Qed.

Lemma same_advance p1 p2 a1 a2 n : same p1 p2 -> visible a1 = visible a2 ->
  match advance p1 a1 n, advance p2 a2 n with
  | Some (p1', a1', n1), Some (p2', a2', n2) =>
      p1' = Crash \/ p2' = Crash \/ (same p1' p2' /\ visible a1' = visible a2' /\ n1 = n2)
  | None, None => True
  | _, _ => False
  end.
Proof.
  unfold visible. intros Hp Hv. injection Hv as Hs Hb Hpa Hd.
  destruct Hp as [| |k1 k2 H|k1 k2 H|k1 k2 H|set k1 k2 H|op k1 k2 H|b1 b2 k1 k2 H|b1 b2 [|x l] k1 k2 H|o1 o2 k1 k2 H|f k1 k2 H|k1 k2 H]; cbn.
  - done.
  - done.
  - right. right. rewrite Hpa. split_and!; [apply H|congruence|done].
  - right. right. split_and!; [done|unfold toggle_pause; cbn; congruence|done].
  - right. right. rewrite Hs. split_and!; [apply H|congruence|done].
  - right. right. split_and!; [done|cbn; congruence|done].
  - destruct n; [|done]. right. right. split_and!; [done|cbn; congruence|done].
  - right. right. rewrite Hs. split_and!; [by constructor|congruence|done].
  - right. right. split_and!; [done|congruence|done].
  - destruct (log_store (b1 x _)); [|destruct (log_store (b2 x _)); by left..].
    destruct (log_store (b2 x _)); [|by right; left..]. right. right. split_and!; [by constructor|cbn; congruence|done].
  - destruct (log_store (o1 _)); [|destruct (log_store (o2 _)); by left..].
    destruct (log_store (o2 _)); [|by right; left..]. right. right. split_and!; [done|cbn; congruence|done].
  - rewrite <-Hb. destruct (f (a_Builder a1)) as [[b x]| |]; [|by left..]. right. right. split_and!; [apply H|cbn; congruence|done].
  - right. right. split_and!; [done|unfold draw; cbn; congruence|done].
Qed.

(** *** Two systems *)

Definition unharmed {T} (s : sys (T := T)) : Prop := Forall (fun p => p <> Crash) (y_threads s).

Definition alike (s1 : sys (T := T1)) (s2 : sys (T := T2)) : Prop :=
  visible (y_app s1) = visible (y_app s2) /\ y_readers s1 = y_readers s2 /\ Forall2 same (y_threads s1) (y_threads s2).
End TwoStores.

Section Unseen.
Context `{B : Butils} `{C : Comet}.

(** A crashed goroutine stays crashed. *)
Lemma play_harmed {T} `{ST : !ConsensusStorer T} m (s s' : sys (T := T)) : play m s = Some s' -> unharmed s' -> unharmed s.
Proof.
  destruct m as [t|i]; cbn; [intros [= <-] H; by apply Forall_app in H as [H _]|].
  intros (p & Hi & ([[p' a'] n'] & Ha & [= <-])%bind_Some)%bind_Some H. unfold unharmed in H. cbn [y_threads] in H. apply Forall_lookup. intros j q Hj ->.
  destruct (decide (i = j)) as [<-|Hne].
  - assert (p = Crash) as -> by congruence. done.
  - refine (Forall_lookup_1 _ _ j Crash H _ eq_refl). by rewrite list_lookup_insert_ne.
Qed.

Lemma plays_harmed {T} `{ST : !ConsensusStorer T} ms (s s' : sys (T := T)) : plays ms s = Some s' -> unharmed s' -> unharmed s.
Proof.
  revert s. induction ms as [|m ms IH]; intros s; cbn; [by intros [= ->]|].
  intros (s1 & E & H)%bind_Some Hu. eapply play_harmed; [exact E|]. by apply (IH s1).
Qed.

Context {T1 T2 : Type} `{ST1 : !ConsensusStorer T1} `{ST2 : !ConsensusStorer T2}.

Lemma alike_play m (s1 s1' : sys (T := T1)) (s2 s2' : sys (T := T2)) :
  alike s1 s2 -> play m s1 = Some s1' -> play m s2 = Some s2' -> unharmed s1' -> unharmed s2' -> alike s1' s2'.
Proof.
  intros (Hv & Hn & Ht). destruct m as [t|i]; cbn.
  - intros [= <-] [= <-] _ _. split_and!; [done|done|]. apply Forall2_app; [done|]. constructor; [apply same_task|done].
  - intros (p1 & Hi1 & ([[p1' a1'] n1'] & Ha1 & [= <-])%bind_Some)%bind_Some
           (p2 & Hi2 & ([[p2' a2'] n2'] & Ha2 & [= <-])%bind_Some)%bind_Some Hu1 Hu2.
    pose proof (Forall2_lookup_lr _ _ _ _ _ _ Ht Hi1 Hi2) as Hp.
    pose proof (same_advance p1 p2 _ _ (y_readers s1) Hp Hv) as H. rewrite Ha1, Hn, Ha2 in H.
    assert (Hc1 : p1' <> Crash).
    { refine (Forall_lookup_1 _ _ i p1' Hu1 _). cbn. apply list_lookup_insert_eq. by eapply lookup_lt_Some. }
    assert (Hc2 : p2' <> Crash).
    { refine (Forall_lookup_1 _ _ i p2' Hu2 _). cbn. apply list_lookup_insert_eq. by eapply lookup_lt_Some. }
    destruct H as [H|[H|(H1 & H2 & H3)]]; [done|done|]. split_and!; [done|done|]. by apply Forall2_insert.
Qed.

(** Nothing the database does shows. Two applications that look alike, over any two
    stores, whose goroutines are started and make their accesses in the same order,
    still look alike afterwards: the same state, metrics builder, pause flag and
    number of redraws, as long as no goroutine has panicked in either. *)
Theorem store_never_seen ms (a1 : App T1) (a2 : App T2) s1 s2
    (Hv : visible a1 = visible a2) (H1 : plays ms (at_rest a1) = Some s1) (H2 : plays ms (at_rest a2) = Some s2)
    (Hu1 : unharmed s1) (Hu2 : unharmed s2) :
  visible (y_app s1) = visible (y_app s2).
Proof.
  assert (H0 : alike (at_rest a1) (at_rest a2)) by (split_and!; [done|done|constructor]).
  revert H0 H1 H2. generalize (at_rest a1) as x1, (at_rest a2) as x2.
  induction ms as [|m ms IH]; intros x1 x2 H0; cbn [plays]; [intros [= ->] [= ->]; apply H0|].
  intros (y1 & E1 & P1)%bind_Some (y2 & E2 & P2)%bind_Some. apply (IH y1 y2); [|done|done].
  eapply alike_play; [exact H0|exact E1|exact E2|by eapply plays_harmed|by eapply plays_harmed].
Qed.
End Unseen.

(** ** A refresh over a database that refuses everything, and over none *)

Section UnseenExamples.
#[local] Instance refusing : ConsensusStorer Driver := faulty_storer demo_config.

Definition refused_app : App Driver :=
  NewApp "http://node" 0 (mkDriver (replicate 40 (Some "database is locked")) (empty_tables false)) (NewBuilder None None 100).
Definition storeless_app : App unit := NewApp "http://node" 0 tt (NewBuilder None None 100).

Definition unseen_moves : list turn :=
  [Begin (TEvents (fun _ => 3) [demo_event]); Begin (TConsensus demo_clk demo_fetcher)] ++
  replicate 4 (Access 1) ++ replicate 5 (Access 0) ++ replicate 6 (Access 1).

Definition unseen_end {T} `{ST : !ConsensusStorer T} (a : App T) : sys (T := T) := default (at_rest a) (plays unseen_moves (at_rest a)).

Definition all_done {T} `{ST : !ConsensusStorer T} (s : sys (T := T)) : bool :=
  forallb (fun p => match p with Done => true | _ => false end) (y_threads s).

Lemma all_done_unharmed {T} `{ST : !ConsensusStorer T} (s : sys (T := T)) : all_done s = true -> unharmed s.
Proof.
  intros H. apply Forall_forall. intros p Hp ->. unfold all_done in H. rewrite forallb_forall in H.
  by apply list_elem_of_In, H in Hp.
Qed.

Lemma unseen_plays {T} `{ST : !ConsensusStorer T} (a : App T) :
  match plays unseen_moves (at_rest a) with Some _ => true | None => false end = true ->
  plays unseen_moves (at_rest a) = Some (unseen_end a).
Proof. unfold unseen_end. by destruct (plays unseen_moves (at_rest a)). Qed.

(** Every request is refused; the vote and the height of the refresh are shown all the same. *)
Lemma store_never_seen_witness :
  t_heights (dr_tables (a_Store (y_app (unseen_end refused_app)))) = ∅ /\
  (GetConsensusHeight (a_State (y_app (unseen_end refused_app)))).1.1.1 = 7 /\
  visible (y_app (unseen_end refused_app)) = visible (y_app (unseen_end storeless_app)).
Proof.
  split; [vm_compute; reflexivity|]. split; [vm_compute; reflexivity|].
  apply (store_never_seen unseen_moves refused_app storeless_app).
  - reflexivity.
  - apply unseen_plays. vm_compute. reflexivity.
  - apply unseen_plays. vm_compute. reflexivity.
  - apply all_done_unharmed. vm_compute. reflexivity.
  - apply all_done_unharmed. vm_compute. reflexivity.
Defined.
End UnseenExamples.
