(* ===== verification/Content.v ===== *)
(** * What the terminal library reads of a table ([pkg/display/*_table.go])

    Each table is a [tview.TableContent]: the library asks it for its row and column
    counts and then for cells.  The tables' locks are [NoopLocker]s and do nothing:
    what keeps a call whole is that the library draws, answers keys and runs the
    updates [SetState] queues on one goroutine.  The facts about a pass of calls ask
    for less: the grid may be replaced between any two of them. *)

From S2P Require Import Prelude GoNum GoText Deps Rounds Types MetricTypes State Equivocation Asn Timing Health Utils Tables Panels Wrapper.
Local Open Scope Z_scope.

(** ** The interface *)

(** A nil cell is [None]. *)
Class TableContent (D : Type) := {
  tc_GetCell : D -> Z -> Z -> res (option Cell);
  tc_GetRowCount : D -> Z;
  tc_GetColumnCount : D -> Z }.

(** [cells[i]] *)
Definition at_index {A} (l : list A) (i : Z) : res A :=
  if i <? 0 then Panic else match l !! Z.to_nat i with Some x => Ok x | None => Panic end.

(** The three methods over a grid: the upper bounds are checked before indexing. *)
Definition grid_GetCell (cells : grid) (row column : Z) : res (option Cell) :=
  if Z.of_nat (length cells) <=? row then Ok None
  else
    r ← at_index cells row;
    if Z.of_nat (length r) <=? column then Ok None
    else c ← at_index r column; Ok (Some c).
Definition grid_GetRowCount (cells : grid) : Z := Z.of_nat (length cells).
Definition grid_GetColumnCount (cells : grid) : Z :=
  match cells with [] => 0 | r :: _ => Z.of_nat (length r) end.

#[export] Instance AllRounds_content : TableContent AllRoundsTableData := {
  tc_GetCell d := grid_GetCell (ar_cells d);
  tc_GetRowCount d := grid_GetRowCount (ar_cells d);
  tc_GetColumnCount d := grid_GetColumnCount (ar_cells d) }.
#[export] Instance LastRound_content : TableContent LastRoundTableData := {
  tc_GetCell d := grid_GetCell (lr_cells d);
  tc_GetRowCount d := grid_GetRowCount (lr_cells d);
  tc_GetColumnCount d := grid_GetColumnCount (lr_cells d) }.
#[export] Instance NetInfo_content : TableContent NetInfoTableData := {
  tc_GetCell d := grid_GetCell (nt_cells d);
  tc_GetRowCount d := grid_GetRowCount (nt_cells d);
  tc_GetColumnCount d := grid_GetColumnCount (nt_cells d) }.
#[export] Instance RPCs_content : TableContent RPCsTableData := {
  tc_GetCell d := grid_GetCell (rt_cells d);
  tc_GetRowCount d := grid_GetRowCount (rt_cells d);
  tc_GetColumnCount d := grid_GetColumnCount (rt_cells d) }.
#[export] Instance ValidatorHealth_content : TableContent ValidatorHealthTableData := {
  tc_GetCell d := grid_GetCell (ht_cells d);
  tc_GetRowCount d := grid_GetRowCount (ht_cells d);
  tc_GetColumnCount d := grid_GetColumnCount (ht_cells d) }.

(** [HandleKey] of the all-rounds table: no key is its own. *)
Definition ar_HandleKey (event : KeyEvent) : bool := false.

(** What a table owes to the library. *)
Class ContentLaws (D : Type) `{TC : !TableContent D} : Prop := {
  cl_counts : forall d, 0 <= tc_GetRowCount d /\ 0 <= tc_GetColumnCount d;
  cl_total : forall d row column, 0 <= row -> 0 <= column -> exists c, tc_GetCell d row column = Ok c;
  cl_outside : forall d row column, tc_GetRowCount d <= row -> tc_GetCell d row column = Ok None }.

Lemma at_index_ok {A} (l : list A) i : 0 <= i < Z.of_nat (length l) -> exists x, at_index l i = Ok x /\ l !! Z.to_nat i = Some x.
Proof.
  intros Hi. unfold at_index. rewrite (proj2 (Z.ltb_ge _ _)) by lia.
  destruct (lookup_lt_is_Some_2 l (Z.to_nat i)) as [x Hx]; [lia|]. rewrite Hx. eauto.
Qed.

(** At the natural indices of [Tables] the methods are those of [Tables]. *)
Lemma grid_GetCell_at cells row column : 0 <= row -> 0 <= column ->
  grid_GetCell cells row column = Ok (GetCell cells (Z.to_nat row) (Z.to_nat column)).
Proof.
  intros Hr Hc. unfold grid_GetCell, GetCell. destruct (Z.leb_spec (Z.of_nat (length cells)) row).
  { by rewrite (lookup_ge_None_2 cells) by lia. }
  destruct (at_index_ok cells row) as (r & -> & ->); [lia|]. cbn [mbind res_bind].
  destruct (Z.leb_spec (Z.of_nat (length r)) column); [by rewrite (lookup_ge_None_2 r) by lia|].
  by destruct (at_index_ok r column) as (c & -> & ->); [lia|].
Qed.

Lemma grid_total cells row column : 0 <= row -> 0 <= column -> exists c, grid_GetCell cells row column = Ok c.
Proof. intros Hr Hc. rewrite grid_GetCell_at by done. eauto. Qed.

Lemma grid_outside cells row column : grid_GetRowCount cells <= row -> grid_GetCell cells row column = Ok None.
Proof. unfold grid_GetRowCount, grid_GetCell. intros H. by rewrite (proj2 (Z.leb_le _ _) H). Qed.

Lemma grid_counts cells : 0 <= grid_GetRowCount cells /\ 0 <= grid_GetColumnCount cells.
Proof. unfold grid_GetRowCount, grid_GetColumnCount. destruct cells; lia. Qed.

#[export] Instance AllRounds_laws : ContentLaws AllRoundsTableData.
Proof. split; cbn; auto using grid_counts, grid_total, grid_outside. Qed.
#[export] Instance LastRound_laws : ContentLaws LastRoundTableData.
Proof. split; cbn; auto using grid_counts, grid_total, grid_outside. Qed.
#[export] Instance NetInfo_laws : ContentLaws NetInfoTableData.
Proof. split; cbn; auto using grid_counts, grid_total, grid_outside. Qed.
#[export] Instance RPCs_laws : ContentLaws RPCsTableData.
Proof. split; cbn; auto using grid_counts, grid_total, grid_outside. Qed.
#[export] Instance ValidatorHealth_laws : ContentLaws ValidatorHealthTableData.
Proof. split; cbn; auto using grid_counts, grid_total, grid_outside. Qed.

(** ** A pass of the terminal library over a table *)

Section Pass.
Context {D : Type} `{CL : ContentLaws D}.

(** [reads k] is the table as the [k]-th call finds it. *)
Definition draw_pass (reads : nat -> D) : list (res (option Cell)) :=
  let rows := tc_GetRowCount (reads 0%nat) in
  let columns := tc_GetColumnCount (reads 1%nat) in
  imap (fun k p => tc_GetCell (reads (2 + k)%nat) p.1 p.2)
    (row ← seqZ 0 rows; (fun column => (row, column)) <$> seqZ 0 columns).

(** A grid that answers every position between its counts. *)
Definition complete (d : D) : Prop :=
  forall row column, 0 <= row < tc_GetRowCount d -> 0 <= column < tc_GetColumnCount d ->
    exists cell, tc_GetCell d row column = Ok (Some cell).

Lemma pass_elem reads x : x ∈ draw_pass reads -> exists k row column,
  0 <= row < tc_GetRowCount (reads 0%nat) /\ 0 <= column < tc_GetColumnCount (reads 1%nat) /\
  x = tc_GetCell (reads k) row column.
Proof.
  unfold draw_pass. intros Hx. apply list_elem_of_lookup in Hx as [k Hk]. rewrite list_lookup_imap in Hk.
  destruct (_ !! k) as [[row column]|] eqn:E; [|done]. cbn in Hk. injection Hk as <-.
  apply list_elem_of_lookup_2, list_elem_of_bind in E as (r & E & Hr). apply list_elem_of_fmap in E as (c & [= -> ->] & Hc).
  apply elem_of_seqZ in Hr, Hc. exists (2 + k)%nat, r, c. split_and!; try lia. done.
Qed.

Lemma pass_no_panic reads : Panic ∉ draw_pass reads.
Proof.
  intros (k & row & column & Hr & Hc & E)%pass_elem.
  destruct (cl_total (reads k) row column) as [c Ec]; [lia..|]. congruence.
Qed.

Lemma pass_complete d x : complete d -> x ∈ draw_pass (fun _ => d) -> exists cell, x = Ok (Some cell).
Proof. intros Hd (k & row & column & Hr & Hc & ->)%pass_elem. by apply Hd. Qed.
End Pass.

(** ** Rectangles *)

(** Every row has as many cells as the first. *)
Definition rect (cells : grid) : Prop := exists n, Forall (fun r => length r = n) cells.

Lemma rect_complete cells : rect cells -> forall row column,
  0 <= row < grid_GetRowCount cells -> 0 <= column < grid_GetColumnCount cells ->
  exists cell, grid_GetCell cells row column = Ok (Some cell).
Proof.
  intros [n Hn] row column. unfold grid_GetRowCount, grid_GetColumnCount, grid_GetCell. intros Hr Hc.
  rewrite (proj2 (Z.leb_gt _ _)) by lia.
  destruct (at_index_ok cells row) as (r & -> & Hl); [lia|]. cbn [mbind res_bind]. rewrite Forall_forall in Hn.
  assert (length r = n) by (eapply Hn, list_elem_of_lookup_2, Hl).
  assert (match cells with [] => 0 | r :: _ => Z.of_nat (length r) end = Z.of_nat n).
  { destruct cells as [|r0 cells]; [done|]. f_equal. apply Hn. set_solver. }
  rewrite (proj2 (Z.leb_gt _ _)) by lia.
  destruct (at_index_ok r column) as (c & -> & _); [lia|]. eauto.
Qed.

Lemma mapM_res_inv {A A'} (f : A -> res A') l k : mapM f l = Ok k ->
  length k = length l /\ forall y, y ∈ k -> exists x, x ∈ l /\ f x = Ok y.
Proof.
  revert k. induction l as [|x l IH]; intros k; cbn.
  { intros [= <-]. split; [done|]. set_solver. }
  destruct (f x) as [y| |] eqn:E; cbn; [|done..]. destruct (mapM f l) as [k'| |]; cbn; [|done..]. intros [= <-].
  destruct (IH k' eq_refl) as [Hl Hk]. split; [cbn; by rewrite Hl|]. intros z [->|Hz]%elem_of_cons; [set_solver|].
  destruct (Hk z Hz) as (x' & Hx & Ex). set_solver.
Qed.

Section Rectangles.
Context `{BL : ButilsLaws} `{C : Comet}.

Lemma last_round_rect d live cells : last_round_makeCells d live = Ok cells -> rect cells.
Proof.
  unfold last_round_makeCells. destruct (lr_Error d).
  { intros [= <-]. exists 1%nat. repeat constructor. }
  destruct (lr_Columns d) as [|n] eqn:En; [intros [= <-]; by exists 0%nat|].
  intros [_ Hc]%mapM_res_inv. exists (S n). apply Forall_forall. intros r Hr.
  destruct (Hc r Hr) as (row & _ & [Hl _]%mapM_res_inv). by rewrite Hl, length_seq.
Qed.

Lemma redraw_rect live d d' : redrawData live d = Ok d' -> rect (lr_cells d').
Proof.
  unfold redrawData. destruct (last_round_makeCells d live) as [cells| |] eqn:E; [|done..]. intros [= <-].
  by eapply last_round_rect.
Qed.

Lemma Forall_imap_all {A A'} (P : A' -> Prop) (f : nat -> A -> A') l : (forall i x, P (f i x)) -> Forall P (imap f l).
Proof. intros H. revert f H. induction l as [|x l IH]; intros f H; constructor; [apply H|]. apply IH. intros i y. apply H. Qed.

(** The all-rounds table is a rectangle as long as one map is read. *)
Lemma all_rounds_rect d live cells : createCells d live = Ok cells -> rect cells.
Proof.
  unfold createCells, createCells_reads. destruct (ar_Validators d) as [|v vals] eqn:Ev; [intros [= <-]; by exists 0%nat|].
  rewrite <-Ev. destruct (ar_RoundData d); [|done]. intros [= <-].
  exists (2 + length (reverse_iter_list live))%nat. constructor.
  - cbn [length]. by rewrite !length_fmap.
  - apply Forall_imap_all. intros i x. unfold validator_row. cbn [length]. by rewrite length_fmap.
Qed.

Lemma Update_rect live d d' : Update live d = Ok d' -> rect (ar_cells d').
Proof.
  unfold Update. destruct (createCells d live) as [cells| |] eqn:E; [|done..]. intros [= <-]. by eapply all_rounds_rect.
Qed.

Lemma rpcs_rect rpcs : rect (rpcs_cells rpcs).
Proof. exists 2%nat. apply Forall_fmap, Forall_true. done. Qed.

Lemma net_info_rect sort ni : rect (net_info_makeCells sort ni).
Proof.
  destruct ni as [ni|]; [|by exists 0%nat]. exists 12%nat. do 2 (constructor; [done|]).
  apply Forall_fmap, Forall_true. intros p. unfold compose, peer_row. by destruct (peer_Protocol p) as [[a b] c].
Qed.

Lemma SetRows_rect rows d d' : SetRows rows d = Ok d' -> rect (ht_cells d').
Proof.
  unfold SetRows. destruct (health_table_rectangular (ht_disableEmojis d) rows) as (cells & -> & _ & H).
  intros [= <-]. by exists 12%nat.
Qed.
End Rectangles.

(** ** In every run of the interface *)

Section Run.
Context `{BL : ButilsLaws} `{C : Comet} `{VL : TviewLaws}.
Context (SerializeTime : Z -> string) (fmt_v : gofloat -> string).
Context (sort : (Peer -> Peer -> Z) -> list Peer -> list Peer).
Implicit Types (env : UIEnv) (w : Wrapper).

Record grids_ok w : Prop := {
  go_last : rect (lr_cells (LastRoundData w));
  go_all : rect (ar_cells (AllRoundsData w));
  go_net : rect (nt_cells (NetInfoData w));
  go_health : rect (ht_cells (ValidatorHealthData w));
  go_rpcs : rect (rt_cells (RPCsData w)) }.

Definition keeps_grids (f : Wrapper -> res Wrapper) : Prop := forall w w', grids_ok w -> f w = Ok w' -> grids_ok w'.

Lemma grids_ret f : (forall w, grids_ok w -> grids_ok (f w)) -> keeps_grids (fun w => Ok (f w)).
Proof. intros Hf w w' Hw [= <-]. by apply Hf. Qed.

Lemma grids_bind f h : keeps_grids f -> keeps_grids h -> keeps_grids (fun w => f w ≫= h).
Proof. intros Hf Hh w w'' Hw (w' & H1 & H2)%bind_Ok_inv. by eapply Hh; [eapply Hf|]. Qed.

Lemma grids_when b f : keeps_grids f -> keeps_grids (when b f).
Proof. intros Hf w w' Hw. destruct b; cbn; [by apply Hf|]. by intros [= <-]. Qed.

(** A new last-round table, redrawn. *)
Lemma grids_last d w f : grids_ok w -> rect (lr_cells d) ->
  LastRoundData (f w) = d -> ar_cells (AllRoundsData (f w)) = ar_cells (AllRoundsData w) ->
  NetInfoData (f w) = NetInfoData w -> ValidatorHealthData (f w) = ValidatorHealthData w -> RPCsData (f w) = RPCsData w ->
  grids_ok (f w).
Proof. intros [] Hd E1 E2 E3 E4 E5. split; [by rewrite E1|by rewrite E2|by rewrite E3|by rewrite E4|by rewrite E5]. Qed.

Lemma grids_columns env n : keeps_grids (set_columns env n).
Proof.
  intros w w' Hw (d & Hd & [= <-])%bind_Ok_inv. apply redraw_rect in Hd.
  by apply (grids_last d w (fun w => with_LastRound d (with_Columns n w))).
Qed.

Lemma grids_fit env : keeps_grids (fit_columns env).
Proof. intros w w' Hw. unfold fit_columns. destruct (0 <? _); [by apply grids_columns|by intros [= <-]]. Qed.

Lemma grids_transpose env : keeps_grids (toggle_transpose env).
Proof.
  intros w w' Hw (d & Hd & [= <-])%bind_Ok_inv. apply redraw_rect in Hd.
  by apply (grids_last d w (fun w => with_flags (ColumnsCount w) (negb (w_Transpose w)) (w_paused w) (w_Stopped w) (w_AfterDraw w)
    (with_LastRound d (with_AllRounds (ar_SetTranspose (negb (w_Transpose w)) (AllRoundsData w)) w)))).
Qed.

Lemma grids_mode env : keeps_grids (ChangeMode env).
Proof.
  intros w w' Hw. unfold ChangeMode. cbv zeta. set (w1 := Redraw _ _).
  assert (H1 : grids_ok w1) by (by destruct Hw). destruct (w_Mode _); try (by intros [= <-]). by apply grids_fit.
Qed.

Lemma grids_key env ev : keeps_grids (on_key env ev).
Proof.
  intros w w' Hw. unfold on_key. destruct (_ || _); [intros [= <-]; by destruct Hw|].
  revert w w' Hw. repeat (apply (grids_bind _ _); [apply grids_when|]).
  all: try (apply grids_ret; intros w Hw; by destruct Hw).
  - intros w w' Hw (w1 & H1 & [= <-])%bind_Ok_inv. apply grids_columns in H1; [|done]. by destruct H1.
  - intros w w' Hw (w1 & H1 & [= <-])%bind_Ok_inv. apply grids_columns in H1; [|done]. by destruct H1.
  - apply grids_transpose.
  - apply grids_when, grids_mode.
Qed.

Lemma grids_tables s : keeps_grids (state_tables sort s).
Proof.
  intros w w' Hw. unfold state_tables. destruct (GetConsensusHeight s) as [[[height round] st] start].
  intros (d1 & _ & H)%bind_Ok_inv. apply bind_Ok_inv in H as (d2 & _ & H). apply bind_Ok_inv in H as (d3 & Hd3 & H).
  apply bind_Ok_inv in H as (a & Ha & H). apply bind_Ok_inv in H as (h & Hh & [= <-]).
  split; cbn; [by eapply redraw_rect|by eapply Update_rect|apply net_info_rect| |apply rpcs_rect].
  destruct (GetValidatorHealth s) as [[|rows]|]; [|by eapply SetRows_rect|]; injection Hh as <-; apply Hw.
Qed.

Lemma grids_step w w' : grids_ok w -> ui_step SerializeTime fmt_v sort w w' -> grids_ok w'.
Proof.
  intros Hw Hs. destruct Hs as [env ev w w' H|env row w|env w w' H|env w w' H|text w|w].
  - by eapply grids_key.
  - by destruct Hw.
  - revert H. unfold after_draw. destruct (w_AfterDraw w); [|by intros [= <-]].
    intros (w1 & H1 & [= <-])%bind_Ok_inv. apply grids_fit in H1; [|done]. by destruct H1.
  - apply SetState_inv in H as (w1 & t & H1 & _ & ->). apply grids_tables in H1; [|done]. by destruct H1.
  - by destruct Hw.
  - by destruct Hw.
Qed.

(** C31: What the terminal library sees of the tables. In every run of the interface
    each of the five tables is complete: it has a cell at every position between
    its counts, so a pass over one state of a table draws no nil cell; and whatever
    states of a table the single calls of a pass see, none of them panics. *)
Theorem tables_drawable env e p w (Hrun : ui_run SerializeTime fmt_v sort (Start env (NewWrapper e p)) w) :
  (complete (LastRoundData w) /\ complete (AllRoundsData w) /\ complete (NetInfoData w) /\
   complete (ValidatorHealthData w) /\ complete (RPCsData w)) /\
  (forall reads, Panic ∉ draw_pass (D := LastRoundTableData) reads) /\
  (forall reads, Panic ∉ draw_pass (D := AllRoundsTableData) reads) /\
  (forall reads, Panic ∉ draw_pass (D := NetInfoTableData) reads) /\
  (forall reads, Panic ∉ draw_pass (D := ValidatorHealthTableData) reads) /\
  (forall reads, Panic ∉ draw_pass (D := RPCsTableData) reads).
Proof.
  assert (Hg : grids_ok w).
  { revert Hrun. apply (rtc_invariant _ grids_ok); [intros a b Ha Hab; by eapply grids_step|].
    split; cbn; by exists 0%nat. }
  destruct Hg as [H1 H2 H3 H4 H5]. split; [|split_and!; intros reads; apply pass_no_panic].
  split_and!; intros row column Hr Hc; by apply rect_complete.
Qed.
End Run.

(** ** A pass over the tables of a run *)

Section ContentExamples.
Lemma tables_drawable_witness :
  complete (LastRoundData demo_turned) /\
  draw_pass (D := LastRoundTableData) (fun k => if (k <? 2)%nat then demo_table true else NewLastRoundTableData 2 true true) =
    replicate 6 (Ok None).
Proof.
  split; [|vm_compute; reflexivity].
  exact (proj1 (proj1 (tables_drawable demo_time demo_v demo_sort (demo_env demo_state) true false demo_turned ui_demo_run))).
Defined.
End ContentExamples.
